(** * Liquidity mining: reward engine ([syncer/rewards.py]) and payer
      ([payouts/payer.py], [contract/disperse.py])

    A shallow embedding of the reward computation of [ShareMining] and of
    the payout cycle of [Payer], and the properties of the specification
    that are settled against it. *)

From Stdlib Require Import ZArith QArith Qabs Qround Qminmax Qpower Qfield.
From Stdlib Require Import List String Bool Lia Lqa.
Import ListNotations.

Local Open Scope Z_scope.

(* ================================================================== *)
(** * Numbers *)
(* ================================================================== *)

(** Python numbers ([int], [float], [Decimal]) are represented by their
    exact rational value.  A [float] is a rational that is a binary64
    value; a [Decimal] is a rational with a finite decimal expansion.
    Comparison of two numbers ([==], [<], [<=]) is the comparison of their
    values, as in Python. *)
Module Num.

(** ** Powers of ten and two with an integer exponent *)

Definition pow10 (e : Z) : Q := Qpower (10 # 1) e.
Definition pow2 (e : Z) : Q := Qpower (2 # 1) e.

(** ** Rounding to an integer *)

(** Round half to even, the rounding of [decimal]'s default context and of
    binary64 arithmetic. *)
Definition round_half_even (q : Q) : Z :=
  let f := Qfloor q in
  let r := (q - inject_Z f)%Q in
  match Qcompare r (1 # 2) with
  | Lt => f
  | Gt => f + 1
  | Eq => if Z.even f then f else f + 1
  end.

(** Truncation towards zero ([ROUND_DOWN]). *)
Definition truncate (q : Q) : Z :=
  if Qle_bool 0 q then Qfloor q else Qceiling q.

(** ** Position of the leading digit *)

(** [ilog b fuel n] is the number of times [n] can be divided by [b]
    before it drops below [b]: floor (log_b n) for [1 <= n]. *)
Fixpoint ilog (b : Z) (fuel : nat) (n : Z) : Z :=
  match fuel with
  | O => 0
  | S fuel' => if n <? b then 0 else 1 + ilog b fuel' (n / b)
  end.

(** [iup b fuel n d] is the least [j >= 0] with [d <= n * b^j]. *)
Fixpoint iup (b : Z) (fuel : nat) (n d : Z) : Z :=
  match fuel with
  | O => 0
  | S fuel' => if d <=? n then 0 else 1 + iup b fuel' (n * b) d
  end.

(** The exponent [k] of the leading base-[b] digit of a non-zero
    rational: [b^k <= |q| < b^(k+1)]. *)
Definition leading_exp (b : Z) (q : Q) : Z :=
  let n := Z.abs (Qnum q) in
  let d := Zpos (Qden q) in
  if d <=? n
  then ilog b (S (Z.to_nat (Z.log2 n))) (n / d)
  else - iup b (S (Z.to_nat (Z.log2 d))) n d.

(** ** The decimal context *)

(** [ctx_round prec q]: [q] rounded to [prec] significant decimal digits,
    half to even; the result of every arithmetic operation on [Decimal]s
    under a context of precision [prec]. *)
Definition ctx_round (prec : Z) (q : Q) : Q :=
  if Qeq_bool q 0 then 0%Q
  else
    let e := leading_exp 10 q - (prec - 1) in
    Qred (inject_Z (round_half_even (q / pow10 e)) * pow10 e).

(** ** binary64 *)

(** The binary64 value nearest to [q] (ties to even), for [q] in the
    normal range: the value of a float literal and of the true division
    of two ints. *)
Definition float64 (q : Q) : Q :=
  if Qeq_bool q 0 then 0%Q
  else
    let e := leading_exp 2 q - 52 in
    Qred (inject_Z (round_half_even (q / pow2 e)) * pow2 e).

(** ** [repr] of a float *)

(** [str(x)] of a float [x] is the shortest decimal that reads back as
    [x] (at most 17 significant digits), the nearest to [x] first. *)
Fixpoint float_repr_aux (fuel : nat) (k : Z) (x : Q) : Q :=
  match fuel with
  | O => ctx_round 17 x
  | S fuel' =>
      let c := ctx_round k x in
      let step := pow10 (leading_exp 10 x - (k - 1)) in
      let c' := if Qle_bool c x then (c + step)%Q else (c - step)%Q in
      if Qeq_bool (float64 c) x then c
      else if Qeq_bool (float64 c') x then c'
      else float_repr_aux fuel' (k + 1) x
  end.

Definition float_repr (x : Q) : Q :=
  if Qeq_bool x 0 then 0%Q else float_repr_aux 16 1 x.

(** ** Python numbers with their type *)

(** The arguments of [Wad.from_number] are ints, floats and Decimals; the
    type decides how the number is read ([str] of a float is its [repr]). *)
Inductive number : Type :=
| Int (z : Z)
| Float (x : Q)
| Dec (d : Q).

Definition value (n : number) : Q :=
  match n with
  | Int z => inject_Z z
  | Float x => x
  | Dec d => d
  end.

Definition str_value (n : number) : Q :=
  match n with
  | Int z => inject_Z z
  | Float x => float_repr x
  | Dec d => d
  end.

(** A float literal and the true division of two numbers. *)
Definition lit (q : Q) : number := Float (float64 q).
Definition truediv (a b : number) : number := Float (float64 (value a / value b)).

End Num.


(* ================================================================== *)
(** * Exceptions, dicts and strings *)
(* ================================================================== *)

(** The Python exceptions the embedded code can raise. *)
Inductive exn : Type :=
| ZeroDivisionError
| InvalidOperation
| TypeError
| KeyError
| IndexError
| AttributeError
| UnboundLocalError
| Exception (msg : string).

Inductive result (A : Type) : Type :=
| Ok (a : A)
| Raise (e : exn).

Arguments Ok {A} a.
Arguments Raise {A} e.

Definition bind {A B : Type} (m : result A) (f : A -> result B) : result B :=
  match m with
  | Ok a => f a
  | Raise e => Raise e
  end.

Notation "'let*' x ':=' m 'in' k" := (bind m (fun x => k))
  (at level 10, x pattern, m at level 100, k at level 200).

(** A [for] loop whose body can raise. *)
Fixpoint for_each {A S : Type} (body : S -> A -> result S) (s : S) (l : list A)
  : result S :=
  match l with
  | [] => Ok s
  | x :: l' => let* s' := body s x in for_each body s' l'
  end.

Definition is_ok {A : Type} (r : result A) : bool :=
  match r with Ok _ => true | Raise _ => false end.

(** A Python [dict] with string keys: insertion-ordered, an assignment to a
    present key keeps its place. *)
Module Dict.

Definition t (V : Type) : Type := list (string * V).

Fixpoint get {V : Type} (k : string) (d : t V) : option V :=
  match d with
  | [] => None
  | (k', v) :: d' => if String.eqb k k' then Some v else get k d'
  end.

Fixpoint set {V : Type} (k : string) (v : V) (d : t V) : t V :=
  match d with
  | [] => [(k, v)]
  | (k', v') :: d' =>
      if String.eqb k k' then (k', v) :: d' else (k', v') :: set k v d'
  end.

Definition mem {V : Type} (k : string) (d : t V) : bool :=
  match get k d with Some _ => true | None => false end.

Definition keys {V : Type} (d : t V) : list string := map fst d.

Definition get_default {V : Type} (k : string) (dflt : V) (d : t V) : V :=
  match get k d with Some v => v | None => dflt end.

(** [d.get(k)] where [k] may be [None]: no key is [None]. *)
Definition get_opt {V : Type} (k : option string) (d : t V) : option V :=
  match k with Some k' => get k' d | None => None end.

End Dict.

Module Str.

Definition is_space (c : Ascii.ascii) : bool :=
  let n := Ascii.nat_of_ascii c in
  (Nat.eqb n 32 || (Nat.leb 9 n && Nat.leb n 13))%bool.

Fixpoint lstrip (s : string) : string :=
  match s with
  | String c s' => if is_space c then lstrip s' else s
  | EmptyString => EmptyString
  end.

Fixpoint rstrip (s : string) : string :=
  match s with
  | String c s' =>
      match rstrip s' with
      | EmptyString => if is_space c then EmptyString else String c EmptyString
      | r => String c r
      end
  | EmptyString => EmptyString
  end.

Definition strip (s : string) : string := rstrip (lstrip s).

Definition lower_ascii (c : Ascii.ascii) : Ascii.ascii :=
  let n := Ascii.nat_of_ascii c in
  if (Nat.leb 65 n && Nat.leb n 90)%bool then Ascii.ascii_of_nat (n + 32) else c.

Fixpoint lower (s : string) : string :=
  match s with
  | String c s' => String (lower_ascii c) (lower s')
  | EmptyString => EmptyString
  end.

End Str.

(* ================================================================== *)
(** * [decimal.Decimal] and [lib.wad.Wad] *)
(* ================================================================== *)

Module Decimal.

(** [Decimal(x)] of an int, a float or a Decimal is exact. *)
Definition of_number (n : Num.number) : Q := Num.value n.

Section Context.

(** The precision of the decimal context ([getcontext().prec], 28 unless
    it is set). *)
Variable prec : Z.

Definition add (a b : Q) : Q := Num.ctx_round prec (a + b).
Definition sub (a b : Q) : Q := Num.ctx_round prec (a - b).
Definition mul (a b : Q) : Q := Num.ctx_round prec (a * b).
(** [a / b]: a zero divisor raises [decimal.DivisionByZero] (a
    [ZeroDivisionError]), and [0 / 0] raises [decimal.InvalidOperation]. *)
Definition div (a b : Q) : result Q :=
  if Qeq_bool b 0 then
    if Qeq_bool a 0 then Raise InvalidOperation else Raise ZeroDivisionError
  else Ok (Num.ctx_round prec (a / b)).

End Context.

Definition eqb (a b : Q) : bool := Qeq_bool a b.
Definition leb (a b : Q) : bool := Qle_bool a b.
Definition ltb (a b : Q) : bool := negb (Qle_bool b a).

End Decimal.

(** Modelled from the spec: [lib.wad.Wad], the fixed-scale integer with 18
    fractional digits (section 4.1: conversion from an integer, a string or
    the string of a float; rounded down to the wire scale).  A [Wad] is its
    integer value in units of 10^-18; products and quotients are rounded
    down (towards zero); a division by zero raises. *)
Module Wad.

Definition t : Type := Z.

Definition unit : Z := 10 ^ 18.

Definition from_number (n : Num.number) : t :=
  Num.truncate (Num.str_value n * inject_Z unit).

Definition from_decimal (d : Q) : t := from_number (Num.Dec d).

Definition add (a b : t) : t := a + b.
Definition mul (a b : t) : t := Z.quot (a * b) unit.
Definition div (a b : t) : result t :=
  if b =? 0 then Raise ZeroDivisionError else Ok (Z.quot (a * unit) b).
Definition abs (a : t) : t := Z.abs a.

(** [Decimal(str(w))]. *)
Definition to_decimal (w : t) : Q := Qred (inject_Z w / inject_Z unit).

End Wad.


(* ================================================================== *)
(** * The tables ([model.orm]) and the configuration ([config]) *)
(* ================================================================== *)

(** Each table is the list of its rows; a query filters the list and keeps
    its order, [first()] is the head of the result. *)

Module TokenBalance.
Record t : Type := { token : string; holder : string; balance : Q }.
End TokenBalance.

Module PositionBalance.
Record t : Type := { perpetual_address : string; holder : string; balance : Q }.
End PositionBalance.

Module PerpShareAmmProxyMap.
Record t : Type :=
  { share_addr : string; perp_addr : string; amm_addr : string; proxy_addr : string }.
End PerpShareAmmProxyMap.

Module ChainLinkPriceEvent.
Record t : Type := { chain_link_address : string; block_number : Z; price : Q }.
End ChainLinkPriceEvent.

Module ImmatureMiningReward.
Record t : Type :=
  { block_number : Z;
    pool_name : string;
    mining_round : string;
    holder : string;
    mcb_balance : Q }.
End ImmatureMiningReward.

Module ImmatureMiningRewardSummary.
Record t : Type :=
  { mining_round : string;
    pool_name : string;
    holder : string;
    mcb_balance : Q }.
End ImmatureMiningRewardSummary.

Inductive pool_type : Type := AMM | UNISWAP.

Definition pool_type_eqb (a b : pool_type) : bool :=
  match a, b with
  | AMM, AMM | UNISWAP, UNISWAP => true
  | _, _ => false
  end.

Module TheoryMiningReward.
Record t : Type :=
  { mining_round : string;
    pool_type : pool_type;
    holder : string;
    mcb_balance : Q }.
End TheoryMiningReward.

(** The session of the reward engine: the tables it reads and writes.
    [model.orm] is not among the sources: a table is the list of its rows,
    and a row added to the session is appended to the list.  The keys that
    the data model gives for the tables are predicates on these lists (see
    [reward_keys_unique], [summary_keys_unique] and
    [token_balance_keys_unique] below); the engine has no test of its own
    for a key that is already stored, and neither has its model: whether a
    state that holds a key twice can be stored is for the database to
    decide. *)
Record DBSession : Type :=
  { token_balances : list TokenBalance.t;
    position_balances : list PositionBalance.t;
    perp_share_amm_proxy_maps : list PerpShareAmmProxyMap.t;
    chain_link_price_events : list ChainLinkPriceEvent.t;
    immature_mining_rewards : list ImmatureMiningReward.t;
    immature_mining_reward_summaries : list ImmatureMiningRewardSummary.t;
    theory_mining_rewards : list TheoryMiningReward.t }.

(** The constants of [config] the reward engine reads. *)
Record Config : Type :=
  { ETH_PERP_SHARE_TOKEN_ADDRESS : string;
    LINK_PERP_SHARE_TOKEN_ADDRESS : string;
    COMP_PERP_SHARE_TOKEN_ADDRESS : string;
    LEND_PERP_SHARE_TOKEN_ADDRESS : string;
    SNX_PERP_SHARE_TOKEN_ADDRESS : string;
    BTC_PERP_SHARE_TOKEN_ADDRESS : string;
    UNISWAP_MCB_ETH_SHARE_TOKEN_ADDRESS : string;
    UNISWAP_MCB_USDC_SHARE_TOKEN_ADDRESS : string;
    MCB_TOKEN_ADDRESS : string;
    CHAINLINK_BTC_USD_ADDRESS : string;
    XIA_REBALANCE_HARD_FORK_BLOCK_NUMBER : Z;
    SHANG_REWARD_LINK_POOL_BLOCK_NUMBER : Z;
    SHANG_REWARD_BTC_POOL_BLOCK_NUMBER : Z;
    ZHOU_BEGIN_BLOCK_NUMBER : Z;
    ZHOU_REWARD_COMP_POOL_BLOCK_NUMBER : Z;
    ZHOU_REWARD_LEND_POOL_BLOCK_NUMBER : Z;
    ZHOU_REWARD_SNX_POOL_BLOCK_NUMBER : Z;
    QIN_BEGIN_BLOCK_NUMBER : Z;
    QIN_REDUCE_REWARD_BLOCK_NUMBER : Z;
    QIN_REWARD_BTC_POOL_BLOCK_NUMBER : Z;
    ZHOU_M : Num.number;
    ZHOU_N : Num.number;
    QIN_M : Num.number;
    QIN_N : Num.number }.

(** One entry of the [pool_info] dict that [sync] builds: the keys
    ['pool_contract_inverse'], ['amm_pool_proportion'] and
    ['uniswap_pool_proportion'] may be absent. *)
Record PoolInfo : Type :=
  { pool_share_token_address : string;
    pi_pool_type : pool_type;
    pool_contract_inverse : option bool;
    amm_pool_proportion : option Num.number;
    uniswap_pool_proportion : option Num.number }.

(** One entry of [pool_value_info]; the keys that only one of the two
    branches writes are optional, reading an absent one is a [KeyError]. *)
Record PoolValue : Type :=
  { pv_pool_share_token_address : string;
    pv_amm_pool_proportion : Num.number;
    pv_uniswap_pool_proportion : Num.number;
    pv_pool_type : pool_type;
    total_share_token_amount : Q;
    share_token_items : list (string * Q);
    effective_share_dict : option (Dict.t Q);
    total_effective_share_amount : option Q;
    pool_effective_usd_value : option Wad.t;
    pool_reward : option Wad.t }.

Definition key_of {A : Type} (o : option A) : result A :=
  match o with Some a => Ok a | None => Raise KeyError end.

Definition bound {A : Type} (o : option A) : result A :=
  match o with Some a => Ok a | None => Raise UnboundLocalError end.

(** Small list helpers for the queries. *)
Definition Qsum (l : list Q) : Q := fold_right Qplus 0%Q l.

(** The object a query returned is updated in place: the last row (the one
    a dict built from the result keeps) or the first row ([first()]) that
    matches. *)
Fixpoint update_last {A : Type} (p : A -> bool) (f : A -> A) (l : list A) : list A :=
  match l with
  | [] => []
  | x :: l' =>
      if existsb p l' then x :: update_last p f l'
      else if p x then f x :: l' else x :: l'
  end.

Fixpoint update_first {A : Type} (p : A -> bool) (f : A -> A) (l : list A) : list A :=
  match l with
  | [] => []
  | x :: l' => if p x then f x :: l' else x :: update_first p f l'
  end.

(** [order_by(desc(key)).first()]. *)
Fixpoint first_max {A : Type} (key : A -> Z) (l : list A) : option A :=
  match l with
  | [] => None
  | x :: l' =>
      match first_max key l' with
      | Some y => if key x <? key y then Some y else Some x
      | None => Some x
      end
  end.

(* ================================================================== *)
(** * [syncer/rewards.py]: class [ShareMining] *)
(* ================================================================== *)

Module ShareMining.

Record t : Type :=
  { _begin_block : Z;
    _end_block : Z;
    _reward_per_block : Num.number;
    _mining_round : string;
    _eth_perp_share_token_address : string;
    _uniswap_mcb_share_token_address : string;
    _mcb_token_address : string;
    _xia_rebalance_hard_fork_block_number : Z;
    _shang_reward_link_pool_block_number : Z;
    _shang_reward_btc_pool_block_number : Z;
    _zhou_begin_block_number : Z;
    _qin_begin_block_number : Z;
    _qin_reduce_reward_block_number : Z }.

Definition set_reward_per_block (self : t) (r : Num.number) : t :=
  {| _begin_block := _begin_block self;
     _end_block := _end_block self;
     _reward_per_block := r;
     _mining_round := _mining_round self;
     _eth_perp_share_token_address := _eth_perp_share_token_address self;
     _uniswap_mcb_share_token_address := _uniswap_mcb_share_token_address self;
     _mcb_token_address := _mcb_token_address self;
     _xia_rebalance_hard_fork_block_number := _xia_rebalance_hard_fork_block_number self;
     _shang_reward_link_pool_block_number := _shang_reward_link_pool_block_number self;
     _shang_reward_btc_pool_block_number := _shang_reward_btc_pool_block_number self;
     _zhou_begin_block_number := _zhou_begin_block_number self;
     _qin_begin_block_number := _qin_begin_block_number self;
     _qin_reduce_reward_block_number := _qin_reduce_reward_block_number self |}.

(** The entry of [token_map] for the share token: the three addresses of
    the map row, or the empty dict when there is no row. *)
Record TokenMap : Type :=
  { tm_perp_addr : string; tm_amm_addr : string; tm_amm_proxy_addr : string }.

Section Engine.

Variable prec : Z.
Variable config : Config.

Definition __init__ (begin_block end_block : Z) (reward_per_block : Num.number)
    (mining_round : string) : t :=
  {| _begin_block := begin_block;
     _end_block := end_block;
     _reward_per_block := reward_per_block;
     _mining_round := mining_round;
     _eth_perp_share_token_address := Str.lower (ETH_PERP_SHARE_TOKEN_ADDRESS config);
     _uniswap_mcb_share_token_address := Str.lower (UNISWAP_MCB_ETH_SHARE_TOKEN_ADDRESS config);
     _mcb_token_address := Str.lower (MCB_TOKEN_ADDRESS config);
     _xia_rebalance_hard_fork_block_number := XIA_REBALANCE_HARD_FORK_BLOCK_NUMBER config;
     _shang_reward_link_pool_block_number := SHANG_REWARD_LINK_POOL_BLOCK_NUMBER config;
     _shang_reward_btc_pool_block_number := SHANG_REWARD_BTC_POOL_BLOCK_NUMBER config;
     _zhou_begin_block_number := ZHOU_BEGIN_BLOCK_NUMBER config;
     _qin_begin_block_number := QIN_BEGIN_BLOCK_NUMBER config;
     _qin_reduce_reward_block_number := QIN_REDUCE_REWARD_BLOCK_NUMBER config |}.

Definition _get_token_map (share_token_address : string) (db_session : DBSession)
  : option TokenMap :=
  match filter (fun item => String.eqb (PerpShareAmmProxyMap.share_addr item) share_token_address)
               (perp_share_amm_proxy_maps db_session) with
  | item :: _ =>
      Some {| tm_perp_addr := Str.strip (PerpShareAmmProxyMap.perp_addr item);
              tm_amm_addr := Str.strip (PerpShareAmmProxyMap.amm_addr item);
              tm_amm_proxy_addr := Str.strip (PerpShareAmmProxyMap.proxy_addr item) |}
  | [] => None
  end.

(** The state of the loop over the position holders: the two results and
    the local [holder_effective_share], which keeps its value from one
    iteration to the next and is unbound before the first assignment. *)
Record EffectiveLoop : Type :=
  { el_effective_share_dict : Dict.t Q;
    el_total_effective_share_amount : Q;
    el_holder_effective_share : option Q }.

(** The body of the branch on the round, for one holder with imbalance
    rate [imbalance_rate]. *)
Definition holder_effective_share_of (self : t) (holder_share_token_amount imbalance_rate : Q)
    (previous : option Q) : option Q :=
  if String.eqb (_mining_round self) "XIA" then
    if Decimal.leb imbalance_rate (Decimal.of_number (Num.lit (1 # 10))) then
      Some holder_share_token_amount
    else if Decimal.leb (Decimal.of_number (Num.lit (9 # 10))) imbalance_rate then
      Some (Decimal.mul prec holder_share_token_amount (Decimal.of_number (Num.lit (1 # 10))))
    else
      Some (Decimal.mul prec holder_share_token_amount
              (Decimal.sub prec (Decimal.of_number (Num.truediv (Num.Int 89) (Num.Int 80)))
                 (Decimal.mul prec imbalance_rate
                    (Decimal.of_number (Num.truediv (Num.Int 9) (Num.Int 8))))))
  else if String.eqb (_mining_round self) "SHANG" then
    if Decimal.leb imbalance_rate (Decimal.of_number (Num.lit (2 # 10))) then
      Some holder_share_token_amount
    else if Decimal.leb (Decimal.of_number (Num.lit (9 # 10))) imbalance_rate then
      Some (Decimal.mul prec holder_share_token_amount (Decimal.of_number (Num.lit (1 # 10))))
    else
      Some (Decimal.mul prec holder_share_token_amount
              (Decimal.sub prec (Decimal.of_number (Num.truediv (Num.Int 44) (Num.Int 35)))
                 (Decimal.mul prec imbalance_rate
                    (Decimal.of_number (Num.truediv (Num.Int 9) (Num.Int 7))))))
  else previous.

(** [imbalance_rate] of a holder, as the [Decimal] read back from the
    [Wad]. *)
Definition imbalance_rate_of (amm_position holder_share_token_amount
    total_share_token_amount holder_position_in_margin_account : Q) : result Q :=
  let* q := Wad.div (Wad.mul (Wad.from_decimal amm_position)
                              (Wad.from_decimal holder_share_token_amount))
                    (Wad.from_decimal total_share_token_amount) in
  let holder_position_in_amm := q in
  let holder_portfolio_position :=
    Wad.add holder_position_in_amm (Wad.from_decimal holder_position_in_margin_account) in
  let* r := Wad.div holder_portfolio_position holder_position_in_amm in
  Ok (Wad.to_decimal (Wad.abs r)).

Definition effective_share_step (self : t) (share_token_dict : Dict.t Q)
    (amm_position total_share_token_amount : Q)
    (st : EffectiveLoop) (entry : string * Q) : result EffectiveLoop :=
  let '(holder, holder_position_in_margin_account) := entry in
  match Dict.get holder share_token_dict with
  | None => Ok st
  | Some holder_share_token_amount =>
      if Decimal.eqb holder_share_token_amount 0 then Ok st
      else
        let* imbalance_rate :=
          imbalance_rate_of amm_position holder_share_token_amount
            total_share_token_amount holder_position_in_margin_account in
        let* holder_effective_share :=
          bound (holder_effective_share_of self holder_share_token_amount imbalance_rate
                   (el_holder_effective_share st)) in
        Ok {| el_effective_share_dict :=
                Dict.set holder holder_effective_share (el_effective_share_dict st);
              el_total_effective_share_amount :=
                Decimal.add prec (el_total_effective_share_amount st) holder_effective_share;
              el_holder_effective_share := Some holder_effective_share |}
  end.

Definition _get_effective_share_info (self : t) (block_number : Z)
    (pool_share_token_address : string) (share_token_items : list (string * Q))
    (total_share_token_amount : Q) (db_session : DBSession)
  : result (Dict.t Q * Q) :=
  let share_token_dict :=
    fold_left (fun d item => Dict.set (fst item) (snd item) d) share_token_items [] in
  if _zhou_begin_block_number self <=? block_number then
    Ok (share_token_dict, total_share_token_amount)
  else
    let token_map := _get_token_map pool_share_token_address db_session in
    let perp_addr := option_map tm_perp_addr token_map in
    let amm_proxy_addr := option_map tm_amm_proxy_addr token_map in
    let position_items :=
      match perp_addr with
      | Some a =>
          filter (fun item => String.eqb (PositionBalance.perpetual_address item) a)
                 (position_balances db_session)
      | None => []
      end in
    let position_holder_dict :=
      fold_left (fun d item => Dict.set (PositionBalance.holder item)
                                        (PositionBalance.balance item) d)
                position_items [] in
    let amm_position :=
      match Dict.get_opt amm_proxy_addr position_holder_dict with
      | Some p => p
      | None => 0%Q
      end in
    let* st := for_each (effective_share_step self share_token_dict amm_position
                           total_share_token_amount)
                 {| el_effective_share_dict := [];
                    el_total_effective_share_amount := 0%Q;
                    el_holder_effective_share := None |}
                 position_holder_dict in
    Ok (el_effective_share_dict st, el_total_effective_share_amount st).

Definition _get_total_share_token_amount (share_token_address : string)
    (db_session : DBSession) : Q :=
  Qsum (map TokenBalance.balance
          (filter (fun item => String.eqb (TokenBalance.token item) share_token_address)
                  (token_balances db_session))).

Definition _get_share_token_items (share_token_address : string)
    (db_session : DBSession) : list (string * Q) :=
  map (fun item => (TokenBalance.holder item, TokenBalance.balance item))
    (filter (fun item => (String.eqb (TokenBalance.token item) share_token_address
                          && negb (Decimal.eqb (TokenBalance.balance item) 0))%bool)
            (token_balances db_session)).

Definition _get_chain_link_price (block_number : Z) (pool_name : string)
    (db_session : DBSession) : result Q :=
  let* link_price_address :=
    bound (if String.eqb pool_name "BTC_PERP"
           then Some (Str.lower (CHAINLINK_BTC_USD_ADDRESS config)) else None) in
  match first_max ChainLinkPriceEvent.block_number
          (filter (fun e => (String.eqb (ChainLinkPriceEvent.chain_link_address e) link_price_address
                             && (ChainLinkPriceEvent.block_number e <=? block_number))%bool)
                  (chain_link_price_events db_session)) with
  | None => Raise (Exception "link price still not sync!")
  | Some link_price_item => Ok (ChainLinkPriceEvent.price link_price_item)
  end.

Definition _get_pool_usd_value (block_number : Z) (pool_name pool_share_token_address : string)
    (inverse : bool) (db_session : DBSession) : result Wad.t :=
  let token_map := _get_token_map pool_share_token_address db_session in
  let perp_addr := option_map tm_perp_addr token_map in
  let amm_proxy_addr := option_map tm_amm_proxy_addr token_map in
  let amm_proxy_item :=
    match perp_addr, amm_proxy_addr with
    | Some pa, Some ap =>
        hd_error (filter (fun item => (String.eqb (PositionBalance.perpetual_address item) pa
                                       && String.eqb (PositionBalance.holder item) ap)%bool)
                         (position_balances db_session))
    | _, _ => None
    end in
  let amm_position :=
    match amm_proxy_item with
    | Some item => PositionBalance.balance item
    | None => 0%Q
    end in
  if inverse then Ok (Wad.abs (Wad.from_decimal amm_position))
  else
    let* chain_link_price := _get_chain_link_price block_number pool_name db_session in
    Ok (Wad.abs (Wad.mul (Wad.from_decimal amm_position) (Wad.from_decimal chain_link_price))).

Definition _get_holder_mcb_balance (self : t) (db_session : DBSession)
  : result (Dict.t Q) :=
  let mcb_token_items := _get_share_token_items (_mcb_token_address self) db_session in
  let holder_mcb_balance_dict :=
    fold_left (fun d item => Dict.set (fst item) (snd item) d) mcb_token_items [] in
  let uniswap_pool_total_mcb_balance :=
    Dict.get (_uniswap_mcb_share_token_address self) holder_mcb_balance_dict in
  let uniswap_share_items :=
    _get_share_token_items (_uniswap_mcb_share_token_address self) db_session in
  let uniswap_total_share_token_amount :=
    _get_total_share_token_amount (_uniswap_mcb_share_token_address self) db_session in
  if negb (Decimal.eqb uniswap_total_share_token_amount 0) then
    for_each
      (fun d item =>
         let holder := fst item in
         match uniswap_pool_total_mcb_balance with
         | None => Raise TypeError
         | Some total_mcb =>
             let* holder_mcb_amount :=
               Decimal.div prec (Decimal.mul prec total_mcb (snd item))
                 uniswap_total_share_token_amount in
             match Dict.get holder d with
             | None => Ok (Dict.set holder holder_mcb_amount d)
             | Some old => Ok (Dict.set holder (Decimal.add prec old holder_mcb_amount) d)
             end
         end)
      holder_mcb_balance_dict uniswap_share_items
  else Ok holder_mcb_balance_dict.

Definition set_uniswap_pool_proportion (info : PoolInfo) (p : Num.number) : PoolInfo :=
  {| pool_share_token_address := pool_share_token_address info;
     pi_pool_type := pi_pool_type info;
     pool_contract_inverse := pool_contract_inverse info;
     amm_pool_proportion := amm_pool_proportion info;
     uniswap_pool_proportion := Some p |}.

Definition _update_uniswap_pool_proportion (self : t) (pool_info : Dict.t PoolInfo)
    (db_session : DBSession) : result (Dict.t PoolInfo) :=
  let* holder_mcb_balance_dict := _get_holder_mcb_balance self db_session in
  let total_mcb_balance_in_uniswap_pools :=
    fold_left
      (fun total entry =>
         match pi_pool_type (snd entry) with
         | UNISWAP =>
             Decimal.add prec total
               (Dict.get_default (pool_share_token_address (snd entry)) 0%Q
                  holder_mcb_balance_dict)
         | AMM => total
         end)
      pool_info 0%Q in
  for_each
    (fun (d : Dict.t PoolInfo) (entry : string * PoolInfo) =>
       let '(pool_name, info) := entry in
       if (pool_type_eqb (pi_pool_type info) UNISWAP
           && negb (Decimal.eqb total_mcb_balance_in_uniswap_pools 0))%bool then
         let holder_mcb_balance :=
           Dict.get_default (pool_share_token_address info) 0%Q holder_mcb_balance_dict in
         let* uniswap_pool_proportion :=
           Decimal.div prec holder_mcb_balance total_mcb_balance_in_uniswap_pools in
         Ok (Dict.set pool_name (set_uniswap_pool_proportion info (Num.Dec uniswap_pool_proportion)) d)
       else Ok d)
    pool_info pool_info.

(** The first statement of [_get_pool_value_info]: the budget of the
    block, stored in the object. *)
Definition reward_per_block_at (self : t) (block_number : Z) : Num.number :=
  if (String.eqb (_mining_round self) "QIN"
      && (block_number <? _qin_reduce_reward_block_number self))%bool then
    Num.Int 2
  else if (String.eqb (_mining_round self) "QIN"
           && (_qin_reduce_reward_block_number self <=? block_number))%bool then
    Num.lit (2 # 10)
  else if ((11601000 <=? block_number) && (block_number <? 11685000))%bool then
    Num.lit (1875 # 10000)
  else _reward_per_block self.

Definition default_num (o : option Num.number) : Num.number :=
  match o with Some n => n | None => Num.Int 1 end.

(** The state of the loop over the pools: the dict built so far, the sum
    of the effective values and the local [pool_type] of the last pool. *)
Record ValueLoop : Type :=
  { vl_pool_value_info : Dict.t PoolValue;
    vl_pools_total_effective_value : Wad.t;
    vl_pool_type : option pool_type }.

Definition pool_value_step (self : t) (block_number : Z)
    (pool_reward_percent : Num.number) (db_session : DBSession)
    (st : ValueLoop) (entry : string * PoolInfo) : result ValueLoop :=
  let '(pool_name, info) := entry in
  let pool_share_token_address := pool_share_token_address info in
  let amm_pool_proportion := default_num (amm_pool_proportion info) in
  let uniswap_pool_proportion := default_num (uniswap_pool_proportion info) in
  let pool_type := pi_pool_type info in
  let pool_contract_inverse :=
    match pool_contract_inverse info with Some b => b | None => true end in
  let total_share_token_amount :=
    _get_total_share_token_amount pool_share_token_address db_session in
  let share_token_items := _get_share_token_items pool_share_token_address db_session in
  if (pool_type_eqb pool_type AMM
      && (_xia_rebalance_hard_fork_block_number self <=? block_number))%bool then
    let* (effective_share_dict, total_effective_share_amount) :=
      _get_effective_share_info self block_number pool_share_token_address
        share_token_items total_share_token_amount db_session in
    let* pool_usd_value :=
      _get_pool_usd_value block_number pool_name pool_share_token_address
        pool_contract_inverse db_session in
    let* pool_effective_usd_value :=
      if negb (Decimal.eqb total_share_token_amount 0) then
        Wad.div (Wad.mul pool_usd_value (Wad.from_decimal total_effective_share_amount))
                (Wad.from_decimal total_share_token_amount)
      else Ok 0 in
    Ok {| vl_pool_value_info :=
            Dict.set pool_name
              {| pv_pool_share_token_address := pool_share_token_address;
                 pv_amm_pool_proportion := amm_pool_proportion;
                 pv_uniswap_pool_proportion := uniswap_pool_proportion;
                 pv_pool_type := pool_type;
                 total_share_token_amount := total_share_token_amount;
                 share_token_items := share_token_items;
                 effective_share_dict := Some effective_share_dict;
                 total_effective_share_amount := Some total_effective_share_amount;
                 pool_effective_usd_value := Some pool_effective_usd_value;
                 pool_reward := None |}
              (vl_pool_value_info st);
          vl_pools_total_effective_value :=
            Wad.add (vl_pools_total_effective_value st) pool_effective_usd_value;
          vl_pool_type := Some pool_type |}
  else
    let pool_reward :=
      Wad.mul (Wad.mul (Wad.from_number pool_reward_percent)
                       (Wad.from_number (_reward_per_block self)))
              (Wad.from_number uniswap_pool_proportion) in
    Ok {| vl_pool_value_info :=
            Dict.set pool_name
              {| pv_pool_share_token_address := pool_share_token_address;
                 pv_amm_pool_proportion := amm_pool_proportion;
                 pv_uniswap_pool_proportion := uniswap_pool_proportion;
                 pv_pool_type := pool_type;
                 total_share_token_amount := total_share_token_amount;
                 share_token_items := share_token_items;
                 effective_share_dict := None;
                 total_effective_share_amount := None;
                 pool_effective_usd_value := None;
                 pool_reward := Some pool_reward |}
              (vl_pool_value_info st);
          vl_pools_total_effective_value := vl_pools_total_effective_value st;
          vl_pool_type := Some pool_type |}.

Definition set_pool_reward (pv : PoolValue) (r : Wad.t) : PoolValue :=
  {| pv_pool_share_token_address := pv_pool_share_token_address pv;
     pv_amm_pool_proportion := pv_amm_pool_proportion pv;
     pv_uniswap_pool_proportion := pv_uniswap_pool_proportion pv;
     pv_pool_type := pv_pool_type pv;
     total_share_token_amount := total_share_token_amount pv;
     share_token_items := share_token_items pv;
     effective_share_dict := effective_share_dict pv;
     total_effective_share_amount := total_effective_share_amount pv;
     pool_effective_usd_value := pool_effective_usd_value pv;
     pool_reward := Some r |}.

(** The second loop of [_get_pool_value_info], over the keys of
    [pool_value_info]. *)
Definition amm_pool_reward_step (self : t) (block_number : Z)
    (pool_reward_percent : Num.number) (pools_total_effective_value : Wad.t)
    (d : Dict.t PoolValue) (entry : string * PoolValue) : result (Dict.t PoolValue) :=
  let '(pool_name, pv) := entry in
  let amm_pool_proportion := pv_amm_pool_proportion pv in
  let* pool_effective_usd_value := key_of (pool_effective_usd_value pv) in
  let* pool_reward :=
    if _qin_begin_block_number self <=? block_number then
      Ok (Wad.mul (Wad.mul (Wad.from_number pool_reward_percent)
                           (Wad.from_number (_reward_per_block self)))
                  (Wad.from_number amm_pool_proportion))
    else
      Wad.div (Wad.mul (Wad.mul (Wad.from_number pool_reward_percent)
                                (Wad.from_number (_reward_per_block self)))
                       pool_effective_usd_value)
              pools_total_effective_value in
  Ok (Dict.set pool_name (set_pool_reward pv pool_reward) d).

Definition _get_pool_value_info (self : t) (block_number : Z)
    (pool_info : Dict.t PoolInfo) (pool_reward_percent : Num.number)
    (db_session : DBSession) : result (t * Dict.t PoolValue) :=
  let self := set_reward_per_block self (reward_per_block_at self block_number) in
  let* pool_info := _update_uniswap_pool_proportion self pool_info db_session in
  let* st := for_each (pool_value_step self block_number pool_reward_percent db_session)
               {| vl_pool_value_info := [];
                  vl_pools_total_effective_value := 0;
                  vl_pool_type := None |}
               pool_info in
  let pool_value_info := vl_pool_value_info st in
  let* pool_type := bound (vl_pool_type st) in
  if (pool_type_eqb pool_type AMM
      && (_xia_rebalance_hard_fork_block_number self <=? block_number))%bool then
    let* pool_value_info :=
      for_each (amm_pool_reward_step self block_number pool_reward_percent
                  (vl_pools_total_effective_value st))
        pool_value_info pool_value_info in
    Ok (self, pool_value_info)
  else Ok (self, pool_value_info).

Definition _get_holder_reward_factor (self : t) (holder : string) (reward : option Q)
    (holder_mcb_balance : Q) : result Q :=
  (* if self._mining_round == 'ZHOU': m, n = ZHOU_M, ZHOU_N *)
  let m_n :=
    if String.eqb (_mining_round self) "ZHOU"
    then Some (ZHOU_M config, ZHOU_N config) else None in
  (* if self._mining_round == 'QIN': ... else: m, n = 2, 102500 *)
  let m_n :=
    if String.eqb (_mining_round self) "QIN"
    then Some (QIN_M config, QIN_N config)
    else Some (Num.Int 2, Num.Int 102500) in
  let* (m, n) := bound m_n in
  let M := Decimal.of_number m in
  let N := Decimal.of_number n in
  let* mcb_weight :=
    match reward with
    | None => Raise TypeError
    | Some reward =>
        if Decimal.eqb reward 0 then Ok 0%Q
        else Decimal.div prec holder_mcb_balance (Decimal.mul prec reward N)
    end in
  if Decimal.ltb mcb_weight 1 then
    Ok (Decimal.add prec 1 (Decimal.mul prec mcb_weight M))
  else
    Ok (Decimal.add prec 1 M).

Definition set_theory_mining_rewards (db_session : DBSession)
    (rows : list TheoryMiningReward.t) : DBSession :=
  {| token_balances := token_balances db_session;
     position_balances := position_balances db_session;
     perp_share_amm_proxy_maps := perp_share_amm_proxy_maps db_session;
     chain_link_price_events := chain_link_price_events db_session;
     immature_mining_rewards := immature_mining_rewards db_session;
     immature_mining_reward_summaries := immature_mining_reward_summaries db_session;
     theory_mining_rewards := rows |}.

Definition _save_theory_mining_reward (self : t) (pool_type : pool_type)
    (holder_amms_reward_dict : Dict.t Q) (db_session : DBSession) : DBSession :=
  let theory_mining_reward_items :=
    filter (fun item => String.eqb (TheoryMiningReward.mining_round item) (_mining_round self))
           (theory_mining_rewards db_session) in
  let theory_mining_reward_dict :=
    fold_left (fun d item => Dict.set (TheoryMiningReward.holder item) item d)
              theory_mining_reward_items [] in
  set_theory_mining_rewards db_session
    (fold_left
       (fun rows entry =>
          let '(holder, reward) := entry in
          if negb (Dict.mem holder theory_mining_reward_dict) then
            rows ++ [{| TheoryMiningReward.mining_round := _mining_round self;
                        TheoryMiningReward.pool_type := pool_type;
                        TheoryMiningReward.holder := holder;
                        TheoryMiningReward.mcb_balance := reward |}]
          else
            update_last
              (fun item => (String.eqb (TheoryMiningReward.mining_round item) (_mining_round self)
                            && String.eqb (TheoryMiningReward.holder item) holder)%bool)
              (fun item =>
                 {| TheoryMiningReward.mining_round := TheoryMiningReward.mining_round item;
                    TheoryMiningReward.pool_type := TheoryMiningReward.pool_type item;
                    TheoryMiningReward.holder := TheoryMiningReward.holder item;
                    TheoryMiningReward.mcb_balance := reward |})
              rows)
       holder_amms_reward_dict (theory_mining_rewards db_session)).

(** The reward of a holder of an AMM pool before the factor:
    [pool_reward * effective share / total effective share]. *)
Definition amm_holder_reward (pv : PoolValue) (pool_reward : Wad.t) (holder : string)
  : result Q :=
  let* total_effective_share_amount := key_of (total_effective_share_amount pv) in
  let* effective_share_dict := key_of (effective_share_dict pv) in
  let holder_effective_share_amount := Dict.get_default holder 0%Q effective_share_dict in
  let* wad_reward :=
    Wad.div (Wad.mul pool_reward (Wad.from_decimal holder_effective_share_amount))
            (Wad.from_decimal total_effective_share_amount) in
  Ok (Wad.to_decimal wad_reward).

Definition dict_add (holder : string) (reward : Q) (d : Dict.t Q) : Dict.t Q :=
  match Dict.get holder d with
  | None => Dict.set holder reward d
  | Some old => Dict.set holder (Decimal.add prec old reward) d
  end.

Definition _get_holder_reward_weight (self : t) (block_number : Z)
    (pool_value_info : Dict.t PoolValue) (db_session : DBSession)
  : result (DBSession * Dict.t Q) :=
  let* (holder_amms_reward_dict, amms_pool_total_reward) :=
    for_each
      (fun (st : Dict.t Q * Q) (entry : string * PoolValue) =>
         let '(holder_amms_reward_dict, amms_pool_total_reward) := st in
         let pv := snd entry in
         if Decimal.eqb (total_share_token_amount pv) 0 then Ok st
         else
           let* pool_reward := key_of (pool_reward pv) in
           let amms_pool_total_reward :=
             Decimal.add prec amms_pool_total_reward (Wad.to_decimal pool_reward) in
           let* holder_amms_reward_dict :=
             for_each
               (fun (d : Dict.t Q) (item : string * Q) =>
                  let holder := fst item in
                  if Decimal.eqb (snd item) 0 then Ok d
                  else if (pool_type_eqb (pv_pool_type pv) AMM
                           && (_xia_rebalance_hard_fork_block_number self <=? block_number))%bool
                  then
                    let* reward := amm_holder_reward pv pool_reward holder in
                    Ok (dict_add holder reward d)
                  else Ok d)
               holder_amms_reward_dict (share_token_items pv) in
           Ok (holder_amms_reward_dict, amms_pool_total_reward))
      ([], 0%Q) pool_value_info in
  let db_session := _save_theory_mining_reward self AMM holder_amms_reward_dict db_session in
  let* holder_mcb_balance_dict := _get_holder_mcb_balance self db_session in
  let* total_holder_reward_weight :=
    for_each
      (fun (total : Q) (entry : string * Q) =>
         let '(holder, reward) := entry in
         let* holder_reward_percent := Decimal.div prec reward amms_pool_total_reward in
         let holder_mcb_balance := Dict.get_default holder 0%Q holder_mcb_balance_dict in
         let* reward_factor :=
           _get_holder_reward_factor self holder (Some reward) holder_mcb_balance in
         Ok (Decimal.add prec total (Decimal.mul prec holder_reward_percent reward_factor)))
      0%Q holder_amms_reward_dict in
  let* holder_amms_weight_dict :=
    for_each
      (fun (d : Dict.t Q) (entry : string * Q) =>
         let '(holder, reward) := entry in
         let holder_mcb_balance := Dict.get_default holder 0%Q holder_mcb_balance_dict in
         let* reward_factor :=
           _get_holder_reward_factor self holder (Some reward) holder_mcb_balance in
         let* w := Decimal.div prec reward_factor total_holder_reward_weight in
         Ok (Dict.set holder w d))
      [] holder_amms_reward_dict in
  Ok (db_session, holder_amms_weight_dict).

Definition _get_holder_amms_reward_weight (self : t) (block_number : Z)
    (pool_value_info : Dict.t PoolValue) (db_session : DBSession)
  : result (DBSession * Dict.t (Dict.t Q)) :=
  let* (holder_amms_reward_dict, holder_pools_reward) :=
    for_each
      (fun (st : Dict.t Q * Dict.t (Dict.t Q)) (entry : string * PoolValue) =>
         let '(holder_amms_reward_dict, holder_pools_reward) := st in
         let '(pool_name, pv) := entry in
         if Decimal.eqb (total_share_token_amount pv) 0 then Ok st
         else
           let* pool_reward := key_of (pool_reward pv) in
           let* (holder_reward_dict, holder_amms_reward_dict) :=
             for_each
               (fun (st2 : Dict.t Q * Dict.t Q) (item : string * Q) =>
                  let '(holder_reward_dict, holder_amms_reward_dict) := st2 in
                  let holder := fst item in
                  if Decimal.eqb (snd item) 0 then Ok st2
                  else if (pool_type_eqb (pv_pool_type pv) AMM
                           && (_xia_rebalance_hard_fork_block_number self <=? block_number))%bool
                  then
                    let* reward := amm_holder_reward pv pool_reward holder in
                    Ok (Dict.set holder reward holder_reward_dict,
                        dict_add holder reward holder_amms_reward_dict)
                  else Ok st2)
               ([], holder_amms_reward_dict) (share_token_items pv) in
           Ok (holder_amms_reward_dict,
               Dict.set pool_name holder_reward_dict holder_pools_reward))
      ([], []) pool_value_info in
  let db_session := _save_theory_mining_reward self AMM holder_amms_reward_dict db_session in
  let* holder_mcb_balance_dict := _get_holder_mcb_balance self db_session in
  let* holder_amms_weight_dict :=
    for_each
      (fun (holder_amms_weight_dict : Dict.t (Dict.t Q)) (entry : string * PoolValue) =>
         let '(pool_name, pv) := entry in
         let* pool_reward := key_of (pool_reward pv) in
         let* holder_pool_rewards := key_of (Dict.get pool_name holder_pools_reward) in
         let* holder_total_pool_reward_weight :=
           for_each
             (fun (total : Q) (e : string * Q) =>
                let '(holder, holder_pool_reward) := e in
                let* holder_reward_percent :=
                  Decimal.div prec holder_pool_reward (Wad.to_decimal pool_reward) in
                let holder_total_pool_reward := Dict.get holder holder_amms_reward_dict in
                let holder_mcb_balance := Dict.get_default holder 0%Q holder_mcb_balance_dict in
                let* reward_factor :=
                  _get_holder_reward_factor self holder holder_total_pool_reward
                    holder_mcb_balance in
                Ok (Decimal.add prec total (Decimal.mul prec holder_reward_percent reward_factor)))
             0%Q holder_pool_rewards in
         let* holder_weight_dict :=
           for_each
             (fun (d : Dict.t Q) (e : string * Q) =>
                let '(holder, holder_pool_reward) := e in
                let holder_mcb_balance := Dict.get_default holder 0%Q holder_mcb_balance_dict in
                let holder_total_pool_reward := Dict.get holder holder_amms_reward_dict in
                let* reward_factor :=
                  _get_holder_reward_factor self holder holder_total_pool_reward
                    holder_mcb_balance in
                let* w := Decimal.div prec reward_factor holder_total_pool_reward_weight in
                Ok (Dict.set holder w d))
             [] holder_pool_rewards in
         Ok (Dict.set pool_name holder_weight_dict holder_amms_weight_dict))
      [] pool_value_info in
  Ok (db_session, holder_amms_weight_dict).

Definition set_immature (db_session : DBSession)
    (rows : list ImmatureMiningReward.t)
    (summaries : list ImmatureMiningRewardSummary.t) : DBSession :=
  {| token_balances := token_balances db_session;
     position_balances := position_balances db_session;
     perp_share_amm_proxy_maps := perp_share_amm_proxy_maps db_session;
     chain_link_price_events := chain_link_price_events db_session;
     immature_mining_rewards := rows;
     immature_mining_reward_summaries := summaries;
     theory_mining_rewards := theory_mining_rewards db_session |}.

Definition summary_matches (mining_round pool_name holder : string)
    (item : ImmatureMiningRewardSummary.t) : bool :=
  (String.eqb (ImmatureMiningRewardSummary.mining_round item) mining_round
   && String.eqb (ImmatureMiningRewardSummary.pool_name item) pool_name
   && String.eqb (ImmatureMiningRewardSummary.holder item) holder)%bool.

Definition summary_add (amount : Q) (item : ImmatureMiningRewardSummary.t)
  : ImmatureMiningRewardSummary.t :=
  {| ImmatureMiningRewardSummary.mining_round := ImmatureMiningRewardSummary.mining_round item;
     ImmatureMiningRewardSummary.pool_name := ImmatureMiningRewardSummary.pool_name item;
     ImmatureMiningRewardSummary.holder := ImmatureMiningRewardSummary.holder item;
     ImmatureMiningRewardSummary.mcb_balance :=
       Decimal.add prec (ImmatureMiningRewardSummary.mcb_balance item) amount |}.

Definition summary_sub (amount : Q) (item : ImmatureMiningRewardSummary.t)
  : ImmatureMiningRewardSummary.t :=
  {| ImmatureMiningRewardSummary.mining_round := ImmatureMiningRewardSummary.mining_round item;
     ImmatureMiningRewardSummary.pool_name := ImmatureMiningRewardSummary.pool_name item;
     ImmatureMiningRewardSummary.holder := ImmatureMiningRewardSummary.holder item;
     ImmatureMiningRewardSummary.mcb_balance :=
       Decimal.sub prec (ImmatureMiningRewardSummary.mcb_balance item) amount |}.

(** Lines 450-468: the row of the block and the update of the summary,
    for one holder with reward [reward].  [immature_summary_holders] are
    the keys of [immature_summary_dict], read once per pool. *)
Definition save_immature_reward (self : t) (block_number : Z) (pool_name : string)
    (immature_summary_holders : list string) (holder : string) (reward : Q)
    (db_session : DBSession) : DBSession :=
  let immature_mining_reward :=
    {| ImmatureMiningReward.block_number := block_number;
       ImmatureMiningReward.pool_name := pool_name;
       ImmatureMiningReward.mining_round := _mining_round self;
       ImmatureMiningReward.holder := holder;
       ImmatureMiningReward.mcb_balance := reward |} in
  let rows := immature_mining_rewards db_session ++ [immature_mining_reward] in
  if negb (existsb (String.eqb holder) immature_summary_holders) then
    set_immature db_session rows
      (immature_mining_reward_summaries db_session ++
       [{| ImmatureMiningRewardSummary.mining_round := _mining_round self;
           ImmatureMiningRewardSummary.pool_name := pool_name;
           ImmatureMiningRewardSummary.holder := holder;
           ImmatureMiningRewardSummary.mcb_balance := reward |}])
  else
    set_immature db_session rows
      (update_last (summary_matches (_mining_round self) pool_name holder)
         (summary_add reward) (immature_mining_reward_summaries db_session)).

(** Lines 434-448: the reward of one share-token item. *)
Definition item_reward (self : t) (block_number : Z) (pv : PoolValue)
    (pool_reward : Wad.t) (holder_weight_dict : Dict.t Q) (item : string * Q)
  : result Q :=
  let holder := fst item in
  if (pool_type_eqb (pv_pool_type pv) AMM
      && (_xia_rebalance_hard_fork_block_number self <=? block_number))%bool then
    let holder_weight := Dict.get_default holder 1%Q holder_weight_dict in
    let* total_effective_share_amount := key_of (total_effective_share_amount pv) in
    let* effective_share_dict := key_of (effective_share_dict pv) in
    let holder_effective_share_amount := Dict.get_default holder 0%Q effective_share_dict in
    let* wad_reward :=
      Wad.div (Wad.mul (Wad.mul (Wad.from_decimal holder_weight) pool_reward)
                       (Wad.from_decimal holder_effective_share_amount))
              (Wad.from_decimal total_effective_share_amount) in
    Ok (Wad.to_decimal wad_reward)
  else
    let holder_share_token_amount := snd item in
    let* wad_reward :=
      Wad.div (Wad.mul pool_reward (Wad.from_decimal holder_share_token_amount))
              (Wad.from_decimal (total_share_token_amount pv)) in
    Ok (Wad.to_decimal wad_reward).

(** The body of the loop over the pools (lines 412-468). *)
Definition pool_reward_step (self : t) (block_number : Z)
    (holder_amms_weight_dict : Dict.t (Dict.t Q)) (holder_weight_dict : Dict.t Q)
    (db_session : DBSession) (entry : string * PoolValue) : result DBSession :=
  let '(pool_name, pv) := entry in
  let holder_weight_dict :=
    if _qin_begin_block_number self <=? block_number
    then Dict.get_default pool_name [] holder_amms_weight_dict
    else holder_weight_dict in
  let immature_summary_holders :=
    map ImmatureMiningRewardSummary.holder
      (filter (fun item =>
                 (String.eqb (ImmatureMiningRewardSummary.mining_round item) (_mining_round self)
                  && String.eqb (ImmatureMiningRewardSummary.pool_name item) pool_name)%bool)
              (immature_mining_reward_summaries db_session)) in
  if Decimal.eqb (total_share_token_amount pv) 0 then Ok db_session
  else
    let* pool_reward := key_of (pool_reward pv) in
    for_each
      (fun (db_session : DBSession) (item : string * Q) =>
         if Decimal.eqb (snd item) 0 then Ok db_session
         else
           let* reward := item_reward self block_number pv pool_reward holder_weight_dict item in
           Ok (save_immature_reward self block_number pool_name immature_summary_holders
                 (fst item) reward db_session))
      db_session (share_token_items pv).

Definition _calculate_pools_reward (self : t) (block_number : Z)
    (pool_info : Dict.t PoolInfo) (pool_reward_percent : Num.number)
    (db_session : DBSession) : result (t * DBSession) :=
  let* (self, pool_value_info) :=
    _get_pool_value_info self block_number pool_info pool_reward_percent db_session in
  let* (db_session, holder_amms_weight_dict, holder_weight_dict) :=
    if _qin_begin_block_number self <=? block_number then
      let* (db, w) :=
        _get_holder_amms_reward_weight self block_number pool_value_info db_session in
      Ok (db, w, [])
    else if _zhou_begin_block_number self <=? block_number then
      let* (db, w) :=
        _get_holder_reward_weight self block_number pool_value_info db_session in
      Ok (db, [], w)
    else Ok (db_session, [], []) in
  let* db_session :=
    for_each (pool_reward_step self block_number holder_amms_weight_dict holder_weight_dict)
      db_session pool_value_info in
  Ok (self, db_session).

(** The entries of [pool_info]. *)
Definition amm_pool (address : string) (inverse : bool) (proportion : option Num.number)
  : PoolInfo :=
  {| pool_share_token_address := Str.lower address;
     pi_pool_type := AMM;
     pool_contract_inverse := Some inverse;
     amm_pool_proportion := proportion;
     uniswap_pool_proportion := None |}.

Definition uniswap_pool (address : string) : PoolInfo :=
  {| pool_share_token_address := Str.lower address;
     pi_pool_type := UNISWAP;
     pool_contract_inverse := None;
     amm_pool_proportion := None;
     uniswap_pool_proportion := None |}.

Definition set_if (c : bool) (k : string) (v : PoolInfo) (d : Dict.t PoolInfo)
  : Dict.t PoolInfo :=
  if c then Dict.set k v d else d.

Definition sync (self : t) (watcher_id : Z) (block_number : Z) (block_hash : string)
    (db_session : DBSession) : result (t * DBSession) :=
  if ((block_number <? _begin_block self) || (_end_block self <? block_number))%bool then
    Ok (self, db_session)
  else if String.eqb (_mining_round self) "XIA" then
    let pool_info :=
      Dict.set "ETH_PERP" (amm_pool (ETH_PERP_SHARE_TOKEN_ADDRESS config) true None) [] in
    _calculate_pools_reward self block_number pool_info (Num.Int 1) db_session
  else if String.eqb (_mining_round self) "SHANG" then
    let pool_info :=
      Dict.set "ETH_PERP" (amm_pool (ETH_PERP_SHARE_TOKEN_ADDRESS config) true None) [] in
    let pool_info :=
      set_if (_shang_reward_link_pool_block_number self <=? block_number)
        "LINK_PERP" (amm_pool (LINK_PERP_SHARE_TOKEN_ADDRESS config) true None) pool_info in
    let* (self, db_session) :=
      _calculate_pools_reward self block_number pool_info (Num.lit (75 # 100)) db_session in
    let pool_info :=
      Dict.set "UNISWAP_MCB_ETH"
        (uniswap_pool (UNISWAP_MCB_ETH_SHARE_TOKEN_ADDRESS config)) [] in
    _calculate_pools_reward self block_number pool_info (Num.lit (25 # 100)) db_session
  else if String.eqb (_mining_round self) "ZHOU" then
    let pool_info :=
      Dict.set "ETH_PERP" (amm_pool (ETH_PERP_SHARE_TOKEN_ADDRESS config) true None) [] in
    let pool_info :=
      Dict.set "LINK_PERP" (amm_pool (LINK_PERP_SHARE_TOKEN_ADDRESS config) true None)
        pool_info in
    let pool_info :=
      set_if (ZHOU_REWARD_COMP_POOL_BLOCK_NUMBER config <=? block_number)
        "COMP_PERP" (amm_pool (COMP_PERP_SHARE_TOKEN_ADDRESS config) true None) pool_info in
    let pool_info :=
      set_if (ZHOU_REWARD_LEND_POOL_BLOCK_NUMBER config <=? block_number)
        "LEND_PERP" (amm_pool (LEND_PERP_SHARE_TOKEN_ADDRESS config) true None) pool_info in
    let pool_info :=
      set_if (ZHOU_REWARD_SNX_POOL_BLOCK_NUMBER config <=? block_number)
        "SNX_PERP" (amm_pool (SNX_PERP_SHARE_TOKEN_ADDRESS config) true None) pool_info in
    let* (self, db_session) :=
      _calculate_pools_reward self block_number pool_info (Num.lit (75 # 100)) db_session in
    let pool_info :=
      Dict.set "UNISWAP_MCB_ETH"
        (uniswap_pool (UNISWAP_MCB_ETH_SHARE_TOKEN_ADDRESS config)) [] in
    _calculate_pools_reward self block_number pool_info (Num.lit (25 # 100)) db_session
  else if String.eqb (_mining_round self) "QIN" then
    let eth_pool_proportion := Num.lit (8 # 10) in
    let pool_info :=
      Dict.set "ETH_PERP"
        (amm_pool (ETH_PERP_SHARE_TOKEN_ADDRESS config) true (Some eth_pool_proportion)) [] in
    let little_pool_num :=
      if QIN_REWARD_BTC_POOL_BLOCK_NUMBER config <=? block_number then 5 else 4 in
    let little_pools_mean_proportion :=
      Num.truediv (Num.lit (2 # 10)) (Num.Int little_pool_num) in
    let pool_info :=
      Dict.set "LINK_PERP"
        (amm_pool (LINK_PERP_SHARE_TOKEN_ADDRESS config) true
           (Some little_pools_mean_proportion)) pool_info in
    let pool_info :=
      Dict.set "COMP_PERP"
        (amm_pool (COMP_PERP_SHARE_TOKEN_ADDRESS config) true
           (Some little_pools_mean_proportion)) pool_info in
    let pool_info :=
      Dict.set "LEND_PERP"
        (amm_pool (LEND_PERP_SHARE_TOKEN_ADDRESS config) true
           (Some little_pools_mean_proportion)) pool_info in
    let pool_info :=
      Dict.set "SNX_PERP"
        (amm_pool (SNX_PERP_SHARE_TOKEN_ADDRESS config) true
           (Some little_pools_mean_proportion)) pool_info in
    let pool_info :=
      set_if (QIN_REWARD_BTC_POOL_BLOCK_NUMBER config <=? block_number)
        "BTC_PERP"
        (amm_pool (BTC_PERP_SHARE_TOKEN_ADDRESS config) false
           (Some little_pools_mean_proportion)) pool_info in
    let* (self, db_session) :=
      _calculate_pools_reward self block_number pool_info (Num.lit (5 # 10)) db_session in
    let pool_info :=
      Dict.set "UNISWAP_MCB_ETH"
        (uniswap_pool (UNISWAP_MCB_ETH_SHARE_TOKEN_ADDRESS config)) [] in
    _calculate_pools_reward self block_number pool_info (Num.lit (5 # 10)) db_session
  else if String.eqb (_mining_round self) "HAN" then
    let pool_info :=
      Dict.set "UNISWAP_MCB_ETH"
        (uniswap_pool (UNISWAP_MCB_ETH_SHARE_TOKEN_ADDRESS config)) [] in
    let pool_info :=
      Dict.set "UNISWAP_MCB_USDC"
        (uniswap_pool (UNISWAP_MCB_USDC_SHARE_TOKEN_ADDRESS config)) pool_info in
    _calculate_pools_reward self block_number pool_info (Num.Int 1) db_session
  else Ok (self, db_session).

(** [rollback]: the rows above [block_number] of the round, grouped by
    (pool, holder, round) with the sum of each group. *)
Definition rolled_back (self : t) (block_number : Z) (item : ImmatureMiningReward.t) : bool :=
  ((block_number <? ImmatureMiningReward.block_number item)
   && String.eqb (ImmatureMiningReward.mining_round item) (_mining_round self))%bool.

Definition same_group (a b : ImmatureMiningReward.t) : bool :=
  (String.eqb (ImmatureMiningReward.pool_name a) (ImmatureMiningReward.pool_name b)
   && String.eqb (ImmatureMiningReward.holder a) (ImmatureMiningReward.holder b)
   && String.eqb (ImmatureMiningReward.mining_round a) (ImmatureMiningReward.mining_round b))%bool.

(** One representative row per group, carrying the sum of the group. *)
Fixpoint group_by_sum (fuel : nat) (rows : list ImmatureMiningReward.t)
  : list ImmatureMiningReward.t :=
  match fuel, rows with
  | S fuel', r :: rows' =>
      {| ImmatureMiningReward.block_number := ImmatureMiningReward.block_number r;
         ImmatureMiningReward.pool_name := ImmatureMiningReward.pool_name r;
         ImmatureMiningReward.mining_round := ImmatureMiningReward.mining_round r;
         ImmatureMiningReward.holder := ImmatureMiningReward.holder r;
         ImmatureMiningReward.mcb_balance :=
           Qsum (map ImmatureMiningReward.mcb_balance (filter (same_group r) rows)) |}
      :: group_by_sum fuel' (filter (fun x => negb (same_group r x)) rows')
  | _, _ => []
  end.

Definition rollback (self : t) (watcher_id : Z) (block_number : Z)
    (db_session : DBSession) : DBSession :=
  let selected := filter (rolled_back self block_number) (immature_mining_rewards db_session) in
  let items := group_by_sum (List.length selected) selected in
  let summaries :=
    fold_left
      (fun summaries item =>
         update_first
           (fun s => (String.eqb (ImmatureMiningRewardSummary.holder s)
                                 (ImmatureMiningReward.holder item)
                      && String.eqb (ImmatureMiningRewardSummary.pool_name s)
                                    (ImmatureMiningReward.pool_name item)
                      && String.eqb (ImmatureMiningRewardSummary.mining_round s)
                                    (ImmatureMiningReward.mining_round item))%bool)
           (summary_sub (ImmatureMiningReward.mcb_balance item))
           summaries)
      items (immature_mining_reward_summaries db_session) in
  set_immature db_session
    (filter (fun item => negb (rolled_back self block_number item))
            (immature_mining_rewards db_session))
    summaries.

End Engine.
End ShareMining.

(* ================================================================== *)
(** * [payouts/payer.py]: class [Payer] *)
(* ================================================================== *)

Module PaymentTransaction.
Inductive status_t : Type := INIT | PENDING | SUCCESS | FAILED.
(** [transaction_data] is the JSON text of [{"miners": ..., "amounts": ...}];
    it is kept as the pair that [json.loads] gives back. *)
Record t : Type :=
  { id : Z;
    transaction_nonce : Z;
    transaction_data : list string * list Wad.t;
    transaction_hash : string;
    status : status_t }.
Definition status_eqb (a b : status_t) : bool :=
  match a, b with
  | INIT, INIT | PENDING, PENDING | SUCCESS, SUCCESS | FAILED, FAILED => true
  | _, _ => false
  end.
End PaymentTransaction.

Module Payment.
Record t : Type :=
  { holder : string; amount : Wad.t; pay_time : Z; transaction_id : Z }.
End Payment.

Module RoundPayment.
Record t : Type :=
  { mining_round : string; holder : string; amount : Wad.t; payment_id : option Z }.
End RoundPayment.

Module RoundPaymentSummary.
Record t : Type := { mining_round : string; holder : string; paid_amount : Q }.
End RoundPaymentSummary.

Module MatureMiningReward.
Record t : Type := { mining_round : string; holder : string; mcb_balance : Q }.
End MatureMiningReward.

(** The tables and views the payer works on.  [round_payment_summaries]
    is a materialized view: it keeps its rows until it is refreshed.  The
    view [payment_summaries], which [_save_payments_info] refreshes too,
    is read by nothing in these sources and is not among the tables
    here. *)
Record PayerDB : Type :=
  { payment_transactions : list PaymentTransaction.t;
    payments : list Payment.t;
    round_payments : list RoundPayment.t;
    round_payment_summaries : list RoundPaymentSummary.t;
    mature_mining_rewards : list MatureMiningReward.t }.

Record Receipt : Type := { transactionHash : string; receipt_status : Z }.

(** Modelled from the spec: the query of the materialized view
    [round_payment_summaries] (section 3: RoundPaymentSummary, derived,
    keyed by (round, holder), [paid_amount] the sum of the amounts of the
    RoundPayment rows).  One row for every (round, holder) of
    [round_payments], in the order in which the keys first occur, with the
    sum of the amounts of the key, in MCB. *)
Definition round_payment_of (mining_round holder : string) (s : RoundPaymentSummary.t)
  : bool :=
  (String.eqb (RoundPaymentSummary.mining_round s) mining_round
   && String.eqb (RoundPaymentSummary.holder s) holder)%bool.

Definition add_round_payment (sums : list RoundPaymentSummary.t) (rp : RoundPayment.t)
  : list RoundPaymentSummary.t :=
  let mining_round := RoundPayment.mining_round rp in
  let holder := RoundPayment.holder rp in
  let amount := Wad.to_decimal (RoundPayment.amount rp) in
  if existsb (round_payment_of mining_round holder) sums then
    map (fun s =>
           if round_payment_of mining_round holder s then
             {| RoundPaymentSummary.mining_round := mining_round;
                RoundPaymentSummary.holder := holder;
                RoundPaymentSummary.paid_amount :=
                  Qred (RoundPaymentSummary.paid_amount s + amount) |}
           else s)
        sums
  else
    sums ++ [{| RoundPaymentSummary.mining_round := mining_round;
                RoundPaymentSummary.holder := holder;
                RoundPaymentSummary.paid_amount := amount |}].

Definition round_payment_summary_view (rows : list RoundPayment.t)
  : list RoundPaymentSummary.t :=
  fold_left add_round_payment rows [].

(** [db_session.execute("refresh materialized view
    round_payment_summaries")]: the view takes the rows its query gives on
    the tables of the session. *)
Definition refresh_round_payment_summaries (db_session : PayerDB) : PayerDB :=
  {| payment_transactions := payment_transactions db_session;
     payments := payments db_session;
     round_payments := round_payments db_session;
     round_payment_summaries := round_payment_summary_view (round_payments db_session);
     mature_mining_rewards := mature_mining_rewards db_session |}.

(** What the payer does outside the process and the store, in order. *)
Inductive event : Type :=
| WaitForTransactionReceipt (tx_hash : string)
| ReadUnpaidRewards
| GetGasPrice
| DisperseToken (miners : list string) (amounts : list Wad.t) (nonce gas_price : Z).

Module Payer.

Record t : Type := { gas_price : Z; nonce : Z }.

(** The outcome of a method: the object, the store, what was done outside,
    and the exception that left the method, if any. *)
Record Outcome (A : Type) : Type :=
  { payer : t; db : PayerDB; trace : list event; returned : result A }.
Arguments payer {A} o.
Arguments db {A} o.
Arguments trace {A} o.
Arguments returned {A} o.

(** The constants of [config] the payer reads. *)
Record Config : Type :=
  { MINING_ROUND : string;
    PAYER_ADDRESS : string;
    MCB_TOKEN_ADDRESS : string }.

(** The node, the disperse contract, the gas oracle and the clock, as
    they answer during one cycle: a call returns or raises.  The gas
    oracle answers with its status code and with the number that the JSON
    of its body has under [config.GAS_LEVEL] (an int or a float); a
    request that raises, a body that is not JSON and a level that is not a
    number all leave [_get_gas_price] through its [except]. *)
Record World : Type :=
  { eth_getTransactionCount : string -> Z;
    waitForTransactionReceipt : string -> result Receipt;
    disperseToken :
      string -> list string -> list Wad.t -> string -> Z -> Z -> result string;
    gas_oracle : result (Z * Num.number);
    utcnow : Z }.

Section Cycle.

(** The precision of the decimal context. *)
Variable prec : Z.

Variable config : Config.

(** [PaymentTransaction.transaction_status] ([model], not in the sources
    at hand): the status a row takes for the status code it is given. *)
Variable transaction_status : Z -> PaymentTransaction.status_t.

Variable world : World.

(** [web3.toWei(x, "gwei")]: the number is read from its [str] (the
    [repr] of a float) and the product with 10^9 is cut to an integer. *)
Definition toWei_gwei (x : Num.number) : Z :=
  Num.truncate (Num.str_value x * inject_Z (10 ^ 9)).

(** [resp.status_code / 100 == 2] and [rsp.get(config.GAS_LEVEL) / 10] are
    true divisions.  The first is compared with 2 only: the division of
    two ints is rounded correctly, so the float is 2.0 exactly when the
    quotient is 2, and the test is made on the quotient.  The second is
    the float that is handed to [toWei]. *)
Definition _get_gas_price (self : t) : t :=
  match gas_oracle world with
  | Ok (status_code, level) =>
      if Qeq_bool (inject_Z status_code / 100) 2 then
        {| gas_price := toWei_gwei (Num.truediv level (Num.Int 10)); nonce := nonce self |}
      else self
  | Raise _ => self
  end.

Definition _init_payer_nonce (self : t) (db_session : PayerDB) : t :=
  match first_max PaymentTransaction.transaction_nonce (payment_transactions db_session) with
  | None =>
      let count := eth_getTransactionCount world (PAYER_ADDRESS config) in
      {| gas_price := gas_price self; nonce := count + 1 |}
  | Some latest_transaction =>
      {| gas_price := gas_price self;
         nonce := PaymentTransaction.transaction_nonce latest_transaction + 1 |}
  end.

Definition __init__ (db_session : PayerDB) : t :=
  let self := {| gas_price := toWei_gwei (Num.Int 10); nonce := 0 |} in
  let self := _get_gas_price self in
  let self := {| gas_price := gas_price self; nonce := 0 |} in
  _init_payer_nonce self db_session.

Definition set_status (s : PaymentTransaction.status_t) (pt : PaymentTransaction.t)
  : PaymentTransaction.t :=
  {| PaymentTransaction.id := PaymentTransaction.id pt;
     PaymentTransaction.transaction_nonce := PaymentTransaction.transaction_nonce pt;
     PaymentTransaction.transaction_data := PaymentTransaction.transaction_data pt;
     PaymentTransaction.transaction_hash := PaymentTransaction.transaction_hash pt;
     PaymentTransaction.status := s |}.

Definition next_id (rows : list PaymentTransaction.t) : Z :=
  1 + fold_right Z.max 0 (map PaymentTransaction.id rows).

Definition _save_payment_transaction (self : t) (tx_hash : string)
    (miners : list string) (amounts : list Wad.t) (db_session : PayerDB) : PayerDB :=
  let pt :=
    {| PaymentTransaction.id := next_id (payment_transactions db_session);
       PaymentTransaction.transaction_nonce := nonce self;
       PaymentTransaction.transaction_data := (miners, amounts);
       PaymentTransaction.transaction_hash := tx_hash;
       PaymentTransaction.status := transaction_status 0 |} in
  {| payment_transactions := payment_transactions db_session ++ [pt];
     payments := payments db_session;
     round_payments := round_payments db_session;
     round_payment_summaries := round_payment_summaries db_session;
     mature_mining_rewards := mature_mining_rewards db_session |}.

Definition add_payment (p : Payment.t) (db_session : PayerDB) : PayerDB :=
  {| payment_transactions := payment_transactions db_session;
     payments := payments db_session ++ [p];
     round_payments := round_payments db_session;
     round_payment_summaries := round_payment_summaries db_session;
     mature_mining_rewards := mature_mining_rewards db_session |}.

(** The loop over [range(len(miners))]: [amounts[i]] past the end of
    [amounts] raises; the [Payment] is added to the session (and the view
    [payment_summaries], which is not among the tables here, refreshed);
    the [RoundPayment] [rp] is built and filled in, and it is not added to
    the session; the view [round_payment_summaries] is refreshed on every
    turn. *)
Fixpoint save_payments_loop (pt_id : Z) (miners : list string) (amounts : list Wad.t)
    (db_session : PayerDB) : result PayerDB :=
  match miners with
  | [] => Ok db_session
  | miner :: miners' =>
      match amounts with
      | [] => Raise IndexError
      | amount :: amounts' =>
          let p := {| Payment.holder := miner;
                      Payment.amount := amount;
                      Payment.pay_time := utcnow world;
                      Payment.transaction_id := pt_id |} in
          let db_session := add_payment p db_session in
          let rp := {| RoundPayment.mining_round := MINING_ROUND config;
                       RoundPayment.holder := miner;
                       RoundPayment.amount := amount;
                       RoundPayment.payment_id := None |} in
          let db_session := refresh_round_payment_summaries db_session in
          save_payments_loop pt_id miners' amounts' db_session
      end
  end.

Definition has_hash (h : string) (pt : PaymentTransaction.t) : bool :=
  String.eqb (PaymentTransaction.transaction_hash pt) h.

Definition set_payment_transactions (db_session : PayerDB)
    (rows : list PaymentTransaction.t) : PayerDB :=
  {| payment_transactions := rows;
     payments := payments db_session;
     round_payments := round_payments db_session;
     round_payment_summaries := round_payment_summaries db_session;
     mature_mining_rewards := mature_mining_rewards db_session |}.

(** The body of the [try] of [_save_payments_info]: the store as the
    commit leaves it. *)
Definition save_payments_info_try (tx_receipt : Receipt) (miners : list string)
    (amounts : list Wad.t) (db_session : PayerDB) : result PayerDB :=
  match filter (has_hash (transactionHash tx_receipt)) (payment_transactions db_session) with
  | [] => Raise AttributeError
  | pt :: _ =>
      let pt := set_status (transaction_status (receipt_status tx_receipt)) pt in
      let db_session :=
        set_payment_transactions db_session
          (update_first (has_hash (transactionHash tx_receipt))
             (set_status (transaction_status (receipt_status tx_receipt)))
             (payment_transactions db_session)) in
      if PaymentTransaction.status_eqb (PaymentTransaction.status pt) PaymentTransaction.SUCCESS
      then save_payments_loop (PaymentTransaction.id pt) miners amounts db_session
      else Ok db_session
  end.

(** An exception in the [try] is logged and the session rolled back, the
    refreshes of the view with the rest. *)
Definition _save_payments_info (tx_receipt : Receipt) (miners : list string)
    (amounts : list Wad.t) (db_session : PayerDB) : PayerDB :=
  match save_payments_info_try tx_receipt miners amounts db_session with
  | Ok db_session' => db_session'
  | Raise _ => db_session
  end.

Definition is_pending (pt : PaymentTransaction.t) : bool :=
  (PaymentTransaction.status_eqb (PaymentTransaction.status pt) PaymentTransaction.INIT
   || PaymentTransaction.status_eqb (PaymentTransaction.status pt) PaymentTransaction.PENDING)%bool.

(** The loop of [_check_pending_transactions] over the rows read at its
    start: the store, the waits made, and whether the loop went through. *)
Fixpoint check_pending_loop (pending_transactions : list PaymentTransaction.t)
    (db_session : PayerDB) : PayerDB * list event * bool :=
  match pending_transactions with
  | [] => (db_session, [], true)
  | transaction :: rest =>
      let tx_hash := PaymentTransaction.transaction_hash transaction in
      match waitForTransactionReceipt world tx_hash with
      | Raise _ => (db_session, [WaitForTransactionReceipt tx_hash], false)
      | Ok tx_receipt =>
          let data := PaymentTransaction.transaction_data transaction in
          let db_session := _save_payments_info tx_receipt (fst data) (snd data) db_session in
          let '(db_session, evs, ok) := check_pending_loop rest db_session in
          (db_session, WaitForTransactionReceipt tx_hash :: evs, ok)
      end
  end.

Definition _check_pending_transactions (db_session : PayerDB)
  : PayerDB * list event * bool :=
  let pending_transactions := filter is_pending (payment_transactions db_session) in
  check_pending_loop pending_transactions db_session.

(** The rows of the query of [_get_miner_unpaid_reward]: the mature rewards
    of the round, each with the [paid_amount] of every summary row of the
    same holder, or with [None] when the outer join finds none. *)
Definition unpaid_reward_items (db_session : PayerDB) : list (string * Q * option Q) :=
  flat_map
    (fun m =>
       match filter (fun s => String.eqb (MatureMiningReward.holder m)
                                         (RoundPaymentSummary.holder s))
                    (round_payment_summaries db_session) with
       | [] => [(MatureMiningReward.holder m, MatureMiningReward.mcb_balance m, None)]
       | joined =>
           map (fun s => (MatureMiningReward.holder m, MatureMiningReward.mcb_balance m,
                          Some (RoundPaymentSummary.paid_amount s)))
               joined
       end)
    (filter (fun m => String.eqb (MatureMiningReward.mining_round m) (MINING_ROUND config))
            (mature_mining_rewards db_session)).

Definition _get_miner_unpaid_reward (db_session : PayerDB)
  : result (list string * list Wad.t) :=
  for_each
    (fun (result : list string * list Wad.t) (item : string * Q * option Q) =>
       let '(holder, mcb_balance, paid_amount) := item in
       match paid_amount with
       | None => Raise TypeError
       | Some paid_amount =>
           let unpaid := Decimal.sub prec mcb_balance paid_amount in
           if Decimal.ltb 0 unpaid then
             Ok (fst result ++ [holder], snd result ++ [Wad.from_decimal unpaid])
           else Ok result
       end)
    ([], []) (unpaid_reward_items db_session).

(** [Disperse.disperse_token] ([contract/disperse.py]). *)
Definition disperse_token (token : string) (addresses : list string)
    (amounts : list Wad.t) (user : string) (nonce gasPrice : Z) : result string :=
  disperseToken world token addresses amounts user gasPrice nonce.

Definition run (self : t) (db_session : PayerDB) : Outcome unit :=
  let '(db_session, waits, ok) := _check_pending_transactions db_session in
  if negb ok then
    {| payer := self; db := db_session; trace := waits; returned := Ok tt |}
  else
    match _get_miner_unpaid_reward db_session with
    | Raise e =>
        {| payer := self; db := db_session;
           trace := waits ++ [ReadUnpaidRewards]; returned := Raise e |}
    | Ok (miners, amounts) =>
        if (List.length miners =? 0)%nat then
          {| payer := self; db := db_session;
             trace := waits ++ [ReadUnpaidRewards]; returned := Ok tt |}
        else
          let self := _get_gas_price self in
          let self := {| gas_price := gas_price self; nonce := nonce self + 1 |} in
          let sent :=
            waits ++ [ReadUnpaidRewards; GetGasPrice;
                      DisperseToken miners amounts (nonce self) (gas_price self)] in
          match disperse_token (MCB_TOKEN_ADDRESS config) miners amounts (PAYER_ADDRESS config)
                  (nonce self) (gas_price self) with
          | Raise _ =>
              {| payer := self; db := db_session; trace := sent; returned := Ok tt |}
          | Ok tx_hash =>
              let db_session :=
                _save_payment_transaction self tx_hash miners amounts db_session in
              match waitForTransactionReceipt world tx_hash with
              | Raise _ =>
                  {| payer := self; db := db_session;
                     trace := sent ++ [WaitForTransactionReceipt tx_hash];
                     returned := Ok tt |}
              | Ok tx_receipt =>
                  {| payer := self;
                     db := _save_payments_info tx_receipt miners amounts db_session;
                     trace := sent ++ [WaitForTransactionReceipt tx_hash];
                     returned := Ok tt |}
              end
          end
    end.

End Cycle.
End Payer.

(* ================================================================== *)
(** * The statements of the specification and the data of the examples *)
(* ================================================================== *)

(** What the specification says, in its own words, for the properties
    that are compared with the code. *)
Module Spec.

(** "(M, N) = (ZHOU_M, ZHOU_N) for ZHOU; (QIN_M, QIN_N) for QIN; default
    (2, 102500) otherwise." *)
Definition factor_constants (config : Config) (mining_round : string)
  : Num.number * Num.number :=
  if String.eqb mining_round "ZHOU" then (ZHOU_M config, ZHOU_N config)
  else if String.eqb mining_round "QIN" then (QIN_M config, QIN_N config)
  else (Num.Int 2, Num.Int 102500).

(** "mcb_weight = holder_mcb_balance / (holder_total_amm_reward x N); if
    holder_total_amm_reward = 0 then mcb_weight = 0.
    factor = 1 + min(mcb_weight, 1) x M." *)
Definition reward_factor (config : Config) (mining_round : string)
    (reward holder_mcb_balance : Q) : Q :=
  let '(M, N) := factor_constants config mining_round in
  let mcb_weight :=
    if Qeq_bool reward 0 then 0%Q
    else (holder_mcb_balance / (reward * Num.value N))%Q in
  (1 + Qmin mcb_weight 1 * Num.value M)%Q.

(** "unpaid_rewards(round) -> [(holder, Decimal)] = mature_reward(holder)
    - paid_amount(holder) where the difference is > 0", the paid amount
    being the sum of the round payments of the holder (none: 0). *)
Definition paid_amount (mining_round holder : string) (db_session : PayerDB) : Q :=
  Qsum (map RoundPaymentSummary.paid_amount
          (filter (fun s => (String.eqb (RoundPaymentSummary.mining_round s) mining_round
                             && String.eqb (RoundPaymentSummary.holder s) holder)%bool)
                  (round_payment_summaries db_session))).

Definition unpaid_rewards (mining_round : string) (db_session : PayerDB)
  : list (string * Q) :=
  flat_map
    (fun m =>
       let unpaid :=
         (MatureMiningReward.mcb_balance m
          - paid_amount mining_round (MatureMiningReward.holder m) db_session)%Q in
       if Qle_bool unpaid 0 then [] else [(MatureMiningReward.holder m, Qred unpaid)])
    (filter (fun m => String.eqb (MatureMiningReward.mining_round m) mining_round)
            (mature_mining_rewards db_session)).

(** "SHANG: 1 if <= 0.2; 0.1 if >= 0.9; else 44/35 - imbalance x 9/7",
    times the share-token balance of the holder. *)
Definition shang_effective_share (holder_share_token_amount imbalance_rate : Q) : Q :=
  if Qle_bool imbalance_rate (2 # 10) then holder_share_token_amount
  else if Qle_bool (9 # 10) imbalance_rate then (holder_share_token_amount * (1 # 10))%Q
  else (holder_share_token_amount * ((44 # 35) - imbalance_rate * (9 # 7)))%Q.

End Spec.

Module Example.

Open Scope string_scope.

(** A configuration: the forks in the order of the rounds, and factor
    constants for ZHOU that differ from the defaults. *)
Definition config : Config :=
  {| ETH_PERP_SHARE_TOKEN_ADDRESS := "0xEth";
     LINK_PERP_SHARE_TOKEN_ADDRESS := "0xLink";
     COMP_PERP_SHARE_TOKEN_ADDRESS := "0xComp";
     LEND_PERP_SHARE_TOKEN_ADDRESS := "0xLend";
     SNX_PERP_SHARE_TOKEN_ADDRESS := "0xSnx";
     BTC_PERP_SHARE_TOKEN_ADDRESS := "0xBtc";
     UNISWAP_MCB_ETH_SHARE_TOKEN_ADDRESS := "0xUniEth";
     UNISWAP_MCB_USDC_SHARE_TOKEN_ADDRESS := "0xUniUsdc";
     MCB_TOKEN_ADDRESS := "0xMcb";
     CHAINLINK_BTC_USD_ADDRESS := "0xFeed";
     XIA_REBALANCE_HARD_FORK_BLOCK_NUMBER := 10000000;
     SHANG_REWARD_LINK_POOL_BLOCK_NUMBER := 10200000;
     SHANG_REWARD_BTC_POOL_BLOCK_NUMBER := 10300000;
     ZHOU_BEGIN_BLOCK_NUMBER := 10500000;
     ZHOU_REWARD_COMP_POOL_BLOCK_NUMBER := 10600000;
     ZHOU_REWARD_LEND_POOL_BLOCK_NUMBER := 10700000;
     ZHOU_REWARD_SNX_POOL_BLOCK_NUMBER := 10800000;
     QIN_BEGIN_BLOCK_NUMBER := 11000000;
     QIN_REDUCE_REWARD_BLOCK_NUMBER := 11500000;
     QIN_REWARD_BTC_POOL_BLOCK_NUMBER := 11200000;
     ZHOU_M := Num.Int 5;
     ZHOU_N := Num.Int 1;
     QIN_M := Num.Int 4;
     QIN_N := Num.Int 2000 |}.

(** The default precision of [decimal]. *)
Definition prec : Z := 28.

Definition engine (mining_round : string) : ShareMining.t :=
  ShareMining.__init__ config 0 20000000 (Num.Int 1) mining_round.

Definition token_balance (token holder : string) (balance : Q) : TokenBalance.t :=
  {| TokenBalance.token := token;
     TokenBalance.holder := holder;
     TokenBalance.balance := balance |}.

(** The two UNISWAP pools hold 3 and 1 MCB; alice and bob hold the shares
    of the first pool, carol those of the second. *)
Definition uniswap_db : DBSession :=
  {| token_balances :=
       [ token_balance "0xmcb" "0xunieth" 3;
         token_balance "0xmcb" "0xuniusdc" 1;
         token_balance "0xunieth" "alice" 2;
         token_balance "0xunieth" "bob" 2;
         token_balance "0xuniusdc" "carol" 5 ];
     position_balances := [];
     perp_share_amm_proxy_maps := [];
     chain_link_price_events := [];
     immature_mining_rewards := [];
     immature_mining_reward_summaries := [];
     theory_mining_rewards := [] |}.

(** The [pool_info] of the UNISWAP group of the rounds SHANG, ZHOU and
    QIN, and of the round HAN, as [sync] builds them. *)
Definition uniswap_pool_info (config : Config) : Dict.t PoolInfo :=
  Dict.set "UNISWAP_MCB_ETH"
    (ShareMining.uniswap_pool (UNISWAP_MCB_ETH_SHARE_TOKEN_ADDRESS config)) [].

Definition han_pool_info (config : Config) : Dict.t PoolInfo :=
  Dict.set "UNISWAP_MCB_USDC"
    (ShareMining.uniswap_pool (UNISWAP_MCB_USDC_SHARE_TOKEN_ADDRESS config))
    (Dict.set "UNISWAP_MCB_ETH"
       (ShareMining.uniswap_pool (UNISWAP_MCB_ETH_SHARE_TOKEN_ADDRESS config)) []).

(** The payer: one transaction waits for its receipt, alice has a mature
    reward of 5 MCB and no payment yet. *)
Definition payer_config : Payer.Config :=
  {| Payer.MINING_ROUND := "HAN";
     Payer.PAYER_ADDRESS := "0xPayer";
     Payer.MCB_TOKEN_ADDRESS := "0xMcb" |}.

Definition transaction_status (code : Z) : PaymentTransaction.status_t :=
  if Z.eqb code 1 then PaymentTransaction.SUCCESS
  else if Z.eqb code 0 then PaymentTransaction.INIT
  else PaymentTransaction.FAILED.

Definition pending_transaction : PaymentTransaction.t :=
  {| PaymentTransaction.id := 1;
     PaymentTransaction.transaction_nonce := 7;
     PaymentTransaction.transaction_data := (["alice"], [5 * 10 ^ 18]);
     PaymentTransaction.transaction_hash := "0xabc";
     PaymentTransaction.status := PaymentTransaction.INIT |}.

Definition mature_reward (holder : string) (mcb_balance : Q) : MatureMiningReward.t :=
  {| MatureMiningReward.mining_round := "HAN";
     MatureMiningReward.holder := holder;
     MatureMiningReward.mcb_balance := mcb_balance |}.

Definition payer_db : PayerDB :=
  {| payment_transactions := [pending_transaction];
     payments := [];
     round_payments := [];
     round_payment_summaries := [];
     mature_mining_rewards := [mature_reward "alice" 5] |}.

Definition success_receipt : Receipt :=
  {| transactionHash := "0xabc"; receipt_status := 1 |}.

(** A node that confirms every transaction, and one whose receipts time
    out. *)
Definition confirming_world : Payer.World :=
  {| Payer.eth_getTransactionCount := fun _ => 40;
     Payer.waitForTransactionReceipt :=
       fun tx_hash => Ok {| transactionHash := tx_hash; receipt_status := 1 |};
     Payer.disperseToken := fun _ _ _ _ _ _ => Ok "0xdef";
     Payer.gas_oracle := Ok (200, Num.Int 500);
     Payer.utcnow := 1600000000 |}.

Definition timeout_world : Payer.World :=
  {| Payer.eth_getTransactionCount := fun _ => 40;
     Payer.waitForTransactionReceipt := fun _ => Raise (Exception "timeout");
     Payer.disperseToken := fun _ _ _ _ _ _ => Ok "0xdef";
     Payer.gas_oracle := Ok (200, Num.Int 500);
     Payer.utcnow := 1600000000 |}.

(** A store with no transaction where alice was paid 2 of her 5 MCB: the
    round payment is on record (the payer writes none, see C1) and the
    view has it. *)
Definition paid_round_payments : list RoundPayment.t :=
  [{| RoundPayment.mining_round := "HAN";
      RoundPayment.holder := "alice";
      RoundPayment.amount := 2 * 10 ^ 18;
      RoundPayment.payment_id := Some 1 |}].

Definition paid_db : PayerDB :=
  {| payment_transactions := [];
     payments := [];
     round_payments := paid_round_payments;
     round_payment_summaries := round_payment_summary_view paid_round_payments;
     mature_mining_rewards := [mature_reward "alice" 5] |}.



End Example.

(** ** The split between the UNISWAP pools *)

(** The proportion of a UNISWAP pool as the code computes it: the MCB of
    its share-token address over the MCB of the share-token addresses of
    all the UNISWAP pools of the pass; 1 when they hold none. *)
Definition mcb_proportion (prec : Z) (mine all : Q) : Num.number :=
  if Decimal.eqb all 0 then Num.Int 1
  else Num.Dec (Num.ctx_round prec (mine / all)).

(** ** The effective share of the round SHANG *)

(** The binary64 numbers nearest to 0.2, 0.9, 0.1, 44/35 and 9/7: the
    values of [Decimal(0.2)], [Decimal(0.9)], [Decimal(0.1)],
    [Decimal(44/35)] and [Decimal(9/7)]. *)
Definition float_0_2 : Q := 3602879701896397 # 18014398509481984.
Definition float_0_9 : Q := 8106479329266893 # 9007199254740992.
Definition float_0_1 : Q := 3602879701896397 # 36028797018963968.
Definition float_44_35 : Q := 1415417025745013 # 1125899906842624.
Definition float_9_7 : Q := 5790342378047781 # 4503599627370496.

(** The effective share of the round SHANG as the code computes it, in
    the arithmetic of the decimal context. *)
Definition shang_effective_share (prec : Z) (holder_share_token_amount imbalance_rate : Q)
  : Q :=
  if Qle_bool imbalance_rate float_0_2 then holder_share_token_amount
  else if Qle_bool float_0_9 imbalance_rate then
    Decimal.mul prec holder_share_token_amount float_0_1
  else
    Decimal.mul prec holder_share_token_amount
      (Decimal.sub prec float_44_35 (Decimal.mul prec imbalance_rate float_9_7)).

(** ** The budget of a block in the pool rewards *)






(** ** Runs of the reward engine *)

(** Two sessions with the same tables of the watcher: token balances,
    position balances, share map and price events. *)
Definition same_env (a b : DBSession) : Prop :=
  token_balances a = token_balances b
  /\ position_balances a = position_balances b
  /\ perp_share_amm_proxy_maps a = perp_share_amm_proxy_maps b
  /\ chain_link_price_events a = chain_link_price_events b.

(** Two computations that both raise, or both return, with related
    results. *)
Definition result_rel {A B : Type} (R : A -> B -> Prop) (x : result A) (y : result B)
  : Prop :=
  match x, y with
  | Ok a, Ok b => R a b
  | Raise _, Raise _ => True
  | _, _ => False
  end.

(** [d] is [db] with rows appended to [ImmatureMiningReward], the tables
    of the watcher as they were. *)
Definition unchanged (db d : DBSession) : Prop :=
  same_env db d
  /\ immature_mining_rewards d = immature_mining_rewards db
  /\ immature_mining_reward_summaries d = immature_mining_reward_summaries db.

(** Two runs, from [db1] to [d1] and from [db2] to [d2], that append the
    same rows and leave the tables of the watcher as they were. *)
Definition append_alike (db1 db2 d1 d2 : DBSession) : Prop :=
  same_env db1 d1 /\ same_env db2 d2
  /\ exists new,
       immature_mining_rewards d1 = immature_mining_rewards db1 ++ new
       /\ immature_mining_rewards d2 = immature_mining_rewards db2 ++ new.

Definition pass_alike (db1 db2 : DBSession) (r1 r2 : ShareMining.t * DBSession) : Prop :=
  fst r1 = fst r2 /\ append_alike db1 db2 (snd r1) (snd r2).

(** The weights of a pass and the session it leaves: the same weights, and
    only [TheoryMiningReward] written. *)
Definition weights_alike {W : Type} (db1 db2 : DBSession) (r1 r2 : DBSession * W) : Prop :=
  snd r1 = snd r2 /\ unchanged db1 (fst r1) /\ unchanged db2 (fst r2).

(** ** The summary of the immature rewards *)

(** The key of a summary row and of a reward row: (round, pool, holder). *)
Definition summary_key (s : ImmatureMiningRewardSummary.t) : string * string * string :=
  (ImmatureMiningRewardSummary.mining_round s, ImmatureMiningRewardSummary.pool_name s,
   ImmatureMiningRewardSummary.holder s).

Definition reward_key (r : ImmatureMiningReward.t) : string * string * string :=
  (ImmatureMiningReward.mining_round r, ImmatureMiningReward.pool_name r,
   ImmatureMiningReward.holder r).

Definition key_eqb (a b : string * string * string) : bool :=
  (String.eqb (fst (fst a)) (fst (fst b))
   && String.eqb (snd (fst a)) (snd (fst b))
   && String.eqb (snd a) (snd b))%bool.

(** The amounts of the reward rows of a key. *)
Definition rewards_of (k : string * string * string) (rows : list ImmatureMiningReward.t)
  : list Q :=
  map ImmatureMiningReward.mcb_balance (filter (fun r => key_eqb (reward_key r) k) rows).



(** The holders of the summary rows of a round and a pool: the keys of
    [immature_summary_dict]. *)
Definition holders_of_pool (mining_round pool_name : string)
    (sums : list ImmatureMiningRewardSummary.t) : list string :=
  map ImmatureMiningRewardSummary.holder
    (filter (fun item =>
               (String.eqb (ImmatureMiningRewardSummary.mining_round item) mining_round
                && String.eqb (ImmatureMiningRewardSummary.pool_name item) pool_name)%bool)
            sums).





(** The invariant: the balance of every summary row is the sum of the
    reward rows of its (round, pool, holder), and every reward row has the
    summary row of its (round, pool, holder). *)
Definition summary_consistent (db : DBSession) : Prop :=
  (forall s, In s (immature_mining_reward_summaries db) ->
     (ImmatureMiningRewardSummary.mcb_balance s
      == Qsum (rewards_of (summary_key s) (immature_mining_rewards db)))%Q)
  /\ (forall r, In r (immature_mining_rewards db) ->
        exists s, In s (immature_mining_reward_summaries db)
                  /\ summary_key s = reward_key r).

(** The invariant and the key constraint of the summaries, on the two
    lists of rows. *)
Definition consistent_rows (rows : list ImmatureMiningReward.t)
    (sums : list ImmatureMiningRewardSummary.t) : Prop :=
  NoDup (map summary_key sums)
  /\ (forall s, In s sums ->
        (ImmatureMiningRewardSummary.mcb_balance s
         == Qsum (rewards_of (summary_key s) rows))%Q)
  /\ (forall r, In r rows -> exists s, In s sums /\ summary_key s = reward_key r).

(** The keys of the tables: (round, pool, holder) for the summaries,
    (token, holder) for the token balances. *)
Definition summary_keys_unique (db : DBSession) : Prop :=
  NoDup (map summary_key (immature_mining_reward_summaries db)).

Definition token_balance_keys_unique (db : DBSession) : Prop :=
  NoDup (map (fun t => (TokenBalance.token t, TokenBalance.holder t)) (token_balances db)).

(** The amounts a decimal context of precision [prec] adds and subtracts
    without rounding: 18 fractional digits, and below [10^(prec - 18)] in
    magnitude (10^10 MCB for the default precision 28). *)
Definition scale18 (q : Q) : Prop :=
  exists n : Z, (q == inject_Z n / inject_Z (10 ^ 18))%Q.

Definition fits (prec : Z) (q : Q) : Prop :=
  scale18 q /\ (Qabs q < Num.pow10 (prec - 18))%Q.

(** The stored rewards are in that range: every amount has 18 fractional
    digits, and the magnitudes of the rewards of one (round, pool, holder)
    add up to less than [10^(prec - 18)]. *)
Definition in_exact_range (prec : Z) (db : DBSession) : Prop :=
  (forall r, In r (immature_mining_rewards db) ->
     scale18 (ImmatureMiningReward.mcb_balance r))
  /\ (forall k, (Qsum (map Qabs (rewards_of k (immature_mining_rewards db)))
                 < Num.pow10 (prec - 18))%Q).

(** One step of the life of the tables: a [sync] that returns (one that
    raises leaves its transaction to the watcher, which discards it), a
    [rollback], or the watcher writing its own tables. *)
Inductive engine_step (prec : Z) (config : Config) : DBSession -> DBSession -> Prop :=
| step_sync : forall self watcher_id block_number block_hash db self' db',
    token_balance_keys_unique db ->
    ShareMining.sync prec config self watcher_id block_number block_hash db = Ok (self', db') ->
    engine_step prec config db db'
| step_rollback : forall self watcher_id block_number db,
    engine_step prec config db (ShareMining.rollback prec self watcher_id block_number db)
| step_watcher : forall db db',
    immature_mining_rewards db' = immature_mining_rewards db ->
    immature_mining_reward_summaries db' = immature_mining_reward_summaries db ->
    engine_step prec config db db'.

(** The states reached by such steps while the stored rewards stay in the
    exact range of the decimal context. *)
Inductive reachable (prec : Z) (config : Config) (db : DBSession) : DBSession -> Prop :=
| reachable_start : reachable prec config db db
| reachable_step : forall db1 db2,
    reachable prec config db db1 ->
    engine_step prec config db1 db2 ->
    in_exact_range prec db2 ->
    reachable prec config db db2.

(** ** Runs of the payer *)

(** What identifies a [PaymentTransaction] row, its status apart. *)
Definition transaction_key (pt : PaymentTransaction.t)
  : Z * Z * (list string * list Wad.t) * string :=
  (PaymentTransaction.id pt, PaymentTransaction.transaction_nonce pt,
   PaymentTransaction.transaction_data pt, PaymentTransaction.transaction_hash pt).

Definition is_disperse (e : event) : bool :=
  match e with DisperseToken _ _ _ _ => true | _ => false end.

Definition is_read_unpaid (e : event) : bool :=
  match e with ReadUnpaidRewards => true | _ => false end.





(** ** What a block adds and a rollback removes *)

(** A reward row of the block [block_number] and the round
    [mining_round]. *)
Definition row_of_block (mining_round : string) (block_number : Z)
    (r : ImmatureMiningReward.t) : Prop :=
  ImmatureMiningReward.block_number r = block_number
  /\ ImmatureMiningReward.mining_round r = mining_round.

(** [d] is [db] with rows of the block and the round appended to
    [ImmatureMiningReward], the tables of the watcher as they were. *)
Definition appends_block_rows (mining_round : string) (block_number : Z)
    (db d : DBSession) : Prop :=
  same_env db d
  /\ exists new,
       immature_mining_rewards d = immature_mining_rewards db ++ new
       /\ Forall (row_of_block mining_round block_number) new.

(** The summary rows of the rounds other than [mining_round]. *)
Definition other_rounds (mining_round : string)
    (sums : list ImmatureMiningRewardSummary.t) : list ImmatureMiningRewardSummary.t :=
  filter (fun s => negb (String.eqb (ImmatureMiningRewardSummary.mining_round s) mining_round))
         sums.

(** The example store after the run of the round HAN on the block
    12000000: three reward rows and their summaries. *)
Definition synced_db : DBSession :=
  match ShareMining.sync Example.prec Example.config (Example.engine "HAN") 0 12000000
          "0xb10c"%string Example.uniswap_db with
  | Ok (_, d) => d
  | Raise _ => Example.uniswap_db
  end.

(** The example store where alice has, from the block before, a reward
    of 9999999999.999999999999999999 MCB in the first pool: the largest
    amount with 18 fractional digits that 28 significant digits hold. *)
Definition large_reward_db : DBSession :=
  {| token_balances := token_balances Example.uniswap_db;
     position_balances := [];
     perp_share_amm_proxy_maps := [];
     chain_link_price_events := [];
     immature_mining_rewards :=
       [{| ImmatureMiningReward.block_number := 11999999;
           ImmatureMiningReward.pool_name := "UNISWAP_MCB_ETH";
           ImmatureMiningReward.mining_round := "HAN";
           ImmatureMiningReward.holder := "alice";
           ImmatureMiningReward.mcb_balance :=
             9999999999999999999999999999 # 1000000000000000000 |}];
     immature_mining_reward_summaries :=
       [{| ImmatureMiningRewardSummary.mining_round := "HAN";
           ImmatureMiningRewardSummary.pool_name := "UNISWAP_MCB_ETH";
           ImmatureMiningRewardSummary.holder := "alice";
           ImmatureMiningRewardSummary.mcb_balance :=
             9999999999999999999999999999 # 1000000000000000000 |}];
     theory_mining_rewards := [] |}.

(** [d] has the summary rows of [db], in place and with their keys, and
    possibly more after them. *)
Definition extends_summaries (db d : DBSession) : Prop :=
  exists extra,
    map summary_key (immature_mining_reward_summaries d)
    = map summary_key (immature_mining_reward_summaries db) ++ extra.

(** ** The pools of a pass *)

(** The name of a pool with what a pass reads of it from the store: the
    supply of its share token, the items of the share token and the type
    of the pool; for an entry of [pool_value_info] and for an entry of
    [pool_info] on the store. *)
Definition pool_facts (entry : string * PoolValue)
  : string * (Q * list (string * Q) * pool_type) :=
  (fst entry,
   (total_share_token_amount (snd entry), share_token_items (snd entry),
    pv_pool_type (snd entry))).

Definition pool_facts_on (db_session : DBSession) (entry : string * PoolInfo)
  : string * (Q * list (string * Q) * pool_type) :=
  (fst entry,
   (ShareMining._get_total_share_token_amount (pool_share_token_address (snd entry))
      db_session,
    ShareMining._get_share_token_items (pool_share_token_address (snd entry)) db_session,
    pi_pool_type (snd entry))).

(** The share-token addresses of the pools the round QIN rewards on a
    block: the AMM pools of the first pass and the Uniswap pool of the
    second. *)
Definition qin_pool_addresses (config : Config) (block_number : Z) : list string :=
  [ETH_PERP_SHARE_TOKEN_ADDRESS config; LINK_PERP_SHARE_TOKEN_ADDRESS config;
   COMP_PERP_SHARE_TOKEN_ADDRESS config; LEND_PERP_SHARE_TOKEN_ADDRESS config;
   SNX_PERP_SHARE_TOKEN_ADDRESS config]
  ++ (if QIN_REWARD_BTC_POOL_BLOCK_NUMBER config <=? block_number
      then [BTC_PERP_SHARE_TOKEN_ADDRESS config] else [])
  ++ [UNISWAP_MCB_ETH_SHARE_TOKEN_ADDRESS config].

(** The [pool_info] of the AMM pass of the round QIN, as [sync] builds
    it: ETH with 0.8 of the budget of the pass, the other pools with equal
    parts of 0.2, BTC among them from its block on. *)
Definition qin_amm_pool_info (config : Config) (block_number : Z) : Dict.t PoolInfo :=
  let btc := QIN_REWARD_BTC_POOL_BLOCK_NUMBER config <=? block_number in
  let little := Num.truediv (Num.lit (2 # 10)) (Num.Int (if btc then 5 else 4)) in
  [("ETH_PERP"%string,
    ShareMining.amm_pool (ETH_PERP_SHARE_TOKEN_ADDRESS config) true (Some (Num.lit (8 # 10))));
   ("LINK_PERP"%string,
    ShareMining.amm_pool (LINK_PERP_SHARE_TOKEN_ADDRESS config) true (Some little));
   ("COMP_PERP"%string,
    ShareMining.amm_pool (COMP_PERP_SHARE_TOKEN_ADDRESS config) true (Some little));
   ("LEND_PERP"%string,
    ShareMining.amm_pool (LEND_PERP_SHARE_TOKEN_ADDRESS config) true (Some little));
   ("SNX_PERP"%string,
    ShareMining.amm_pool (SNX_PERP_SHARE_TOKEN_ADDRESS config) true (Some little))]
  ++ (if btc
      then [("BTC_PERP"%string,
             ShareMining.amm_pool (BTC_PERP_SHARE_TOKEN_ADDRESS config) false (Some little))]
      else []).

(** ** The tables of the payer *)



(** What one row of the query of [_get_miner_unpaid_reward] adds to the
    result: the holder with the unpaid amount as a [Wad], when the amount
    is positive. *)
Definition unpaid_entry (prec : Z) (item : string * Q * option Q) : list (string * Wad.t) :=
  match item with
  | (holder, mcb_balance, Some paid_amount) =>
      let unpaid := Decimal.sub prec mcb_balance paid_amount in
      if Decimal.ltb 0 unpaid then [(holder, Wad.from_decimal unpaid)] else []
  | (_, _, None) => []
  end.

(** The [Payment] rows of a transaction: one for each miner, with the
    amount at the place of the miner. *)
Definition payments_for (world : Payer.World) (pt_id : Z) (miners : list string)
    (amounts : list Wad.t) : list Payment.t :=
  map (fun ha => {| Payment.holder := fst ha;
                    Payment.amount := snd ha;
                    Payment.pay_time := Payer.utcnow world;
                    Payment.transaction_id := pt_id |})
      (combine miners amounts).

(** The store after the loop of [_save_payments_info] went through: the
    payments of the miners appended, and the view of the round payments
    refreshed when there is a miner. *)
Definition saved_payments (world : Payer.World) (pt_id : Z) (miners : list string)
    (amounts : list Wad.t) (db_session : PayerDB) : PayerDB :=
  {| payment_transactions := payment_transactions db_session;
     payments := payments db_session ++ payments_for world pt_id miners amounts;
     round_payments := round_payments db_session;
     round_payment_summaries :=
       match miners with
       | [] => round_payment_summaries db_session
       | _ :: _ => round_payment_summary_view (round_payments db_session)
       end;
     mature_mining_rewards := mature_mining_rewards db_session |}.

(** Whether the [try] of [_save_payments_info] reaches its commit for a
    stored transaction: the status of the receipt is not SUCCESS, or every
    miner has an amount. *)
Definition receipt_applies (transaction_status : Z -> PaymentTransaction.status_t)
    (tx_receipt : Receipt) (miners : list string) (amounts : list Wad.t) : bool :=
  (negb (PaymentTransaction.status_eqb (transaction_status (receipt_status tx_receipt))
                                       PaymentTransaction.SUCCESS)
   || (List.length miners <=? List.length amounts)%nat)%bool.

(** A node that answers with the receipt of the hash it is asked for. *)
Definition answers_for_the_hash (world : Payer.World) : Prop :=
  forall tx_hash tx_receipt,
    Payer.waitForTransactionReceipt world tx_hash = Ok tx_receipt ->
    transactionHash tx_receipt = tx_hash.

(** The row [x] after the receipt of the pending transaction [pt] was
    saved: with the status of the receipt, where the save reaches its
    commit. *)
Definition apply_receipt (transaction_status : Z -> PaymentTransaction.status_t)
    (world : Payer.World) (pt x : PaymentTransaction.t) : PaymentTransaction.t :=
  match Payer.waitForTransactionReceipt world (PaymentTransaction.transaction_hash pt) with
  | Ok tx_receipt =>
      if receipt_applies transaction_status tx_receipt
           (fst (PaymentTransaction.transaction_data pt))
           (snd (PaymentTransaction.transaction_data pt))
      then Payer.set_status (transaction_status (receipt_status tx_receipt)) x
      else x
  | Raise _ => x
  end.

(** A stored transaction after the check of the pending transactions. *)
Definition reconciled (transaction_status : Z -> PaymentTransaction.status_t)
    (world : Payer.World) (pt : PaymentTransaction.t) : PaymentTransaction.t :=
  if Payer.is_pending pt then apply_receipt transaction_status world pt pt else pt.

(** ** The rewards of a pool at a block *)

(** The reward rows of a pool. *)
Definition rows_of_pool (pool_name : string) (rows : list ImmatureMiningReward.t)
  : list ImmatureMiningReward.t :=
  filter (fun r => String.eqb (ImmatureMiningReward.pool_name r) pool_name) rows.

(** A pool whose rewards follow the share balances: a UNISWAP pool, or an
    AMM pool before the rebalance fork of XIA. *)
Definition by_share_balance (self : ShareMining.t) (block_number : Z) (ty : pool_type)
  : Prop :=
  (pool_type_eqb ty AMM
   && (ShareMining._xia_rebalance_hard_fork_block_number self <=? block_number))%bool
  = false.

Definition Zsum (l : list Z) : Z := fold_right Z.add 0 l.

(** An entry of [pool_value_info] whose rewards follow the share
    balances, with balances that are not negative and add up to the supply,
    and a reward that is not negative. *)
Definition follows_shares (self : ShareMining.t) (block_number : Z) (pv : PoolValue) : Prop :=
  by_share_balance self block_number (pv_pool_type pv)
  /\ Forall (fun item => (0 <= snd item)%Q) (share_token_items pv)
  /\ (Qsum (map snd (share_token_items pv)) == total_share_token_amount pv)%Q
  /\ (forall P, pool_reward pv = Some P -> 0 <= P).

(** The key of a theory reward, and the part of it a pool type is not in. *)
Definition theory_key (item : TheoryMiningReward.t) : string * pool_type * string :=
  (TheoryMiningReward.mining_round item, TheoryMiningReward.pool_type item,
   TheoryMiningReward.holder item).

Definition theory_row_of (mining_round holder : string) (item : TheoryMiningReward.t) : bool :=
  (String.eqb (TheoryMiningReward.mining_round item) mining_round
   && String.eqb (TheoryMiningReward.holder item) holder)%bool.

(** The theory rewards of a round whose holder is a key of a dict. *)
Definition theory_row_in (mining_round : string) (d : Dict.t Q)
    (item : TheoryMiningReward.t) : bool :=
  (String.eqb (TheoryMiningReward.mining_round item) mining_round
   && Dict.mem (TheoryMiningReward.holder item) d)%bool.

(** What [_save_theory_mining_reward] does to a row it found, the row it
    makes for a holder it did not find, and the rows after the updates of
    a whole dict. *)
Definition with_theory_balance (reward : Q) (item : TheoryMiningReward.t)
  : TheoryMiningReward.t :=
  {| TheoryMiningReward.mining_round := TheoryMiningReward.mining_round item;
     TheoryMiningReward.pool_type := TheoryMiningReward.pool_type item;
     TheoryMiningReward.holder := TheoryMiningReward.holder item;
     TheoryMiningReward.mcb_balance := reward |}.

Definition new_theory_row (mining_round : string) (pool_type : pool_type)
    (entry : string * Q) : TheoryMiningReward.t :=
  {| TheoryMiningReward.mining_round := mining_round;
     TheoryMiningReward.pool_type := pool_type;
     TheoryMiningReward.holder := fst entry;
     TheoryMiningReward.mcb_balance := snd entry |}.

Definition theory_updates (mining_round : string) (d : Dict.t Q)
    (rows : list TheoryMiningReward.t) : list TheoryMiningReward.t :=
  fold_left (fun rows entry =>
               update_last (theory_row_of mining_round (fst entry))
                 (with_theory_balance (snd entry)) rows) d rows.

(** A store with the ETH perpetual: the proxy of the AMM is short 100,
    alice is long 50 and holds one of the two shares, bob holds the other
    share and has no position, dave has a position and no share. *)
Definition perpetual_db : DBSession :=
  {| token_balances :=
       [ Example.token_balance "0xeth" "alice" 1;
         Example.token_balance "0xeth" "bob" 1 ];
     position_balances :=
       [ {| PositionBalance.perpetual_address := "0xperp"%string;
            PositionBalance.holder := "0xproxy"%string;
            PositionBalance.balance := - (100 # 1) |};
         {| PositionBalance.perpetual_address := "0xperp"%string;
            PositionBalance.holder := "alice"%string;
            PositionBalance.balance := 50 # 1 |};
         {| PositionBalance.perpetual_address := "0xperp"%string;
            PositionBalance.holder := "dave"%string;
            PositionBalance.balance := 10 # 1 |} ];
     perp_share_amm_proxy_maps :=
       [ {| PerpShareAmmProxyMap.share_addr := "0xeth"%string;
            PerpShareAmmProxyMap.perp_addr := "0xperp"%string;
            PerpShareAmmProxyMap.amm_addr := "0xamm"%string;
            PerpShareAmmProxyMap.proxy_addr := "0xproxy"%string |} ];
     chain_link_price_events := [];
     immature_mining_rewards := [];
     immature_mining_reward_summaries := [];
     theory_mining_rewards := [] |}.

(** The same store before the AMM has a position. *)
Definition perpetual_db_without_amm : DBSession :=
  {| token_balances := token_balances perpetual_db;
     position_balances := tl (position_balances perpetual_db);
     perp_share_amm_proxy_maps := perp_share_amm_proxy_maps perpetual_db;
     chain_link_price_events := [];
     immature_mining_rewards := [];
     immature_mining_reward_summaries := [];
     theory_mining_rewards := [] |}.

(* ================================================================== *)
(** * Loops and dicts *)
(* ================================================================== *)

Section Loops.

Lemma for_each_invariant {A S : Type} (I : S -> Prop) (body : S -> A -> result S)
    (l : list A) :
  (forall s x s', In x l -> I s -> body s x = Ok s' -> I s') ->
  forall s s', I s -> for_each body s l = Ok s' -> I s'.
Proof.
  induction l as [|x l IH]; intros Hbody s s' Hs Hrun.
  - cbn in Hrun. inversion Hrun; subst. exact Hs.
  - cbn [for_each] in Hrun. destruct (body s x) as [s1|e] eqn:Hx; cbn [bind] in Hrun;
      [|discriminate].
    apply (IH (fun s0 x0 s0' Hin => Hbody s0 x0 s0' (or_intror Hin)) s1 s');
      [|exact Hrun].
    eapply Hbody; [left; reflexivity|exact Hs|exact Hx].
Qed.

Lemma dict_set_Forall {V : Type} (P : V -> Prop) (k : string) (v : V) (d : Dict.t V) :
  P v -> Forall (fun entry => P (snd entry)) d ->
  Forall (fun entry => P (snd entry)) (Dict.set k v d).
Proof.
  intros Hv. induction d as [|[k' v'] d IH]; intros Hd; cbn [Dict.set].
  - constructor; [exact Hv|constructor].
  - inversion Hd as [|? ? Hv' Hd']; subst.
    destruct (String.eqb k k'); constructor; auto.
Qed.

Lemma update_last_keys {A K : Type} (key : A -> K) (p : A -> bool) (f : A -> A) (l : list A) :
  (forall x, key (f x) = key x) -> map key (update_last p f l) = map key l.
Proof.
  intros Hf. induction l as [|x l IH]; [reflexivity|].
  cbn [update_last]. destruct (existsb p l).
  - cbn [map]. rewrite IH. reflexivity.
  - destruct (p x); cbn [map]; [rewrite Hf|]; reflexivity.
Qed.

End Loops.

(* ================================================================== *)
(** * The reward factor ([_get_holder_reward_factor]) *)
(* ================================================================== *)

Section RewardFactor.

Import ShareMining.

(** In the round ZHOU the second [if] has no [elif]: its [else] branch
    assigns the defaults again, so the configuration is not read. *)
Lemma zhou_factor_ignores_config :
  forall prec config config' self holder reward holder_mcb_balance,
    _mining_round self = "ZHOU"%string ->
    _get_holder_reward_factor prec config self holder reward holder_mcb_balance =
    _get_holder_reward_factor prec config' self holder reward holder_mcb_balance.
Proof.
  intros prec config config' self holder reward mcb Hround.
  unfold _get_holder_reward_factor.
  rewrite Hround. reflexivity.
Qed.

(** C7 (the code departs from the claim).  Round ZHOU with [ZHOU_M = 5]
    and [ZHOU_N = 1], a holder with reward 1 and 102500 MCB: the code
    computes the factor with the defaults (2, 102500) and returns
    [1 + 2 = 3]; with the configured constants, as the specification has
    it, the factor is [1 + min(102500, 1) * 5 = 6]. *)
Theorem C7_zhou_factor_uses_defaults :
  exists factor,
    _get_holder_reward_factor Example.prec Example.config (Example.engine "ZHOU")
      "alice" (Some 1%Q) (102500 # 1) = Ok factor
    /\ (factor == 3)%Q
    /\ (Spec.reward_factor Example.config "ZHOU" 1 (102500 # 1) == 6)%Q.
Proof.
  eexists. split; [vm_compute; reflexivity|].
  split; reflexivity.
Qed.

End RewardFactor.

(* ================================================================== *)
(** * The budget of a block ([_get_pool_value_info], lines 163-169) *)
(* ================================================================== *)

Section RewardPerBlock.

Import ShareMining.

Lemma get_pool_value_info_budget :
  forall prec config self block_number pool_info pool_reward_percent db_session self' pvi,
    _get_pool_value_info prec config self block_number pool_info pool_reward_percent
      db_session = Ok (self', pvi) ->
    self' = set_reward_per_block self (reward_per_block_at self block_number).
Proof.
  intros prec config self b pool_info pct db self' pvi.
  unfold _get_pool_value_info.
  destruct (_update_uniswap_pool_proportion _ _ _ _) as [pool_info'|e]; cbn [bind]; [|discriminate].
  destruct (for_each _ _ _) as [st|e]; cbn [bind]; [|discriminate].
  destruct (bound (vl_pool_type st)) as [pt|e]; cbn [bind]; [|discriminate].
  destruct (_ && _)%bool.
  - destruct (for_each _ _ _) as [pvi'|e]; cbn [bind]; [|discriminate].
    intros H; inversion H; reflexivity.
  - intros H; inversion H; reflexivity.
Qed.









End RewardPerBlock.

(* ================================================================== *)
(** * The payer: [_save_payments_info] *)
(* ================================================================== *)

Section SavePaymentsInfo.

Import Payer.

Lemma update_first_length {A : Type} (p : A -> bool) (f : A -> A) (l : list A) :
  List.length (update_first p f l) = List.length l.
Proof.
  induction l as [|x l IH]; cbn; [reflexivity|].
  destruct (p x); cbn; congruence.
Qed.

Lemma update_first_map {A B : Type} (g : A -> B) (p : A -> bool) (f : A -> A) (l : list A) :
  (forall x, g (f x) = g x) -> map g (update_first p f l) = map g l.
Proof.
  intros Hg. induction l as [|x l IH]; cbn; [reflexivity|].
  destruct (p x); cbn; [rewrite Hg|rewrite IH]; reflexivity.
Qed.

(** The loop over the miners goes through when every miner has an
    amount, and raises otherwise. *)
Lemma save_payments_loop_enough :
  forall config world pt_id miners amounts db_session,
    (List.length miners <= List.length amounts)%nat ->
    save_payments_loop config world pt_id miners amounts db_session
    = Ok (saved_payments world pt_id miners amounts db_session).
Proof.
  intros config world pt_id miners.
  induction miners as [|m miners IH]; intros amounts db Hlen.
  - unfold saved_payments, payments_for. cbn [save_payments_loop combine map].
    rewrite app_nil_r. destruct db; reflexivity.
  - destruct amounts as [|a amounts]; [cbn in Hlen; lia|].
    cbn [save_payments_loop]. rewrite IH by (cbn in Hlen; lia).
    unfold saved_payments, payments_for, refresh_round_payment_summaries, add_payment.
    cbn [payment_transactions payments round_payments round_payment_summaries
         mature_mining_rewards combine map fst snd].
    rewrite <- app_assoc. cbn [app].
    destruct miners; reflexivity.
Qed.

Lemma save_payments_loop_short :
  forall config world pt_id miners amounts db_session,
    (List.length amounts < List.length miners)%nat ->
    save_payments_loop config world pt_id miners amounts db_session = Raise IndexError.
Proof.
  intros config world pt_id miners.
  induction miners as [|m miners IH]; intros amounts db Hlen; [cbn in Hlen; lia|].
  destruct amounts as [|a amounts]; [reflexivity|].
  cbn [save_payments_loop]. apply IH. cbn in Hlen. lia.
Qed.

(** What a run of the loop that returns leaves of the store. *)
Lemma save_payments_loop_returns :
  forall config world pt_id miners amounts db_session db',
    save_payments_loop config world pt_id miners amounts db_session = Ok db' ->
    db' = saved_payments world pt_id miners amounts db_session.
Proof.
  intros config world pt_id miners amounts db db' Hrun.
  destruct (Nat.le_gt_cases (List.length miners) (List.length amounts)) as [Hlen|Hlen].
  - rewrite save_payments_loop_enough in Hrun by exact Hlen. inversion Hrun. reflexivity.
  - rewrite save_payments_loop_short in Hrun by exact Hlen. discriminate.
Qed.

(** No run of [_save_payments_info] writes a [RoundPayment]: the object is
    built, and never added to the session. *)
Lemma save_payments_info_round_payments :
  forall config transaction_status world tx_receipt miners amounts db_session,
    round_payments
      (_save_payments_info config transaction_status world tx_receipt miners amounts db_session)
    = round_payments db_session.
Proof.
  intros. unfold _save_payments_info, save_payments_info_try.
  destruct (filter _ _) as [|pt l]; [reflexivity|].
  destruct (PaymentTransaction.status_eqb _ _); [|reflexivity].
  destruct (save_payments_loop _ _ _ _ _ _) as [db'|e] eqn:Hloop; [|reflexivity].
  apply save_payments_loop_returns in Hloop. subst db'. reflexivity.
Qed.

(** A receipt whose status is not SUCCESS writes no [Payment]. *)
Lemma save_payments_info_not_success :
  forall config transaction_status world tx_receipt miners amounts db_session,
    transaction_status (receipt_status tx_receipt) <> PaymentTransaction.SUCCESS ->
    payments
      (_save_payments_info config transaction_status world tx_receipt miners amounts db_session)
    = payments db_session.
Proof.
  intros config ts world r miners amounts db Hns.
  unfold _save_payments_info, save_payments_info_try.
  destruct (filter _ _) as [|pt l]; [reflexivity|].
  cbn [set_status PaymentTransaction.status].
  destruct (ts (receipt_status r)); try contradiction; reflexivity.
Qed.

(** A SUCCESS receipt of a stored transaction writes one [Payment] per
    (holder, amount) pair. *)
Lemma save_payments_info_success :
  forall config transaction_status world tx_receipt miners amounts db_session pt rest,
    filter (has_hash (transactionHash tx_receipt)) (payment_transactions db_session)
      = pt :: rest ->
    transaction_status (receipt_status tx_receipt) = PaymentTransaction.SUCCESS ->
    List.length miners = List.length amounts ->
    payments
      (_save_payments_info config transaction_status world tx_receipt miners amounts db_session)
    = payments db_session ++
      map (fun ha => {| Payment.holder := fst ha;
                        Payment.amount := snd ha;
                        Payment.pay_time := utcnow world;
                        Payment.transaction_id := PaymentTransaction.id pt |})
          (combine miners amounts).
Proof.
  intros config ts world r miners amounts db pt rest Hpt Hs Hlen.
  unfold _save_payments_info, save_payments_info_try.
  rewrite Hpt. cbn [set_status PaymentTransaction.status PaymentTransaction.id].
  rewrite Hs. cbn [PaymentTransaction.status_eqb].
  rewrite save_payments_loop_enough by (rewrite Hlen; apply Nat.le_refl). reflexivity.
Qed.

(** C1 (the code departs from the claim).  The stored transaction
    ["0xabc"] pays 5 MCB to alice and its receipt has the status of
    SUCCESS: [_save_payments_info] sets the row to SUCCESS and persists
    the [Payment] of alice, and it persists no [RoundPayment]. *)
Theorem C1_success_receipt_writes_no_round_payment :
  let db' :=
    _save_payments_info Example.payer_config Example.transaction_status
      Example.confirming_world Example.success_receipt
      ["alice"%string] [5 * 10 ^ 18] Example.payer_db in
  map PaymentTransaction.status (payment_transactions db') = [PaymentTransaction.SUCCESS]
  /\ payments db' =
       [{| Payment.holder := "alice"; Payment.amount := 5 * 10 ^ 18;
           Payment.pay_time := 1600000000; Payment.transaction_id := 1 |}]
  /\ round_payments db' = [].
Proof.
  repeat split; reflexivity.
Qed.

End SavePaymentsInfo.

(* ================================================================== *)
(** * The payer: [_get_miner_unpaid_reward] *)
(* ================================================================== *)

Section UnpaidReward.

Import Payer.

Lemma unpaid_loop_raises :
  forall prec (items : list (string * Q * option Q)) acc holder mcb_balance,
    In (holder, mcb_balance, None) items ->
    for_each
      (fun (result : list string * list Wad.t) (item : string * Q * option Q) =>
         let '(holder, mcb_balance, paid_amount) := item in
         match paid_amount with
         | None => Raise TypeError
         | Some paid_amount =>
             let unpaid := Decimal.sub prec mcb_balance paid_amount in
             if Decimal.ltb 0 unpaid then
               Ok (fst result ++ [holder], snd result ++ [Wad.from_decimal unpaid])
             else Ok result
         end)
      acc items = Raise TypeError.
Proof.
  intros prec items. induction items as [|[[h b] [p|]] items IH]; intros acc holder bal Hin.
  - destruct Hin.
  - destruct Hin as [Heq|Hin]; [discriminate|].
    cbn [for_each]. destruct (Decimal.ltb 0 (Decimal.sub prec b p)); cbn [bind];
      eapply IH; exact Hin.
  - reflexivity.
Qed.

Lemma unpaid_items_without_payment :
  forall config db_session m,
    In m (mature_mining_rewards db_session) ->
    MatureMiningReward.mining_round m = MINING_ROUND config ->
    (forall s, In s (round_payment_summaries db_session) ->
               RoundPaymentSummary.holder s <> MatureMiningReward.holder m) ->
    In (MatureMiningReward.holder m, MatureMiningReward.mcb_balance m, None)
       (unpaid_reward_items config db_session).
Proof.
  intros config db m Hin Hround Hnone.
  unfold unpaid_reward_items. apply in_flat_map. exists m. split.
  - apply filter_In. split; [exact Hin|]. rewrite Hround. apply String.eqb_refl.
  - assert (Hf : filter (fun s => String.eqb (MatureMiningReward.holder m)
                                              (RoundPaymentSummary.holder s))
                        (round_payment_summaries db) = []).
    { destruct (filter _ _) as [|s l] eqn:Hf; [reflexivity|].
      assert (Hs : In s (s :: l)) by (left; reflexivity).
      rewrite <- Hf in Hs. apply filter_In in Hs. destruct Hs as [Hs Heq].
      apply String.eqb_eq in Heq. exfalso. eapply Hnone; eauto. }
    rewrite Hf. left. reflexivity.
Qed.

(** A holder with a mature reward of the round and no summary row of
    payments makes the computation raise: the outer join gives [None] for
    [paid_amount], and [Decimal - None] is a [TypeError]. *)
Lemma unpaid_reward_raises_without_payment :
  forall prec config db_session m,
    In m (mature_mining_rewards db_session) ->
    MatureMiningReward.mining_round m = MINING_ROUND config ->
    (forall s, In s (round_payment_summaries db_session) ->
               RoundPaymentSummary.holder s <> MatureMiningReward.holder m) ->
    _get_miner_unpaid_reward prec config db_session = Raise TypeError.
Proof.
  intros prec config db m Hin Hround Hnone.
  unfold _get_miner_unpaid_reward.
  eapply unpaid_loop_raises.
  eapply unpaid_items_without_payment; eauto.
Qed.

(** C3 (the code departs from the claim).  alice has a mature reward of 5
    MCB in the round and no payment row: the specification gives her 5,
    the code raises a [TypeError], which leaves [run] (the reconcile phase
    went through: the only pending transaction is confirmed).  With a
    summary row (2 MCB paid) the code returns the difference, 3 MCB. *)
Theorem C3_no_payment_row_raises :
  Spec.unpaid_rewards "HAN" Example.payer_db = [("alice"%string, 5%Q)]
  /\ _get_miner_unpaid_reward Example.prec Example.payer_config Example.payer_db
     = Raise TypeError
  /\ returned (run Example.prec Example.payer_config Example.transaction_status
                 Example.confirming_world {| gas_price := 1; nonce := 8 |} Example.payer_db)
     = Raise TypeError
  /\ _get_miner_unpaid_reward Example.prec Example.payer_config Example.paid_db
     = Ok (["alice"%string], [3 * 10 ^ 18]).
Proof.
  repeat split; vm_compute; reflexivity.
Qed.

End UnpaidReward.

(* ================================================================== *)
(** * The payer: one cycle ([run]) *)
(* ================================================================== *)

Section Run.

Import Payer.

Variable prec : Z.
Variable config : Payer.Config.
Variable transaction_status : Z -> PaymentTransaction.status_t.

Lemma save_payments_info_keys :
  forall world tx_receipt miners amounts db_session,
    map transaction_key
      (payment_transactions
         (_save_payments_info config transaction_status world tx_receipt miners amounts
            db_session))
    = map transaction_key (payment_transactions db_session).
Proof.
  intros. unfold _save_payments_info, save_payments_info_try.
  destruct (filter _ _) as [|pt l]; [reflexivity|].
  destruct (PaymentTransaction.status_eqb _ _).
  - destruct (save_payments_loop _ _ _ _ _ _) as [db'|e] eqn:Hloop; [|reflexivity].
    apply save_payments_loop_returns in Hloop. subst db'.
    cbn [saved_payments set_payment_transactions payment_transactions].
    apply update_first_map. intros x. reflexivity.
  - cbn [set_payment_transactions payment_transactions].
    apply update_first_map. intros x. reflexivity.
Qed.

(** The reconcile loop only waits for receipts and never adds or removes
    a transaction; it fails as soon as one wait raises. *)
Lemma check_pending_loop_spec :
  forall world pending db_session db' waits ok,
    check_pending_loop config transaction_status world pending db_session = (db', waits, ok) ->
    map transaction_key (payment_transactions db')
      = map transaction_key (payment_transactions db_session)
    /\ existsb is_read_unpaid waits = false
    /\ existsb is_disperse waits = false
    /\ ((exists pt e, In pt pending
                      /\ waitForTransactionReceipt world (PaymentTransaction.transaction_hash pt)
                         = Raise e) -> ok = false).
Proof.
  intros world pending. induction pending as [|pt pending IH]; intros db db' waits ok Hloop.
  - cbn in Hloop. inversion Hloop; subst. repeat split; try reflexivity.
    intros (pt & e & [] & _).
  - cbn [check_pending_loop] in Hloop.
    destruct (waitForTransactionReceipt world (PaymentTransaction.transaction_hash pt))
      as [r|e0] eqn:Hwait.
    + destruct (check_pending_loop config transaction_status world pending _)
        as [[db1 evs1] ok1] eqn:Hrest.
      inversion Hloop; subst. apply IH in Hrest.
      destruct Hrest as (Hkeys & Hru & Hdis & Hfail).
      rewrite save_payments_info_keys in Hkeys.
      repeat split; try assumption.
      intros (pt' & e & [Heq|Hin] & Hraise).
      * subst pt'. rewrite Hwait in Hraise. discriminate.
      * apply Hfail. exists pt', e. split; assumption.
    + inversion Hloop; subst. repeat split; reflexivity.
Qed.

(** C5.  If the wait for the receipt of a transaction in status INIT or
    PENDING raises, [run] returns without reading the unpaid rewards,
    without a call of the disperse contract, without a new
    [PaymentTransaction] row and with the cached nonce as it was. *)
Theorem C5_receipt_error_aborts_cycle :
  forall world self db_session pt e,
    In pt (payment_transactions db_session) ->
    is_pending pt = true ->
    waitForTransactionReceipt world (PaymentTransaction.transaction_hash pt) = Raise e ->
    let o := run prec config transaction_status world self db_session in
    returned o = Ok tt
    /\ payer o = self
    /\ existsb is_read_unpaid (trace o) = false
    /\ existsb is_disperse (trace o) = false
    /\ map transaction_key (payment_transactions (db o))
       = map transaction_key (payment_transactions db_session).
Proof.
  intros world self db pt e Hin Hpending Hraise o. subst o.
  unfold run, _check_pending_transactions.
  destruct (check_pending_loop config transaction_status world
              (filter is_pending (payment_transactions db)) db)
    as [[db' waits] ok] eqn:Hloop.
  apply check_pending_loop_spec in Hloop.
  destruct Hloop as (Hkeys & Hru & Hdis & Hfail).
  assert (Hok : ok = false).
  { apply Hfail. exists pt, e. split; [|exact Hraise].
    apply filter_In. split; assumption. }
  subst ok. cbn [negb]. cbn [returned payer trace Payer.db].
  repeat split; assumption.
Qed.

End Run.

Lemma C5_receipt_error_aborts_cycle_witness :
  let o := Payer.run Example.prec Example.payer_config Example.transaction_status
             Example.timeout_world {| Payer.gas_price := 1; Payer.nonce := 8 |}
             Example.payer_db in
  Payer.returned o = Ok tt
  /\ Payer.payer o = {| Payer.gas_price := 1; Payer.nonce := 8 |}
  /\ existsb is_read_unpaid (Payer.trace o) = false
  /\ existsb is_disperse (Payer.trace o) = false
  /\ map transaction_key (payment_transactions (Payer.db o))
     = map transaction_key (payment_transactions Example.payer_db).
Proof.
  apply (C5_receipt_error_aborts_cycle Example.prec Example.payer_config
           Example.transaction_status Example.timeout_world
           {| Payer.gas_price := 1; Payer.nonce := 8 |} Example.payer_db
           Example.pending_transaction (Exception "timeout")).
  - left. reflexivity.
  - reflexivity.
  - reflexivity.
Defined.

(* ================================================================== *)
(** * The payer: the nonce of a call after a start *)
(* ================================================================== *)

Section Nonce.

Import Payer.

Variable prec : Z.
Variable config : Payer.Config.
Variable transaction_status : Z -> PaymentTransaction.status_t.

Lemma first_max_upper_bound {A : Type} (key : A -> Z) (l : list A) :
  forall x, In x l ->
    exists y, first_max key l = Some y /\ key x <= key y.
Proof.
  induction l as [|a l IH]; intros x Hin; [destruct Hin|].
  cbn [first_max]. destruct Hin as [Heq|Hin].
  - subst a. destruct (first_max key l) as [y|].
    + destruct (key x <? key y) eqn:Hlt.
      * exists y. split; [reflexivity|lia].
      * exists x. split; [reflexivity|lia].
    + exists x. split; [reflexivity|lia].
  - destruct (IH x Hin) as (y & Hy & Hle). rewrite Hy.
    destruct (key a <? key y) eqn:Hlt.
    + exists y. split; [reflexivity|exact Hle].
    + exists a. split; [reflexivity|lia].
Qed.



Lemma existsb_app_false {A : Type} (p : A -> bool) (l1 l2 : list A) :
  existsb p (l1 ++ l2) = false -> existsb p l1 = false /\ existsb p l2 = false.
Proof.
  rewrite existsb_app. apply orb_false_iff.
Qed.



Lemma get_gas_price_keeps_nonce : forall world self,
  nonce (_get_gas_price world self) = nonce self.
Proof.
  intros world self. unfold _get_gas_price.
  destruct (gas_oracle world) as [[c l]|]; [|reflexivity].
  destruct (Qeq_bool _ _); reflexivity.
Qed.




End Nonce.



(* ================================================================== *)
(** * The split between the UNISWAP pools ([_update_uniswap_pool_proportion]) *)
(* ================================================================== *)

Section UniswapSplit.

Import ShareMining.

(** In the round HAN, [sync] runs the pool pass once, on the two UNISWAP
    pools with the whole budget. *)
Lemma sync_han :
  forall prec config self watcher_id block_number block_hash db_session,
    _mining_round self = "HAN"%string ->
    _begin_block self <= block_number <= _end_block self ->
    sync prec config self watcher_id block_number block_hash db_session
    = _calculate_pools_reward prec config self block_number
        (Example.han_pool_info config) (Num.Int 1) db_session.
Proof.
  intros prec config self w b h db Hround Hwin.
  unfold sync. rewrite Hround.
  assert (H1 : (b <? _begin_block self) = false) by lia.
  assert (H2 : (_end_block self <? b) = false) by lia.
  rewrite H1, H2. reflexivity.
Qed.

Lemma update_uniswap_pool_proportion_han :
  forall prec config self db_session mcb,
    _get_holder_mcb_balance prec self db_session = Ok mcb ->
    let eth := Dict.get_default (Str.lower (UNISWAP_MCB_ETH_SHARE_TOKEN_ADDRESS config)) 0%Q mcb in
    let usdc := Dict.get_default (Str.lower (UNISWAP_MCB_USDC_SHARE_TOKEN_ADDRESS config)) 0%Q mcb in
    let both := Decimal.add prec (Decimal.add prec 0 eth) usdc in
    _update_uniswap_pool_proportion prec self (Example.han_pool_info config) db_session
    = if Decimal.eqb both 0 then Ok (Example.han_pool_info config)
      else
        Ok [("UNISWAP_MCB_ETH"%string,
             set_uniswap_pool_proportion
               (uniswap_pool (UNISWAP_MCB_ETH_SHARE_TOKEN_ADDRESS config))
               (mcb_proportion prec eth both));
            ("UNISWAP_MCB_USDC"%string,
             set_uniswap_pool_proportion
               (uniswap_pool (UNISWAP_MCB_USDC_SHARE_TOKEN_ADDRESS config))
               (mcb_proportion prec usdc both))].
Proof.
  intros prec config self db mcb Hmcb eth usdc both.
  unfold _update_uniswap_pool_proportion. rewrite Hmcb. cbn [bind].
  unfold Example.han_pool_info. cbn [Dict.set fold_left String.eqb Ascii.eqb Bool.eqb].
  cbn [uniswap_pool snd pi_pool_type pool_share_token_address].
  fold eth usdc. fold both.
  cbn [for_each fst pool_type_eqb andb].
  unfold mcb_proportion, Decimal.div, Decimal.eqb.
  destruct (Qeq_bool both 0); cbn [negb bind for_each]; [reflexivity|].
  cbn [Dict.set String.eqb Ascii.eqb Bool.eqb]. reflexivity.
Qed.

(** C8 (amended).  In a HAN-round sync the budget of the block (100% to
    the UNISWAP pools) is split between the MCB/ETH pool and the MCB/USDC
    pool in proportion to the MCB held by the share-token addresses of the
    two pools: the [pool_reward] of a pool is
    [1 * reward_per_block * (MCB of its address / MCB of both)]; when the
    two addresses hold no MCB, the proportion of each pool is 1. *)
Theorem C8_han_split_follows_mcb_balances :
  forall prec config self block_number db_session mcb,
    _get_holder_mcb_balance prec self db_session = Ok mcb ->
    let eth := Dict.get_default (Str.lower (UNISWAP_MCB_ETH_SHARE_TOKEN_ADDRESS config)) 0%Q mcb in
    let usdc := Dict.get_default (Str.lower (UNISWAP_MCB_USDC_SHARE_TOKEN_ADDRESS config)) 0%Q mcb in
    let both := Decimal.add prec (Decimal.add prec 0 eth) usdc in
    let budget := reward_per_block_at self block_number in
    exists self' pv_eth pv_usdc,
      _get_pool_value_info prec config self block_number (Example.han_pool_info config)
        (Num.Int 1) db_session
      = Ok (self', [("UNISWAP_MCB_ETH"%string, pv_eth); ("UNISWAP_MCB_USDC"%string, pv_usdc)])
      /\ pool_reward pv_eth =
           Some (Wad.mul (Wad.mul (Wad.from_number (Num.Int 1)) (Wad.from_number budget))
                         (Wad.from_number (mcb_proportion prec eth both)))
      /\ pool_reward pv_usdc =
           Some (Wad.mul (Wad.mul (Wad.from_number (Num.Int 1)) (Wad.from_number budget))
                         (Wad.from_number (mcb_proportion prec usdc both))).
Proof.
  intros prec config self b db mcb Hmcb eth usdc both budget.
  unfold _get_pool_value_info.
  assert (Hmcb' : _get_holder_mcb_balance prec
                    (set_reward_per_block self (reward_per_block_at self b)) db = Ok mcb)
    by exact Hmcb.
  rewrite (update_uniswap_pool_proportion_han prec config _ db mcb Hmcb').
  fold eth usdc. fold both.
  unfold mcb_proportion, Decimal.eqb.
  destruct (Qeq_bool both 0); cbn [bind].
  - unfold Example.han_pool_info.
    cbn [Dict.set String.eqb Ascii.eqb Bool.eqb for_each bind pool_value_step
         uniswap_pool pi_pool_type pool_type_eqb andb vl_pool_value_info
         vl_pool_type bound].
    do 3 eexists. split; [reflexivity|]. split; reflexivity.
  - cbn [Dict.set String.eqb Ascii.eqb Bool.eqb for_each bind pool_value_step
         uniswap_pool set_uniswap_pool_proportion pi_pool_type pool_type_eqb andb
         vl_pool_value_info vl_pool_type bound].
    do 3 eexists. split; [reflexivity|]. split; reflexivity.
Qed.

Lemma C8_han_split_follows_mcb_balances_witness :
  exists self' pv_eth pv_usdc,
    _get_pool_value_info Example.prec Example.config (Example.engine "HAN") 12000000
      (Example.han_pool_info Example.config) (Num.Int 1) Example.uniswap_db
    = Ok (self', [("UNISWAP_MCB_ETH"%string, pv_eth); ("UNISWAP_MCB_USDC"%string, pv_usdc)])
    /\ pool_reward pv_eth = Some (75 * 10 ^ 16)
    /\ pool_reward pv_usdc = Some (25 * 10 ^ 16).
Proof.
  assert (Hmcb : _get_holder_mcb_balance Example.prec (Example.engine "HAN") Example.uniswap_db
                 = Ok [("0xunieth"%string, 3%Q); ("0xuniusdc"%string, 1%Q);
                       ("alice"%string, (3 # 2)%Q); ("bob"%string, (3 # 2)%Q)])
    by (vm_compute; reflexivity).
  destruct (C8_han_split_follows_mcb_balances Example.prec Example.config
              (Example.engine "HAN") 12000000 Example.uniswap_db _ Hmcb)
    as (self' & pv_eth & pv_usdc & Hrun & Heth & Husdc).
  exists self', pv_eth, pv_usdc.
  split; [exact Hrun|].
  split; [rewrite Heth|rewrite Husdc]; vm_compute; reflexivity.
Defined.

(** C8 (counterexample).  Round HAN, budget 1 MCB per block; the
    share-token address of the MCB/ETH pool holds 3 MCB, that of the
    MCB/USDC pool 1 MCB: the pools are given 0.75 and 0.25 MCB, not 0.5
    each, and the rows of the block follow (alice and bob share the first
    pool, carol holds the second). *)
Lemma C8_han_equal_split_counterexample :
  (exists self' pv_eth pv_usdc,
     _get_pool_value_info Example.prec Example.config (Example.engine "HAN") 12000000
       (Example.han_pool_info Example.config) (Num.Int 1) Example.uniswap_db
     = Ok (self', [("UNISWAP_MCB_ETH"%string, pv_eth); ("UNISWAP_MCB_USDC"%string, pv_usdc)])
     /\ pool_reward pv_eth = Some (75 * 10 ^ 16)
     /\ pool_reward pv_usdc = Some (25 * 10 ^ 16)
     /\ Wad.mul (Wad.mul (Wad.from_number (_reward_per_block self'))
                         (Wad.from_number (Num.Int 1)))
                (Wad.from_number (Num.truediv (Num.Int 1) (Num.Int 2)))
        = 50 * 10 ^ 16)
  /\ exists self' db',
       sync Example.prec Example.config (Example.engine "HAN") 0 12000000 "0xb10c" Example.uniswap_db
       = Ok (self', db')
       /\ map (fun r => (ImmatureMiningReward.pool_name r, ImmatureMiningReward.holder r,
                         Qred (ImmatureMiningReward.mcb_balance r)))
              (immature_mining_rewards db')
          = [("UNISWAP_MCB_ETH"%string, "alice"%string, 3 # 8);
             ("UNISWAP_MCB_ETH"%string, "bob"%string, 3 # 8);
             ("UNISWAP_MCB_USDC"%string, "carol"%string, 1 # 4)]%Q.
Proof.
  split.
  - do 3 eexists. split; [vm_compute; reflexivity|]. repeat split.
  - do 2 eexists. split; [vm_compute; reflexivity|]. vm_compute. reflexivity.
Qed.

End UniswapSplit.

(* ================================================================== *)
(** * The effective share ([_get_effective_share_info]) *)
(* ================================================================== *)

Section EffectiveShare.

Import ShareMining.

Lemma float_constants :
  Num.value (Num.lit (2 # 10)) = float_0_2
  /\ Num.value (Num.lit (9 # 10)) = float_0_9
  /\ Num.value (Num.lit (1 # 10)) = float_0_1
  /\ Num.value (Num.truediv (Num.Int 44) (Num.Int 35)) = float_44_35
  /\ Num.value (Num.truediv (Num.Int 9) (Num.Int 7)) = float_9_7.
Proof.
  repeat split; vm_compute; reflexivity.
Qed.

(** None of the five is the decimal or the fraction it stands for. *)
Lemma float_constants_inexact :
  ~ (float_0_2 == 2 # 10)%Q /\ ~ (float_0_9 == 9 # 10)%Q /\ ~ (float_0_1 == 1 # 10)%Q
  /\ ~ (float_44_35 == 44 # 35)%Q /\ ~ (float_9_7 == 9 # 7)%Q.
Proof.
  repeat split; intros H; vm_compute in H; discriminate.
Qed.

Lemma holder_effective_share_shang :
  forall prec self holder_share_token_amount imbalance_rate previous,
    _mining_round self = "SHANG"%string ->
    holder_effective_share_of prec self holder_share_token_amount imbalance_rate previous
    = Some (shang_effective_share prec holder_share_token_amount imbalance_rate).
Proof.
  intros prec self s imb prev Hround.
  unfold holder_effective_share_of, shang_effective_share, Decimal.of_number, Decimal.leb.
  rewrite Hround. cbn [String.eqb Ascii.eqb Bool.eqb].
  destruct float_constants as (-> & -> & -> & -> & ->).
  destruct (Qle_bool imb float_0_2); [reflexivity|].
  destruct (Qle_bool float_0_9 imb); reflexivity.
Qed.

(** C9 (amended).  For a SHANG-round holder met by the loop of
    [_get_effective_share_info] (the block is from the rebalance fork on
    and before the begin of ZHOU, the holder has a position row and a
    non-zero share-token balance), the effective share entered in the dict
    is the raw balance when the imbalance rate is at most the binary64
    value of 0.2, the balance times the binary64 value of 0.1 when it is
    at least the binary64 value of 0.9, and otherwise the balance times
    [c1 - imbalance * c2], with [c1], [c2] the binary64 values nearest to
    44/35 and 9/7; each product and difference is rounded to the
    precision of the decimal context. *)
Theorem C9_shang_effective_share_uses_float_constants :
  forall prec self share_token_dict amm_position total_share_token_amount st
         holder holder_position_in_margin_account holder_share_token_amount imbalance_rate,
    _mining_round self = "SHANG"%string ->
    Dict.get holder share_token_dict = Some holder_share_token_amount ->
    Decimal.eqb holder_share_token_amount 0 = false ->
    imbalance_rate_of amm_position holder_share_token_amount total_share_token_amount
      holder_position_in_margin_account = Ok imbalance_rate ->
    effective_share_step prec self share_token_dict amm_position total_share_token_amount
      st (holder, holder_position_in_margin_account)
    = Ok {| el_effective_share_dict :=
              Dict.set holder
                (shang_effective_share prec holder_share_token_amount imbalance_rate)
                (el_effective_share_dict st);
            el_total_effective_share_amount :=
              Decimal.add prec (el_total_effective_share_amount st)
                (shang_effective_share prec holder_share_token_amount imbalance_rate);
            el_holder_effective_share :=
              Some (shang_effective_share prec holder_share_token_amount imbalance_rate) |}.
Proof.
  intros prec self d amm total st holder pos s imb Hround Hget Hnz Himb.
  unfold effective_share_step.
  rewrite Hget, Hnz, Himb. cbn [bind].
  rewrite holder_effective_share_shang by exact Hround.
  reflexivity.
Qed.

Lemma C9_shang_effective_share_uses_float_constants_witness :
  effective_share_step Example.prec (Example.engine "SHANG") [("alice"%string, 1%Q)]
    (-100 # 1) 1 {| el_effective_share_dict := [];
                    el_total_effective_share_amount := 0;
                    el_holder_effective_share := None |}
    ("alice"%string, (50 # 1)%Q)
  = Ok {| el_effective_share_dict :=
            [("alice"%string, shang_effective_share Example.prec 1 (1 # 2))];
          el_total_effective_share_amount :=
            Decimal.add Example.prec 0 (shang_effective_share Example.prec 1 (1 # 2));
          el_holder_effective_share :=
            Some (shang_effective_share Example.prec 1 (1 # 2)) |}.
Proof.
  apply (C9_shang_effective_share_uses_float_constants Example.prec (Example.engine "SHANG")
           [("alice"%string, 1%Q)] (-100 # 1) 1
           {| el_effective_share_dict := [];
              el_total_effective_share_amount := 0;
              el_holder_effective_share := None |}
           "alice" (50 # 1) 1 (1 # 2)).
  - reflexivity.
  - reflexivity.
  - reflexivity.
  - vm_compute. reflexivity.
Defined.

(** C9 (counterexample).  Round SHANG, balance 1.  With the imbalance rate
    0.200000000000000001, strictly between 0.2 and 0.9, the code returns
    the raw balance 1 (the rate is below [Decimal(0.2)]), not
    [44/35 - imbalance * 9/7].  With the imbalance rate 0.5 and the
    default precision the code returns 0.6142857142857142127567726675,
    not [44/35 - 0.5 * 9/7 = 43/70]. *)
Lemma C9_exact_coefficients_counterexample :
  ((2 # 10) < (200000000000000001 # 1000000000000000000)
   /\ (200000000000000001 # 1000000000000000000) < (9 # 10))%Q
  /\ holder_effective_share_of Example.prec (Example.engine "SHANG") 1
       (200000000000000001 # 1000000000000000000) None = Some 1%Q
  /\ ~ (Spec.shang_effective_share 1 (200000000000000001 # 1000000000000000000) == 1)%Q
  /\ (exists share,
        holder_effective_share_of Example.prec (Example.engine "SHANG") 1 (1 # 2) None
        = Some share
        /\ (share == 6142857142857142127567726675 # 10000000000000000000000000000)%Q
        /\ ~ (share == Spec.shang_effective_share 1 (1 # 2))%Q)
  /\ (Spec.shang_effective_share 1 (1 # 2) == 43 # 70)%Q.
Proof.
  split; [split; reflexivity|].
  split; [vm_compute; reflexivity|].
  split; [intros H; vm_compute in H; discriminate|].
  split; [|reflexivity].
  eexists. split; [vm_compute; reflexivity|].
  split; [reflexivity|]. intros H; vm_compute in H; discriminate.
Qed.

End EffectiveShare.

(* ================================================================== *)
(** * What a pass reads: the tables of the watcher *)
(* ================================================================== *)

Section Environment.

Import ShareMining.

Variable prec : Z.
Variable config : Config.

Lemma same_env_refl : forall db, same_env db db.
Proof. intros db. repeat split. Qed.


Lemma same_env_trans : forall a b c, same_env a b -> same_env b c -> same_env a c.
Proof.
  intros a b c (H1 & H2 & H3 & H4) (H5 & H6 & H7 & H8). repeat split; congruence.
Qed.

Lemma get_pool_value_info_env :
  forall self block_number pool_info pool_reward_percent db1 db2,
    same_env db1 db2 ->
    _get_pool_value_info prec config self block_number pool_info pool_reward_percent db1
    = _get_pool_value_info prec config self block_number pool_info pool_reward_percent db2.
Proof.
  intros self b pool_info pct db1 db2 (H1 & H2 & H3 & H4).
  destruct db1, db2. cbn in H1, H2, H3, H4. subst.
  reflexivity.
Qed.

Lemma get_holder_mcb_balance_env :
  forall self db1 db2,
    token_balances db1 = token_balances db2 ->
    _get_holder_mcb_balance prec self db1 = _get_holder_mcb_balance prec self db2.
Proof.
  intros self db1 db2 H. destruct db1, db2. cbn in H. subst. reflexivity.
Qed.

Lemma result_rel_bind {A B A' B' : Type} (R : A -> A' -> Prop) (S : B -> B' -> Prop)
    (x : result A) (x' : result A') (f : A -> result B) (f' : A' -> result B') :
  result_rel R x x' ->
  (forall a a', R a a' -> result_rel S (f a) (f' a')) ->
  result_rel S (bind x f) (bind x' f').
Proof.
  intros Hx Hf. destruct x as [a|e], x' as [a'|e']; cbn in *; try contradiction; auto.
Qed.

Lemma result_rel_eq {A : Type} (x : result A) : result_rel eq x x.
Proof. destruct x; cbn; auto. Qed.

Lemma result_rel_impl {A B : Type} (R S : A -> B -> Prop) x y :
  (forall a b, R a b -> S a b) -> result_rel R x y -> result_rel S x y.
Proof.
  intros H. destruct x, y; cbn; auto.
Qed.

Lemma append_alike_refl : forall db1 db2, append_alike db1 db2 db1 db2.
Proof.
  intros. split; [apply same_env_refl|]. split; [apply same_env_refl|].
  exists []. rewrite !app_nil_r. split; reflexivity.
Qed.

Lemma append_alike_trans :
  forall db1 db2 m1 m2 d1 d2,
    append_alike db1 db2 m1 m2 -> append_alike m1 m2 d1 d2 -> append_alike db1 db2 d1 d2.
Proof.
  intros db1 db2 m1 m2 d1 d2 (E1 & E2 & new & N1 & N2) (E3 & E4 & new' & N3 & N4).
  split; [eapply same_env_trans; eauto|]. split; [eapply same_env_trans; eauto|].
  exists (new ++ new'). rewrite N3, N4, N1, N2, !app_assoc. split; reflexivity.
Qed.

Lemma save_immature_reward_alike :
  forall self block_number pool_name holders1 holders2 holder reward db1 db2,
    append_alike db1 db2
      (save_immature_reward prec self block_number pool_name holders1 holder reward db1)
      (save_immature_reward prec self block_number pool_name holders2 holder reward db2).
Proof.
  intros. unfold save_immature_reward.
  destruct (negb (existsb (String.eqb holder) holders1)),
           (negb (existsb (String.eqb holder) holders2));
    (split; [repeat split|]; split; [repeat split|]; eexists; split; reflexivity).
Qed.

(** The loop over the share-token items of a pool appends the same rows
    whatever the stored rewards are. *)
Lemma item_loop_alike :
  forall self block_number pool_name pv pool_reward weights holders1 holders2 items db1 db2,
    result_rel (append_alike db1 db2)
      (for_each
         (fun (db_session : DBSession) (item : string * Q) =>
            if Decimal.eqb (snd item) 0 then Ok db_session
            else
              let* reward := item_reward self block_number pv pool_reward weights item in
              Ok (save_immature_reward prec self block_number pool_name holders1
                    (fst item) reward db_session))
         db1 items)
      (for_each
         (fun (db_session : DBSession) (item : string * Q) =>
            if Decimal.eqb (snd item) 0 then Ok db_session
            else
              let* reward := item_reward self block_number pv pool_reward weights item in
              Ok (save_immature_reward prec self block_number pool_name holders2
                    (fst item) reward db_session))
         db2 items).
Proof.
  intros self b pool_name pv pool_reward weights holders1 holders2 items.
  induction items as [|item items IH]; intros db1 db2.
  - cbn. apply append_alike_refl.
  - cbn [for_each].
    destruct (Decimal.eqb (snd item) 0); cbn [bind].
    + apply IH.
    + destruct (item_reward self b pv pool_reward weights item) as [reward|e]; cbn [bind];
        [|exact I].
      eapply result_rel_impl; [|apply IH].
      intros d1 d2 H. eapply append_alike_trans; [|exact H].
      apply save_immature_reward_alike.
Qed.

Lemma pool_reward_step_alike :
  forall self block_number amms_weights weights entry db1 db2,
    result_rel (append_alike db1 db2)
      (pool_reward_step prec self block_number amms_weights weights db1 entry)
      (pool_reward_step prec self block_number amms_weights weights db2 entry).
Proof.
  intros self b aw w [pool_name pv] db1 db2. unfold pool_reward_step.
  destruct (Decimal.eqb (total_share_token_amount pv) 0).
  - cbn. apply append_alike_refl.
  - destruct (key_of (pool_reward pv)) as [pool_reward|e]; cbn [bind]; [|exact I].
    apply item_loop_alike.
Qed.

Lemma pools_loop_alike :
  forall self block_number amms_weights weights pool_value_info db1 db2,
    result_rel (append_alike db1 db2)
      (for_each (pool_reward_step prec self block_number amms_weights weights)
         db1 pool_value_info)
      (for_each (pool_reward_step prec self block_number amms_weights weights)
         db2 pool_value_info).
Proof.
  intros self b aw w pvi. induction pvi as [|entry pvi IH]; intros db1 db2.
  - cbn. apply append_alike_refl.
  - cbn [for_each].
    eapply result_rel_bind; [apply pool_reward_step_alike|].
    intros m1 m2 Hm. eapply result_rel_impl; [|apply IH].
    intros d1 d2 H. eapply append_alike_trans; eauto.
Qed.

Lemma save_theory_unchanged :
  forall self pool_type rewards db,
    unchanged db (_save_theory_mining_reward self pool_type rewards db).
Proof.
  intros. repeat split.
Qed.

Ltac case_head_bind x :=
  match goal with
  | |- result_rel _ (bind ?m _) _ => destruct m as [x|?]; cbn [bind]; [|exact I]
  end.

Lemma holder_reward_weight_alike :
  forall self block_number pool_value_info db1 db2,
    same_env db1 db2 ->
    result_rel (weights_alike db1 db2)
      (_get_holder_reward_weight prec config self block_number pool_value_info db1)
      (_get_holder_reward_weight prec config self block_number pool_value_info db2).
Proof.
  intros self b pvi db1 db2 Henv. unfold _get_holder_reward_weight.
  case_head_bind st. destruct st as [rewards total].
  rewrite (get_holder_mcb_balance_env self
             (_save_theory_mining_reward self AMM rewards db1)
             (_save_theory_mining_reward self AMM rewards db2))
    by (cbn; apply Henv).
  case_head_bind mcb. case_head_bind weight. case_head_bind weights.
  cbn. split; [reflexivity|]. split; apply save_theory_unchanged.
Qed.

Lemma holder_amms_reward_weight_alike :
  forall self block_number pool_value_info db1 db2,
    same_env db1 db2 ->
    result_rel (weights_alike db1 db2)
      (_get_holder_amms_reward_weight prec config self block_number pool_value_info db1)
      (_get_holder_amms_reward_weight prec config self block_number pool_value_info db2).
Proof.
  intros self b pvi db1 db2 Henv. unfold _get_holder_amms_reward_weight.
  case_head_bind st. destruct st as [rewards pools].
  rewrite (get_holder_mcb_balance_env self
             (_save_theory_mining_reward self AMM rewards db1)
             (_save_theory_mining_reward self AMM rewards db2))
    by (cbn; apply Henv).
  case_head_bind mcb. case_head_bind weights.
  cbn. split; [reflexivity|]. split; apply save_theory_unchanged.
Qed.

Lemma unchanged_append_alike :
  forall db1 db2 m1 m2 d1 d2,
    unchanged db1 m1 -> unchanged db2 m2 -> append_alike m1 m2 d1 d2 ->
    append_alike db1 db2 d1 d2.
Proof.
  intros db1 db2 m1 m2 d1 d2 (E1 & R1 & _) (E2 & R2 & _) (E3 & E4 & new & N1 & N2).
  split; [eapply same_env_trans; eauto|]. split; [eapply same_env_trans; eauto|].
  exists new. rewrite N1, N2, R1, R2. split; reflexivity.
Qed.

(** A pass appends the same rows, and returns the same object, whatever
    rewards are stored. *)
Lemma calculate_pools_reward_alike :
  forall self block_number pool_info pool_reward_percent db1 db2,
    same_env db1 db2 ->
    result_rel (pass_alike db1 db2)
      (_calculate_pools_reward prec config self block_number pool_info
         pool_reward_percent db1)
      (_calculate_pools_reward prec config self block_number pool_info
         pool_reward_percent db2).
Proof.
  intros self b pool_info pct db1 db2 Henv. unfold _calculate_pools_reward.
  rewrite (get_pool_value_info_env self b pool_info pct db1 db2 Henv).
  destruct (_get_pool_value_info prec config self b pool_info pct db2)
    as [[self' pvi]|e]; cbn [bind]; [|exact I].
  destruct (_qin_begin_block_number self' <=? b).
  - pose proof (holder_amms_reward_weight_alike self' b pvi db1 db2 Henv) as Hw.
    destruct (_get_holder_amms_reward_weight prec config self' b pvi db1) as [[m1 w1]|e1],
             (_get_holder_amms_reward_weight prec config self' b pvi db2) as [[m2 w2]|e2];
      cbn in Hw; try contradiction; cbn [bind]; [|exact I].
    destruct Hw as (Hweq & U1 & U2). cbn in Hweq, U1, U2. subst w2.
    pose proof (pools_loop_alike self' b w1 [] pvi m1 m2) as Hl.
    destruct (for_each _ m1 pvi) as [d1|e1], (for_each _ m2 pvi) as [d2|e2];
      cbn in Hl; try contradiction; cbn [bind]; [|exact I].
    cbn. split; [reflexivity|]. eapply unchanged_append_alike; eauto.
  - destruct (_zhou_begin_block_number self' <=? b).
    + pose proof (holder_reward_weight_alike self' b pvi db1 db2 Henv) as Hw.
      destruct (_get_holder_reward_weight prec config self' b pvi db1) as [[m1 w1]|e1],
               (_get_holder_reward_weight prec config self' b pvi db2) as [[m2 w2]|e2];
        cbn in Hw; try contradiction; cbn [bind]; [|exact I].
      destruct Hw as (Hweq & U1 & U2). cbn in Hweq, U1, U2. subst w2.
      pose proof (pools_loop_alike self' b [] w1 pvi m1 m2) as Hl.
      destruct (for_each _ m1 pvi) as [d1|e1], (for_each _ m2 pvi) as [d2|e2];
        cbn in Hl; try contradiction; cbn [bind]; [|exact I].
      cbn. split; [reflexivity|]. eapply unchanged_append_alike; eauto.
    + cbn [bind].
      pose proof (pools_loop_alike self' b [] [] pvi db1 db2) as Hl.
      destruct (for_each _ db1 pvi) as [d1|e1], (for_each _ db2 pvi) as [d2|e2];
        cbn in Hl; try contradiction; cbn [bind]; [|exact I].
      cbn. split; [reflexivity|]. exact Hl.
Qed.




End Environment.

(* ================================================================== *)
(** * Running [sync] twice on a block *)
(* ================================================================== *)

Section SyncTwice.

Import ShareMining.

Variable prec : Z.
Variable config : Config.

Lemma reward_per_block_at_again :
  forall self block_number,
    reward_per_block_at
      (set_reward_per_block self (reward_per_block_at self block_number)) block_number
    = reward_per_block_at self block_number.
Proof.
  intros self b. unfold reward_per_block_at at 1.
  cbn [set_reward_per_block _mining_round _qin_reduce_reward_block_number _reward_per_block].
  unfold reward_per_block_at.
  destruct (String.eqb (_mining_round self) "QIN" && (b <? _qin_reduce_reward_block_number self))%bool;
    [reflexivity|].
  destruct (String.eqb (_mining_round self) "QIN" && (_qin_reduce_reward_block_number self <=? b))%bool;
    [reflexivity|].
  destruct ((11601000 <=? b) && (b <? 11685000))%bool; reflexivity.
Qed.

Lemma set_reward_per_block_again :
  forall self block_number,
    set_reward_per_block
      (set_reward_per_block self (reward_per_block_at self block_number))
      (reward_per_block_at
         (set_reward_per_block self (reward_per_block_at self block_number)) block_number)
    = set_reward_per_block self (reward_per_block_at self block_number).
Proof.
  intros self b. rewrite reward_per_block_at_again. reflexivity.
Qed.



Lemma calculate_pools_reward_self :
  forall self block_number pool_info pool_reward_percent db_session self' db',
    _calculate_pools_reward prec config self block_number pool_info pool_reward_percent
      db_session = Ok (self', db') ->
    self' = set_reward_per_block self (reward_per_block_at self block_number).
Proof.
  intros self b pool_info pct db self' db'. unfold _calculate_pools_reward.
  destruct (_get_pool_value_info prec config self b pool_info pct db)
    as [[self1 pvi]|e] eqn:Hinfo; cbn [bind]; [|discriminate].
  apply get_pool_value_info_budget in Hinfo. subst self1.
  match goal with |- bind ?m _ = _ -> _ => destruct m as [[[m1 w1] w2]|e] end;
    cbn [bind]; [|discriminate].
  match goal with |- bind ?m _ = _ -> _ => destruct m as [d|e] end;
    cbn [bind]; [|discriminate].
  intros H. inversion H. reflexivity.
Qed.

Lemma two_passes_self :
  forall self block_number pool_info pool_reward_percent pool_info' pool_reward_percent'
         db_session self' db',
    (let* (self, db_session) :=
       _calculate_pools_reward prec config self block_number pool_info
         pool_reward_percent db_session in
     _calculate_pools_reward prec config self block_number pool_info'
       pool_reward_percent' db_session) = Ok (self', db') ->
    self' = set_reward_per_block self (reward_per_block_at self block_number).
Proof.
  intros self b pi pct pi' pct' db self' db'.
  destruct (_calculate_pools_reward prec config self b pi pct db) as [[s1 d1]|e] eqn:H1;
    cbn [bind]; [|discriminate].
  apply calculate_pools_reward_self in H1. subst s1.
  intros H2. apply calculate_pools_reward_self in H2.
  rewrite set_reward_per_block_again in H2. exact H2.
Qed.



(** What holds between the store at the start of a pool and the store
    after every write for the pool, the holders of the summaries being
    read at the start of the pool, holds between the store before and
    after [sync]. *)
Lemma sync_pool_steps (R : DBSession -> DBSession -> Prop) :
  (forall db, R db db) ->
  (forall db m d, R db m -> R m d -> R db d) ->
  (forall db m, unchanged db m -> R db m) ->
  (forall self block_number pool_name holder reward db0 db,
     R db0 db ->
     R db0 (save_immature_reward prec self block_number pool_name
              (holders_of_pool (_mining_round self) pool_name
                 (immature_mining_reward_summaries db0))
              holder reward db)) ->
  forall self watcher_id block_number block_hash db self' d,
    sync prec config self watcher_id block_number block_hash db = Ok (self', d) ->
    R db d.
Proof.
  intros Hrefl Htrans Hun Hsave.
  assert (Hstep : forall self b aw w entry db d,
             pool_reward_step prec self b aw w db entry = Ok d -> R db d).
  { intros self b aw w [pool_name pv] db d. unfold pool_reward_step.
    destruct (Decimal.eqb (total_share_token_amount pv) 0).
    { intros H. inversion H; subst. apply Hrefl. }
    destruct (key_of (pool_reward pv)) as [pool_reward|e]; cbn [bind]; [|discriminate].
    apply (for_each_invariant (R db)); [|apply Hrefl].
    intros s item s' _ Hs. destruct (Decimal.eqb (snd item) 0).
    { intros H. inversion H; subst. exact Hs. }
    destruct (item_reward self b pv pool_reward _ item) as [reward|e]; cbn [bind];
      [|discriminate].
    intros H. inversion H; subst. apply (Hsave self b pool_name _ _ db s Hs). }
  assert (Hloop : forall self b aw w pvi db d,
             for_each (pool_reward_step prec self b aw w) db pvi = Ok d -> R db d).
  { intros self b aw w pvi db d.
    apply (for_each_invariant (R db)); [|apply Hrefl].
    intros s entry s' _ Hs H. eapply Htrans; [exact Hs|eapply Hstep; exact H]. }
  assert (Hpass : forall self b pool_info pct db self' d,
             _calculate_pools_reward prec config self b pool_info pct db = Ok (self', d) ->
             R db d).
  { intros self b pool_info pct db self' d Hrun.
    unfold _calculate_pools_reward in Hrun.
    destruct (_get_pool_value_info prec config self b pool_info pct db)
      as [[self1 pvi]|e]; cbn [bind] in Hrun; [|discriminate].
    destruct (_qin_begin_block_number self1 <=? b).
    - pose proof (holder_amms_reward_weight_alike prec config self1 b pvi db db
                    (same_env_refl db)) as Hw.
      destruct (_get_holder_amms_reward_weight prec config self1 b pvi db) as [[m w]|e];
        cbn [bind] in Hrun; [|discriminate].
      destruct Hw as (_ & Hu & _). cbn [fst] in Hu.
      destruct (for_each _ m pvi) as [d'|e] eqn:Hl; cbn [bind] in Hrun; [|discriminate].
      inversion Hrun; subst. eapply Htrans; [apply Hun; exact Hu|eapply Hloop; exact Hl].
    - destruct (_zhou_begin_block_number self1 <=? b).
      + pose proof (holder_reward_weight_alike prec config self1 b pvi db db
                      (same_env_refl db)) as Hw.
        destruct (_get_holder_reward_weight prec config self1 b pvi db) as [[m w]|e];
          cbn [bind] in Hrun; [|discriminate].
        destruct Hw as (_ & Hu & _). cbn [fst] in Hu.
        destruct (for_each _ m pvi) as [d'|e] eqn:Hl; cbn [bind] in Hrun; [|discriminate].
        inversion Hrun; subst. eapply Htrans; [apply Hun; exact Hu|eapply Hloop; exact Hl].
      + cbn [bind] in Hrun.
        destruct (for_each _ db pvi) as [d'|e] eqn:Hl; cbn [bind] in Hrun; [|discriminate].
        inversion Hrun; subst. eapply Hloop; exact Hl. }
  assert (Htwo : forall self b pi pct pi' pct' db self' d,
             (let* (self, db_session) :=
                _calculate_pools_reward prec config self b pi pct db in
              _calculate_pools_reward prec config self b pi' pct' db_session)
             = Ok (self', d) -> R db d).
  { intros self b pi pct pi' pct' db self' d Hrun.
    destruct (_calculate_pools_reward prec config self b pi pct db) as [[s1 d1]|e] eqn:H1;
      cbn [bind] in Hrun; [|discriminate].
    eapply Htrans; eapply Hpass; eauto. }
  intros self w b h db self' d. unfold sync.
  destruct (_ || _)%bool; [intros H; inversion H; subst; apply Hrefl|].
  destruct (String.eqb (_mining_round self) "XIA"); [apply Hpass|].
  destruct (String.eqb (_mining_round self) "SHANG"); [apply Htwo|].
  destruct (String.eqb (_mining_round self) "ZHOU"); [apply Htwo|].
  destruct (String.eqb (_mining_round self) "QIN"); [apply Htwo|].
  destruct (String.eqb (_mining_round self) "HAN"); [apply Hpass|].
  intros H; inversion H; subst; apply Hrefl.
Qed.








End SyncTwice.



(* ================================================================== *)
(** * The decimal context: sums it does not round *)
(* ================================================================== *)

Section ExactSums.

Import Num.
Local Open Scope Q_scope.

Lemma pow10_pos : forall z, 0 < pow10 z.
Proof.
  intros z. unfold pow10. apply Qpower_0_lt. reflexivity.
Qed.

Lemma pow10_add : forall a b, pow10 (a + b) == pow10 a * pow10 b.
Proof.
  intros a b. unfold pow10. apply Qpower_plus. discriminate.
Qed.

Lemma pow10_Z : forall z, (0 <= z)%Z -> pow10 z == inject_Z (10 ^ z).
Proof.
  intros z Hz. unfold pow10. rewrite Zpower_Qpower by exact Hz. reflexivity.
Qed.

Lemma pow10_ge_1 : forall z, (0 <= z)%Z -> 1 <= pow10 z.
Proof.
  intros z Hz. rewrite pow10_Z by exact Hz.
  change 1 with (inject_Z 1). rewrite <- Zle_Qle.
  assert (0 < 10 ^ z)%Z by (apply Z.pow_pos_nonneg; lia). lia.
Qed.

Lemma pow10_mono : forall a b, (a <= b)%Z -> pow10 a <= pow10 b.
Proof.
  intros a b Hab. replace b with (a + (b - a))%Z by lia.
  rewrite pow10_add.
  rewrite <- (Qmult_1_r (pow10 a)) at 1.
  apply Qmult_le_l; [apply pow10_pos|]. apply pow10_ge_1. lia.
Qed.

Lemma pow10_lt_inv : forall a b, pow10 a < pow10 b -> (a < b)%Z.
Proof.
  intros a b H. destruct (Z_lt_le_dec a b) as [Hlt|Hle]; [exact Hlt|].
  apply pow10_mono in Hle. exfalso. apply (Qlt_irrefl (pow10 a)).
  eapply Qlt_le_trans; eauto.
Qed.

Lemma ilog_nonneg : forall b fuel n, (0 <= ilog b fuel n)%Z.
Proof.
  intros b fuel. induction fuel as [|fuel IH]; intros n; cbn [ilog]; [lia|].
  destruct (n <? b)%Z; [lia|]. specialize (IH (n / b)%Z). lia.
Qed.

Lemma ilog_lower : forall fuel n, (1 <= n)%Z -> (10 ^ ilog 10 fuel n <= n)%Z.
Proof.
  induction fuel as [|fuel IH]; intros n Hn; cbn [ilog].
  - cbn. exact Hn.
  - destruct (n <? 10)%Z eqn:Hlt; [cbn; exact Hn|].
    apply Z.ltb_ge in Hlt.
    assert (Hq : (1 <= n / 10)%Z) by (apply Z.div_le_lower_bound; lia).
    specialize (IH _ Hq).
    rewrite Z.pow_add_r by (try apply ilog_nonneg; lia).
    change (10 ^ 1)%Z with 10%Z.
    pose proof (Z.mul_div_le n 10 ltac:(lia)). nia.
Qed.

Lemma iup_nonneg : forall b fuel n d, (0 <= iup b fuel n d)%Z.
Proof.
  intros b fuel. induction fuel as [|fuel IH]; intros n d; cbn [iup]; [lia|].
  destruct (d <=? n)%Z; [lia|]. specialize (IH (n * b)%Z d). lia.
Qed.

Lemma iup_reaches : forall fuel n d,
  (0 < n)%Z -> (d < n * 2 ^ Z.of_nat fuel)%Z -> (d <= n * 10 ^ iup 10 fuel n d)%Z.
Proof.
  induction fuel as [|fuel IH]; intros n d Hn Hd; cbn [iup].
  - cbn in Hd. cbn. lia.
  - destruct (d <=? n)%Z eqn:Hle; [apply Z.leb_le in Hle; cbn; lia|].
    rewrite Z.pow_add_r by (try apply iup_nonneg; lia).
    change (10 ^ 1)%Z with 10%Z.
    assert (Hd' : (d < n * 10 * 2 ^ Z.of_nat fuel)%Z).
    { rewrite Nat2Z.inj_succ, Z.pow_succ_r in Hd by lia.
      assert (0 < 2 ^ Z.of_nat fuel)%Z by (apply Z.pow_pos_nonneg; lia). nia. }
    specialize (IH (n * 10)%Z d ltac:(lia) Hd'). lia.
Qed.

(** The leading digit of a non-zero number is not above the number. *)
Lemma leading_exp_lower : forall q, ~ q == 0 -> pow10 (leading_exp 10 q) <= Qabs q.
Proof.
  intros [n d] Hq. unfold leading_exp. cbn [Qnum Qden Qabs].
  assert (Hn : (1 <= Z.abs n)%Z).
  { assert (n <> 0)%Z; [|lia]. intros ->. apply Hq. reflexivity. }
  destruct (Z.pos d <=? Z.abs n)%Z eqn:Hle.
  - apply Z.leb_le in Hle.
    assert (Hdiv : (1 <= Z.abs n / Z.pos d)%Z) by (apply Z.div_le_lower_bound; lia).
    pose proof (ilog_lower (S (Z.to_nat (Z.log2 (Z.abs n)))) _ Hdiv) as Hlow.
    rewrite pow10_Z by apply ilog_nonneg.
    unfold Qle. cbn [Qnum Qden inject_Z].
    pose proof (Z.mul_div_le (Z.abs n) (Z.pos d) ltac:(lia)). nia.
  - apply Z.leb_gt in Hle.
    set (j := iup 10 (S (Z.to_nat (Z.log2 (Z.pos d)))) (Z.abs n) (Z.pos d)).
    assert (Hj : (0 <= j)%Z) by apply iup_nonneg.
    assert (Hreach : (Z.pos d <= Z.abs n * 10 ^ j)%Z).
    { apply iup_reaches; [lia|].
      rewrite Nat2Z.inj_succ, Z2Nat.id by apply Z.log2_nonneg.
      pose proof (Z.log2_spec (Z.pos d) ltac:(lia)) as [_ Hup].
      pose proof (Z.log2_nonneg (Z.pos d)) as Hlog.
      assert (0 < 2 ^ Z.succ (Z.log2 (Z.pos d)))%Z by (apply Z.pow_pos_nonneg; lia).
      nia. }
    assert (Hinv : pow10 (- j) == / pow10 j).
    { unfold pow10. apply Qpower_opp. }
    rewrite Hinv, pow10_Z by exact Hj.
    assert (Hp : (0 < 10 ^ j)%Z) by (apply Z.pow_pos_nonneg; lia).
    apply Qle_shift_inv_r.
    + change 0 with (inject_Z 0). rewrite <- Zlt_Qlt. exact Hp.
    + unfold Qle. cbn [Qnum Qden inject_Z Qmult]. rewrite !Z.mul_1_r.
      rewrite Z.mul_1_l. lia.
Qed.

Lemma round_half_even_Z : forall q m, q == inject_Z m -> round_half_even q = m.
Proof.
  intros q m H. unfold round_half_even.
  assert (Hf : Qfloor q = m) by (rewrite H; apply Qfloor_Z).
  rewrite Hf.
  assert (Hc : (q - inject_Z m ?= 1 # 2) = Lt).
  { apply Qlt_alt. rewrite H. setoid_replace (inject_Z m - inject_Z m) with 0 by ring.
    reflexivity. }
  rewrite Hc. reflexivity.
Qed.

(** A number with 18 fractional digits and at most [prec] digits in all
    is left as it is by the rounding of the context. *)
Lemma ctx_round_exact : forall prec q, fits prec q -> ctx_round prec q == q.
Proof.
  intros prec q [[n Hn] Hbound]. unfold ctx_round.
  destruct (Qeq_bool q 0) eqn:Hz.
  - apply Qeq_bool_iff in Hz. symmetry. exact Hz.
  - assert (Hq : ~ q == 0) by (apply Qeq_bool_neq; exact Hz).
    set (k := leading_exp 10 q).
    assert (Hk : (k < prec - 18)%Z).
    { apply pow10_lt_inv. eapply Qle_lt_trans; [apply leading_exp_lower; exact Hq|].
      exact Hbound. }
    set (e := (k - (prec - 1))%Z).
    assert (He : (0 <= - 18 - e)%Z) by (unfold e; lia).
    assert (Hne : ~ pow10 e == 0).
    { intros H. pose proof (pow10_pos e) as Hp. rewrite H in Hp. exact (Qlt_irrefl _ Hp). }
    assert (Hinv : pow10 (- 18 - e) == / pow10 18 * / pow10 e).
    { replace (- 18 - e)%Z with (- (18 + e))%Z by lia.
      unfold pow10 at 1. rewrite Qpower_opp. fold (pow10 (18 + e)).
      rewrite pow10_add. apply Qinv_mult_distr. }
    assert (Hint : q / pow10 e == inject_Z (n * 10 ^ (- 18 - e))).
    { rewrite inject_Z_mult, <- pow10_Z by exact He.
      rewrite Hn, <- (pow10_Z 18), Hinv by lia. unfold Qdiv. ring. }
    rewrite Qred_correct.
    rewrite (round_half_even_Z _ _ Hint).
    rewrite inject_Z_mult, <- pow10_Z by exact He.
    rewrite Hn, <- (pow10_Z 18), Hinv by lia. unfold Qdiv.
    transitivity (inject_Z n * / pow10 18 * (pow10 e * / pow10 e)); [ring|].
    rewrite Qmult_inv_r by exact Hne. ring.
Qed.

End ExactSums.

(* ================================================================== *)
(** * The summary of the immature rewards *)
(* ================================================================== *)

Section SummaryRows.

Local Open Scope Q_scope.

Lemma key_eqb_eq : forall a b, key_eqb a b = true <-> a = b.
Proof.
  intros [[a1 a2] a3] [[b1 b2] b3]. unfold key_eqb. cbn [fst snd].
  rewrite !andb_true_iff, !String.eqb_eq. split.
  - intros [[-> ->] ->]. reflexivity.
  - intros H. inversion H. auto.
Qed.

Lemma key_eqb_refl : forall a, key_eqb a a = true.
Proof. intros a. apply key_eqb_eq. reflexivity. Qed.

Lemma key_eqb_neq : forall a b, a <> b -> key_eqb a b = false.
Proof.
  intros a b H. destruct (key_eqb a b) eqn:E; [|reflexivity].
  apply key_eqb_eq in E. contradiction.
Qed.

Lemma Qsum_app : forall l1 l2, Qsum (l1 ++ l2) == Qsum l1 + Qsum l2.
Proof.
  induction l1 as [|x l1 IH]; intros l2; unfold Qsum in *; cbn [app fold_right].
  - ring.
  - rewrite IH. ring.
Qed.

Lemma rewards_of_app : forall k l1 l2,
  rewards_of k (l1 ++ l2) = rewards_of k l1 ++ rewards_of k l2.
Proof.
  intros. unfold rewards_of. rewrite filter_app, map_app. reflexivity.
Qed.

Lemma rewards_of_one : forall r,
  rewards_of (reward_key r) [r] = [ImmatureMiningReward.mcb_balance r].
Proof.
  intros r. unfold rewards_of. cbn [filter].
  destruct (key_eqb (reward_key r) (reward_key r)) eqn:E; [reflexivity|].
  rewrite key_eqb_refl in E. discriminate.
Qed.

Lemma rewards_of_other : forall k r, reward_key r <> k -> rewards_of k [r] = [].
Proof.
  intros k r H. unfold rewards_of. cbn [filter].
  destruct (key_eqb (reward_key r) k) eqn:E; [|reflexivity].
  apply key_eqb_eq in E. contradiction.
Qed.

Lemma Qsum_one : forall x, Qsum [x] == x.
Proof. intros x. unfold Qsum. cbn [fold_right]. ring. Qed.

Lemma Qsum_nil : Qsum [] == 0.
Proof. reflexivity. Qed.

Lemma Qsum_abs_nonneg : forall l, 0 <= Qsum (map Qabs l).
Proof.
  induction l as [|x l IH]; unfold Qsum in *; cbn [map fold_right]; [apply Qle_refl|].
  pose proof (Qabs_nonneg x). lra.
Qed.

Lemma Qabs_Qsum : forall l, Qabs (Qsum l) <= Qsum (map Qabs l).
Proof.
  induction l as [|x l IH]; unfold Qsum in *; cbn [map fold_right]; [apply Qle_refl|].
  eapply Qle_trans; [apply Qabs_triangle|]. lra.
Qed.

Lemma scale18_0 : scale18 0.
Proof. exists 0%Z. reflexivity. Qed.

Lemma scale18_plus : forall a b, scale18 a -> scale18 b -> scale18 (a + b).
Proof.
  intros a b [n Hn] [m Hm]. exists (n + m)%Z.
  rewrite Hn, Hm, inject_Z_plus. unfold Qdiv. ring.
Qed.

Lemma scale18_Qsum : forall l, (forall x, In x l -> scale18 x) -> scale18 (Qsum l).
Proof.
  induction l as [|x l IH]; intros H; unfold Qsum; cbn [fold_right]; [apply scale18_0|].
  apply scale18_plus; [apply H; left; reflexivity|].
  apply IH. intros y Hy. apply H. right. exact Hy.
Qed.

Lemma fits_eq : forall prec a b, a == b -> fits prec a -> fits prec b.
Proof.
  intros prec a b Hab [[n Hn] Hbound]. split.
  - exists n. rewrite <- Hab. exact Hn.
  - rewrite <- Hab. exact Hbound.
Qed.

(** In the exact range the sum of the rewards of a key is a number the
    context does not round. *)
Lemma in_range_fits : forall prec rows,
  (forall r, In r rows -> scale18 (ImmatureMiningReward.mcb_balance r)) ->
  (forall k, Qsum (map Qabs (rewards_of k rows)) < Num.pow10 (prec - 18)) ->
  forall k, fits prec (Qsum (rewards_of k rows)).
Proof.
  intros prec rows Hscale Hbound k. split.
  - apply scale18_Qsum. intros x Hx. unfold rewards_of in Hx.
    apply in_map_iff in Hx. destruct Hx as (r & <- & Hr).
    apply filter_In in Hr. apply Hscale. apply Hr.
  - eapply Qle_lt_trans; [apply Qabs_Qsum|apply Hbound].
Qed.

(** The range is kept by every part of the rows. *)
Lemma in_range_prefix : forall prec db d new,
  in_exact_range prec d ->
  immature_mining_rewards d = immature_mining_rewards db ++ new ->
  in_exact_range prec db.
Proof.
  intros prec db d new [Hscale Hbound] Hrows. split.
  - intros r Hr. apply Hscale. rewrite Hrows. apply in_or_app. left. exact Hr.
  - intros k. specialize (Hbound k). rewrite Hrows, rewards_of_app, map_app, Qsum_app in Hbound.
    pose proof (Qsum_abs_nonneg (rewards_of k new)). lra.
Qed.

Lemma rewards_of_filter_le : forall k p rows,
  Qsum (map Qabs (rewards_of k (filter p rows))) <= Qsum (map Qabs (rewards_of k rows)).
Proof.
  intros k p rows. unfold rewards_of.
  induction rows as [|r rows IH]; cbn [filter]; [apply Qle_refl|].
  destruct (p r); cbn [filter]; destruct (key_eqb (reward_key r) k); cbn [map Qsum fold_right];
    try exact IH.
  - apply Qplus_le_r. exact IH.
  - pose proof (Qabs_nonneg (ImmatureMiningReward.mcb_balance r)).
    change (fold_right Qplus 0 ?l) with (Qsum l) in *. lra.
Qed.

Lemma summary_add_key : forall prec q s,
  summary_key (ShareMining.summary_add prec q s) = summary_key s.
Proof. reflexivity. Qed.

Lemma summary_sub_key : forall prec q s,
  summary_key (ShareMining.summary_sub prec q s) = summary_key s.
Proof. reflexivity. Qed.

(** With unique keys, the update of the row a query returned is the
    update of the row of the key. *)
Lemma update_last_unique {A K : Type} (key : A -> K) (k : K) (p : A -> bool) (f : A -> A)
    (l : list A) :
  NoDup (map key l) ->
  (forall x, p x = true <-> key x = k) ->
  update_last p f l = map (fun x => if p x then f x else x) l.
Proof.
  intros Hnd Hp. induction l as [|x l IH]; [reflexivity|].
  cbn [update_last map]. inversion Hnd as [|? ? Hx Hl]; subst.
  destruct (existsb p l) eqn:Hex.
  - apply existsb_exists in Hex. destruct Hex as (y & Hy & Hpy).
    apply Hp in Hpy.
    destruct (p x) eqn:Hpx.
    + apply Hp in Hpx. exfalso. apply Hx. rewrite Hpx, <- Hpy.
      apply in_map. exact Hy.
    + rewrite IH by exact Hl. reflexivity.
  - assert (Hid : map (fun x0 => if p x0 then f x0 else x0) l = l).
    { rewrite <- (map_id l) at 2. apply map_ext_in. intros y Hy.
      destruct (p y) eqn:Hpy; [|reflexivity].
      assert (existsb p l = true) by (apply existsb_exists; eauto). congruence. }
    rewrite Hid. destruct (p x); reflexivity.
Qed.

Lemma update_first_unique {A K : Type} (key : A -> K) (k : K) (p : A -> bool) (f : A -> A)
    (l : list A) :
  NoDup (map key l) ->
  (forall x, p x = true <-> key x = k) ->
  update_first p f l = map (fun x => if p x then f x else x) l.
Proof.
  intros Hnd Hp. induction l as [|x l IH]; [reflexivity|].
  cbn [update_first map]. inversion Hnd as [|? ? Hx Hl]; subst.
  destruct (p x) eqn:Hpx.
  - f_equal. rewrite <- (map_id l) at 1. apply map_ext_in. intros y Hy.
    destruct (p y) eqn:Hpy; [|reflexivity].
    apply Hp in Hpx. apply Hp in Hpy. exfalso. apply Hx. rewrite Hpx, <- Hpy.
    apply in_map. exact Hy.
  - rewrite IH by exact Hl. reflexivity.
Qed.

(** A reward row of a key that has no summary row yet, with its new
    summary row. *)
Lemma consistent_rows_new : forall rows sums r s,
  consistent_rows rows sums ->
  ~ In (reward_key r) (map summary_key sums) ->
  summary_key s = reward_key r ->
  ImmatureMiningRewardSummary.mcb_balance s = ImmatureMiningReward.mcb_balance r ->
  consistent_rows (rows ++ [r]) (sums ++ [s]).
Proof.
  intros rows sums r s (Hk & Hs & He) Hnew Hkey Hbal.
  assert (Hnone : rewards_of (reward_key r) rows = []).
  { unfold rewards_of.
    destruct (filter (fun r0 => key_eqb (reward_key r0) (reward_key r)) rows) as [|r0 l] eqn:Hf;
      [reflexivity|].
    assert (Hin : In r0 (r0 :: l)) by (left; reflexivity).
    rewrite <- Hf in Hin. apply filter_In in Hin. destruct Hin as [Hin Heq].
    apply key_eqb_eq in Heq. destruct (He r0 Hin) as (s0 & Hs0 & Hk0).
    exfalso. apply Hnew. rewrite <- Heq, <- Hk0. apply in_map. exact Hs0. }
  split; [|split].
  - rewrite map_app. apply NoDup_app; [exact Hk| |].
    + cbn [map]. constructor; [intros []|constructor].
    + intros a Ha [Hb|[]]. apply Hnew. rewrite <- Hkey, Hb. exact Ha.
  - intros s0 Hs0. apply in_app_or in Hs0. rewrite rewards_of_app, Qsum_app.
    destruct Hs0 as [Hs0|[<-|[]]].
    + assert (Hne : reward_key r <> summary_key s0).
      { intros Heq. apply Hnew. rewrite Heq. apply in_map. exact Hs0. }
      rewrite (rewards_of_other _ _ Hne), Qsum_nil, (Hs s0 Hs0). ring.
    + rewrite Hkey, Hnone, rewards_of_one, Qsum_one, Qsum_nil, Hbal. ring.
  - intros r0 Hr0. apply in_app_or in Hr0. destruct Hr0 as [Hr0|[<-|[]]].
    + destruct (He r0 Hr0) as (s0 & Hs0 & Hk0). exists s0. split; [|exact Hk0].
      apply in_or_app. left. exact Hs0.
    + exists s. split; [|exact Hkey]. apply in_or_app. right. left. reflexivity.
Qed.

(** A reward row of a key that has its summary row, the amount added to
    the balance of that row in the arithmetic of the context. *)
Lemma consistent_rows_add : forall prec rows sums r,
  consistent_rows rows sums ->
  In (reward_key r) (map summary_key sums) ->
  fits prec (Qsum (rewards_of (reward_key r) (rows ++ [r]))) ->
  consistent_rows (rows ++ [r])
    (map (fun s => if key_eqb (summary_key s) (reward_key r)
                   then ShareMining.summary_add prec (ImmatureMiningReward.mcb_balance r) s
                   else s) sums).
Proof.
  intros prec rows sums r (Hk & Hs & He) Hold Hfits.
  assert (Hkeys : map summary_key
                    (map (fun s => if key_eqb (summary_key s) (reward_key r)
                                   then ShareMining.summary_add prec
                                          (ImmatureMiningReward.mcb_balance r) s
                                   else s) sums)
                  = map summary_key sums).
  { rewrite map_map. apply map_ext. intros s.
    destruct (key_eqb (summary_key s) (reward_key r)); reflexivity. }
  split; [|split].
  - rewrite Hkeys. exact Hk.
  - intros s' Hs'. apply in_map_iff in Hs'. destruct Hs' as (s & <- & Hin).
    destruct (key_eqb (summary_key s) (reward_key r)) eqn:Heq.
    + apply key_eqb_eq in Heq. rewrite summary_add_key, Heq.
      cbn [ShareMining.summary_add ImmatureMiningRewardSummary.mcb_balance].
      unfold Decimal.add.
      assert (Hsum : ImmatureMiningRewardSummary.mcb_balance s
                     + ImmatureMiningReward.mcb_balance r
                     == Qsum (rewards_of (reward_key r) (rows ++ [r]))).
      { rewrite rewards_of_app, Qsum_app, (Hs s Hin), Heq, rewards_of_one, Qsum_one.
        reflexivity. }
      rewrite <- Hsum. apply ctx_round_exact.
      eapply fits_eq; [symmetry; exact Hsum|exact Hfits].
    + assert (Hne : reward_key r <> summary_key s).
      { intros E. rewrite E, key_eqb_refl in Heq. discriminate. }
      rewrite rewards_of_app, Qsum_app, (rewards_of_other _ _ Hne), Qsum_nil, (Hs s Hin).
      ring.
  - intros r0 Hr0.
    assert (Hex : exists s, In s sums /\ summary_key s = reward_key r0).
    { apply in_app_or in Hr0. destruct Hr0 as [Hr0|[<-|[]]]; [apply He; exact Hr0|].
      apply in_map_iff in Hold. destruct Hold as (s & Hks & Hin). eauto. }
    destruct Hex as (s & Hin & Hks).
    exists (if key_eqb (summary_key s) (reward_key r)
            then ShareMining.summary_add prec (ImmatureMiningReward.mcb_balance r) s
            else s).
    split.
    + apply in_map_iff. exists s. split; [reflexivity|exact Hin].
    + destruct (key_eqb (summary_key s) (reward_key r)); exact Hks.
Qed.

End SummaryRows.

(* ================================================================== *)
(** * [sync] keeps the summary *)
(* ================================================================== *)

Section SyncSummary.

Import ShareMining.

Variable prec : Z.
Variable config : Config.

Lemma summary_matches_key : forall mining_round pool_name holder s,
  summary_matches mining_round pool_name holder s
  = key_eqb (summary_key s) (mining_round, pool_name, holder).
Proof. reflexivity. Qed.

Lemma summary_matches_iff : forall mining_round pool_name holder s,
  summary_matches mining_round pool_name holder s = true
  <-> summary_key s = (mining_round, pool_name, holder).
Proof.
  intros. rewrite summary_matches_key. apply key_eqb_eq.
Qed.

(** What [save_immature_reward] does to the keys of the summaries. *)
Lemma save_immature_reward_keys :
  forall self block_number pool_name holders holder reward db,
    let d := save_immature_reward prec self block_number pool_name holders holder reward db in
    map summary_key (immature_mining_reward_summaries d)
    = map summary_key (immature_mining_reward_summaries db)
    \/ map summary_key (immature_mining_reward_summaries d)
       = map summary_key (immature_mining_reward_summaries db)
         ++ [(_mining_round self, pool_name, holder)].
Proof.
  intros. subst d. unfold save_immature_reward.
  destruct (negb (existsb (String.eqb holder) holders)).
  - right. cbn [set_immature immature_mining_reward_summaries]. rewrite map_app. reflexivity.
  - left. cbn [set_immature immature_mining_reward_summaries].
    apply update_last_keys. intros x. reflexivity.
Qed.

(** One row and its summary: the invariant is kept when the holders read
    at the start of the pool tell whether the key has a summary row, and
    the rows stay in the exact range. *)
Lemma save_immature_reward_consistent :
  forall self block_number pool_name holders holder reward db,
    consistent_rows (immature_mining_rewards db) (immature_mining_reward_summaries db) ->
    (existsb (String.eqb holder) holders = true
     <-> In (_mining_round self, pool_name, holder)
            (map summary_key (immature_mining_reward_summaries db))) ->
    let d := save_immature_reward prec self block_number pool_name holders holder reward db in
    in_exact_range prec d ->
    consistent_rows (immature_mining_rewards d) (immature_mining_reward_summaries d).
Proof.
  intros self b pool_name holders holder reward db Hc Hsnap d Hrange. subst d.
  revert Hrange. unfold save_immature_reward.
  set (r := {| ImmatureMiningReward.block_number := b;
               ImmatureMiningReward.pool_name := pool_name;
               ImmatureMiningReward.mining_round := _mining_round self;
               ImmatureMiningReward.holder := holder;
               ImmatureMiningReward.mcb_balance := reward |}).
  destruct (existsb (String.eqb holder) holders) eqn:Hex; cbn [negb];
    cbn [set_immature immature_mining_rewards immature_mining_reward_summaries];
    intros [Hscale Hbound].
  - assert (Hold : In (reward_key r) (map summary_key (immature_mining_reward_summaries db)))
      by (apply Hsnap; reflexivity).
    rewrite (update_last_unique summary_key (_mining_round self, pool_name, holder)).
    + apply (consistent_rows_add prec _ _ r Hc Hold).
      apply in_range_fits; [exact Hscale|exact Hbound].
    + apply Hc.
    + intros x. apply summary_matches_iff.
  - apply (consistent_rows_new _ _ r); try reflexivity; [exact Hc|].
    intros Hin. apply Hsnap in Hin. congruence.
Qed.

(** The holders read at the start of a pool are those of the summary
    rows of the round and the pool. *)
Lemma summary_holders_spec : forall mining_round pool_name sums holder,
  existsb (String.eqb holder)
    (map ImmatureMiningRewardSummary.holder
       (filter (fun item =>
                  (String.eqb (ImmatureMiningRewardSummary.mining_round item) mining_round
                   && String.eqb (ImmatureMiningRewardSummary.pool_name item) pool_name)%bool)
               sums)) = true
  <-> In (mining_round, pool_name, holder) (map summary_key sums).
Proof.
  intros mining_round pool_name sums holder. split.
  - intros H. apply existsb_exists in H. destruct H as (h & Hin & Heq).
    apply String.eqb_eq in Heq. subst h.
    apply in_map_iff in Hin. destruct Hin as (s & Hh & Hs).
    apply filter_In in Hs. destruct Hs as [Hs Hm].
    apply andb_true_iff in Hm. destruct Hm as [Hr Hp].
    apply String.eqb_eq in Hr, Hp.
    apply in_map_iff. exists s. split; [|exact Hs].
    unfold summary_key. congruence.
  - intros H. apply in_map_iff in H. destruct H as (s & Hk & Hs).
    unfold summary_key in Hk. injection Hk as Hr Hp Hh. subst mining_round pool_name holder.
    apply existsb_exists. exists (ImmatureMiningRewardSummary.holder s).
    split; [|apply String.eqb_refl].
    apply in_map_iff. exists s. split; [reflexivity|].
    apply filter_In. split; [exact Hs|]. rewrite !String.eqb_refl. reflexivity.
Qed.

Lemma item_loop_appends :
  forall self block_number pool_name pv pool_reward weights holders items db d,
    for_each
      (fun (db_session : DBSession) (item : string * Q) =>
         if Decimal.eqb (snd item) 0 then Ok db_session
         else
           let* reward := item_reward self block_number pv pool_reward weights item in
           Ok (save_immature_reward prec self block_number pool_name holders
                 (fst item) reward db_session))
      db items = Ok d ->
    append_alike db db d d.
Proof.
  intros self b pool_name pv pool_reward weights holders items db d H.
  pose proof (item_loop_alike prec self b pool_name pv pool_reward weights holders holders
                items db db) as Hsim.
  rewrite H in Hsim. exact Hsim.
Qed.

(** The loop over the share-token items of a pool, the holders of the
    items distinct. *)
Lemma item_loop_consistent :
  forall self block_number pool_name pv pool_reward weights holders items db d,
    NoDup (map fst items) ->
    consistent_rows (immature_mining_rewards db) (immature_mining_reward_summaries db) ->
    (forall holder, In holder (map fst items) ->
       (existsb (String.eqb holder) holders = true
        <-> In (_mining_round self, pool_name, holder)
               (map summary_key (immature_mining_reward_summaries db)))) ->
    for_each
      (fun (db_session : DBSession) (item : string * Q) =>
         if Decimal.eqb (snd item) 0 then Ok db_session
         else
           let* reward := item_reward self block_number pv pool_reward weights item in
           Ok (save_immature_reward prec self block_number pool_name holders
                 (fst item) reward db_session))
      db items = Ok d ->
    in_exact_range prec d ->
    consistent_rows (immature_mining_rewards d) (immature_mining_reward_summaries d).
Proof.
  intros self b pool_name pv pool_reward weights holders items.
  induction items as [|item items IH]; intros db d Hnd Hc Hsnap Hrun Hrange.
  - cbn in Hrun. inversion Hrun; subst. exact Hc.
  - cbn [map] in Hnd. inversion Hnd as [|? ? Hfresh Hnd']; subst.
    cbn [for_each] in Hrun.
    destruct (Decimal.eqb (snd item) 0).
    + cbn [bind] in Hrun. apply (IH db d Hnd' Hc); [|exact Hrun|exact Hrange].
      intros h Hh. apply Hsnap. right. exact Hh.
    + destruct (item_reward self b pv pool_reward weights item) as [reward|e];
        cbn [bind] in Hrun; [|discriminate].
      set (db1 := save_immature_reward prec self b pool_name holders (fst item) reward db)
        in *.
      pose proof (item_loop_appends _ _ _ _ _ _ _ _ _ _ Hrun) as (_ & _ & new & Hnew & _).
      assert (Hrange1 : in_exact_range prec db1)
        by (eapply in_range_prefix; eauto).
      apply (IH db1 d Hnd'); [| |exact Hrun|exact Hrange].
      * apply save_immature_reward_consistent; [exact Hc| |exact Hrange1].
        apply Hsnap. left. reflexivity.
      * intros h Hh. rewrite (Hsnap h) by (right; exact Hh).
        destruct (save_immature_reward_keys self b pool_name holders (fst item) reward db)
          as [Hk|Hk]; fold db1 in Hk; rewrite Hk; [reflexivity|].
        split; [intros H; apply in_or_app; left; exact H|].
        intros H. apply in_app_or in H. destruct H as [H|[H|[]]]; [exact H|].
        inversion H. exfalso. apply Hfresh. congruence.
Qed.

Lemma pool_reward_step_appends :
  forall self block_number amms_weights weights entry db d,
    pool_reward_step prec self block_number amms_weights weights db entry = Ok d ->
    append_alike db db d d.
Proof.
  intros self b aw w entry db d H.
  pose proof (pool_reward_step_alike prec self b aw w entry db db) as Hsim.
  rewrite H in Hsim. exact Hsim.
Qed.

Lemma pools_loop_appends :
  forall self block_number amms_weights weights pool_value_info db d,
    for_each (pool_reward_step prec self block_number amms_weights weights) db pool_value_info
      = Ok d ->
    append_alike db db d d.
Proof.
  intros self b aw w pvi db d H.
  pose proof (pools_loop_alike prec self b aw w pvi db db) as Hsim.
  rewrite H in Hsim. exact Hsim.
Qed.

(** One pool. *)
Lemma pool_reward_step_consistent :
  forall self block_number amms_weights weights pool_name pv db d,
    NoDup (map fst (share_token_items pv)) ->
    consistent_rows (immature_mining_rewards db) (immature_mining_reward_summaries db) ->
    pool_reward_step prec self block_number amms_weights weights db (pool_name, pv) = Ok d ->
    in_exact_range prec d ->
    consistent_rows (immature_mining_rewards d) (immature_mining_reward_summaries d).
Proof.
  intros self b aw w pool_name pv db d Hnd Hc Hrun Hrange.
  unfold pool_reward_step in Hrun.
  destruct (Decimal.eqb (total_share_token_amount pv) 0).
  - inversion Hrun; subst. exact Hc.
  - destruct (key_of (pool_reward pv)) as [pool_reward|e]; cbn [bind] in Hrun; [|discriminate].
    eapply item_loop_consistent; [exact Hnd|exact Hc| |exact Hrun|exact Hrange].
    intros h _. apply summary_holders_spec.
Qed.

(** The pools of a pass. *)
Lemma pools_loop_consistent :
  forall self block_number amms_weights weights pool_value_info db d,
    Forall (fun entry => NoDup (map fst (share_token_items (snd entry)))) pool_value_info ->
    consistent_rows (immature_mining_rewards db) (immature_mining_reward_summaries db) ->
    for_each (pool_reward_step prec self block_number amms_weights weights) db pool_value_info
      = Ok d ->
    in_exact_range prec d ->
    consistent_rows (immature_mining_rewards d) (immature_mining_reward_summaries d).
Proof.
  intros self b aw w pvi. induction pvi as [|[pool_name pv] pvi IH];
    intros db d Hnd Hc Hrun Hrange.
  - cbn in Hrun. inversion Hrun; subst. exact Hc.
  - inversion Hnd as [|? ? Hpv Hrest]; subst. cbn [snd] in Hpv.
    cbn [for_each] in Hrun.
    destruct (pool_reward_step prec self b aw w db (pool_name, pv)) as [db1|e] eqn:Hstep;
      cbn [bind] in Hrun; [|discriminate].
    pose proof (pools_loop_appends _ _ _ _ _ _ _ Hrun) as (_ & _ & new & Hnew & _).
    apply (IH db1 d Hrest); [|exact Hrun|exact Hrange].
    eapply pool_reward_step_consistent; [exact Hpv|exact Hc|exact Hstep|].
    eapply in_range_prefix; eauto.
Qed.

(** The holders of the share-token items of a pool are distinct: the
    key of [TokenBalance] is (token, holder). *)
Lemma share_token_items_holders :
  forall share_token_address db,
    token_balance_keys_unique db ->
    NoDup (map fst (_get_share_token_items share_token_address db)).
Proof.
  intros addr db Hu. unfold _get_share_token_items, token_balance_keys_unique in *.
  rewrite map_map. cbn [fst].
  induction (token_balances db) as [|t l IH]; [constructor|].
  cbn [map] in Hu. inversion Hu as [|? ? Hfresh Hl]; subst.
  cbn [filter].
  destruct (String.eqb (TokenBalance.token t) addr
            && negb (Decimal.eqb (TokenBalance.balance t) 0))%bool eqn:Hp;
    [|apply IH; exact Hl].
  cbn [map]. constructor; [|apply IH; exact Hl].
  intros Hin. apply in_map_iff in Hin. destruct Hin as (t' & Hh & Ht').
  apply filter_In in Ht'. destruct Ht' as [Ht' Hp'].
  apply andb_true_iff in Hp. apply andb_true_iff in Hp'.
  destruct Hp as [Hp _]. destruct Hp' as [Hp' _].
  apply String.eqb_eq in Hp, Hp'.
  apply Hfresh. apply in_map_iff. exists t'. split; [|exact Ht'].
  congruence.
Qed.

(** Every pool of [pool_value_info] carries share-token items with
    distinct holders. *)
Lemma get_pool_value_info_items :
  forall self block_number pool_info pool_reward_percent db self' pvi,
    token_balance_keys_unique db ->
    _get_pool_value_info prec config self block_number pool_info pool_reward_percent db
      = Ok (self', pvi) ->
    Forall (fun entry => NoDup (map fst (share_token_items (snd entry)))) pvi.
Proof.
  intros self b pool_info pct db self' pvi Hu. unfold _get_pool_value_info.
  destruct (_update_uniswap_pool_proportion _ _ _ _) as [pool_info'|e]; cbn [bind];
    [|discriminate].
  match goal with
  | |- bind (for_each ?body ?s0 ?l) _ = _ -> _ =>
      destruct (for_each body s0 l) as [st|e] eqn:Hloop; cbn [bind]; [|discriminate]
  end.
  assert (Hst : Forall (fun entry => NoDup (map fst (share_token_items (snd entry))))
                  (vl_pool_value_info st)).
  { revert Hloop.
    apply (for_each_invariant
             (fun st => Forall (fun entry => NoDup (map fst (share_token_items (snd entry))))
                          (vl_pool_value_info st))); [|constructor].
    intros s [pool_name info] s' _ Hs. unfold pool_value_step.
    destruct (_ && _)%bool.
    - destruct (_get_effective_share_info _ _ _ _ _ _ _) as [[eff total]|e]; cbn [bind];
        [|discriminate].
      destruct (_get_pool_usd_value _ _ _ _ _ _) as [usd|e]; cbn [bind]; [|discriminate].
      match goal with |- bind ?m _ = _ -> _ => destruct m as [v|e] end; cbn [bind];
        [|discriminate].
      intros H. inversion H; subst. cbn [vl_pool_value_info].
      apply (dict_set_Forall (fun pv => NoDup (map fst (share_token_items pv))));
        [|exact Hs]. cbn [share_token_items].
      apply share_token_items_holders. exact Hu.
    - intros H. inversion H; subst. cbn [vl_pool_value_info].
      apply (dict_set_Forall (fun pv => NoDup (map fst (share_token_items pv))));
        [|exact Hs]. cbn [share_token_items].
      apply share_token_items_holders. exact Hu. }
  destruct (bound (vl_pool_type st)) as [pt|e]; cbn [bind]; [|discriminate].
  destruct (_ && _)%bool.
  - match goal with
    | |- bind (for_each ?body ?s0 ?l) _ = _ -> _ =>
        destruct (for_each body s0 l) as [pvi'|e] eqn:Hloop2; cbn [bind]; [|discriminate]
    end.
    intros H. inversion H; subst.
    revert Hloop2.
    apply (for_each_invariant
             (Forall (fun entry => NoDup (map fst (share_token_items (snd entry))))));
      [|exact Hst].
    intros d [pool_name pv] d' Hin Hd. unfold amm_pool_reward_step.
    destruct (key_of (pool_effective_usd_value pv)) as [v|e]; cbn [bind]; [|discriminate].
    match goal with |- bind ?m _ = _ -> _ => destruct m as [r|e] end; cbn [bind];
      [|discriminate].
    intros H'. inversion H'; subst.
    apply (dict_set_Forall (fun pv => NoDup (map fst (share_token_items pv))));
      [|exact Hd]. cbn [set_pool_reward share_token_items].
    rewrite Forall_forall in Hst. apply (Hst _ Hin).
  - intros H. inversion H; subst. exact Hst.
Qed.

Lemma unchanged_consistent :
  forall db d,
    unchanged db d ->
    consistent_rows (immature_mining_rewards db) (immature_mining_reward_summaries db) ->
    consistent_rows (immature_mining_rewards d) (immature_mining_reward_summaries d).
Proof.
  intros db d (_ & Hr & Hs) H. rewrite Hr, Hs. exact H.
Qed.

Lemma calculate_pools_reward_appends :
  forall self block_number pool_info pool_reward_percent db self' d,
    _calculate_pools_reward prec config self block_number pool_info pool_reward_percent db
      = Ok (self', d) ->
    append_alike db db d d.
Proof.
  intros self b pi pct db self' d H.
  pose proof (calculate_pools_reward_alike prec config self b pi pct db db (same_env_refl db))
    as Hsim.
  rewrite H in Hsim. apply Hsim.
Qed.

(** A pass keeps the invariant. *)
Lemma calculate_pools_reward_consistent :
  forall self block_number pool_info pool_reward_percent db self' d,
    token_balance_keys_unique db ->
    consistent_rows (immature_mining_rewards db) (immature_mining_reward_summaries db) ->
    _calculate_pools_reward prec config self block_number pool_info pool_reward_percent db
      = Ok (self', d) ->
    in_exact_range prec d ->
    consistent_rows (immature_mining_rewards d) (immature_mining_reward_summaries d).
Proof.
  intros self b pool_info pct db self' d Hu Hc Hrun Hrange.
  unfold _calculate_pools_reward in Hrun.
  destruct (_get_pool_value_info prec config self b pool_info pct db)
    as [[self1 pvi]|e] eqn:Hinfo; cbn [bind] in Hrun; [|discriminate].
  pose proof (get_pool_value_info_items _ _ _ _ _ _ _ Hu Hinfo) as Hitems.
  destruct (_qin_begin_block_number self1 <=? b).
  - pose proof (holder_amms_reward_weight_alike prec config self1 b pvi db db
                  (same_env_refl db)) as Hw.
    destruct (_get_holder_amms_reward_weight prec config self1 b pvi db) as [[m w]|e];
      cbn [bind] in Hrun; [|discriminate].
    destruct Hw as (_ & Hun & _). cbn [fst] in Hun.
    destruct (for_each _ m pvi) as [d'|e] eqn:Hloop; cbn [bind] in Hrun; [|discriminate].
    inversion Hrun; subst.
    eapply pools_loop_consistent; [exact Hitems| |exact Hloop|exact Hrange].
    eapply unchanged_consistent; eauto.
  - destruct (_zhou_begin_block_number self1 <=? b).
    + pose proof (holder_reward_weight_alike prec config self1 b pvi db db
                    (same_env_refl db)) as Hw.
      destruct (_get_holder_reward_weight prec config self1 b pvi db) as [[m w]|e];
        cbn [bind] in Hrun; [|discriminate].
      destruct Hw as (_ & Hun & _). cbn [fst] in Hun.
      destruct (for_each _ m pvi) as [d'|e] eqn:Hloop; cbn [bind] in Hrun; [|discriminate].
      inversion Hrun; subst.
      eapply pools_loop_consistent; [exact Hitems| |exact Hloop|exact Hrange].
      eapply unchanged_consistent; eauto.
    + cbn [bind] in Hrun.
      destruct (for_each _ db pvi) as [d'|e] eqn:Hloop; cbn [bind] in Hrun; [|discriminate].
      inversion Hrun; subst.
      eapply pools_loop_consistent; [exact Hitems|exact Hc|exact Hloop|exact Hrange].
Qed.

Lemma two_passes_consistent :
  forall self block_number pool_info pool_reward_percent pool_info' pool_reward_percent'
         db self' d,
    token_balance_keys_unique db ->
    consistent_rows (immature_mining_rewards db) (immature_mining_reward_summaries db) ->
    (let* (self, db_session) :=
       _calculate_pools_reward prec config self block_number pool_info
         pool_reward_percent db in
     _calculate_pools_reward prec config self block_number pool_info'
       pool_reward_percent' db_session) = Ok (self', d) ->
    in_exact_range prec d ->
    consistent_rows (immature_mining_rewards d) (immature_mining_reward_summaries d).
Proof.
  intros self b pi pct pi' pct' db self' d Hu Hc Hrun Hrange.
  destruct (_calculate_pools_reward prec config self b pi pct db) as [[s1 d1]|e] eqn:H1;
    cbn [bind] in Hrun; [|discriminate].
  pose proof (calculate_pools_reward_appends _ _ _ _ _ _ _ H1) as (Henv & _ & _).
  pose proof (calculate_pools_reward_appends _ _ _ _ _ _ _ Hrun) as (_ & _ & new & Hnew & _).
  eapply calculate_pools_reward_consistent; [| |exact Hrun|exact Hrange].
  - unfold token_balance_keys_unique in *. destruct Henv as (<- & _). exact Hu.
  - eapply calculate_pools_reward_consistent; [exact Hu|exact Hc|exact H1|].
    eapply in_range_prefix; eauto.
Qed.

(** [sync] keeps the invariant. *)
Lemma sync_consistent :
  forall self watcher_id block_number block_hash db self' d,
    token_balance_keys_unique db ->
    consistent_rows (immature_mining_rewards db) (immature_mining_reward_summaries db) ->
    sync prec config self watcher_id block_number block_hash db = Ok (self', d) ->
    in_exact_range prec d ->
    consistent_rows (immature_mining_rewards d) (immature_mining_reward_summaries d).
Proof.
  intros self w b h db self' d Hu Hc Hrun Hrange. revert Hrun. unfold sync.
  destruct (_ || _)%bool; [intros H; inversion H; subst; exact Hc|].
  destruct (String.eqb (_mining_round self) "XIA").
  { intros H. eapply calculate_pools_reward_consistent; eauto. }
  destruct (String.eqb (_mining_round self) "SHANG").
  { intros H. eapply two_passes_consistent; eauto. }
  destruct (String.eqb (_mining_round self) "ZHOU").
  { intros H. eapply two_passes_consistent; eauto. }
  destruct (String.eqb (_mining_round self) "QIN").
  { intros H. eapply two_passes_consistent; eauto. }
  destruct (String.eqb (_mining_round self) "HAN").
  { intros H. eapply calculate_pools_reward_consistent; eauto. }
  intros H; inversion H; subst; exact Hc.
Qed.

End SyncSummary.

(* ================================================================== *)
(** * [rollback] keeps the summary *)
(* ================================================================== *)

Section RollbackSummary.

Import ShareMining.
Local Open Scope Q_scope.

Variable prec : Z.

Lemma same_group_iff : forall a b, same_group a b = true <-> reward_key a = reward_key b.
Proof.
  intros a b. unfold same_group, reward_key.
  rewrite !andb_true_iff, !String.eqb_eq. split.
  - intros [[-> ->] ->]. reflexivity.
  - intros H. inversion H. auto.
Qed.

Lemma same_group_key : forall a x, same_group a x = key_eqb (reward_key x) (reward_key a).
Proof.
  intros a x. destruct (same_group a x) eqn:H.
  - apply same_group_iff in H. symmetry. apply key_eqb_eq. congruence.
  - symmetry. apply key_eqb_neq. intros E.
    assert (same_group a x = true) by (apply same_group_iff; congruence). congruence.
Qed.

Lemma rewards_of_same_group : forall r rows,
  map ImmatureMiningReward.mcb_balance (filter (same_group r) rows)
  = rewards_of (reward_key r) rows.
Proof.
  intros r rows. unfold rewards_of. f_equal. apply filter_ext. intros x.
  apply same_group_key.
Qed.

Lemma rewards_of_without_group : forall k r rows,
  k <> reward_key r ->
  rewards_of k (filter (fun x => negb (same_group r x)) rows) = rewards_of k rows.
Proof.
  intros k r rows Hk. unfold rewards_of. f_equal.
  induction rows as [|x rows IH]; [reflexivity|].
  cbn [filter]. destruct (same_group r x) eqn:Hg; cbn [negb].
  - apply same_group_iff in Hg.
    rewrite (key_eqb_neq (reward_key x) k) by congruence. exact IH.
  - cbn [filter]. destruct (key_eqb (reward_key x) k); [f_equal|]; exact IH.
Qed.

(** The groups of [rollback]: one item per key of the rows, with the sum
    of the rows of the key. *)
Lemma group_by_sum_spec : forall fuel rows,
  (List.length rows <= fuel)%nat ->
  let items := group_by_sum fuel rows in
  NoDup (map reward_key items)
  /\ (forall item, In item items ->
        In (reward_key item) (map reward_key rows)
        /\ ImmatureMiningReward.mcb_balance item = Qsum (rewards_of (reward_key item) rows))
  /\ (forall x, In x rows -> In (reward_key x) (map reward_key items)).
Proof.
  induction fuel as [|fuel IH]; intros rows Hlen items; subst items.
  - destruct rows; [|cbn in Hlen; lia]. cbn.
    split; [constructor|]. split; intros ? [].
  - destruct rows as [|r rows].
    { cbn. split; [constructor|]. split; intros ? []. }
    cbn [group_by_sum].
    set (rest := filter (fun x => negb (same_group r x)) rows).
    assert (Hrest : (List.length rest <= fuel)%nat).
    { pose proof (filter_length_le (fun x => negb (same_group r x)) rows).
      cbn in Hlen. unfold rest. lia. }
    destruct (IH rest Hrest) as (Hnd & Hitems & Hcover).
    set (head := {| ImmatureMiningReward.block_number := ImmatureMiningReward.block_number r;
                    ImmatureMiningReward.pool_name := ImmatureMiningReward.pool_name r;
                    ImmatureMiningReward.mining_round := ImmatureMiningReward.mining_round r;
                    ImmatureMiningReward.holder := ImmatureMiningReward.holder r;
                    ImmatureMiningReward.mcb_balance :=
                      Qsum (map ImmatureMiningReward.mcb_balance
                              (filter (same_group r) (r :: rows))) |}).
    assert (Hhead : reward_key head = reward_key r) by reflexivity.
    assert (Hrest_keys : forall x, In x rest -> reward_key x <> reward_key r).
    { intros x Hx. apply filter_In in Hx. destruct Hx as [_ Hx].
      intros E. assert (same_group r x = true) by (apply same_group_iff; congruence).
      rewrite H in Hx. discriminate. }
    split; [|split].
    + cbn [map]. constructor; [|exact Hnd].
      rewrite Hhead. intros Hin. apply in_map_iff in Hin. destruct Hin as (item & Hk & Hitem).
      destruct (Hitems item Hitem) as [Hin _].
      apply in_map_iff in Hin. destruct Hin as (x & Hkx & Hx).
      apply (Hrest_keys x Hx). congruence.
    + intros item [<-|Hitem].
      * split; [left; reflexivity|].
        subst head. cbn [ImmatureMiningReward.mcb_balance].
        rewrite rewards_of_same_group. reflexivity.
      * destruct (Hitems item Hitem) as [Hin Hsum]. split.
        -- apply in_map_iff in Hin. destruct Hin as (x & Hkx & Hx).
           apply filter_In in Hx. right. apply in_map_iff. exists x. tauto.
        -- rewrite Hsum.
           assert (Hne : reward_key item <> reward_key r).
           { apply in_map_iff in Hin. destruct Hin as (x & Hkx & Hx).
             rewrite <- Hkx. apply Hrest_keys. exact Hx. }
           unfold rest. rewrite (rewards_of_without_group _ r rows Hne).
           change (r :: rows) with ([r] ++ rows).
           rewrite rewards_of_app, rewards_of_other by congruence. reflexivity.
    + intros x [<-|Hx]; [left; exact Hhead|].
      destruct (same_group r x) eqn:Hg.
      * left. apply same_group_iff in Hg. congruence.
      * right. apply Hcover. apply filter_In. split; [exact Hx|]. rewrite Hg. reflexivity.
Qed.

(** The rows of a key: those rolled back and those kept. *)
Lemma rewards_of_partition : forall k (p : ImmatureMiningReward.t -> bool) rows,
  Qsum (rewards_of k rows)
  == Qsum (rewards_of k (filter p rows))
     + Qsum (rewards_of k (filter (fun x => negb (p x)) rows)).
Proof.
  intros k p rows. unfold rewards_of.
  induction rows as [|x rows IH]; [reflexivity|].
  cbn [filter]. destruct (p x); cbn [negb filter];
    destruct (key_eqb (reward_key x) k); cbn [map]; unfold Qsum in *; cbn [fold_right];
    rewrite ?IH; ring.
Qed.

(** The summaries after the loop over the groups, keys distinct on both
    sides: each summary row with a group of its key has the sum of the
    group subtracted. *)
Lemma rollback_summaries :
  forall items sums,
    NoDup (map reward_key items) ->
    NoDup (map summary_key sums) ->
    fold_left
      (fun summaries item =>
         update_first
           (fun s => (String.eqb (ImmatureMiningRewardSummary.holder s)
                                 (ImmatureMiningReward.holder item)
                      && String.eqb (ImmatureMiningRewardSummary.pool_name s)
                                    (ImmatureMiningReward.pool_name item)
                      && String.eqb (ImmatureMiningRewardSummary.mining_round s)
                                    (ImmatureMiningReward.mining_round item))%bool)
           (summary_sub prec (ImmatureMiningReward.mcb_balance item))
           summaries)
      items sums
    = map (fun s =>
             match find (fun item => key_eqb (reward_key item) (summary_key s)) items with
             | Some item => summary_sub prec (ImmatureMiningReward.mcb_balance item) s
             | None => s
             end) sums.
Proof.
  induction items as [|item items IH]; intros sums Hitems Hsums.
  - cbn. rewrite map_id. reflexivity.
  - cbn [fold_left]. cbn [map] in Hitems. inversion Hitems as [|? ? Hfresh Hrest]; subst.
    rewrite (update_first_unique summary_key (reward_key item)); [|exact Hsums|].
    2:{ intros x. unfold summary_key, reward_key.
        rewrite !andb_true_iff, !String.eqb_eq. split.
        - intros [[-> ->] ->]. reflexivity.
        - intros H. inversion H. auto. }
    rewrite IH; [|exact Hrest|].
    2:{ rewrite map_map.
        erewrite map_ext; [exact Hsums|]. intros s. cbn beta.
        destruct (_ && _)%bool; reflexivity. }
    rewrite map_map. apply map_ext. intros s. cbn beta. cbn [find].
    destruct (String.eqb (ImmatureMiningRewardSummary.holder s)
                         (ImmatureMiningReward.holder item)
              && String.eqb (ImmatureMiningRewardSummary.pool_name s)
                            (ImmatureMiningReward.pool_name item)
              && String.eqb (ImmatureMiningRewardSummary.mining_round s)
                            (ImmatureMiningReward.mining_round item))%bool eqn:Hm.
    + assert (Hk : summary_key s = reward_key item).
      { apply andb_true_iff in Hm. destruct Hm as [Hm H3].
        apply andb_true_iff in Hm. destruct Hm as [H1 H2].
        apply String.eqb_eq in H1, H2, H3. unfold summary_key, reward_key. congruence. }
      rewrite summary_sub_key, Hk, key_eqb_refl.
      destruct (find (fun item0 => key_eqb (reward_key item0) (reward_key item)) items)
        as [item'|] eqn:Hfind; [|reflexivity].
      apply find_some in Hfind. destruct Hfind as [Hin Heq].
      apply key_eqb_eq in Heq. exfalso. apply Hfresh. rewrite <- Heq.
      apply in_map. exact Hin.
    + assert (Hk : key_eqb (reward_key item) (summary_key s) = false).
      { apply key_eqb_neq. intros E. unfold summary_key, reward_key in E.
        inversion E as [[H1 H2 H3]]. rewrite H1, H2, H3, !String.eqb_refl in Hm.
        discriminate. }
      rewrite Hk. reflexivity.
Qed.

(** [rollback] keeps the invariant, in the exact range. *)
Lemma rollback_consistent :
  forall self watcher_id block_number db,
    consistent_rows (immature_mining_rewards db) (immature_mining_reward_summaries db) ->
    in_exact_range prec db ->
    let d := rollback prec self watcher_id block_number db in
    consistent_rows (immature_mining_rewards d) (immature_mining_reward_summaries d).
Proof.
  intros self w b db (Hk & Hs & He) [Hscale Hbound] d. subst d. unfold rollback.
  cbn [set_immature immature_mining_rewards immature_mining_reward_summaries].
  set (rows := immature_mining_rewards db) in *.
  set (sums := immature_mining_reward_summaries db) in *.
  set (selected := filter (rolled_back self b) rows).
  set (kept := filter (fun item => negb (rolled_back self b item)) rows).
  destruct (group_by_sum_spec (List.length selected) selected (le_n _))
    as (Hnd & Hitems & Hcover).
  rewrite (rollback_summaries _ _ Hnd Hk).
  set (adjust := fun s =>
                   match find (fun item => key_eqb (reward_key item) (summary_key s))
                              (group_by_sum (List.length selected) selected) with
                   | Some item => summary_sub prec (ImmatureMiningReward.mcb_balance item) s
                   | None => s
                   end).
  assert (Hadjust_key : forall s, summary_key (adjust s) = summary_key s).
  { intros s. unfold adjust. destruct (find _ _); reflexivity. }
  assert (Hfits : forall k, fits prec (Qsum (rewards_of k kept))).
  { apply in_range_fits.
    - intros r Hr. apply filter_In in Hr. apply Hscale. apply Hr.
    - intros k. eapply Qle_lt_trans; [apply rewards_of_filter_le|apply Hbound]. }
  split; [|split].
  - rewrite map_map. erewrite map_ext; [exact Hk|]. exact Hadjust_key.
  - intros s' Hs'. apply in_map_iff in Hs'. destruct Hs' as (s & <- & Hin).
    rewrite Hadjust_key. unfold adjust.
    pose proof (rewards_of_partition (summary_key s) (rolled_back self b) rows) as Hpart.
    fold selected kept in Hpart.
    destruct (find _ _) as [item|] eqn:Hfind.
    + apply find_some in Hfind. destruct Hfind as [Hitem Heq].
      apply key_eqb_eq in Heq.
      destruct (Hitems item Hitem) as [_ Hsum].
      cbn [summary_sub ImmatureMiningRewardSummary.mcb_balance]. unfold Decimal.sub.
      assert (Hdiff : ImmatureMiningRewardSummary.mcb_balance s
                      - ImmatureMiningReward.mcb_balance item
                      == Qsum (rewards_of (summary_key s) kept)).
      { rewrite Hsum, Heq, (Hs s Hin), Hpart. ring. }
      rewrite <- Hdiff. apply ctx_round_exact.
      eapply fits_eq; [symmetry; exact Hdiff|apply Hfits].
    + assert (Hnone : rewards_of (summary_key s) selected = []).
      { unfold rewards_of.
        destruct (filter (fun r => key_eqb (reward_key r) (summary_key s)) selected)
          as [|x l] eqn:Hf; [reflexivity|].
        assert (Hx : In x (x :: l)) by (left; reflexivity).
        rewrite <- Hf in Hx. apply filter_In in Hx. destruct Hx as [Hx Hkx].
        apply Hcover in Hx. apply in_map_iff in Hx. destruct Hx as (item & Hki & Hitem).
        pose proof (find_none _ _ Hfind item Hitem) as Hno. cbn beta in Hno.
        apply key_eqb_eq in Hkx. rewrite Hki, Hkx, key_eqb_refl in Hno. discriminate. }
      rewrite (Hs s Hin), Hpart, Hnone, Qsum_nil. ring.
  - intros r Hr. apply filter_In in Hr. destruct Hr as [Hr _].
    destruct (He r Hr) as (s & Hin & Hks).
    exists (adjust s). split; [apply in_map; exact Hin|].
    rewrite Hadjust_key. exact Hks.
Qed.

(** [rollback] stays in the exact range. *)
Lemma rollback_in_range :
  forall self watcher_id block_number db,
    in_exact_range prec db ->
    in_exact_range prec (rollback prec self watcher_id block_number db).
Proof.
  intros self w b db [Hscale Hbound]. unfold rollback. split;
    cbn [set_immature immature_mining_rewards].
  - intros r Hr. apply filter_In in Hr. apply Hscale. apply Hr.
  - intros k. eapply Qle_lt_trans; [apply rewards_of_filter_le|apply Hbound].
Qed.

End RollbackSummary.

(* ================================================================== *)
(** * The summary in the reachable states *)
(* ================================================================== *)

Section Reachable.

Local Open Scope Q_scope.

Lemma consistent_rows_iff : forall db,
  consistent_rows (immature_mining_rewards db) (immature_mining_reward_summaries db)
  <-> summary_keys_unique db /\ summary_consistent db.
Proof.
  intros db. unfold consistent_rows, summary_keys_unique, summary_consistent. tauto.
Qed.

Lemma engine_step_consistent : forall prec config db db',
  engine_step prec config db db' ->
  consistent_rows (immature_mining_rewards db) (immature_mining_reward_summaries db) ->
  in_exact_range prec db ->
  in_exact_range prec db' ->
  consistent_rows (immature_mining_rewards db') (immature_mining_reward_summaries db').
Proof.
  intros prec config db db' Hstep Hc Hrange Hrange'.
  destruct Hstep as [self w b h db self' db' Hu Hrun|self w b db|db db' Hrows Hsums].
  - eapply sync_consistent; eauto.
  - apply rollback_consistent; assumption.
  - rewrite Hrows, Hsums. exact Hc.
Qed.

(** C2 (amended).  The invariant "for every (round, pool, holder), the
    balance of the summary row is the sum of the balances of the reward
    rows of that (round, pool, holder)" holds in every state reached by
    [sync] and [rollback] calls from a state where it holds, as long as
    the stored rewards stay in the range where the decimal context adds
    without rounding (every state on the way is in that range); the
    tables have their keys ((round, pool, holder) for the summaries,
    (token, holder) for the token balances). *)
Theorem C2_summary_is_the_sum_of_the_rewards :
  forall prec config db db',
    summary_keys_unique db ->
    summary_consistent db ->
    in_exact_range prec db ->
    reachable prec config db db' ->
    summary_consistent db' /\ summary_keys_unique db'.
Proof.
  intros prec config db db' Hk Hc Hrange Hreach.
  assert (H : consistent_rows (immature_mining_rewards db')
                (immature_mining_reward_summaries db')
              /\ in_exact_range prec db').
  { induction Hreach as [|db1 db2 Hreach IH Hstep Hrange2].
    - split; [apply consistent_rows_iff; split; assumption|exact Hrange].
    - destruct IH as [Hc1 Hrange1]. split; [|exact Hrange2].
      eapply engine_step_consistent; eauto. }
  destruct H as [H _]. destruct (proj1 (consistent_rows_iff db') H) as [Hk' Hc'].
  split; assumption.
Qed.

Lemma rewards_of_le_total : forall k rows,
  Qsum (map Qabs (rewards_of k rows))
  <= Qsum (map Qabs (map ImmatureMiningReward.mcb_balance rows)).
Proof.
  intros k rows. unfold rewards_of.
  induction rows as [|r rows IH]; [apply Qle_refl|].
  cbn [filter map]. destruct (key_eqb (reward_key r) k); cbn [map];
    unfold Qsum in *; cbn [fold_right].
  - apply Qplus_le_r. exact IH.
  - pose proof (Qabs_nonneg (ImmatureMiningReward.mcb_balance r)). lra.
Qed.

Lemma in_exact_range_total : forall prec db,
  (forall r, In r (immature_mining_rewards db) ->
     scale18 (ImmatureMiningReward.mcb_balance r)) ->
  Qsum (map Qabs (map ImmatureMiningReward.mcb_balance (immature_mining_rewards db)))
    < Num.pow10 (prec - 18) ->
  in_exact_range prec db.
Proof.
  intros prec db Hscale Htotal. split; [exact Hscale|].
  intros k. eapply Qle_lt_trans; [apply rewards_of_le_total|exact Htotal].
Qed.

End Reachable.

(** From the store of the example, with no reward yet: a [sync] of the
    round HAN on the block 12 000 000, then a [rollback] to the block
    before. *)
Lemma C2_summary_is_the_sum_of_the_rewards_witness :
  exists self1 db1,
    ShareMining.sync Example.prec Example.config (Example.engine "HAN") 0 12000000 "0xb10c"
      Example.uniswap_db = Ok (self1, db1)
    /\ summary_consistent db1
    /\ summary_consistent (ShareMining.rollback Example.prec self1 0 11999999 db1)
    /\ summary_keys_unique (ShareMining.rollback Example.prec self1 0 11999999 db1).
Proof.
  destruct (ShareMining.sync Example.prec Example.config (Example.engine "HAN") 0 12000000 "0xb10c"
              Example.uniswap_db) as [[self1 db1]|e] eqn:Hrun;
    [|vm_compute in Hrun; discriminate].
  exists self1, db1. split; [reflexivity|].
  assert (Hkeys : token_balance_keys_unique Example.uniswap_db).
  { unfold token_balance_keys_unique. cbn.
    repeat (constructor;
            [cbn; intros H; repeat (destruct H as [H|H]; [discriminate H|]); exact H|]).
    constructor. }
  assert (Hunique0 : summary_keys_unique Example.uniswap_db) by constructor.
  assert (Hcons0 : summary_consistent Example.uniswap_db)
    by (split; intros ? []).
  assert (Hrange0 : in_exact_range Example.prec Example.uniswap_db).
  { apply in_exact_range_total; [intros ? []|]. vm_compute. reflexivity. }
  assert (Hrows : map ImmatureMiningReward.mcb_balance (immature_mining_rewards db1)
                  = [3 # 8; 3 # 8; 1 # 4]%Q).
  { pose proof Hrun as Hrun'. vm_compute in Hrun'. injection Hrun' as _ <-. reflexivity. }
  assert (Hrange1 : in_exact_range Example.prec db1).
  { apply in_exact_range_total.
    - intros r Hr.
      apply (in_map ImmatureMiningReward.mcb_balance) in Hr. rewrite Hrows in Hr.
      destruct Hr as [<-|[<-|[<-|[]]]].
      + exists 375000000000000000%Z. reflexivity.
      + exists 375000000000000000%Z. reflexivity.
      + exists 250000000000000000%Z. reflexivity.
    - rewrite Hrows. vm_compute. reflexivity. }
  assert (Hreach1 : reachable Example.prec Example.config Example.uniswap_db db1).
  { eapply reachable_step; [apply reachable_start| |exact Hrange1].
    eapply step_sync; [exact Hkeys|exact Hrun]. }
  assert (Hreach2 : reachable Example.prec Example.config Example.uniswap_db
                      (ShareMining.rollback Example.prec self1 0 11999999 db1)).
  { eapply reachable_step; [exact Hreach1|apply step_rollback|].
    apply rollback_in_range. exact Hrange1. }
  split.
  - apply (C2_summary_is_the_sum_of_the_rewards Example.prec Example.config
             Example.uniswap_db db1 Hunique0 Hcons0 Hrange0 Hreach1).
  - apply (C2_summary_is_the_sum_of_the_rewards Example.prec Example.config
             Example.uniswap_db _ Hunique0 Hcons0 Hrange0 Hreach2).
Defined.

(** C2 (counterexample).  alice has a reward of
    9999999999.999999999999999999 MCB from the block before, and the
    summary has it: the invariant holds, the keys are unique and the rows
    are in the exact range.  The round HAN is synced on the block
    12 000 000 and gives alice 0.375 MCB more: the context of 28 digits
    rounds her summary to 10000000000.375, and her two rows add up to
    10000000000.374999999999999999.  One [sync] that returns breaks the
    invariant. *)
Lemma C2_rounding_counterexample :
  summary_keys_unique large_reward_db
  /\ token_balance_keys_unique large_reward_db
  /\ summary_consistent large_reward_db
  /\ in_exact_range Example.prec large_reward_db
  /\ exists self1 db1 s,
       ShareMining.sync Example.prec Example.config (Example.engine "HAN") 0 12000000
         "0xb10c" large_reward_db = Ok (self1, db1)
       /\ In s (immature_mining_reward_summaries db1)
       /\ summary_key s = ("HAN", "UNISWAP_MCB_ETH", "alice")%string
       /\ (ImmatureMiningRewardSummary.mcb_balance s == 10000000000375 # 1000)%Q
       /\ (Qsum (rewards_of (summary_key s) (immature_mining_rewards db1))
           == 10000000000374999999999999999 # 1000000000000000000)%Q
       /\ ~ summary_consistent db1
       /\ ~ in_exact_range Example.prec db1.
Proof.
  split.
  { unfold summary_keys_unique. cbn. constructor; [intros []|constructor]. }
  split.
  { unfold token_balance_keys_unique. cbn.
    repeat (constructor;
            [cbn; intros H; repeat (destruct H as [H|H]; [discriminate H|]); exact H|]).
    constructor. }
  split.
  { split.
    - intros s [<-|[]]. vm_compute. reflexivity.
    - intros r [<-|[]]. eexists. split; [left; reflexivity|reflexivity]. }
  split.
  { apply in_exact_range_total.
    - intros r [<-|[]]. exists 9999999999999999999999999999%Z. reflexivity.
    - vm_compute. reflexivity. }
  destruct (ShareMining.sync Example.prec Example.config (Example.engine "HAN") 0 12000000
              "0xb10c" large_reward_db) as [[self1 db1]|e] eqn:Hrun;
    [|vm_compute in Hrun; discriminate].
  pose proof Hrun as Hrun'. vm_compute in Hrun'. injection Hrun' as _ <-.
  eexists. eexists. eexists.
  split; [reflexivity|]. split; [left; reflexivity|]. split; [reflexivity|].
  split; [vm_compute; reflexivity|]. split; [vm_compute; reflexivity|].
  split.
  - intros [Hc _]. specialize (Hc _ (or_introl eq_refl)). vm_compute in Hc. discriminate.
  - intros [_ Hr].
    specialize (Hr ("HAN", "UNISWAP_MCB_ETH", "alice")%string).
    vm_compute in Hr. discriminate.
Qed.

(* ================================================================== *)
(** * The rows of a block: what [sync] adds and [rollback] removes *)
(* ================================================================== *)

Section BlockRows.

Import ShareMining.

Variable prec : Z.
Variable config : Config.

Lemma appends_block_rows_refl : forall mining_round b db,
  appends_block_rows mining_round b db db.
Proof.
  intros. split; [apply same_env_refl|]. exists []. rewrite app_nil_r.
  split; [reflexivity|constructor].
Qed.

Lemma appends_block_rows_trans : forall mining_round b db m d,
  appends_block_rows mining_round b db m ->
  appends_block_rows mining_round b m d ->
  appends_block_rows mining_round b db d.
Proof.
  intros r b db m d (E1 & new & N1 & F1) (E2 & new' & N2 & F2).
  split; [eapply same_env_trans; eauto|].
  exists (new ++ new'). rewrite N2, N1, app_assoc. split; [reflexivity|].
  apply Forall_app. split; assumption.
Qed.

Lemma unchanged_appends_block_rows : forall mining_round b db m d,
  unchanged db m ->
  appends_block_rows mining_round b m d ->
  appends_block_rows mining_round b db d.
Proof.
  intros r b db m d (E1 & R1 & _) (E2 & new & N & F).
  split; [eapply same_env_trans; eauto|].
  exists new. rewrite N, R1. split; [reflexivity|exact F].
Qed.

Lemma save_immature_reward_block :
  forall self block_number pool_name holders holder reward db,
    appends_block_rows (_mining_round self) block_number db
      (save_immature_reward prec self block_number pool_name holders holder reward db).
Proof.
  intros. unfold save_immature_reward.
  destruct (negb (existsb (String.eqb holder) holders));
    (split; [repeat split|]; eexists; split; [reflexivity|];
     constructor; [split; reflexivity|constructor]).
Qed.

Lemma pool_reward_step_block :
  forall self block_number amms_weights weights entry db d,
    pool_reward_step prec self block_number amms_weights weights db entry = Ok d ->
    appends_block_rows (_mining_round self) block_number db d.
Proof.
  intros self b aw w [pool_name pv] db d. unfold pool_reward_step.
  destruct (Decimal.eqb (total_share_token_amount pv) 0).
  { intros H. inversion H; subst. apply appends_block_rows_refl. }
  destruct (key_of (pool_reward pv)) as [pool_reward|e]; cbn [bind]; [|discriminate].
  apply (for_each_invariant (appends_block_rows (_mining_round self) b db));
    [|apply appends_block_rows_refl].
  intros s item s' _ Hs. destruct (Decimal.eqb (snd item) 0).
  { intros H. inversion H; subst. exact Hs. }
  destruct (item_reward self b pv pool_reward _ item) as [reward|e]; cbn [bind];
    [|discriminate].
  intros H. inversion H; subst.
  eapply appends_block_rows_trans; [exact Hs|apply save_immature_reward_block].
Qed.

Lemma pools_loop_block :
  forall self block_number amms_weights weights pool_value_info db d,
    for_each (pool_reward_step prec self block_number amms_weights weights) db pool_value_info
      = Ok d ->
    appends_block_rows (_mining_round self) block_number db d.
Proof.
  intros self b aw w pvi db d.
  apply (for_each_invariant (appends_block_rows (_mining_round self) b db));
    [|apply appends_block_rows_refl].
  intros s entry s' _ Hs H.
  eapply appends_block_rows_trans; [exact Hs|eapply pool_reward_step_block; exact H].
Qed.

(** A pass appends rows of its block and of the round of the object. *)
Lemma calculate_pools_reward_block :
  forall self block_number pool_info pool_reward_percent db self' d,
    _calculate_pools_reward prec config self block_number pool_info pool_reward_percent db
      = Ok (self', d) ->
    appends_block_rows (_mining_round self) block_number db d.
Proof.
  intros self b pool_info pct db self' d Hrun.
  unfold _calculate_pools_reward in Hrun.
  destruct (_get_pool_value_info prec config self b pool_info pct db)
    as [[self1 pvi]|e] eqn:Hinfo; cbn [bind] in Hrun; [|discriminate].
  apply get_pool_value_info_budget in Hinfo.
  assert (Hround : _mining_round self1 = _mining_round self) by (subst self1; reflexivity).
  rewrite <- Hround. clear Hinfo Hround.
  destruct (_qin_begin_block_number self1 <=? b).
  - pose proof (holder_amms_reward_weight_alike prec config self1 b pvi db db
                  (same_env_refl db)) as Hw.
    destruct (_get_holder_amms_reward_weight prec config self1 b pvi db) as [[m w]|e];
      cbn [bind] in Hrun; [|discriminate].
    destruct Hw as (_ & Hun & _). cbn [fst] in Hun.
    destruct (for_each _ m pvi) as [d'|e] eqn:Hloop; cbn [bind] in Hrun; [|discriminate].
    inversion Hrun; subst.
    eapply unchanged_appends_block_rows; [exact Hun|eapply pools_loop_block; exact Hloop].
  - destruct (_zhou_begin_block_number self1 <=? b).
    + pose proof (holder_reward_weight_alike prec config self1 b pvi db db
                    (same_env_refl db)) as Hw.
      destruct (_get_holder_reward_weight prec config self1 b pvi db) as [[m w]|e];
        cbn [bind] in Hrun; [|discriminate].
      destruct Hw as (_ & Hun & _). cbn [fst] in Hun.
      destruct (for_each _ m pvi) as [d'|e] eqn:Hloop; cbn [bind] in Hrun; [|discriminate].
      inversion Hrun; subst.
      eapply unchanged_appends_block_rows; [exact Hun|eapply pools_loop_block; exact Hloop].
    + cbn [bind] in Hrun.
      destruct (for_each _ db pvi) as [d'|e] eqn:Hloop; cbn [bind] in Hrun; [|discriminate].
      inversion Hrun; subst. eapply pools_loop_block; exact Hloop.
Qed.

Lemma two_passes_block :
  forall self block_number pool_info pool_reward_percent pool_info' pool_reward_percent'
         db self' d,
    (let* (self, db_session) :=
       _calculate_pools_reward prec config self block_number pool_info
         pool_reward_percent db in
     _calculate_pools_reward prec config self block_number pool_info'
       pool_reward_percent' db_session) = Ok (self', d) ->
    appends_block_rows (_mining_round self) block_number db d.
Proof.
  intros self b pi pct pi' pct' db self' d Hrun.
  destruct (_calculate_pools_reward prec config self b pi pct db) as [[s1 d1]|e] eqn:H1;
    cbn [bind] in Hrun; [|discriminate].
  pose proof (calculate_pools_reward_self _ _ _ _ _ _ _ _ _ H1) as Hs1.
  apply calculate_pools_reward_block in H1. apply calculate_pools_reward_block in Hrun.
  replace (_mining_round s1) with (_mining_round self) in Hrun by (subst s1; reflexivity).
  eapply appends_block_rows_trans; eauto.
Qed.

Lemma sync_block :
  forall self watcher_id block_number block_hash db self' d,
    sync prec config self watcher_id block_number block_hash db = Ok (self', d) ->
    appends_block_rows (_mining_round self) block_number db d.
Proof.
  intros self w b h db self' d. unfold sync.
  destruct (_ || _)%bool.
  { intros H. inversion H; subst. apply appends_block_rows_refl. }
  destruct (String.eqb (_mining_round self) "XIA").
  { apply calculate_pools_reward_block. }
  destruct (String.eqb (_mining_round self) "SHANG").
  { apply two_passes_block. }
  destruct (String.eqb (_mining_round self) "ZHOU").
  { apply two_passes_block. }
  destruct (String.eqb (_mining_round self) "QIN").
  { apply two_passes_block. }
  destruct (String.eqb (_mining_round self) "HAN").
  { apply calculate_pools_reward_block. }
  intros H. inversion H; subst. apply appends_block_rows_refl.
Qed.

Lemma sync_round :
  forall self watcher_id block_number block_hash db self' d,
    sync prec config self watcher_id block_number block_hash db = Ok (self', d) ->
    _mining_round self' = _mining_round self.
Proof.
  intros self w b h db self' d. unfold sync.
  destruct (_ || _)%bool; [intros H; inversion H; reflexivity|].
  destruct (String.eqb (_mining_round self) "XIA").
  { intros H. apply calculate_pools_reward_self in H. subst. reflexivity. }
  destruct (String.eqb (_mining_round self) "SHANG").
  { intros H. apply two_passes_self in H. subst. reflexivity. }
  destruct (String.eqb (_mining_round self) "ZHOU").
  { intros H. apply two_passes_self in H. subst. reflexivity. }
  destruct (String.eqb (_mining_round self) "QIN").
  { intros H. apply two_passes_self in H. subst. reflexivity. }
  destruct (String.eqb (_mining_round self) "HAN").
  { intros H. apply calculate_pools_reward_self in H. subst. reflexivity. }
  intros H; inversion H; reflexivity.
Qed.


End BlockRows.


Section RollbackRows.

Import ShareMining.

Variable prec : Z.

Lemma filter_none {A : Type} (p : A -> bool) (l : list A) :
  (forall x, In x l -> p x = false) -> filter p l = [].
Proof.
  induction l as [|x l IH]; intros H; [reflexivity|].
  cbn. rewrite (H x) by (left; reflexivity). apply IH. intros y Hy. apply H. right. exact Hy.
Qed.

Lemma filter_all {A : Type} (p : A -> bool) (l : list A) :
  (forall x, In x l -> p x = true) -> filter p l = l.
Proof.
  induction l as [|x l IH]; intros H; [reflexivity|].
  cbn. rewrite (H x) by (left; reflexivity). f_equal. apply IH.
  intros y Hy. apply H. right. exact Hy.
Qed.

Lemma rolled_back_later : forall self b1 b2 r,
  b1 <= b2 -> rolled_back self b2 r = true -> rolled_back self b1 r = true.
Proof.
  intros self b1 b2 r Hle. unfold rolled_back. rewrite !andb_true_iff, !Z.ltb_lt.
  intros [H1 H2]. split; [lia|exact H2].
Qed.

(** A rollback finds nothing to remove where no row of the round is above
    its block. *)
Lemma rollback_nothing_above : forall self watcher_id block_number db,
  (forall r, In r (immature_mining_rewards db) -> rolled_back self block_number r = false) ->
  rollback prec self watcher_id block_number db = db.
Proof.
  intros self w b db Hnone. unfold rollback.
  rewrite (filter_none _ _ Hnone). cbn [List.length group_by_sum fold_left].
  rewrite filter_all by (intros r Hr; rewrite (Hnone r Hr); reflexivity).
  destruct db; reflexivity.
Qed.

Lemma rollback_later : forall self watcher_id b1 b2 db,
  b1 <= b2 ->
  rollback prec self watcher_id b2 (rollback prec self watcher_id b1 db)
  = rollback prec self watcher_id b1 db.
Proof.
  intros self w b1 b2 db Hle. apply rollback_nothing_above.
  intros r Hr. unfold rollback in Hr. cbn [set_immature immature_mining_rewards] in Hr.
  apply filter_In in Hr. destruct Hr as [_ Hr].
  destruct (rolled_back self b2 r) eqn:H2; [|reflexivity].
  rewrite (rolled_back_later self b1 b2 r Hle H2) in Hr. discriminate.
Qed.

Lemma update_first_other_rounds :
  forall mining_round (p : ImmatureMiningRewardSummary.t -> bool) f sums,
    (forall s, p s = true -> ImmatureMiningRewardSummary.mining_round s = mining_round) ->
    (forall s, ImmatureMiningRewardSummary.mining_round (f s)
               = ImmatureMiningRewardSummary.mining_round s) ->
    other_rounds mining_round (update_first p f sums) = other_rounds mining_round sums.
Proof.
  intros round p f sums Hp Hf. unfold other_rounds.
  induction sums as [|s sums IH]; [reflexivity|].
  cbn [update_first]. destruct (p s) eqn:Hps.
  - cbn [filter]. rewrite Hf, (Hp s Hps), String.eqb_refl. reflexivity.
  - cbn [filter]. rewrite IH. reflexivity.
Qed.

(** The loop of [rollback] over the groups keeps the keys of the summary
    rows, and the rows of the other rounds. *)
Lemma rollback_loop_frame :
  forall mining_round items sums,
    (forall item, In item items -> ImmatureMiningReward.mining_round item = mining_round) ->
    let sums' :=
      fold_left
        (fun summaries item =>
           update_first
             (fun s => (String.eqb (ImmatureMiningRewardSummary.holder s)
                                   (ImmatureMiningReward.holder item)
                        && String.eqb (ImmatureMiningRewardSummary.pool_name s)
                                      (ImmatureMiningReward.pool_name item)
                        && String.eqb (ImmatureMiningRewardSummary.mining_round s)
                                      (ImmatureMiningReward.mining_round item))%bool)
             (summary_sub prec (ImmatureMiningReward.mcb_balance item))
             summaries)
        items sums in
    map summary_key sums' = map summary_key sums
    /\ other_rounds mining_round sums' = other_rounds mining_round sums.
Proof.
  intros round items. induction items as [|item items IH]; intros sums Hround.
  - cbn. split; reflexivity.
  - cbn [fold_left].
    destruct (IH (update_first
                    (fun s => (String.eqb (ImmatureMiningRewardSummary.holder s)
                                          (ImmatureMiningReward.holder item)
                               && String.eqb (ImmatureMiningRewardSummary.pool_name s)
                                             (ImmatureMiningReward.pool_name item)
                               && String.eqb (ImmatureMiningRewardSummary.mining_round s)
                                             (ImmatureMiningReward.mining_round item))%bool)
                    (summary_sub prec (ImmatureMiningReward.mcb_balance item)) sums))
      as [Hk Ho].
    { intros i Hi. apply Hround. right. exact Hi. }
    cbv zeta. rewrite Hk, Ho. split.
    + apply update_first_map. intros s. apply summary_sub_key.
    + apply update_first_other_rounds.
      * intros s Hs. apply andb_true_iff in Hs. destruct Hs as [_ Hs].
        apply String.eqb_eq in Hs. rewrite Hs. apply Hround. left. reflexivity.
      * intros s. reflexivity.
Qed.

Lemma rollback_groups_round : forall self block_number rows item,
  In item (group_by_sum (List.length (filter (rolled_back self block_number) rows))
             (filter (rolled_back self block_number) rows)) ->
  ImmatureMiningReward.mining_round item = _mining_round self.
Proof.
  intros self b rows item Hitem.
  destruct (group_by_sum_spec _ (filter (rolled_back self b) rows) (le_n _))
    as (_ & Hitems & _).
  destruct (Hitems item Hitem) as [Hin _].
  apply in_map_iff in Hin. destruct Hin as (r & Hk & Hr).
  apply filter_In in Hr. destruct Hr as [_ Hr].
  unfold rolled_back in Hr. apply andb_true_iff in Hr. destruct Hr as [_ Hr].
  apply String.eqb_eq in Hr. unfold reward_key in Hk. congruence.
Qed.

Lemma rollback_summary_keys : forall self watcher_id block_number db,
  map summary_key
    (immature_mining_reward_summaries (rollback prec self watcher_id block_number db))
  = map summary_key (immature_mining_reward_summaries db).
Proof.
  intros self w b db. unfold rollback.
  cbn [set_immature immature_mining_reward_summaries].
  apply (rollback_loop_frame (_mining_round self)).
  intros item Hitem. eapply rollback_groups_round; exact Hitem.
Qed.

(** X2.  A rollback to a block at or above the block of an earlier
    rollback changes nothing: in particular [rollback] is idempotent. *)
Theorem rollback_again_changes_nothing :
  forall self watcher_id b1 b2 db,
    b1 <= b2 ->
    rollback prec self watcher_id b2 (rollback prec self watcher_id b1 db)
    = rollback prec self watcher_id b1 db.
Proof.
  intros. apply rollback_later. assumption.
Qed.

(** X3.  What [rollback] leaves alone: the tables of the watcher and the
    theory rewards; the reward rows at or below the block, and those of the
    other rounds, which are exactly the rows kept; the summary rows, none
    of which is deleted or changes its key; and the summary rows of the
    other rounds, which keep their balances. *)
Theorem rollback_keeps_the_rest :
  forall self watcher_id block_number db,
    let d := rollback prec self watcher_id block_number db in
    same_env db d
    /\ theory_mining_rewards d = theory_mining_rewards db
    /\ (forall r, In r (immature_mining_rewards d)
                  <-> In r (immature_mining_rewards db)
                      /\ (ImmatureMiningReward.block_number r <= block_number
                          \/ ImmatureMiningReward.mining_round r <> _mining_round self))
    /\ map summary_key (immature_mining_reward_summaries d)
       = map summary_key (immature_mining_reward_summaries db)
    /\ other_rounds (_mining_round self) (immature_mining_reward_summaries d)
       = other_rounds (_mining_round self) (immature_mining_reward_summaries db).
Proof.
  intros self w b db d.
  split; [repeat split|]. split; [reflexivity|]. split; [|split].
  - intros r. subst d. unfold rollback. cbn [set_immature immature_mining_rewards].
    rewrite filter_In. unfold rolled_back.
    rewrite negb_true_iff, andb_false_iff, Z.ltb_ge.
    split; intros [Hin Hc]; (split; [exact Hin|]); destruct Hc as [Hc|Hc].
    + left. exact Hc.
    + right. intros E. rewrite E, String.eqb_refl in Hc. discriminate.
    + left. exact Hc.
    + right. apply String.eqb_neq. exact Hc.
  - apply rollback_summary_keys.
  - subst d. unfold rollback. cbn [set_immature immature_mining_reward_summaries].
    apply (rollback_loop_frame (_mining_round self)).
    intros item Hitem. eapply rollback_groups_round; exact Hitem.
Qed.

End RollbackRows.

Lemma rollback_again_changes_nothing_witness :
  List.length (immature_mining_rewards synced_db) = 3%nat
  /\ ShareMining.rollback Example.prec (Example.engine "HAN") 0 12000000
       (ShareMining.rollback Example.prec (Example.engine "HAN") 0 11999999 synced_db)
     = ShareMining.rollback Example.prec (Example.engine "HAN") 0 11999999 synced_db.
Proof.
  split; [vm_compute; reflexivity|].
  apply (rollback_again_changes_nothing Example.prec (Example.engine "HAN") 0
           11999999 12000000 synced_db).
  lia.
Defined.

(* ================================================================== *)
(** * A block synced and rolled back *)
(* ================================================================== *)

Section RoundTrip.

Import ShareMining.

Variable prec : Z.
Variable config : Config.

(** What holds between the store before and after every write of a pass
    holds between the store before and after [sync]. *)
Lemma sync_steps (R : DBSession -> DBSession -> Prop) :
  (forall db, R db db) ->
  (forall db m d, R db m -> R m d -> R db d) ->
  (forall db m, unchanged db m -> R db m) ->
  (forall self block_number pool_name holders holder reward db,
     R db (save_immature_reward prec self block_number pool_name holders holder reward db)) ->
  forall self watcher_id block_number block_hash db self' d,
    sync prec config self watcher_id block_number block_hash db = Ok (self', d) ->
    R db d.
Proof.
  intros Hrefl Htrans Hun Hsave.
  apply (sync_pool_steps prec config R Hrefl Htrans Hun).
  intros self b pool_name holder reward db0 db Hdb.
  eapply Htrans; [exact Hdb|apply Hsave].
Qed.

(** [sync] keeps the summary rows that are there, with their keys. *)
Lemma sync_extends_summaries :
  forall self watcher_id block_number block_hash db self' d,
    sync prec config self watcher_id block_number block_hash db = Ok (self', d) ->
    extends_summaries db d.
Proof.
  apply sync_steps.
  - intros db. exists []. rewrite app_nil_r. reflexivity.
  - intros db m d [e1 H1] [e2 H2]. exists (e1 ++ e2). rewrite H2, H1, app_assoc. reflexivity.
  - intros db m (_ & _ & Hs). exists []. rewrite Hs, app_nil_r. reflexivity.
  - intros self b pool_name holders holder reward db.
    destruct (save_immature_reward_keys prec self b pool_name holders holder reward db)
      as [H|H]; cbv zeta in H.
    + exists []. rewrite H, app_nil_r. reflexivity.
    + eexists. exact H.
Qed.

(** X4.  A block synced and then rolled back: when the block is new for
    the round, the store is consistent and the amounts are in the exact
    range of the decimal context, a [rollback] to the block before brings
    back the reward rows as they were; every summary row holds again the
    sum of these rows, the rows that were there with the balance they had;
    and the summary rows the block created stay, with balance zero. *)
Theorem sync_then_rollback_restores :
  forall self watcher_id block_number block_hash db self' d,
    token_balance_keys_unique db ->
    consistent_rows (immature_mining_rewards db) (immature_mining_reward_summaries db) ->
    (forall r, In r (immature_mining_rewards db) ->
       ImmatureMiningReward.mining_round r = _mining_round self ->
       ImmatureMiningReward.block_number r < block_number) ->
    sync prec config self watcher_id block_number block_hash db = Ok (self', d) ->
    in_exact_range prec d ->
    let d' := rollback prec self' watcher_id (block_number - 1) d in
    same_env db d'
    /\ immature_mining_rewards d' = immature_mining_rewards db
    /\ (forall s, In s (immature_mining_reward_summaries db) ->
          exists s', In s' (immature_mining_reward_summaries d')
                     /\ summary_key s' = summary_key s
                     /\ ImmatureMiningRewardSummary.mcb_balance s'
                        == ImmatureMiningRewardSummary.mcb_balance s)
    /\ (forall s', In s' (immature_mining_reward_summaries d') ->
          ~ In (summary_key s') (map summary_key (immature_mining_reward_summaries db)) ->
          ImmatureMiningRewardSummary.mcb_balance s' == 0)
    /\ (exists extra,
          map summary_key (immature_mining_reward_summaries d')
          = map summary_key (immature_mining_reward_summaries db) ++ extra).
Proof.
  intros self w b h db self' d Hu Hc Hnew Hrun Hrange d'.
  destruct (sync_block prec config _ _ _ _ _ _ _ Hrun) as (Henv & new & Hrows & Htags).
  pose proof (sync_round prec config _ _ _ _ _ _ _ Hrun) as Hround.
  pose proof (sync_consistent prec config _ _ _ _ _ _ _ Hu Hc Hrun Hrange) as Hcd.
  pose proof (rollback_consistent prec self' w (b - 1) d Hcd Hrange) as Hcd'.
  cbv zeta in Hcd'. fold d' in Hcd'.
  pose proof (rollback_summary_keys prec self' w (b - 1) d) as Hkeys. fold d' in Hkeys.
  destruct (sync_extends_summaries _ _ _ _ _ _ _ Hrun) as [extra Hextra].
  assert (Hrestored : immature_mining_rewards d' = immature_mining_rewards db).
  { subst d'. unfold rollback. cbn [set_immature immature_mining_rewards].
    rewrite Hrows, filter_app.
    rewrite (filter_all _ (immature_mining_rewards db)).
    - rewrite filter_none; [apply app_nil_r|].
      intros r Hr. rewrite Forall_forall in Htags. destruct (Htags r Hr) as [Hb Hr'].
      unfold rolled_back. rewrite Hb, Hr', Hround, String.eqb_refl.
      replace (b - 1 <? b) with true by (symmetry; apply Z.ltb_lt; lia). reflexivity.
    - intros r Hr. unfold rolled_back. rewrite Hround.
      destruct (String.eqb (ImmatureMiningReward.mining_round r) (_mining_round self))
        eqn:He; [|rewrite andb_false_r; reflexivity].
      apply String.eqb_eq in He. pose proof (Hnew r Hr He).
      replace (b - 1 <? ImmatureMiningReward.block_number r) with false
        by (symmetry; apply Z.ltb_ge; lia).
      reflexivity. }
  rewrite Hrestored in Hcd'. destruct Hcd' as (Hnd' & Hsum' & _).
  destruct Hc as (Hnd & Hsum & Hhas).
  split; [|split; [exact Hrestored|split; [|split]]].
  - eapply same_env_trans; [exact Henv|]. subst d'. repeat split.
  - intros s Hs.
    assert (Hin : In (summary_key s) (map summary_key (immature_mining_reward_summaries d'))).
    { rewrite Hkeys, Hextra. apply in_or_app. left. apply in_map. exact Hs. }
    apply in_map_iff in Hin. destruct Hin as (s' & Hk & Hs').
    exists s'. split; [exact Hs'|]. split; [exact Hk|].
    rewrite (Hsum' s' Hs'), (Hsum s Hs), Hk. reflexivity.
  - intros s' Hs' Hfresh. rewrite (Hsum' s' Hs').
    assert (Hnone : rewards_of (summary_key s') (immature_mining_rewards db) = []).
    { unfold rewards_of.
      rewrite filter_none; [reflexivity|].
      intros r Hr. apply key_eqb_neq. intros E.
      destruct (Hhas r Hr) as (s & Hs & Hk).
      apply Hfresh. rewrite <- E, <- Hk. apply in_map. exact Hs. }
    rewrite Hnone. reflexivity.
  - exists extra. rewrite Hkeys. exact Hextra.
Qed.

End RoundTrip.

(** The example store: the run of the round HAN on the block 12000000. *)
Lemma example_sync :
  exists self1,
    ShareMining.sync Example.prec Example.config (Example.engine "HAN") 0 12000000 "0xb10c"
      Example.uniswap_db = Ok (self1, synced_db).
Proof.
  unfold synced_db.
  destruct (ShareMining.sync Example.prec Example.config (Example.engine "HAN") 0 12000000
              "0xb10c" Example.uniswap_db) as [[self1 db1]|e] eqn:Hrun.
  - exists self1. reflexivity.
  - vm_compute in Hrun. discriminate.
Qed.

Lemma example_keys_unique : token_balance_keys_unique Example.uniswap_db.
Proof.
  unfold token_balance_keys_unique. cbn.
  repeat (constructor;
          [cbn; intros H; repeat (destruct H as [H|H]; [discriminate H|]); exact H|]).
  constructor.
Qed.

Lemma synced_db_in_range : in_exact_range Example.prec synced_db.
Proof.
  assert (Hrows : map ImmatureMiningReward.mcb_balance (immature_mining_rewards synced_db)
                  = [3 # 8; 3 # 8; 1 # 4]%Q) by (vm_compute; reflexivity).
  apply in_exact_range_total.
  - intros r Hr.
    apply (in_map ImmatureMiningReward.mcb_balance) in Hr. rewrite Hrows in Hr.
    destruct Hr as [<-|[<-|[<-|[]]]].
    + exists 375000000000000000%Z. reflexivity.
    + exists 375000000000000000%Z. reflexivity.
    + exists 250000000000000000%Z. reflexivity.
  - rewrite Hrows. vm_compute. reflexivity.
Qed.

Lemma sync_then_rollback_restores_witness :
  exists self1,
    ShareMining.sync Example.prec Example.config (Example.engine "HAN") 0 12000000 "0xb10c"
      Example.uniswap_db = Ok (self1, synced_db)
    /\ List.length (immature_mining_rewards synced_db) = 3%nat
    /\ immature_mining_rewards
         (ShareMining.rollback Example.prec self1 0 (12000000 - 1) synced_db)
       = immature_mining_rewards Example.uniswap_db
    /\ List.length (immature_mining_reward_summaries
                      (ShareMining.rollback Example.prec self1 0 (12000000 - 1) synced_db))
       = 3%nat
    /\ forall s',
         In s' (immature_mining_reward_summaries
                  (ShareMining.rollback Example.prec self1 0 (12000000 - 1) synced_db)) ->
         ImmatureMiningRewardSummary.mcb_balance s' == 0.
Proof.
  destruct example_sync as [self1 Hrun]. exists self1.
  split; [exact Hrun|]. split; [vm_compute; reflexivity|].
  assert (Hcons0 : consistent_rows (immature_mining_rewards Example.uniswap_db)
                     (immature_mining_reward_summaries Example.uniswap_db)).
  { split; [constructor|]. split; intros ? []. }
  assert (Hnew : forall r, In r (immature_mining_rewards Example.uniswap_db) ->
                   ImmatureMiningReward.mining_round r
                   = ShareMining._mining_round (Example.engine "HAN") ->
                   ImmatureMiningReward.block_number r < 12000000)
    by (intros ? []).
  destruct (sync_then_rollback_restores Example.prec Example.config
              (Example.engine "HAN") 0 12000000 "0xb10c" Example.uniswap_db self1 synced_db
              example_keys_unique Hcons0 Hnew Hrun synced_db_in_range)
    as (_ & Hrows & _ & Hzero & extra & Hkeys).
  split; [exact Hrows|]. split.
  - rewrite <- (length_map summary_key), Hkeys, length_app, length_map.
    pose proof (rollback_summary_keys Example.prec self1 0 (12000000 - 1) synced_db) as Hk.
    rewrite Hkeys in Hk. apply (f_equal (@List.length _)) in Hk.
    rewrite length_app, !length_map in Hk. rewrite Hk. vm_compute. reflexivity.
  - intros s' Hs'. apply Hzero; [exact Hs'|]. intros [].
Defined.

(* ================================================================== *)
(** * Where a pass raises *)
(* ================================================================== *)

Section DictFacts.

Lemma dict_get_set {V : Type} (k k' : string) (v : V) (d : Dict.t V) :
  Dict.get k (Dict.set k' v d) = if String.eqb k k' then Some v else Dict.get k d.
Proof.
  induction d as [|[k0 v0] d IH]; cbn [Dict.set Dict.get].
  - destruct (String.eqb k k'); reflexivity.
  - destruct (String.eqb k' k0) eqn:E0; cbn [Dict.get].
    + apply String.eqb_eq in E0. subst k0.
      destruct (String.eqb k k'); reflexivity.
    + rewrite IH. destruct (String.eqb k k0) eqn:E1; [|reflexivity].
      apply String.eqb_eq in E1. subst k0.
      rewrite String.eqb_sym, E0. reflexivity.
Qed.

Lemma dict_get_none {V : Type} (k : string) (d : Dict.t V) :
  Dict.get k d = None <-> ~ In k (Dict.keys d).
Proof.
  unfold Dict.keys. induction d as [|[k0 v0] d IH]; cbn [Dict.get map fst In].
  - split; [intros _ []|reflexivity].
  - destruct (String.eqb k k0) eqn:E.
    + apply String.eqb_eq in E. split; [discriminate|]. intros H. exfalso. apply H. left.
      symmetry. exact E.
    + apply String.eqb_neq in E. rewrite IH. split.
      * intros H [H'|H']; [apply E; symmetry; exact H'|apply H; exact H'].
      * intros H H'. apply H. right. exact H'.
Qed.

Lemma dict_get_in {V : Type} (k : string) (v : V) (d : Dict.t V) :
  NoDup (Dict.keys d) -> In (k, v) d -> Dict.get k d = Some v.
Proof.
  unfold Dict.keys. induction d as [|[k0 v0] d IH]; intros Hnd Hin; [destruct Hin|].
  cbn [map fst] in Hnd. inversion Hnd as [|? ? Hfresh Hnd']; subst.
  cbn [Dict.get]. destruct Hin as [Hin|Hin].
  - inversion Hin; subst. rewrite String.eqb_refl. reflexivity.
  - destruct (String.eqb k k0) eqn:E; [|apply IH; assumption].
    apply String.eqb_eq in E. subst k0. exfalso. apply Hfresh.
    apply (in_map fst) in Hin. exact Hin.
Qed.

(** A dict filled from a list of items has no key that no item has. *)
Lemma dict_of_items_get_none {V : Type} (k : string) (items : list (string * V))
    (d : Dict.t V) :
  Dict.get k d = None ->
  (forall item, In item items -> fst item <> k) ->
  Dict.get k (fold_left (fun d item => Dict.set (fst item) (snd item) d) items d) = None.
Proof.
  revert d. induction items as [|item items IH]; intros d Hd Hitems; [exact Hd|].
  cbn [fold_left]. apply IH.
  - rewrite dict_get_set.
    destruct (String.eqb k (fst item)) eqn:E; [|exact Hd].
    apply String.eqb_eq in E. exfalso. apply (Hitems item); [left; reflexivity|].
    symmetry. exact E.
  - intros i Hi. apply Hitems. right. exact Hi.
Qed.

Lemma for_each_raises {A S : Type} (body : S -> A -> result S) (l : list A) (x : A) :
  In x l ->
  (forall s, exists e, body s x = Raise e) ->
  forall s, exists e, for_each body s l = Raise e.
Proof.
  intros Hin Hx. induction l as [|y l IH]; [destruct Hin|]. intros s.
  cbn [for_each]. destruct Hin as [->|Hin].
  - destruct (Hx s) as [e He]. rewrite He. exists e. reflexivity.
  - destruct (body s y) as [s'|e]; cbn [bind]; [apply IH; exact Hin|].
    exists e. reflexivity.
Qed.

End DictFacts.

Section PoolWithoutMcb.

Import ShareMining.

Variable prec : Z.
Variable config : Config.

(** A share token with no item has a total of zero. *)
Lemma no_items_total_zero : forall share_token_address db,
  _get_share_token_items share_token_address db = [] ->
  _get_total_share_token_amount share_token_address db == 0.
Proof.
  intros a db. unfold _get_share_token_items, _get_total_share_token_amount.
  induction (token_balances db) as [|t l IH]; [reflexivity|].
  cbn [filter]. destruct (String.eqb (TokenBalance.token t) a); cbn [andb].
  - destruct (Decimal.eqb (TokenBalance.balance t) 0) eqn:E; cbn [negb map]; [|discriminate].
    intros H. unfold Qsum in *. cbn [map fold_right].
    apply Qeq_bool_iff in E. rewrite E, (IH H). reflexivity.
  - exact IH.
Qed.

Lemma get_holder_mcb_balance_raises : forall self db,
  ~ _get_total_share_token_amount (_uniswap_mcb_share_token_address self) db == 0 ->
  (forall t, In t (token_balances db) ->
     TokenBalance.token t = _mcb_token_address self ->
     TokenBalance.holder t = _uniswap_mcb_share_token_address self ->
     TokenBalance.balance t == 0) ->
  _get_holder_mcb_balance prec self db = Raise TypeError.
Proof.
  intros self db Htotal Hmcb. unfold _get_holder_mcb_balance.
  rewrite dict_of_items_get_none; [|reflexivity|].
  2:{ intros item Hitem. unfold _get_share_token_items in Hitem.
      apply in_map_iff in Hitem. destruct Hitem as (t & <- & Ht).
      apply filter_In in Ht. destruct Ht as [Hin Hc].
      apply andb_true_iff in Hc. destruct Hc as [Htok Hbal].
      apply String.eqb_eq in Htok. cbn [fst]. intros Hh. unfold Decimal.eqb in Hbal.
      rewrite (proj2 (Qeq_bool_iff _ _) (Hmcb t Hin Htok Hh)) in Hbal. discriminate. }
  destruct (Decimal.eqb (_get_total_share_token_amount
                           (_uniswap_mcb_share_token_address self) db) 0) eqn:E.
  { exfalso. apply Htotal. apply Qeq_bool_iff. exact E. }
  cbn [negb].
  destruct (_get_share_token_items (_uniswap_mcb_share_token_address self) db)
    as [|item items] eqn:Hitems.
  { exfalso. apply Htotal. apply no_items_total_zero. exact Hitems. }
  reflexivity.
Qed.

Lemma calculate_pools_reward_mcb_raises :
  forall self block_number pool_info pool_reward_percent db e,
    _get_holder_mcb_balance prec self db = Raise e ->
    _calculate_pools_reward prec config self block_number pool_info pool_reward_percent db
    = Raise e.
Proof.
  intros self b pool_info pct db e H.
  unfold _calculate_pools_reward, _get_pool_value_info, _update_uniswap_pool_proportion.
  cbv zeta.
  replace (_get_holder_mcb_balance prec
             (set_reward_per_block self (reward_per_block_at self b)) db)
    with (_get_holder_mcb_balance prec self db) by reflexivity.
  rewrite H. reflexivity.
Qed.

(** X5.  In its window, a round raises [TypeError] on every block where
    the share token of the Uniswap MCB/ETH pool has a non-zero supply and
    the pool address holds no MCB on record: the MCB of the pool is [None]
    in [_get_holder_mcb_balance], which every pass calls first. *)
Theorem sync_raises_without_pool_mcb :
  forall self watcher_id block_number block_hash db,
    _begin_block self <= block_number <= _end_block self ->
    In (_mining_round self) ["XIA"; "SHANG"; "ZHOU"; "QIN"; "HAN"]%string ->
    ~ _get_total_share_token_amount (_uniswap_mcb_share_token_address self) db == 0 ->
    (forall t, In t (token_balances db) ->
       TokenBalance.token t = _mcb_token_address self ->
       TokenBalance.holder t = _uniswap_mcb_share_token_address self ->
       TokenBalance.balance t == 0) ->
    sync prec config self watcher_id block_number block_hash db = Raise TypeError.
Proof.
  intros self w b h db [Hlo Hhi] Hround Htotal Hmcb.
  pose proof (get_holder_mcb_balance_raises self db Htotal Hmcb) as Hraise.
  unfold sync.
  replace (b <? _begin_block self) with false by (symmetry; apply Z.ltb_ge; lia).
  replace (_end_block self <? b) with false by (symmetry; apply Z.ltb_ge; lia).
  cbn [orb].
  destruct (String.eqb (_mining_round self) "XIA") eqn:Hxia.
  { apply calculate_pools_reward_mcb_raises. exact Hraise. }
  destruct (String.eqb (_mining_round self) "SHANG") eqn:Hshang.
  { rewrite (calculate_pools_reward_mcb_raises _ _ _ _ _ _ Hraise). reflexivity. }
  destruct (String.eqb (_mining_round self) "ZHOU") eqn:Hzhou.
  { rewrite (calculate_pools_reward_mcb_raises _ _ _ _ _ _ Hraise). reflexivity. }
  destruct (String.eqb (_mining_round self) "QIN") eqn:Hqin.
  { rewrite (calculate_pools_reward_mcb_raises _ _ _ _ _ _ Hraise). reflexivity. }
  destruct (String.eqb (_mining_round self) "HAN") eqn:Hhan.
  { apply calculate_pools_reward_mcb_raises. exact Hraise. }
  exfalso. cbn [In] in Hround.
  destruct Hround as [H|[H|[H|[H|[H|[]]]]]]; rewrite <- H in *;
    rewrite String.eqb_refl in *; discriminate.
Qed.

End PoolWithoutMcb.

(** A store where alice holds shares of the Uniswap MCB/ETH pool and the
    pool has no MCB on record. *)
Lemma sync_raises_without_pool_mcb_witness :
  let db :=
    {| token_balances := [Example.token_balance "0xunieth" "alice" 2];
       position_balances := [];
       perp_share_amm_proxy_maps := [];
       chain_link_price_events := [];
       immature_mining_rewards := [];
       immature_mining_reward_summaries := [];
       theory_mining_rewards := [] |} in
  ShareMining.sync Example.prec Example.config (Example.engine "HAN") 0 12000000 "0xb10c" db
  = Raise TypeError.
Proof.
  intros db.
  apply (sync_raises_without_pool_mcb Example.prec Example.config (Example.engine "HAN")
           0 12000000 "0xb10c" db).
  - cbn. lia.
  - cbn. tauto.
  - vm_compute. discriminate.
  - intros t [<-|[]]. cbn. discriminate.
Defined.

Section ChainLinkPrice.

Import ShareMining.

Variable config : Config.

Lemma first_max_in {A : Type} (key : A -> Z) (l : list A) :
  forall y, first_max key l = Some y -> In y l.
Proof.
  induction l as [|x l IH]; intros y; cbn [first_max]; [discriminate|].
  destruct (first_max key l) as [z|].
  - destruct (key x <? key z); intros H; inversion H; subst.
    + right. apply IH. reflexivity.
    + left. reflexivity.
  - intros H. inversion H. left. reflexivity.
Qed.

(** X6.  [_get_chain_link_price] answers for the pool BTC_PERP only: with
    the price of an event of the BTC/USD feed at or below the block, and
    of no earlier block than any other such event; with the exception
    "link price still not sync!" when the feed has no event at or below
    the block.  For every other pool name the local [link_price_address]
    is unbound and the call raises [UnboundLocalError]. *)
Theorem chain_link_price_is_the_latest_at_the_block :
  forall block_number pool_name db,
    let feed e :=
      ChainLinkPriceEvent.chain_link_address e = Str.lower (CHAINLINK_BTC_USD_ADDRESS config) in
    match _get_chain_link_price config block_number pool_name db with
    | Ok price =>
        pool_name = "BTC_PERP"%string
        /\ exists e,
             In e (chain_link_price_events db) /\ feed e
             /\ ChainLinkPriceEvent.block_number e <= block_number
             /\ ChainLinkPriceEvent.price e = price
             /\ forall e', In e' (chain_link_price_events db) -> feed e' ->
                  ChainLinkPriceEvent.block_number e' <= block_number ->
                  ChainLinkPriceEvent.block_number e' <= ChainLinkPriceEvent.block_number e
    | Raise e =>
        (pool_name <> "BTC_PERP"%string /\ e = UnboundLocalError)
        \/ (pool_name = "BTC_PERP"%string
            /\ e = Exception "link price still not sync!"
            /\ forall e', In e' (chain_link_price_events db) -> feed e' ->
                 block_number < ChainLinkPriceEvent.block_number e')
    end.
Proof.
  intros b pool_name db feed. unfold _get_chain_link_price.
  destruct (String.eqb pool_name "BTC_PERP") eqn:Hname; cbn [bound bind].
  2:{ left. split; [apply String.eqb_neq; exact Hname|reflexivity]. }
  apply String.eqb_eq in Hname.
  set (matches := fun e =>
         (String.eqb (ChainLinkPriceEvent.chain_link_address e)
                     (Str.lower (CHAINLINK_BTC_USD_ADDRESS config))
          && (ChainLinkPriceEvent.block_number e <=? b))%bool).
  assert (Hmatches : forall e, matches e = true
                               <-> feed e /\ ChainLinkPriceEvent.block_number e <= b).
  { intros e. unfold matches, feed. rewrite andb_true_iff, String.eqb_eq, Z.leb_le.
    reflexivity. }
  destruct (first_max ChainLinkPriceEvent.block_number
              (filter matches (chain_link_price_events db))) as [item|] eqn:Hmax.
  - split; [exact Hname|]. exists item.
    pose proof (first_max_in _ _ _ Hmax) as Hin. apply filter_In in Hin.
    destruct Hin as [Hin Hm]. apply Hmatches in Hm. destruct Hm as [Hfeed Hle].
    split; [exact Hin|]. split; [exact Hfeed|]. split; [exact Hle|]. split; [reflexivity|].
    intros e' Hin' Hfeed' Hle'.
    destruct (first_max_upper_bound ChainLinkPriceEvent.block_number
                (filter matches (chain_link_price_events db)) e') as (y & Hy & Hbound).
    { apply filter_In. split; [exact Hin'|]. apply Hmatches. split; assumption. }
    rewrite Hmax in Hy. inversion Hy; subst. exact Hbound.
  - right. split; [exact Hname|]. split; [reflexivity|].
    intros e' Hin' Hfeed'.
    destruct (Z.lt_ge_cases b (ChainLinkPriceEvent.block_number e')) as [Hlt|Hge];
      [exact Hlt|exfalso].
    destruct (first_max_upper_bound ChainLinkPriceEvent.block_number
                (filter matches (chain_link_price_events db)) e') as (y & Hy & _).
    { apply filter_In. split; [exact Hin'|]. apply Hmatches. split; assumption. }
    rewrite Hmax in Hy. discriminate.
Qed.

End ChainLinkPrice.

Section EmptyPool.

Import ShareMining.

Variable prec : Z.
Variable config : Config.

(** The first loop of [_get_holder_amms_reward_weight] gives
    [holder_pools_reward] a key for the pools with a non-zero supply only. *)
Lemma holder_pools_reward_keys :
  forall self block_number pool_value_info st,
    for_each
      (fun (st : Dict.t Q * Dict.t (Dict.t Q)) (entry : string * PoolValue) =>
         let '(holder_amms_reward_dict, holder_pools_reward) := st in
         let '(pool_name, pv) := entry in
         if Decimal.eqb (total_share_token_amount pv) 0 then Ok st
         else
           let* pool_reward := key_of (pool_reward pv) in
           let* (holder_reward_dict, holder_amms_reward_dict) :=
             for_each
               (fun (st2 : Dict.t Q * Dict.t Q) (item : string * Q) =>
                  let '(holder_reward_dict, holder_amms_reward_dict) := st2 in
                  let holder := fst item in
                  if Decimal.eqb (snd item) 0 then Ok st2
                  else if (pool_type_eqb (pv_pool_type pv) AMM
                           && (_xia_rebalance_hard_fork_block_number self <=? block_number))%bool
                  then
                    let* reward := amm_holder_reward pv pool_reward holder in
                    Ok (Dict.set holder reward holder_reward_dict,
                        dict_add prec holder reward holder_amms_reward_dict)
                  else Ok st2)
               ([], holder_amms_reward_dict) (share_token_items pv) in
           Ok (holder_amms_reward_dict,
               Dict.set pool_name holder_reward_dict holder_pools_reward))
      ([], []) pool_value_info = Ok st ->
    forall k, Dict.get k (snd st) <> None ->
      exists pv, In (k, pv) pool_value_info
                 /\ Decimal.eqb (total_share_token_amount pv) 0 = false.
Proof.
  intros self b pvi st Hrun.
  revert Hrun.
  apply (for_each_invariant
           (fun st : Dict.t Q * Dict.t (Dict.t Q) =>
              forall k, Dict.get k (snd st) <> None ->
                exists pv, In (k, pv) pvi
                           /\ Decimal.eqb (total_share_token_amount pv) 0 = false)).
  - intros [r p] [pool_name pv] s' Hin Hs.
    destruct (Decimal.eqb (total_share_token_amount pv) 0) eqn:Hz.
    { intros H. inversion H; subst. exact Hs. }
    destruct (key_of (pool_reward pv)) as [pool_reward|e]; cbn [bind]; [|discriminate].
    match goal with |- bind ?m _ = _ -> _ => destruct m as [[hr ha]|e] end;
      cbn [bind]; [|discriminate].
    intros H. inversion H; subst. cbn [snd]. intros k Hk.
    rewrite dict_get_set in Hk. destruct (String.eqb k pool_name) eqn:E.
    + apply String.eqb_eq in E. subst k. exists pv. split; assumption.
    + apply Hs. exact Hk.
  - intros k Hk. exfalso. apply Hk. reflexivity.
Qed.

Lemma holder_amms_reward_weight_raises :
  forall self block_number pool_value_info db pool_name pv,
    NoDup (Dict.keys pool_value_info) ->
    In (pool_name, pv) pool_value_info ->
    total_share_token_amount pv == 0 ->
    exists e,
      _get_holder_amms_reward_weight prec config self block_number pool_value_info db
      = Raise e.
Proof.
  intros self b pvi db pool_name pv Hnd Hin Hzero.
  unfold _get_holder_amms_reward_weight.
  match goal with |- exists e, bind ?m _ = _ => destruct m as [[rewards pools]|e] eqn:Hloop end;
    cbn [bind]; [|exists e; reflexivity].
  assert (Hnone : Dict.get pool_name pools = None).
  { destruct (Dict.get pool_name pools) as [x|] eqn:Hget; [|reflexivity]. exfalso.
    destruct (holder_pools_reward_keys _ _ _ _ Hloop pool_name) as (pv' & Hin' & Hnz).
    { cbn [snd]. rewrite Hget. discriminate. }
    assert (pv' = pv).
    { pose proof (dict_get_in _ _ _ Hnd Hin) as H1.
      pose proof (dict_get_in _ _ _ Hnd Hin') as H2. congruence. }
    subst pv'. unfold Decimal.eqb in Hnz.
    rewrite (proj2 (Qeq_bool_iff _ _) Hzero) in Hnz. discriminate. }
  destruct (_get_holder_mcb_balance prec self _) as [mcb|e]; cbn [bind];
    [|exists e; reflexivity].
  match goal with
  | |- exists e, bind (for_each ?body ?s0 ?l) _ = _ =>
      assert (Hbody : forall s, exists e, body s (pool_name, pv) = Raise e);
      [|destruct (for_each_raises body l (pool_name, pv) Hin Hbody s0) as [e He]]
  end.
  - intros s. cbv beta iota. destruct (key_of (pool_reward pv)) as [r|e]; cbn [bind];
      [|exists e; reflexivity].
    rewrite Hnone. cbn [key_of bind]. exists KeyError. reflexivity.
  - rewrite He. exists e. reflexivity.
Qed.

(** From the QIN block on, a pass raises when an entry of its
    [pool_value_info] has a supply of zero. *)
Lemma pass_raises_on_a_pool_without_supply :
  forall self block_number pool_info pool_reward_percent db self' pool_value_info
         pool_name pv,
    _qin_begin_block_number self <= block_number ->
    _get_pool_value_info prec config self block_number pool_info pool_reward_percent db
      = Ok (self', pool_value_info) ->
    NoDup (Dict.keys pool_value_info) ->
    In (pool_name, pv) pool_value_info ->
    total_share_token_amount pv == 0 ->
    exists e,
      _calculate_pools_reward prec config self block_number pool_info pool_reward_percent db
      = Raise e.
Proof.
  intros self b pool_info pct db self' pvi pool_name pv Hqin Hinfo Hnd Hin Hzero.
  unfold _calculate_pools_reward. rewrite Hinfo. cbn [bind].
  pose proof (get_pool_value_info_budget _ _ _ _ _ _ _ _ _ Hinfo) as Hself.
  replace (_qin_begin_block_number self' <=? b) with true.
  2:{ symmetry. apply Z.leb_le. subst self'. exact Hqin. }
  destruct (holder_amms_reward_weight_raises self' b pvi db pool_name pv Hnd Hin Hzero)
    as [e He].
  rewrite He. exists e. reflexivity.
Qed.

End EmptyPool.

Section PoolsOfAPass.

Import ShareMining.

Variable prec : Z.
Variable config : Config.

Lemma dict_set_fresh {V : Type} (k : string) (v : V) (d : Dict.t V) :
  ~ In k (Dict.keys d) -> Dict.set k v d = d ++ [(k, v)].
Proof.
  unfold Dict.keys. induction d as [|[k0 v0] d IH]; intros H; [reflexivity|].
  cbn [Dict.set]. destruct (String.eqb k k0) eqn:E.
  - apply String.eqb_eq in E. exfalso. apply H. left. symmetry. exact E.
  - cbn [app]. f_equal. apply IH. intros Hin. apply H. right. exact Hin.
Qed.

(** An assignment to a key that is there, of a value with the same
    projection, keeps the projections. *)
Lemma dict_set_same_proj {V W : Type} (g : V -> W) (k : string) (v : V) (d : Dict.t V) :
  NoDup (Dict.keys d) ->
  In (k, g v) (map (fun e => (fst e, g (snd e))) d) ->
  map (fun e => (fst e, g (snd e))) (Dict.set k v d) = map (fun e => (fst e, g (snd e))) d.
Proof.
  unfold Dict.keys. induction d as [|[k0 v0] d IH]; intros Hnd Hin; [destruct Hin|].
  cbn [map fst] in Hnd. inversion Hnd as [|? ? Hfresh Hnd']; subst.
  cbn [Dict.set]. destruct (String.eqb k k0) eqn:E.
  - apply String.eqb_eq in E. subst k0. cbn [map fst snd]. f_equal.
    destruct Hin as [Hin|Hin].
    + cbn [fst snd] in Hin. inversion Hin. reflexivity.
    + exfalso. apply Hfresh. apply (in_map fst) in Hin. rewrite map_map in Hin.
      cbn [fst] in Hin. exact Hin.
  - cbn [map]. f_equal. apply IH; [exact Hnd'|].
    destruct Hin as [Hin|Hin]; [|exact Hin].
    cbn [fst snd] in Hin. inversion Hin. subst k0. rewrite String.eqb_refl in E.
    discriminate.
Qed.

Lemma keys_of_proj {V W : Type} (g : V -> W) (d : Dict.t V) :
  map fst (map (fun e => (fst e, g (snd e))) d) = Dict.keys d.
Proof. unfold Dict.keys. rewrite map_map. reflexivity. Qed.

(** [_update_uniswap_pool_proportion] keeps the names, the share-token
    addresses and the types of the pools. *)
Lemma update_uniswap_pool_proportion_addresses :
  forall self pool_info db pool_info',
    NoDup (Dict.keys pool_info) ->
    _update_uniswap_pool_proportion prec self pool_info db = Ok pool_info' ->
    map (fun e => (fst e, (pool_share_token_address (snd e), pi_pool_type (snd e))))
        pool_info'
    = map (fun e => (fst e, (pool_share_token_address (snd e), pi_pool_type (snd e))))
          pool_info.
Proof.
  intros self pool_info db pool_info' Hnd. unfold _update_uniswap_pool_proportion.
  destruct (_get_holder_mcb_balance prec self db) as [mcb|e]; cbn [bind]; [|discriminate].
  set (g := fun info : PoolInfo => (pool_share_token_address info, pi_pool_type info)).
  apply (for_each_invariant
           (fun d : Dict.t PoolInfo =>
              map (fun e => (fst e, g (snd e))) d
              = map (fun e => (fst e, g (snd e))) pool_info));
    [|reflexivity].
  intros d [pool_name info] d' Hin Hd.
  destruct (_ && _)%bool; [|intros H; inversion H; subst; exact Hd].
  destruct (Decimal.div prec _ _) as [p|e]; cbn [bind]; [|discriminate].
  intros H. inversion H; subst. rewrite <- Hd.
  apply (dict_set_same_proj g).
  - rewrite <- (keys_of_proj g), Hd, keys_of_proj. exact Hnd.
  - rewrite Hd.
    apply (in_map (fun e => (fst e, g (snd e))) _ _ Hin).
Qed.

Lemma pool_value_step_facts :
  forall self block_number pool_reward_percent db st pool_name info st',
    pool_value_step prec config self block_number pool_reward_percent db st (pool_name, info)
      = Ok st' ->
    exists pv,
      vl_pool_value_info st' = Dict.set pool_name pv (vl_pool_value_info st)
      /\ pool_facts (pool_name, pv) = pool_facts_on db (pool_name, info).
Proof.
  intros self b pct db st pool_name info st'. unfold pool_value_step.
  destruct (_ && _)%bool.
  - destruct (_get_effective_share_info prec self b _ _ _ db) as [[esd tes]|e];
      cbn [bind]; [|discriminate].
    destruct (_get_pool_usd_value config b pool_name _ _ db) as [usd|e];
      cbn [bind]; [|discriminate].
    match goal with |- bind ?m _ = _ -> _ => destruct m as [v|e] end;
      cbn [bind]; [|discriminate].
    intros H. inversion H; subst. eexists. split; reflexivity.
  - intros H. inversion H; subst. eexists. split; reflexivity.
Qed.

(** The first loop of [_get_pool_value_info]: an entry for every pool in
    turn, with the supply and the items of the share token of the pool. *)
Lemma pool_value_loop_facts :
  forall self block_number pool_reward_percent db pool_info st0 st,
    NoDup (Dict.keys pool_info) ->
    (forall k, In k (Dict.keys pool_info) -> ~ In k (Dict.keys (vl_pool_value_info st0))) ->
    for_each (pool_value_step prec config self block_number pool_reward_percent db)
      st0 pool_info = Ok st ->
    map pool_facts (vl_pool_value_info st)
    = map pool_facts (vl_pool_value_info st0) ++ map (pool_facts_on db) pool_info.
Proof.
  intros self b pct db pool_info.
  induction pool_info as [|[pool_name info] l IH]; intros st0 st Hnd Hfresh Hrun.
  - cbn in Hrun. inversion Hrun; subst. cbn. rewrite app_nil_r. reflexivity.
  - cbn [for_each] in Hrun.
    destruct (pool_value_step prec config self b pct db st0 (pool_name, info))
      as [st1|e] eqn:Hstep; cbn [bind] in Hrun; [|discriminate].
    destruct (pool_value_step_facts _ _ _ _ _ _ _ _ Hstep) as (pv & Hset & Hfacts).
    unfold Dict.keys in Hnd. cbn [map fst] in Hnd.
    inversion Hnd as [|? ? Hnew Hnd']; subst.
    rewrite dict_set_fresh in Hset by (apply Hfresh; left; reflexivity).
    rewrite (IH st1 st Hnd'); [| |exact Hrun].
    + rewrite Hset, map_app, <- app_assoc. cbn [map app]. rewrite Hfacts. reflexivity.
    + intros k Hk. rewrite Hset. unfold Dict.keys. rewrite map_app. cbn [map fst].
      intros Hin. apply in_app_or in Hin. destruct Hin as [Hin|[Hin|[]]].
      * apply (Hfresh k); [right; exact Hk|exact Hin].
      * subst k. apply Hnew. exact Hk.
Qed.

(** The second loop keeps the names and these facts. *)
Lemma amm_pool_reward_loop_facts :
  forall self block_number pool_reward_percent total pool_value_info pool_value_info',
    NoDup (Dict.keys pool_value_info) ->
    for_each (amm_pool_reward_step self block_number pool_reward_percent total)
      pool_value_info pool_value_info = Ok pool_value_info' ->
    map pool_facts pool_value_info' = map pool_facts pool_value_info.
Proof.
  intros self b pct total pvi pvi' Hnd.
  set (g := fun pv : PoolValue =>
              (total_share_token_amount pv, share_token_items pv, pv_pool_type pv)).
  change pool_facts with (fun e : string * PoolValue => (fst e, g (snd e))).
  apply (for_each_invariant
           (fun d : Dict.t PoolValue =>
              map (fun e => (fst e, g (snd e))) d = map (fun e => (fst e, g (snd e))) pvi));
    [|reflexivity].
  intros d [pool_name pv] d' Hin Hd. unfold amm_pool_reward_step.
  destruct (key_of (pool_effective_usd_value pv)) as [v|e]; cbn [bind]; [|discriminate].
  match goal with |- bind ?m _ = _ -> _ => destruct m as [r|e] end;
    cbn [bind]; [|discriminate].
  intros H. inversion H; subst. rewrite <- Hd.
  apply (dict_set_same_proj g).
  - rewrite <- (keys_of_proj g), Hd, keys_of_proj. exact Hnd.
  - rewrite Hd. apply (in_map (fun e => (fst e, g (snd e))) _ _ Hin).
Qed.

Lemma keys_of_facts : forall pool_value_info,
  map fst (map pool_facts pool_value_info) = Dict.keys pool_value_info.
Proof. intros. unfold Dict.keys. rewrite map_map. reflexivity. Qed.

Lemma keys_of_facts_on : forall db pool_info,
  map fst (map (pool_facts_on db) pool_info) = Dict.keys pool_info.
Proof. intros. unfold Dict.keys. rewrite map_map. reflexivity. Qed.

(** [pool_value_info] has the pools of [pool_info], in order, each with
    the supply and the items of its share token, and its type. *)
Lemma get_pool_value_info_facts :
  forall self block_number pool_info pool_reward_percent db self' pool_value_info,
    NoDup (Dict.keys pool_info) ->
    _get_pool_value_info prec config self block_number pool_info pool_reward_percent db
      = Ok (self', pool_value_info) ->
    map pool_facts pool_value_info = map (pool_facts_on db) pool_info.
Proof.
  intros self b pool_info pct db self' pvi Hnd. unfold _get_pool_value_info. cbv zeta.
  destruct (_update_uniswap_pool_proportion prec _ pool_info db) as [pool_info'|e] eqn:Hupd;
    cbn [bind]; [|discriminate].
  pose proof (update_uniswap_pool_proportion_addresses _ _ _ _ Hnd Hupd) as Haddr.
  assert (Hnd' : NoDup (Dict.keys pool_info')).
  { pose proof (f_equal (map fst) Haddr) as Hkeys. rewrite !map_map in Hkeys.
    change (Dict.keys pool_info' = Dict.keys pool_info) in Hkeys.
    rewrite Hkeys. exact Hnd. }
  assert (Hon : map (pool_facts_on db) pool_info' = map (pool_facts_on db) pool_info).
  { apply (f_equal (map (fun e : string * (string * pool_type) =>
                           (fst e, (_get_total_share_token_amount (fst (snd e)) db,
                                    _get_share_token_items (fst (snd e)) db,
                                    snd (snd e)))))) in Haddr.
    rewrite !map_map in Haddr. exact Haddr. }
  destruct (for_each _ _ pool_info') as [st|e] eqn:Hloop; cbn [bind]; [|discriminate].
  apply pool_value_loop_facts in Hloop; [|exact Hnd'|intros k _ []].
  cbn [vl_pool_value_info map app] in Hloop. rewrite Hon in Hloop.
  destruct (bound (vl_pool_type st)) as [pool_type|e]; cbn [bind]; [|discriminate].
  destruct (_ && _)%bool.
  - destruct (for_each _ (vl_pool_value_info st) (vl_pool_value_info st)) as [pvi'|e] eqn:Hl2;
      cbn [bind]; [|discriminate].
    intros H. inversion H; subst.
    apply amm_pool_reward_loop_facts in Hl2.
    + rewrite Hl2. exact Hloop.
    + rewrite <- keys_of_facts, Hloop, keys_of_facts_on. exact Hnd.
  - intros H. inversion H; subst. exact Hloop.
Qed.

(** A pass from the QIN block on raises when a pool of [pool_info] has
    a share token with no supply. *)
Lemma pass_raises_on_empty_pool :
  forall self block_number pool_info pool_reward_percent db pool_name info,
    _qin_begin_block_number self <= block_number ->
    NoDup (Dict.keys pool_info) ->
    In (pool_name, info) pool_info ->
    _get_total_share_token_amount (pool_share_token_address info) db == 0 ->
    exists e,
      _calculate_pools_reward prec config self block_number pool_info pool_reward_percent db
      = Raise e.
Proof.
  intros self b pool_info pct db pool_name info Hqin Hnd Hin Hzero.
  destruct (_get_pool_value_info prec config self b pool_info pct db) as [[self' pvi]|e]
    eqn:Hinfo.
  2:{ exists e. unfold _calculate_pools_reward. rewrite Hinfo. reflexivity. }
  pose proof (get_pool_value_info_facts _ _ _ _ _ _ _ Hnd Hinfo) as Hs.
  assert (Hin' : In (pool_facts_on db (pool_name, info)) (map pool_facts pvi)).
  { rewrite Hs. apply in_map. exact Hin. }
  apply in_map_iff in Hin'. destruct Hin' as ([name pv] & Heq & Hpv).
  unfold pool_facts, pool_facts_on in Heq. cbn [fst snd] in Heq.
  inversion Heq as [[Hname Htotal Hitems Htype]]. subst name.
  eapply (pass_raises_on_a_pool_without_supply prec config); eauto.
  - rewrite <- keys_of_facts, Hs, keys_of_facts_on. exact Hnd.
  - rewrite Htotal. exact Hzero.
Qed.

End PoolsOfAPass.

Section QinEmptyPool.

Import ShareMining.

Variable prec : Z.
Variable config : Config.

(** In the round QIN, [sync] runs the AMM pass and then the Uniswap pass,
    each with half of the budget. *)
Lemma sync_qin :
  forall self watcher_id block_number block_hash db,
    _mining_round self = "QIN"%string ->
    _begin_block self <= block_number <= _end_block self ->
    sync prec config self watcher_id block_number block_hash db
    = (let* (self, db_session) :=
         _calculate_pools_reward prec config self block_number
           (qin_amm_pool_info config block_number) (Num.lit (5 # 10)) db in
       _calculate_pools_reward prec config self block_number
         (Example.uniswap_pool_info config) (Num.lit (5 # 10)) db_session).
Proof.
  intros self w b h db Hround Hwin.
  unfold sync. rewrite Hround.
  assert (H1 : (b <? _begin_block self) = false) by lia.
  assert (H2 : (_end_block self <? b) = false) by lia.
  rewrite H1, H2. unfold qin_amm_pool_info.
  destruct (QIN_REWARD_BTC_POOL_BLOCK_NUMBER config <=? b); reflexivity.
Qed.

Lemma qin_amm_pool_info_keys : forall block_number,
  NoDup (Dict.keys (qin_amm_pool_info config block_number)).
Proof.
  intros b. unfold qin_amm_pool_info, Dict.keys.
  destruct (QIN_REWARD_BTC_POOL_BLOCK_NUMBER config <=? b); cbn [map fst app];
    repeat (constructor;
            [cbn; intros H; repeat (destruct H as [H|H]; [discriminate H|]); exact H|]);
    constructor.
Qed.

Lemma pool_supply_same_env : forall address db d,
  same_env db d ->
  _get_total_share_token_amount address d = _get_total_share_token_amount address db.
Proof.
  intros address db d (H & _). unfold _get_total_share_token_amount. rewrite H. reflexivity.
Qed.

Ltac pick_entry := (left; reflexivity) + (right; pick_entry).

(** X7.  In the round QIN, a block on which one of the rewarded pools
    has a share token with a supply of zero cannot be synced: the pass of
    the pool raises.  [_get_holder_amms_reward_weight] skips such a pool
    in its first loop and reads [holder_pools_reward[pool_name]] in its
    second (a [KeyError], unless an earlier step of the pass raises). *)
Theorem qin_sync_raises_on_a_pool_without_supply :
  forall self watcher_id block_number block_hash db address,
    _mining_round self = "QIN"%string ->
    _begin_block self <= block_number <= _end_block self ->
    _qin_begin_block_number self <= block_number ->
    In address (qin_pool_addresses config block_number) ->
    _get_total_share_token_amount (Str.lower address) db == 0 ->
    exists e, sync prec config self watcher_id block_number block_hash db = Raise e.
Proof.
  intros self w b h db address Hround Hwin Hqin Haddr Hzero.
  rewrite (sync_qin self w b h db Hround Hwin).
  assert (Hfirst : (exists pool_name info,
                       In (pool_name, info) (qin_amm_pool_info config b)
                       /\ pool_share_token_address info = Str.lower address)
                   \/ address = UNISWAP_MCB_ETH_SHARE_TOKEN_ADDRESS config).
  { unfold qin_pool_addresses in Haddr. unfold qin_amm_pool_info.
    destruct (QIN_REWARD_BTC_POOL_BLOCK_NUMBER config <=? b); cbv zeta;
      cbn [app In] in Haddr |- *;
      repeat (destruct Haddr as [Haddr|Haddr];
              [subst address;
               first [ right; reflexivity
                     | left; do 2 eexists; split; [pick_entry|reflexivity] ]|]);
      destruct Haddr. }
  destruct Hfirst as [(pool_name & info & Hin & Hinfo)|Huni].
  - destruct (pass_raises_on_empty_pool prec config self b (qin_amm_pool_info config b)
                (Num.lit (5 # 10)) db pool_name info Hqin (qin_amm_pool_info_keys b) Hin)
      as [e He].
    { rewrite Hinfo. exact Hzero. }
    rewrite He. exists e. reflexivity.
  - subst address.
    destruct (_calculate_pools_reward prec config self b (qin_amm_pool_info config b)
                (Num.lit (5 # 10)) db) as [[self1 d1]|e] eqn:H1; cbn [bind];
      [|exists e; reflexivity].
    pose proof (calculate_pools_reward_self _ _ _ _ _ _ _ _ _ H1) as Hself1.
    destruct (calculate_pools_reward_block prec config _ _ _ _ _ _ _ H1) as [Henv _].
    apply (pass_raises_on_empty_pool prec config self1 b (Example.uniswap_pool_info config)
             (Num.lit (5 # 10)) d1 "UNISWAP_MCB_ETH"
             (uniswap_pool (UNISWAP_MCB_ETH_SHARE_TOKEN_ADDRESS config))).
    + subst self1. exact Hqin.
    + repeat constructor. intros [].
    + left. reflexivity.
    + rewrite (pool_supply_same_env _ db d1 Henv). exact Hzero.
Qed.

End QinEmptyPool.

(** The round QIN on the example store, where no one holds a share of
    the ETH pool, at a block before the BTC pool joins the round: the
    pass of the AMM pools gets through [_get_pool_value_info], and
    [_get_holder_amms_reward_weight] raises the [KeyError]. *)
Lemma qin_sync_raises_on_a_pool_without_supply_witness :
  ShareMining.sync Example.prec Example.config (Example.engine "QIN") 0 11100000 "0xb10c"
    Example.uniswap_db = Raise KeyError.
Proof.
  destruct (qin_sync_raises_on_a_pool_without_supply Example.prec Example.config
              (Example.engine "QIN") 0 11100000 "0xb10c" Example.uniswap_db
              (ETH_PERP_SHARE_TOKEN_ADDRESS Example.config)) as [e He].
  - reflexivity.
  - cbn. lia.
  - cbn. lia.
  - left. reflexivity.
  - vm_compute. reflexivity.
  - rewrite He. f_equal.
    assert (Hk : ShareMining.sync Example.prec Example.config (Example.engine "QIN") 0
                   11100000 "0xb10c" Example.uniswap_db = Raise KeyError)
      by (vm_compute; reflexivity).
    rewrite He in Hk. inversion Hk. reflexivity.
Defined.

(* ================================================================== *)
(** * The cycle of the payer: what it reads, writes and repeats *)
(* ================================================================== *)

Section PayerCycle.

Import Payer.

Variable prec : Z.
Variable config : Payer.Config.
Variable transaction_status : Z -> PaymentTransaction.status_t.










End PayerCycle.

Section PaidAgain.

Import Payer.

Variable prec : Z.
Variable config : Payer.Config.
Variable transaction_status : Z -> PaymentTransaction.status_t.





Lemma truncate_nonneg : forall q : Q, (0 <= q)%Q -> 0 <= Num.truncate q.
Proof.
  intros q Hq. unfold Num.truncate.
  rewrite (proj2 (Qle_bool_iff 0 q) Hq).
  change 0 with (Qfloor 0). apply Qfloor_resp_le. exact Hq.
Qed.

Lemma unpaid_loop_spec :
  forall items acc miners amounts,
    for_each
      (fun (result : list string * list Wad.t) (item : string * Q * option Q) =>
         let '(holder, mcb_balance, paid_amount) := item in
         match paid_amount with
         | None => Raise TypeError
         | Some paid_amount =>
             let unpaid := Decimal.sub prec mcb_balance paid_amount in
             if Decimal.ltb 0 unpaid then
               Ok (fst result ++ [holder], snd result ++ [Wad.from_decimal unpaid])
             else Ok result
         end)
      acc items = Ok (miners, amounts) ->
    miners = fst acc ++ map fst (flat_map (unpaid_entry prec) items)
    /\ amounts = snd acc ++ map snd (flat_map (unpaid_entry prec) items)
    /\ Forall (fun item => snd item <> None) items.
Proof.
  induction items as [|[[holder mcb_balance] paid] items IH]; intros acc miners amounts Hrun.
  - cbn in Hrun. inversion Hrun; subst. cbn. rewrite !app_nil_r.
    split; [reflexivity|]. split; [reflexivity|constructor].
  - cbn [for_each] in Hrun. destruct paid as [paid_amount|]; [|discriminate].
    cbn [flat_map unpaid_entry]. cbv zeta in Hrun |- *.
    destruct (Decimal.ltb 0 (Decimal.sub prec mcb_balance paid_amount));
      cbn [bind] in Hrun; apply IH in Hrun; destruct Hrun as (Hm & Ha & Hall).
    + cbn [fst snd] in Hm, Ha. rewrite <- app_assoc in Hm, Ha.
      split; [exact Hm|]. split; [exact Ha|]. constructor; [discriminate|exact Hall].
    + split; [exact Hm|]. split; [exact Ha|]. constructor; [discriminate|exact Hall].
Qed.

(** X10.  What [_get_miner_unpaid_reward] returns, when it returns: one
    entry for every row of its query with a positive [mcb_balance -
    paid_amount] (a holder with several summary rows has several rows), in
    the order of the query, the miner in one list and the amount, truncated
    to 18 digits, at the same place in the other; every row of the query
    had a paid amount; the two lists have the same length and no amount is
    negative. *)
Theorem unpaid_reward_lists :
  forall db_session miners amounts,
    _get_miner_unpaid_reward prec config db_session = Ok (miners, amounts) ->
    let entries := flat_map (unpaid_entry prec) (unpaid_reward_items config db_session) in
    miners = map fst entries
    /\ amounts = map snd entries
    /\ List.length miners = List.length amounts
    /\ Forall (fun item => snd item <> None) (unpaid_reward_items config db_session)
    /\ Forall (fun amount => 0 <= amount) amounts.
Proof.
  intros db miners amounts Hrun entries. unfold _get_miner_unpaid_reward in Hrun.
  apply unpaid_loop_spec in Hrun. cbn [fst snd app] in Hrun.
  destruct Hrun as (Hm & Ha & Hall). fold entries in Hm, Ha.
  split; [exact Hm|]. split; [exact Ha|]. split; [|split; [exact Hall|]].
  - rewrite Hm, Ha, !length_map. reflexivity.
  - rewrite Ha. apply Forall_forall. intros a Hin.
    apply in_map_iff in Hin. destruct Hin as ([h a'] & <- & Hin).
    subst entries. apply in_flat_map in Hin. destruct Hin as ([[holder bal] paid] & _ & Hin).
    destruct paid as [paid|]; [|destruct Hin]. cbn [unpaid_entry] in Hin. cbv zeta in Hin.
    destruct (Decimal.ltb 0 (Decimal.sub prec bal paid)) eqn:Hpos; [|destruct Hin].
    destruct Hin as [Hin|[]]. inversion Hin; subst. cbn [snd].
    unfold Wad.from_decimal, Wad.from_number. cbn [Num.str_value].
    apply truncate_nonneg. unfold Decimal.ltb in Hpos.
    apply negb_true_iff in Hpos.
    assert (Hlt : (0 < Decimal.sub prec bal paid)%Q).
    { apply Qnot_le_lt. intros Hle. apply Qle_bool_iff in Hle. congruence. }
    apply Qmult_le_0_compat; [apply Qlt_le_weak; exact Hlt|]. discriminate.
Qed.

End PaidAgain.


Lemma unpaid_reward_lists_witness :
  Payer._get_miner_unpaid_reward Example.prec Example.payer_config Example.paid_db
  = Ok (["alice"%string], [3000000000000000000])
  /\ List.length ["alice"%string] = List.length [3000000000000000000]
  /\ Forall (fun amount => 0 <= amount) [3000000000000000000].
Proof.
  assert (H : Payer._get_miner_unpaid_reward Example.prec Example.payer_config
                Example.paid_db = Ok (["alice"%string], [3000000000000000000]))
    by (vm_compute; reflexivity).
  split; [exact H|].
  destruct (unpaid_reward_lists Example.prec Example.payer_config Example.paid_db
              ["alice"%string] [3000000000000000000] H) as (_ & _ & Hlen & _ & Hpos).
  split; [exact Hlen|exact Hpos].
Defined.

(* ================================================================== *)
(** * The gas price, the receipts and the payments *)
(* ================================================================== *)

Section Receipts.

Import Payer.

Variable prec : Z.
Variable config : Payer.Config.
Variable transaction_status : Z -> PaymentTransaction.status_t.

Lemma status_200 : forall status_code : Z,
  Qeq_bool (inject_Z status_code / 100) 2 = (status_code =? 200).
Proof.
  intros c. destruct (c =? 200) eqn:E.
  - apply Z.eqb_eq in E. subst c. reflexivity.
  - apply Z.eqb_neq in E. destruct (Qeq_bool (inject_Z c / 100) 2) eqn:H; [|reflexivity].
    apply Qeq_bool_iff in H. unfold Qeq in H. cbn in H. exfalso. apply E. lia.
Qed.

(** X11.  [_get_gas_price] takes the price of the oracle from an answer
    with the status 200 only: [resp.status_code / 100 == 2] is a true
    division, so that 201 to 299 leave the gas price as it was, as does
    every other status and an exception of the request.  The new price is
    [toWei] of the float [level / 10], in gwei: the binary64 quotient, read
    from its [repr] and cut to an integer number of wei.  The nonce is not
    touched. *)
Theorem gas_price_follows_status_200_only :
  forall world self,
    nonce (_get_gas_price world self) = nonce self
    /\ gas_price (_get_gas_price world self)
       = match gas_oracle world with
         | Ok (status_code, level) =>
             if status_code =? 200
             then Num.truncate
                    (Num.float_repr (Num.float64 (Num.value level / 10)) * inject_Z (10 ^ 9))
             else gas_price self
         | Raise _ => gas_price self
         end.
Proof.
  intros world self. unfold _get_gas_price.
  destruct (gas_oracle world) as [[status_code level]|e]; [|split; reflexivity].
  rewrite status_200. destruct (status_code =? 200); split; reflexivity.
Qed.

(** The level 0.7 of the oracle: the float [0.7 / 10] is
    0.06999999999999999, and the price is 69999999 wei, one below the
    0.07 gwei of the exact quotient; the level 500 gives 50 gwei. *)
Lemma gas_price_of_a_float_level :
  forall self,
    gas_price (_get_gas_price
                 {| eth_getTransactionCount := fun _ => 0;
                    waitForTransactionReceipt := fun _ => Raise (Exception "none");
                    disperseToken := fun _ _ _ _ _ _ => Raise (Exception "none");
                    gas_oracle := Ok (200, Num.lit (7 # 10));
                    utcnow := 0 |} self) = 69999999
    /\ gas_price (_get_gas_price Example.confirming_world self) = 50 * 10 ^ 9.
Proof.
  intros self. split; vm_compute; reflexivity.
Qed.

Lemma find_filter {A : Type} (p : A -> bool) (l : list A) :
  find p l = hd_error (filter p l).
Proof.
  induction l as [|x l IH]; [reflexivity|]. cbn. destruct (p x); [reflexivity|exact IH].
Qed.

(** [_save_payments_info] by cases. *)
Lemma save_payments_info_cases :
  forall world tx_receipt miners amounts db_session,
    let db' :=
      _save_payments_info config transaction_status world tx_receipt miners amounts
        db_session in
    let status := transaction_status (receipt_status tx_receipt) in
    match find (has_hash (transactionHash tx_receipt)) (payment_transactions db_session) with
    | Some pt =>
        if receipt_applies transaction_status tx_receipt miners amounts then
          payment_transactions db'
          = update_first (has_hash (transactionHash tx_receipt)) (set_status status)
              (payment_transactions db_session)
          /\ payments db'
             = payments db_session
               ++ (if PaymentTransaction.status_eqb status PaymentTransaction.SUCCESS
                   then payments_for world (PaymentTransaction.id pt) miners amounts
                   else [])
          /\ mature_mining_rewards db' = mature_mining_rewards db_session
          /\ round_payments db' = round_payments db_session
          /\ round_payment_summaries db'
             = (if PaymentTransaction.status_eqb status PaymentTransaction.SUCCESS
                then match miners with
                     | [] => round_payment_summaries db_session
                     | _ :: _ => round_payment_summary_view (round_payments db_session)
                     end
                else round_payment_summaries db_session)
        else db' = db_session
    | None => db' = db_session
    end.
Proof.
  intros world r miners amounts db db' status. subst db' status.
  unfold _save_payments_info, save_payments_info_try, receipt_applies.
  rewrite find_filter.
  destruct (filter (has_hash (transactionHash r)) (payment_transactions db)) as [|pt rest];
    cbn [hd_error]; [reflexivity|].
  cbn [set_status PaymentTransaction.status PaymentTransaction.id].
  destruct (PaymentTransaction.status_eqb (transaction_status (receipt_status r))
              PaymentTransaction.SUCCESS); cbn [negb orb bind].
  - destruct (List.length miners <=? List.length amounts)%nat eqn:Hlen.
    + apply Nat.leb_le in Hlen. rewrite (save_payments_loop_enough _ _ _ _ _ _ Hlen).
      repeat split.
    + apply Nat.leb_gt in Hlen. rewrite (save_payments_loop_short _ _ _ _ _ _ Hlen).
      reflexivity.
  - cbn [set_payment_transactions payment_transactions payments]. rewrite app_nil_r.
    repeat split.
Qed.


End Receipts.

Section Reconcile.

Import Payer.

Variable config : Payer.Config.
Variable transaction_status : Z -> PaymentTransaction.status_t.
Variable world : World.

Hypothesis Hanswers : answers_for_the_hash world.

Lemma apply_receipt_hash : forall pt x,
  PaymentTransaction.transaction_hash (apply_receipt transaction_status world pt x)
  = PaymentTransaction.transaction_hash x.
Proof.
  intros pt x. unfold apply_receipt.
  destruct (waitForTransactionReceipt world _) as [r|e]; [|reflexivity].
  destruct (receipt_applies _ _ _ _); reflexivity.
Qed.

Lemma NoDup_map_injective {A B : Type} (f : A -> B) (l : list A) :
  NoDup (map f l) -> forall a b, In a l -> In b l -> f a = f b -> a = b.
Proof.
  induction l as [|x l IH]; intros Hnd a b Ha Hb Hf; [destruct Ha|].
  cbn [map] in Hnd. inversion Hnd as [|? ? Hfresh Hnd']; subst.
  destruct Ha as [->|Ha], Hb as [->|Hb].
  - reflexivity.
  - exfalso. apply Hfresh. rewrite Hf. apply in_map. exact Hb.
  - exfalso. apply Hfresh. rewrite <- Hf. apply in_map. exact Ha.
  - apply IH; assumption.
Qed.

Lemma filter_keeps_distinct {A K : Type} (key : A -> K) (keep : A -> bool) :
  forall rows : list A, NoDup (map key rows) -> NoDup (map key (filter keep rows)).
Proof.
  intros rows. induction rows as [|row rows IH]; intros Hnd; [constructor|].
  cbn [map] in Hnd. inversion Hnd as [|? ? Hfresh Hnd']; subst.
  cbn [filter]. destruct (keep row); [|apply IH; exact Hnd'].
  cbn [map]. constructor; [|apply IH; exact Hnd'].
  intros Hin. apply Hfresh. apply in_map_iff in Hin. destruct Hin as (y & Hy & Hin).
  apply filter_In in Hin. rewrite <- Hy. apply in_map. apply Hin.
Qed.

(** The receipt of one pending transaction saved: the rows of its hash
    take the status, where the save reaches its commit. *)
Lemma save_receipt_step :
  forall pt tx_receipt db_session,
    NoDup (map PaymentTransaction.transaction_hash (payment_transactions db_session)) ->
    waitForTransactionReceipt world (PaymentTransaction.transaction_hash pt)
      = Ok tx_receipt ->
    payment_transactions
      (_save_payments_info config transaction_status world tx_receipt
         (fst (PaymentTransaction.transaction_data pt))
         (snd (PaymentTransaction.transaction_data pt)) db_session)
    = map (fun x => if String.eqb (PaymentTransaction.transaction_hash x)
                                  (PaymentTransaction.transaction_hash pt)
                    then apply_receipt transaction_status world pt x else x)
          (payment_transactions db_session).
Proof.
  intros pt r db Hnd Hwait.
  pose proof (Hanswers _ _ Hwait) as Hhash.
  pose proof (save_payments_info_cases config transaction_status world r
                (fst (PaymentTransaction.transaction_data pt))
                (snd (PaymentTransaction.transaction_data pt)) db) as Hcases.
  cbv zeta in Hcases. rewrite Hhash in Hcases.
  assert (Hsame : forall x, apply_receipt transaction_status world pt x
                            = if receipt_applies transaction_status r
                                   (fst (PaymentTransaction.transaction_data pt))
                                   (snd (PaymentTransaction.transaction_data pt))
                              then set_status (transaction_status (receipt_status r)) x
                              else x).
  { intros x. unfold apply_receipt. rewrite Hwait. reflexivity. }
  destruct (find (has_hash (PaymentTransaction.transaction_hash pt))
              (payment_transactions db)) as [pt0|] eqn:Hfind.
  - destruct (receipt_applies transaction_status r _ _) eqn:Happ.
    + destruct Hcases as (Htx & _). rewrite Htx.
      rewrite (update_first_unique PaymentTransaction.transaction_hash
                 (PaymentTransaction.transaction_hash pt)); [|exact Hnd|].
      * apply map_ext. intros x. unfold has_hash. rewrite Hsame. reflexivity.
      * intros x. unfold has_hash. apply String.eqb_eq.
    + rewrite Hcases. rewrite <- (map_id (payment_transactions db)) at 1.
      apply map_ext. intros x. rewrite Hsame. destruct (String.eqb _ _); reflexivity.
  - rewrite Hcases. rewrite <- (map_id (payment_transactions db)) at 1.
    apply map_ext_in. intros x Hx.
    pose proof (find_none _ _ Hfind x Hx) as Hno. unfold has_hash in Hno.
    rewrite Hno. reflexivity.
Qed.

Lemma check_pending_loop_reconciles :
  forall pending db_session db' waits,
    check_pending_loop config transaction_status world pending db_session
      = (db', waits, true) ->
    NoDup (map PaymentTransaction.transaction_hash (payment_transactions db_session)) ->
    NoDup (map PaymentTransaction.transaction_hash pending) ->
    payment_transactions db'
    = map (fun x =>
             match find (fun pt => String.eqb (PaymentTransaction.transaction_hash x)
                                              (PaymentTransaction.transaction_hash pt))
                        pending with
             | Some pt => apply_receipt transaction_status world pt x
             | None => x
             end) (payment_transactions db_session)
    /\ waits = map WaitForTransactionReceipt
                 (map PaymentTransaction.transaction_hash pending)
    /\ Forall (fun pt => exists tx_receipt,
                 waitForTransactionReceipt world (PaymentTransaction.transaction_hash pt)
                 = Ok tx_receipt) pending.
Proof.
  induction pending as [|pt rest IH]; intros db db' waits Hrun Hnd Hpending.
  - cbn in Hrun. inversion Hrun; subst. cbn [find map].
    rewrite map_id. split; [reflexivity|]. split; [reflexivity|constructor].
  - cbn [check_pending_loop] in Hrun.
    destruct (waitForTransactionReceipt world (PaymentTransaction.transaction_hash pt))
      as [r|e] eqn:Hwait; [|discriminate].
    pose proof (save_receipt_step pt r db Hnd Hwait) as Hstep.
    set (db1 := _save_payments_info config transaction_status world r
                  (fst (PaymentTransaction.transaction_data pt))
                  (snd (PaymentTransaction.transaction_data pt)) db) in *.
    destruct (check_pending_loop config transaction_status world rest db1)
      as [[db2 evs] ok] eqn:Hrest.
    inversion Hrun; subst db' waits ok.
    cbn [map] in Hpending. inversion Hpending as [|? ? Hfresh Hpending']; subst.
    assert (Hnd1 : NoDup (map PaymentTransaction.transaction_hash
                            (payment_transactions db1))).
    { rewrite Hstep, map_map.
      erewrite map_ext; [exact Hnd|]. intros x. cbn beta.
      destruct (String.eqb _ _); [apply apply_receipt_hash|reflexivity]. }
    destruct (IH db1 db2 evs Hrest Hnd1 Hpending') as (Htx & Hevs & Hall).
    split; [|split].
    + rewrite Htx, Hstep, map_map. apply map_ext. intros x. cbn beta. cbn [find].
      destruct (String.eqb (PaymentTransaction.transaction_hash x)
                           (PaymentTransaction.transaction_hash pt)) eqn:E.
      * rewrite apply_receipt_hash.
        destruct (find _ rest) as [pt'|] eqn:Hfind; [|reflexivity].
        exfalso. apply find_some in Hfind. destruct Hfind as [Hin Heq].
        apply String.eqb_eq in Heq, E. apply Hfresh. rewrite <- E, Heq.
        apply in_map. exact Hin.
      * reflexivity.
    + cbn [map]. rewrite Hevs. reflexivity.
    + constructor; [exists r; exact Hwait|exact Hall].
Qed.

(** X13.  The check of the pending transactions, when it goes through,
    on a store with one transaction per hash and a node that answers with
    the receipt of the hash it is asked for: it waited for the receipt of
    each INIT or PENDING transaction, in the order of the table and for no
    other; every such transaction has the status of its receipt, except a
    SUCCESS one with fewer amounts than miners, which stays as it was; and
    the other transactions are as they were. *)
Theorem check_pending_reconciles :
  forall db_session,
    NoDup (map PaymentTransaction.transaction_hash (payment_transactions db_session)) ->
    snd (_check_pending_transactions config transaction_status world db_session) = true ->
    let db' := fst (fst (_check_pending_transactions config transaction_status world
                           db_session)) in
    let waits := snd (fst (_check_pending_transactions config transaction_status world
                             db_session)) in
    payment_transactions db'
    = map (reconciled transaction_status world) (payment_transactions db_session)
    /\ waits = map WaitForTransactionReceipt
                 (map PaymentTransaction.transaction_hash
                    (filter is_pending (payment_transactions db_session)))
    /\ Forall (fun pt => exists tx_receipt,
                 waitForTransactionReceipt world (PaymentTransaction.transaction_hash pt)
                 = Ok tx_receipt)
              (filter is_pending (payment_transactions db_session)).
Proof.
  intros db Hnd Hok db' waits. subst db' waits.
  unfold _check_pending_transactions in *.
  destruct (check_pending_loop config transaction_status world
              (filter is_pending (payment_transactions db)) db) as [[db' waits] ok] eqn:Hrun.
  cbn [fst snd] in *. subst ok.
  destruct (check_pending_loop_reconciles _ _ _ _ Hrun Hnd
              (filter_keeps_distinct _ _ _ Hnd)) as (Htx & Hwaits & Hall).
  split; [|split; [exact Hwaits|exact Hall]].
  rewrite Htx. apply map_ext_in. intros x Hx. unfold reconciled.
  destruct (find _ _) as [pt|] eqn:Hfind.
  - apply find_some in Hfind. destruct Hfind as [Hin Heq].
    apply filter_In in Hin. destruct Hin as [Hin Hp]. apply String.eqb_eq in Heq.
    assert (pt = x)
      by (apply (NoDup_map_injective _ _ Hnd); [exact Hin|exact Hx|symmetry; exact Heq]).
    subst pt. rewrite Hp. reflexivity.
  - destruct (is_pending x) eqn:Hp; [|reflexivity]. exfalso.
    assert (Hin : In x (filter is_pending (payment_transactions db)))
      by (apply filter_In; split; assumption).
    pose proof (find_none _ _ Hfind x Hin) as Hno. cbn beta in Hno.
    rewrite String.eqb_refl in Hno. discriminate.
Qed.

End Reconcile.

Lemma check_pending_reconciles_witness :
  let checked :=
    Payer._check_pending_transactions Example.payer_config Example.transaction_status
      Example.confirming_world Example.payer_db in
  payment_transactions (fst (fst checked))
  = map (reconciled Example.transaction_status Example.confirming_world)
        (payment_transactions Example.payer_db)
  /\ map PaymentTransaction.status (payment_transactions (fst (fst checked)))
     = [PaymentTransaction.SUCCESS]
  /\ snd (fst checked) = [WaitForTransactionReceipt "0xabc"].
Proof.
  assert (Hanswers : answers_for_the_hash Example.confirming_world).
  { intros h r H. cbn in H. inversion H. reflexivity. }
  assert (Hnd : NoDup (map PaymentTransaction.transaction_hash
                         (payment_transactions Example.payer_db))).
  { cbn. constructor; [intros []|constructor]. }
  assert (Hok : snd (Payer._check_pending_transactions Example.payer_config
                       Example.transaction_status Example.confirming_world
                       Example.payer_db) = true) by (vm_compute; reflexivity).
  destruct (check_pending_reconciles Example.payer_config Example.transaction_status
              Example.confirming_world Hanswers Example.payer_db Hnd Hok)
    as (Htx & Hwaits & _).
  split; [exact Htx|]. split; [vm_compute; reflexivity|]. exact Hwaits.
Defined.

Section PaidCycle.

Import Payer.

Variable prec : Z.
Variable config : Payer.Config.
Variable transaction_status : Z -> PaymentTransaction.status_t.

Lemma update_first_last {A : Type} (p : A -> bool) (f : A -> A) (l : list A) (y : A) :
  (forall x, In x l -> p x = false) -> p y = true ->
  update_first p f (l ++ [y]) = l ++ [f y].
Proof.
  induction l as [|x l IH]; intros Hl Hy; cbn [app update_first].
  - rewrite Hy. reflexivity.
  - rewrite (Hl x) by (left; reflexivity). f_equal. apply IH; [|exact Hy].
    intros z Hz. apply Hl. right. exact Hz.
Qed.

Lemma find_last {A : Type} (p : A -> bool) (l : list A) (y : A) :
  (forall x, In x l -> p x = false) -> p y = true -> find p (l ++ [y]) = Some y.
Proof.
  induction l as [|x l IH]; intros Hl Hy; cbn [app find].
  - rewrite Hy. reflexivity.
  - rewrite (Hl x) by (left; reflexivity). apply IH; [|exact Hy].
    intros z Hz. apply Hl. right. exact Hz.
Qed.

(** X14.  A cycle that pays: the pending transactions are settled, some
    rewards are due, the contract returns a hash that no stored transaction
    has, and the receipt of that hash has the status SUCCESS.  The cycle
    adds one transaction, with the next nonce, the miners and amounts of
    the call and the status SUCCESS, and one payment for every miner, with
    the amount of the miner and the id of the transaction; the payer keeps
    the nonce and the gas price of the call. *)
Theorem paid_cycle_records_the_payments :
  forall world self db_session miners amounts tx_hash tx_receipt,
    let checked := _check_pending_transactions config transaction_status world db_session in
    let db' := fst (fst checked) in
    let called := {| gas_price := gas_price (_get_gas_price world self);
                     nonce := nonce self + 1 |} in
    snd checked = true ->
    _get_miner_unpaid_reward prec config db' = Ok (miners, amounts) ->
    miners <> [] ->
    disperse_token world (MCB_TOKEN_ADDRESS config) miners amounts (PAYER_ADDRESS config)
      (nonce called) (gas_price called) = Ok tx_hash ->
    (forall pt, In pt (payment_transactions db') ->
       PaymentTransaction.transaction_hash pt <> tx_hash) ->
    waitForTransactionReceipt world tx_hash = Ok tx_receipt ->
    transactionHash tx_receipt = tx_hash ->
    transaction_status (receipt_status tx_receipt) = PaymentTransaction.SUCCESS ->
    let o := run prec config transaction_status world self db_session in
    let id := next_id (payment_transactions db') in
    payer o = called
    /\ payment_transactions (db o)
       = payment_transactions db'
         ++ [{| PaymentTransaction.id := id;
                PaymentTransaction.transaction_nonce := nonce self + 1;
                PaymentTransaction.transaction_data := (miners, amounts);
                PaymentTransaction.transaction_hash := tx_hash;
                PaymentTransaction.status := PaymentTransaction.SUCCESS |}]
    /\ payments (db o) = payments db' ++ payments_for world id miners amounts
    /\ List.length (payments (db o)) = (List.length (payments db') + List.length miners)%nat.
Proof.
  intros world self db_session miners amounts tx_hash r checked db' called
         Hok Hunpaid Hne Hcall Hfresh Hwait Hhash Hstatus o id.
  assert (Hlen : List.length miners = List.length amounts).
  { unfold _get_miner_unpaid_reward in Hunpaid.
    destruct (unpaid_loop_spec prec _ _ _ _ Hunpaid) as (Hm & Ha & _).
    rewrite Hm, Ha, !length_app, !length_map. reflexivity. }
  subst o checked db' called id. unfold run.
  destruct (_check_pending_transactions config transaction_status world db_session)
    as [[db' waits] ok].
  cbn [fst snd] in *. subst ok. cbn [negb]. rewrite Hunpaid.
  destruct miners as [|miner miners]; [exfalso; apply Hne; reflexivity|].
  cbn [List.length Nat.eqb nonce gas_price] in *. rewrite !get_gas_price_keeps_nonce.
  rewrite Hcall, Hwait. cbn [payer db].
  set (new := {| PaymentTransaction.id := next_id (payment_transactions db');
                 PaymentTransaction.transaction_nonce := nonce self + 1;
                 PaymentTransaction.transaction_data := (miner :: miners, amounts);
                 PaymentTransaction.transaction_hash := tx_hash;
                 PaymentTransaction.status := transaction_status 0 |}).
  pose proof (save_payments_info_cases config transaction_status world r
                (miner :: miners) amounts
                (_save_payment_transaction transaction_status
                   {| gas_price := gas_price (_get_gas_price world self);
                      nonce := nonce self + 1 |}
                   tx_hash (miner :: miners) amounts db')) as Hcases.
  cbv zeta in Hcases.
  cbn [_save_payment_transaction payment_transactions payments nonce] in Hcases.
  fold new in Hcases. rewrite Hhash in Hcases.
  assert (Hold : forall x, In x (payment_transactions db') -> has_hash tx_hash x = false).
  { intros x Hx. unfold has_hash. apply String.eqb_neq. apply Hfresh. exact Hx. }
  assert (Hnew : has_hash tx_hash new = true) by (unfold has_hash; apply String.eqb_refl).
  rewrite (find_last _ _ _ Hold Hnew) in Hcases.
  unfold receipt_applies in Hcases. rewrite Hstatus in Hcases.
  cbn [PaymentTransaction.status_eqb negb orb] in Hcases.
  replace (List.length (miner :: miners) <=? List.length amounts)%nat with true in Hcases
    by (symmetry; apply Nat.leb_le; apply Nat.eq_le_incl; exact Hlen).
  destruct Hcases as (Htx & Hpay & _).
  split; [reflexivity|]. split; [|split].
  - rewrite Htx. rewrite (update_first_last _ _ _ _ Hold Hnew). reflexivity.
  - rewrite Hpay. reflexivity.
  - rewrite Hpay, length_app. unfold payments_for.
    rewrite length_map, length_combine. cbn [List.length] in *.
    rewrite <- Hlen, Nat.min_id. reflexivity.
Qed.

End PaidCycle.

(** alice, paid 2 of her 5 MCB, is paid the other 3 by a cycle on a node
    that confirms. *)
Lemma paid_cycle_records_the_payments_witness :
  let self := {| Payer.gas_price := 1; Payer.nonce := 8 |} in
  let o := Payer.run Example.prec Example.payer_config Example.transaction_status
             Example.confirming_world self Example.paid_db in
  Payer.payer o = {| Payer.gas_price := 50000000000; Payer.nonce := 9 |}
  /\ map PaymentTransaction.status (payment_transactions (Payer.db o))
     = [PaymentTransaction.SUCCESS]
  /\ payments (Payer.db o)
     = [{| Payment.holder := "alice"; Payment.amount := 3000000000000000000;
           Payment.pay_time := 1600000000; Payment.transaction_id := 1 |}].
Proof.
  intros self o.
  assert (H1 : snd (Payer._check_pending_transactions Example.payer_config
                      Example.transaction_status Example.confirming_world Example.paid_db)
               = true) by (vm_compute; reflexivity).
  assert (H2 : Payer._get_miner_unpaid_reward Example.prec Example.payer_config
                 (fst (fst (Payer._check_pending_transactions Example.payer_config
                              Example.transaction_status Example.confirming_world
                              Example.paid_db)))
               = Ok (["alice"%string], [3 * 10 ^ 18])) by (vm_compute; reflexivity).
  assert (H3 : ["alice"%string] <> []) by discriminate.
  assert (H5 : forall pt,
             In pt (payment_transactions
                      (fst (fst (Payer._check_pending_transactions Example.payer_config
                                   Example.transaction_status Example.confirming_world
                                   Example.paid_db)))) ->
             PaymentTransaction.transaction_hash pt <> "0xdef"%string).
  { intros pt Hin. vm_compute in Hin. destruct Hin. }
  destruct (paid_cycle_records_the_payments Example.prec Example.payer_config
              Example.transaction_status Example.confirming_world self Example.paid_db
              ["alice"%string] [3 * 10 ^ 18] "0xdef"
              {| transactionHash := "0xdef"; receipt_status := 1 |}
              H1 H2 H3 eq_refl H5 eq_refl eq_refl eq_refl)
    as (Hp & Htx & Hpay & _).
  fold o in Hp, Htx, Hpay.
  split; [rewrite Hp; vm_compute; reflexivity|].
  split; [rewrite Htx; vm_compute; reflexivity|].
  rewrite Hpay. vm_compute. reflexivity.
Defined.

(* ================================================================== *)
(** * The rewards of a pool add up to no more than its reward *)
(* ================================================================== *)

Section PoolBudget.

Import ShareMining.

Variable prec : Z.
Variable config : Config.

Lemma unit_pos : 0 < Wad.unit.
Proof. reflexivity. Qed.

(** The share of a holder, in units of 10^-18: rounded down twice. *)
Lemma wad_share_le : forall P w T,
  0 <= P -> 0 <= w -> 0 < T ->
  0 <= Z.quot (Wad.mul P w * Wad.unit) T
  /\ Z.quot (Wad.mul P w * Wad.unit) T * T <= P * w.
Proof.
  intros P w T HP Hw HT. unfold Wad.mul.
  pose proof unit_pos as HU.
  assert (Hy : 0 <= Z.quot (P * w) Wad.unit) by (apply Z.quot_pos; nia).
  assert (Hy' : Wad.unit * Z.quot (P * w) Wad.unit <= P * w)
    by (apply Z.mul_quot_le; nia).
  assert (Hz : 0 <= Z.quot (Z.quot (P * w) Wad.unit * Wad.unit) T)
    by (apply Z.quot_pos; nia).
  assert (Hz' : T * Z.quot (Z.quot (P * w) Wad.unit * Wad.unit) T
                <= Z.quot (P * w) Wad.unit * Wad.unit)
    by (apply Z.mul_quot_le; nia).
  split; [exact Hz|nia].
Qed.

Lemma from_decimal_nonneg : forall q : Q, (0 <= q)%Q -> 0 <= Wad.from_decimal q.
Proof.
  intros q Hq. unfold Wad.from_decimal, Wad.from_number. cbn [Num.str_value].
  apply truncate_nonneg. apply Qmult_le_0_compat; [exact Hq|discriminate].
Qed.

Lemma from_decimal_floor : forall q : Q,
  (0 <= q)%Q -> Wad.from_decimal q = Qfloor (q * inject_Z Wad.unit).
Proof.
  intros q Hq. unfold Wad.from_decimal, Wad.from_number, Num.truncate. cbn [Num.str_value].
  rewrite (proj2 (Qle_bool_iff 0 _)); [reflexivity|].
  apply Qmult_le_0_compat; [exact Hq|discriminate].
Qed.

Lemma Qsum_nonneg : forall l : list Q, Forall (fun q => (0 <= q)%Q) l -> (0 <= Qsum l)%Q.
Proof.
  induction l as [|q l IH]; intros H; [apply Qle_refl|].
  inversion H; subst. unfold Qsum in *. cbn [fold_right].
  apply (Qplus_le_compat 0 q 0); auto.
Qed.

(** The balances as [Wad]s add up to no more than their sum as a [Wad]. *)
Lemma wad_sum_le : forall (balances : list Q) (total : Q),
  Forall (fun q => (0 <= q)%Q) balances ->
  (Qsum balances == total)%Q ->
  Zsum (map Wad.from_decimal balances) <= Wad.from_decimal total.
Proof.
  intros bs total Hpos Hsum.
  assert (Hle : (inject_Z (Zsum (map Wad.from_decimal bs))
                 <= Qsum bs * inject_Z Wad.unit)%Q).
  { clear Hsum. induction bs as [|b bs IH].
    - cbn. unfold Qsum. cbn. discriminate.
    - inversion Hpos; subst. cbn [map Zsum fold_right]. unfold Qsum. cbn [fold_right].
      fold (Zsum (map Wad.from_decimal bs)). fold (Qsum bs).
      rewrite inject_Z_plus, Qmult_plus_distr_l.
      apply Qplus_le_compat; [|apply IH; assumption].
      rewrite from_decimal_floor by assumption. apply Qfloor_le. }
  assert (Htotal : (0 <= total)%Q) by (rewrite <- Hsum; apply Qsum_nonneg; exact Hpos).
  rewrite (from_decimal_floor total Htotal).
  rewrite <- (Qfloor_Z (Zsum (map Wad.from_decimal bs))).
  apply Qfloor_resp_le. rewrite <- Hsum. exact Hle.
Qed.

Lemma Qsum_to_decimal : forall zs,
  (Qsum (map Wad.to_decimal zs) == inject_Z (Zsum zs) / inject_Z Wad.unit)%Q.
Proof.
  induction zs as [|z zs IH].
  - reflexivity.
  - cbn [map Zsum fold_right]. unfold Qsum. cbn [fold_right].
    fold (Qsum (map Wad.to_decimal zs)). fold (Zsum zs).
    rewrite IH. unfold Wad.to_decimal. rewrite Qred_correct, inject_Z_plus.
    unfold Qdiv. ring.
Qed.

Lemma to_decimal_le : forall a b, a <= b -> (Wad.to_decimal a <= Wad.to_decimal b)%Q.
Proof.
  intros a b H. unfold Wad.to_decimal. rewrite !Qred_correct. unfold Qdiv.
  apply Qmult_le_compat_r; [rewrite <- Zle_Qle; exact H|discriminate].
Qed.

Lemma item_reward_by_share :
  forall self block_number pv P weights item,
    by_share_balance self block_number (pv_pool_type pv) ->
    item_reward self block_number pv P weights item
    = (let* wad_reward :=
         Wad.div (Wad.mul P (Wad.from_decimal (snd item)))
                 (Wad.from_decimal (total_share_token_amount pv)) in
       Ok (Wad.to_decimal wad_reward)).
Proof.
  intros self b pv P weights item H. unfold item_reward, by_share_balance in *.
  rewrite H. reflexivity.
Qed.

Lemma wad_items_nonneg : forall items : list (string * Q),
  Forall (fun item => (0 <= snd item)%Q) items ->
  0 <= Zsum (map Wad.from_decimal (map snd items)).
Proof.
  induction items as [|item items IH]; intros H; [cbn; lia|].
  inversion H as [|? ? Hitem Hrest]; subst. cbn [map Zsum fold_right].
  fold (Zsum (map Wad.from_decimal (map snd items))).
  pose proof (from_decimal_nonneg (snd item) Hitem). specialize (IH Hrest). lia.
Qed.

(** The loop over the items of a pool whose rewards follow the share
    balances. *)
Lemma item_loop_budget :
  forall self block_number pool_name pv P weights holders items db d,
    by_share_balance self block_number (pv_pool_type pv) ->
    0 <= P -> 0 <= Wad.from_decimal (total_share_token_amount pv) ->
    Forall (fun item => (0 <= snd item)%Q) items ->
    for_each
      (fun (db_session : DBSession) (item : string * Q) =>
         if Decimal.eqb (snd item) 0 then Ok db_session
         else
           let* reward := item_reward self block_number pv P weights item in
           Ok (save_immature_reward prec self block_number pool_name holders
                 (fst item) reward db_session))
      db items = Ok d ->
    exists new zs,
      immature_mining_rewards d = immature_mining_rewards db ++ new
      /\ map ImmatureMiningReward.mcb_balance new = map Wad.to_decimal zs
      /\ Forall (fun r => ImmatureMiningReward.pool_name r = pool_name) new
      /\ Forall (fun z => 0 <= z) zs
      /\ Zsum zs * Wad.from_decimal (total_share_token_amount pv)
         <= P * Zsum (map Wad.from_decimal (map snd items))
      /\ (zs = [] \/ Wad.from_decimal (total_share_token_amount pv) <> 0).
Proof.
  intros self b pool_name pv P weights holders items db d Hshare HP HT.
  revert db d. induction items as [|item items IH]; intros db d Hpos Hrun.
  - cbn in Hrun. inversion Hrun; subst. exists [], []. rewrite app_nil_r.
    split; [reflexivity|]. split; [reflexivity|]. split; [constructor|].
    split; [constructor|]. split; [cbn; lia|left; reflexivity].
  - inversion Hpos as [|? ? Hitem Hpos']; subst.
    assert (Hw : 0 <= Wad.from_decimal (snd item)) by (apply from_decimal_nonneg; exact Hitem).
    pose proof (wad_items_nonneg items Hpos') as Hrest.
    cbn [for_each] in Hrun. cbn [map Zsum fold_right].
    fold (Zsum (map Wad.from_decimal (map snd items))).
    destruct (Decimal.eqb (snd item) 0).
    + cbn [bind] in Hrun. destruct (IH db d Hpos' Hrun) as (new & zs & H1 & H2 & H3 & H4 & H5 & H6).
      exists new, zs. repeat (split; [assumption|]). split; [nia|exact H6].
    + rewrite (item_reward_by_share self b pv P weights item Hshare) in Hrun.
      unfold Wad.div in Hrun.
      destruct (Wad.from_decimal (total_share_token_amount pv) =? 0) eqn:HT0;
        cbn [bind] in Hrun; [discriminate|].
      apply Z.eqb_neq in HT0.
      set (z := Z.quot (Wad.mul P (Wad.from_decimal (snd item)) * Wad.unit)
                  (Wad.from_decimal (total_share_token_amount pv))) in *.
      destruct (wad_share_le P (Wad.from_decimal (snd item))
                  (Wad.from_decimal (total_share_token_amount pv)) HP Hw ltac:(lia))
        as [Hz Hz']. fold z in Hz, Hz'.
      destruct (IH _ d Hpos' Hrun) as (new & zs & H1 & H2 & H3 & H4 & H5 & H6).
      unfold save_immature_reward in H1.
      assert (Hrows : immature_mining_rewards d
                      = immature_mining_rewards db
                        ++ {| ImmatureMiningReward.block_number := b;
                              ImmatureMiningReward.pool_name := pool_name;
                              ImmatureMiningReward.mining_round := _mining_round self;
                              ImmatureMiningReward.holder := fst item;
                              ImmatureMiningReward.mcb_balance := Wad.to_decimal z |}
                           :: new).
      { rewrite H1. destruct (negb _); cbn [set_immature immature_mining_rewards];
          rewrite <- app_assoc; reflexivity. }
      eexists. exists (z :: zs). split; [exact Hrows|].
      split; [cbn [map ImmatureMiningReward.mcb_balance]; rewrite H2; reflexivity|].
      split; [constructor; [reflexivity|exact H3]|].
      split; [constructor; [exact Hz|exact H4]|].
      split; [|right; exact HT0].
      cbn [Zsum fold_right]. fold (Zsum zs). nia.
Qed.


Lemma to_decimal_nonneg : forall z, 0 <= z -> (0 <= Wad.to_decimal z)%Q.
Proof.
  intros z Hz. apply (to_decimal_le 0 z) in Hz. exact Hz.
Qed.

(** One pool: the rows of the pool, not negative, with a sum of at most
    the reward of the pool. *)
Lemma pool_reward_step_budget :
  forall self block_number amms_weights weights db pool_name pv d,
    follows_shares self block_number pv ->
    pool_reward_step prec self block_number amms_weights weights db (pool_name, pv) = Ok d ->
    exists new,
      immature_mining_rewards d = immature_mining_rewards db ++ new
      /\ Forall (fun r => ImmatureMiningReward.pool_name r = pool_name
                          /\ (0 <= ImmatureMiningReward.mcb_balance r)%Q) new
      /\ forall P, pool_reward pv = Some P ->
           (Qsum (map ImmatureMiningReward.mcb_balance new) <= Wad.to_decimal P)%Q.
Proof.
  intros self b aw w db pool_name pv d (Hshare & Hpos & Hsum & HP) Hrun.
  unfold pool_reward_step in Hrun.
  destruct (Decimal.eqb (total_share_token_amount pv) 0).
  { inversion Hrun; subst. exists []. rewrite app_nil_r.
    split; [reflexivity|]. split; [constructor|].
    intros P HPv. apply to_decimal_nonneg. apply HP. exact HPv. }
  destruct (pool_reward pv) as [P|] eqn:HPv; cbn [key_of bind] in Hrun; [|discriminate].
  assert (HP0 : 0 <= P) by (apply HP; reflexivity).
  assert (Htotal : (0 <= total_share_token_amount pv)%Q).
  { rewrite <- Hsum. apply Qsum_nonneg. apply Forall_map. exact Hpos. }
  pose proof (from_decimal_nonneg _ Htotal) as HT.
  destruct (item_loop_budget self b pool_name pv P _ _ _ _ _ Hshare HP0 HT Hpos Hrun)
    as (new & zs & Hrows & Hbal & Hname & Hzs & Hle & Hdiv).
  pose proof (wad_sum_le (map snd (share_token_items pv)) (total_share_token_amount pv)
                (proj2 (Forall_map _ _ _) Hpos) Hsum) as Hw.
  assert (Hbound : Zsum zs <= P).
  { destruct Hdiv as [->|HT0]; [exact HP0|]. nia. }
  exists new. split; [exact Hrows|]. split.
  - apply Forall_forall. intros r Hr. rewrite Forall_forall in Hname.
    split; [apply Hname; exact Hr|].
    assert (Hin : In (ImmatureMiningReward.mcb_balance r) (map Wad.to_decimal zs))
      by (rewrite <- Hbal; apply in_map; exact Hr).
    apply in_map_iff in Hin. destruct Hin as (z & <- & Hz).
    rewrite Forall_forall in Hzs. apply to_decimal_nonneg. apply Hzs. exact Hz.
  - intros P' HP'. inversion HP'; subst P'. rewrite Hbal, Qsum_to_decimal.
    pose proof (to_decimal_le _ _ Hbound) as H. unfold Wad.to_decimal in H at 1.
    rewrite Qred_correct in H. exact H.
Qed.

Lemma rows_of_pool_app : forall pool_name l1 l2,
  rows_of_pool pool_name (l1 ++ l2) = rows_of_pool pool_name l1 ++ rows_of_pool pool_name l2.
Proof. intros. unfold rows_of_pool. apply filter_app. Qed.

(** The loop over the pools, the names of the pools distinct. *)
Lemma pools_loop_budget :
  forall self block_number amms_weights weights pool_value_info db d,
    NoDup (Dict.keys pool_value_info) ->
    Forall (fun entry => follows_shares self block_number (snd entry)) pool_value_info ->
    for_each (pool_reward_step prec self block_number amms_weights weights) db pool_value_info
      = Ok d ->
    exists new,
      immature_mining_rewards d = immature_mining_rewards db ++ new
      /\ Forall (fun r => In (ImmatureMiningReward.pool_name r) (Dict.keys pool_value_info)
                          /\ (0 <= ImmatureMiningReward.mcb_balance r)%Q) new
      /\ forall pool_name pv P,
           In (pool_name, pv) pool_value_info -> pool_reward pv = Some P ->
           (Qsum (map ImmatureMiningReward.mcb_balance (rows_of_pool pool_name new))
            <= Wad.to_decimal P)%Q.
Proof.
  intros self b aw w pvi. unfold Dict.keys.
  induction pvi as [|[name0 pv0] pvi IH]; intros db d Hnd Hgood Hrun.
  - cbn in Hrun. inversion Hrun; subst. exists []. rewrite app_nil_r.
    split; [reflexivity|]. split; [constructor|]. intros ? ? ? [].
  - cbn [for_each] in Hrun.
    destruct (pool_reward_step prec self b aw w db (name0, pv0)) as [m|e] eqn:Hstep;
      cbn [bind] in Hrun; [|discriminate].
    inversion Hgood as [|? ? Hgood0 Hgood']; subst. cbn [snd] in Hgood0.
    cbn [map fst] in Hnd. inversion Hnd as [|? ? Hfresh Hnd']; subst.
    destruct (pool_reward_step_budget _ _ _ _ _ _ _ _ Hgood0 Hstep)
      as (new0 & Hrows0 & Hall0 & Hsum0).
    destruct (IH m d Hnd' Hgood' Hrun) as (new1 & Hrows1 & Hall1 & Hsum1).
    assert (Hnone0 : forall name, name <> name0 -> rows_of_pool name new0 = []).
    { intros name Hne. unfold rows_of_pool. apply filter_none. intros r Hr.
      rewrite Forall_forall in Hall0. destruct (Hall0 r Hr) as [Hn _]. rewrite Hn.
      apply String.eqb_neq. intros E. apply Hne. symmetry. exact E. }
    assert (Hnone1 : rows_of_pool name0 new1 = []).
    { unfold rows_of_pool. apply filter_none. intros r Hr.
      rewrite Forall_forall in Hall1. destruct (Hall1 r Hr) as [Hn _].
      apply String.eqb_neq. intros E. apply Hfresh. rewrite <- E. exact Hn. }
    exists (new0 ++ new1). split; [rewrite Hrows1, Hrows0, app_assoc; reflexivity|].
    split.
    + apply Forall_app. split.
      * eapply Forall_impl; [|exact Hall0]. intros r [Hn Hb]. cbn beta.
        split; [left; symmetry; exact Hn|exact Hb].
      * eapply Forall_impl; [|exact Hall1]. intros r [Hn Hb]. cbn beta.
        split; [right; exact Hn|exact Hb].
    + intros name pv P Hin HPv. rewrite rows_of_pool_app. destruct Hin as [Hin|Hin].
      * inversion Hin; subst name pv. rewrite Hnone1, app_nil_r.
        assert (Hall : rows_of_pool name0 new0 = new0).
        { unfold rows_of_pool. apply filter_all. intros r Hr.
          rewrite Forall_forall in Hall0. destruct (Hall0 r Hr) as [Hn _].
          rewrite Hn. apply String.eqb_refl. }
        rewrite Hall. apply Hsum0. exact HPv.
      * assert (Hne : name <> name0).
        { intros E. subst name. apply Hfresh. apply (in_map fst) in Hin. exact Hin. }
        rewrite (Hnone0 name Hne). cbn [app]. eapply Hsum1; eauto.
Qed.

(** The items of a share token add up to its supply. *)
Lemma share_token_items_total : forall share_token_address db,
  (Qsum (map snd (_get_share_token_items share_token_address db))
   == _get_total_share_token_amount share_token_address db)%Q.
Proof.
  intros a db. unfold _get_share_token_items, _get_total_share_token_amount.
  induction (token_balances db) as [|t l IH]; [reflexivity|].
  cbn [filter]. destruct (String.eqb (TokenBalance.token t) a); cbn [andb]; [|exact IH].
  destruct (Decimal.eqb (TokenBalance.balance t) 0) eqn:E; cbn [negb map snd];
    unfold Qsum in *; cbn [map fold_right].
  - apply Qeq_bool_iff in E. rewrite E, <- IH. ring.
  - rewrite IH. reflexivity.
Qed.

Lemma share_token_items_nonneg : forall share_token_address db,
  Forall (fun t => (0 <= TokenBalance.balance t)%Q) (token_balances db) ->
  Forall (fun item => (0 <= snd item)%Q) (_get_share_token_items share_token_address db).
Proof.
  intros a db H. unfold _get_share_token_items. apply Forall_map.
  apply Forall_forall. intros t Ht. apply filter_In in Ht. destruct Ht as [Ht _].
  rewrite Forall_forall in H. apply H. exact Ht.
Qed.

(** X15.  A pass over pools whose rewards follow the share balances
    (UNISWAP pools, AMM pools before the rebalance fork), on a store
    with no negative balance and with pool rewards that are not negative:
    the rows the pass appends are not negative, and for every pool the
    rows of the pool add up to no more than the [pool_reward] of the pool;
    what the two truncations of each share leave is not paid. *)
Theorem pass_pays_at_most_the_pool_reward :
  forall self block_number pool_info pool_reward_percent db self1 pool_value_info self' d,
    NoDup (Dict.keys pool_info) ->
    Forall (fun entry => by_share_balance self block_number (pi_pool_type (snd entry)))
           pool_info ->
    Forall (fun t => (0 <= TokenBalance.balance t)%Q) (token_balances db) ->
    _get_pool_value_info prec config self block_number pool_info pool_reward_percent db
      = Ok (self1, pool_value_info) ->
    Forall (fun entry => forall P, pool_reward (snd entry) = Some P -> 0 <= P)
           pool_value_info ->
    _calculate_pools_reward prec config self block_number pool_info pool_reward_percent db
      = Ok (self', d) ->
    exists new,
      immature_mining_rewards d = immature_mining_rewards db ++ new
      /\ Forall (fun r => (0 <= ImmatureMiningReward.mcb_balance r)%Q) new
      /\ forall pool_name pv P,
           In (pool_name, pv) pool_value_info -> pool_reward pv = Some P ->
           (Qsum (map ImmatureMiningReward.mcb_balance (rows_of_pool pool_name new))
            <= Wad.to_decimal P)%Q.
Proof.
  intros self b pool_info pct db self1 pvi self' d Hnd Htypes Hbal Hinfo Hrewards Hrun.
  pose proof (get_pool_value_info_facts prec config _ _ _ _ _ _ _ Hnd Hinfo) as Hfacts.
  pose proof (get_pool_value_info_budget _ _ _ _ _ _ _ _ _ Hinfo) as Hself1.
  assert (Hkeys : NoDup (Dict.keys pvi)).
  { rewrite <- keys_of_facts, Hfacts, keys_of_facts_on. exact Hnd. }
  assert (Hgood : Forall (fun entry => follows_shares self1 b (snd entry)) pvi).
  { apply Forall_forall. intros [name pv] Hin. cbn [snd].
    assert (Hin' : In (pool_facts (name, pv)) (map (pool_facts_on db) pool_info))
      by (rewrite <- Hfacts; apply in_map; exact Hin).
    apply in_map_iff in Hin'. destruct Hin' as ([name' info] & Heq & Hinfo').
    unfold pool_facts, pool_facts_on in Heq. cbn [fst snd] in Heq.
    inversion Heq as [[Hname Htotal Hitems Htype]]. clear Heq.
    rewrite Forall_forall in Htypes, Hrewards.
    split; [|split; [|split]].
    - rewrite <- Htype. subst self1. apply (Htypes _ Hinfo').
    - rewrite <- Hitems. apply share_token_items_nonneg. exact Hbal.
    - rewrite <- Hitems, <- Htotal. apply share_token_items_total.
    - apply (Hrewards _ Hin). }
  unfold _calculate_pools_reward in Hrun. rewrite Hinfo in Hrun. cbn [bind] in Hrun.
  assert (Hloop : exists m, immature_mining_rewards m = immature_mining_rewards db
                            /\ exists aw w,
                                 for_each (pool_reward_step prec self1 b aw w) m pvi = Ok d).
  { destruct (_qin_begin_block_number self1 <=? b).
    - pose proof (holder_amms_reward_weight_alike prec config self1 b pvi db db
                    (same_env_refl db)) as Hw.
      destruct (_get_holder_amms_reward_weight prec config self1 b pvi db) as [[m w]|e];
        cbn [bind] in Hrun; [|discriminate].
      destruct Hw as (_ & (_ & Hr & _) & _). cbn [fst] in Hr.
      destruct (for_each _ m pvi) as [d'|e] eqn:Hl; cbn [bind] in Hrun; [|discriminate].
      inversion Hrun; subst. exists m. split; [exact Hr|]. eexists. eexists. exact Hl.
    - destruct (_zhou_begin_block_number self1 <=? b).
      + pose proof (holder_reward_weight_alike prec config self1 b pvi db db
                      (same_env_refl db)) as Hw.
        destruct (_get_holder_reward_weight prec config self1 b pvi db) as [[m w]|e];
          cbn [bind] in Hrun; [|discriminate].
        destruct Hw as (_ & (_ & Hr & _) & _). cbn [fst] in Hr.
        destruct (for_each _ m pvi) as [d'|e] eqn:Hl; cbn [bind] in Hrun; [|discriminate].
        inversion Hrun; subst. exists m. split; [exact Hr|]. eexists. eexists. exact Hl.
      + cbn [bind] in Hrun.
        destruct (for_each _ db pvi) as [d'|e] eqn:Hl; cbn [bind] in Hrun; [|discriminate].
        inversion Hrun; subst. exists db. split; [reflexivity|]. eexists. eexists. exact Hl. }
  destruct Hloop as (m & Hm & aw & w & Hl).
  destruct (pools_loop_budget _ _ _ _ _ _ _ Hkeys Hgood Hl) as (new & Hrows & Hall & Hsum).
  exists new. rewrite <- Hm. split; [exact Hrows|]. split; [|exact Hsum].
  eapply Forall_impl; [|exact Hall]. intros r [_ H]. exact H.
Qed.

End PoolBudget.

(** The pass of the round HAN on the example store: the MCB/ETH pool has
    0.75 MCB for the block, and alice and bob are paid 0.375 each. *)
Lemma pass_pays_at_most_the_pool_reward_witness :
  exists self' d new,
    ShareMining._calculate_pools_reward Example.prec Example.config (Example.engine "HAN")
      12000000 (Example.han_pool_info Example.config) (Num.Int 1) Example.uniswap_db
    = Ok (self', d)
    /\ immature_mining_rewards d = immature_mining_rewards Example.uniswap_db ++ new
    /\ List.length (rows_of_pool "UNISWAP_MCB_ETH" new) = 2%nat
    /\ (Qsum (map ImmatureMiningReward.mcb_balance (rows_of_pool "UNISWAP_MCB_ETH" new))
        <= Wad.to_decimal 750000000000000000%Z)%Q.
Proof.
  destruct (ShareMining._get_pool_value_info Example.prec Example.config
              (Example.engine "HAN") 12000000 (Example.han_pool_info Example.config)
              (Num.Int 1) Example.uniswap_db) as [[self1 pvi]|e] eqn:Hinfo;
    [|vm_compute in Hinfo; discriminate].
  destruct (ShareMining._calculate_pools_reward Example.prec Example.config
              (Example.engine "HAN") 12000000 (Example.han_pool_info Example.config)
              (Num.Int 1) Example.uniswap_db) as [[self' d]|e] eqn:Hrun;
    [|vm_compute in Hrun; discriminate].
  assert (Hpvi : match ShareMining._get_pool_value_info Example.prec Example.config
                         (Example.engine "HAN") 12000000
                         (Example.han_pool_info Example.config) (Num.Int 1)
                         Example.uniswap_db with
                 | Ok (_, pvi) => map (fun e => (fst e, pool_reward (snd e))) pvi
                 | Raise _ => []
                 end
                 = [("UNISWAP_MCB_ETH"%string, Some 750000000000000000);
                    ("UNISWAP_MCB_USDC"%string, Some 250000000000000000)])
    by (vm_compute; reflexivity).
  rewrite Hinfo in Hpvi.
  destruct pvi as [|[n1 pv1] [|[n2 pv2] [|]]]; try discriminate Hpvi.
  cbn [map fst snd] in Hpvi. injection Hpvi as Hn1 Hp1 Hn2 Hp2. subst n1 n2.
  assert (Hnd : NoDup (Dict.keys (Example.han_pool_info Example.config))).
  { cbn. repeat (constructor;
                 [cbn; intros H; repeat (destruct H as [H|H]; [discriminate H|]); exact H|]).
    constructor. }
  assert (Htypes : Forall (fun entry => by_share_balance (Example.engine "HAN") 12000000
                                          (pi_pool_type (snd entry)))
                          (Example.han_pool_info Example.config)).
  { cbn. repeat constructor. }
  assert (Hbal : Forall (fun t => (0 <= TokenBalance.balance t)%Q)
                        (token_balances Example.uniswap_db)).
  { cbn. repeat (constructor; [cbn; discriminate|]). constructor. }
  assert (Hrewards : Forall (fun entry => forall P, pool_reward (snd entry) = Some P -> 0 <= P)
                            [("UNISWAP_MCB_ETH"%string, pv1);
                             ("UNISWAP_MCB_USDC"%string, pv2)]).
  { constructor; [|constructor; [|constructor]]; cbn [snd]; intros P HP.
    - rewrite Hp1 in HP. inversion HP. lia.
    - rewrite Hp2 in HP. inversion HP. lia. }
  destruct (pass_pays_at_most_the_pool_reward Example.prec Example.config
              (Example.engine "HAN") 12000000 (Example.han_pool_info Example.config)
              (Num.Int 1) Example.uniswap_db self1 _ self' d
              Hnd Htypes Hbal Hinfo Hrewards Hrun) as (new & Hrows & _ & Hsum).
  exists self', d, new. split; [reflexivity|]. split; [exact Hrows|]. split.
  - assert (Hd : match ShareMining._calculate_pools_reward Example.prec Example.config
                         (Example.engine "HAN") 12000000
                         (Example.han_pool_info Example.config) (Num.Int 1)
                         Example.uniswap_db with
                 | Ok (_, d) => List.length (rows_of_pool "UNISWAP_MCB_ETH"
                                               (immature_mining_rewards d))
                 | Raise _ => 0%nat
                 end = 2%nat) by (vm_compute; reflexivity).
    rewrite Hrun, Hrows in Hd. rewrite rows_of_pool_app in Hd. exact Hd.
  - apply (Hsum "UNISWAP_MCB_ETH"%string pv1 750000000000000000);
      [left; reflexivity|exact Hp1].
Defined.

(* ================================================================== *)
(** * The budget the engine keeps, and the pools a pass reads *)
(* ================================================================== *)

Section KeptBudget.

Import ShareMining.

Variable prec : Z.
Variable config : Config.

(** The engine a run of [sync] returns: the engine it started from, with
    the budget of the block when a pass ran. *)
Lemma sync_self_cases :
  forall self watcher_id block_number block_hash db self' d,
    sync prec config self watcher_id block_number block_hash db = Ok (self', d) ->
    self' = self
    \/ self' = set_reward_per_block self (reward_per_block_at self block_number).
Proof.
  intros self w b h db self' d. unfold sync.
  destruct (_ || _)%bool; [intros H; inversion H; left; reflexivity|].
  destruct (String.eqb (_mining_round self) "XIA").
  { intros H. right. eapply calculate_pools_reward_self; exact H. }
  destruct (String.eqb (_mining_round self) "SHANG").
  { intros H. right. eapply two_passes_self; exact H. }
  destruct (String.eqb (_mining_round self) "ZHOU").
  { intros H. right. eapply two_passes_self; exact H. }
  destruct (String.eqb (_mining_round self) "QIN").
  { intros H. right. eapply two_passes_self; exact H. }
  destruct (String.eqb (_mining_round self) "HAN").
  { intros H. right. eapply calculate_pools_reward_self; exact H. }
  intros H; inversion H; left; reflexivity.
Qed.

Lemma sync_self_in_window :
  forall self watcher_id block_number block_hash db self' d,
    In (_mining_round self) ["XIA"; "SHANG"; "ZHOU"; "QIN"; "HAN"]%string ->
    _begin_block self <= block_number <= _end_block self ->
    sync prec config self watcher_id block_number block_hash db = Ok (self', d) ->
    self' = set_reward_per_block self (reward_per_block_at self block_number).
Proof.
  intros self w b h db self' d Hround [Hlo Hhi]. unfold sync.
  replace (b <? _begin_block self) with false by (symmetry; apply Z.ltb_ge; lia).
  replace (_end_block self <? b) with false by (symmetry; apply Z.ltb_ge; lia).
  cbn [orb].
  destruct (String.eqb (_mining_round self) "XIA") eqn:Hxia.
  { intros H. eapply calculate_pools_reward_self; exact H. }
  destruct (String.eqb (_mining_round self) "SHANG") eqn:Hshang.
  { intros H. eapply two_passes_self; exact H. }
  destruct (String.eqb (_mining_round self) "ZHOU") eqn:Hzhou.
  { intros H. eapply two_passes_self; exact H. }
  destruct (String.eqb (_mining_round self) "QIN") eqn:Hqin.
  { intros H. eapply two_passes_self; exact H. }
  destruct (String.eqb (_mining_round self) "HAN") eqn:Hhan.
  { intros H. eapply calculate_pools_reward_self; exact H. }
  exfalso. cbn [In] in Hround.
  destruct Hround as [H|[H|[H|[H|[H|[]]]]]]; rewrite <- H in *;
    rewrite String.eqb_refl in *; discriminate.
Qed.

Lemma reward_per_block_at_not_qin : forall self block_number,
  String.eqb (_mining_round self) "QIN" = false ->
  reward_per_block_at self block_number
  = if ((11601000 <=? block_number) && (block_number <? 11685000))%bool
    then Num.lit (1875 # 10000) else _reward_per_block self.
Proof.
  intros self b H. unfold reward_per_block_at. rewrite H. reflexivity.
Qed.

(** X16.  The budget of the vote window outlives the window.  In a round
    other than QIN, a block of [11601000, 11685000) synced inside the
    window of the round leaves 0.1875 in [_reward_per_block] of the
    engine, in the place of the budget the engine was built with; and
    whatever block the engine syncs next, inside this range or after it,
    the budget of the engine is still 0.1875. *)
Theorem vote_window_budget_stays :
  forall self watcher_id b1 h1 db1 self1 d1 watcher_id' b2 h2 db2 self2 d2,
    In (_mining_round self) ["XIA"; "SHANG"; "ZHOU"; "HAN"]%string ->
    _begin_block self <= b1 <= _end_block self ->
    11601000 <= b1 < 11685000 ->
    sync prec config self watcher_id b1 h1 db1 = Ok (self1, d1) ->
    sync prec config self1 watcher_id' b2 h2 db2 = Ok (self2, d2) ->
    _reward_per_block self1 = Num.lit (1875 # 10000)
    /\ _reward_per_block self2 = Num.lit (1875 # 10000).
Proof.
  intros self w b1 h1 db1 self1 d1 w' b2 h2 db2 self2 d2 Hround Hwin Hvote Hrun1 Hrun2.
  assert (Hnot : String.eqb (_mining_round self) "QIN" = false).
  { cbn [In] in Hround. destruct Hround as [H|[H|[H|[H|[]]]]]; rewrite <- H; reflexivity. }
  assert (Hself1 : self1 = set_reward_per_block self (reward_per_block_at self b1)).
  { eapply sync_self_in_window; [|exact Hwin|exact Hrun1].
    cbn [In] in Hround |- *. tauto. }
  assert (H1 : _reward_per_block self1 = Num.lit (1875 # 10000)).
  { rewrite Hself1. cbn [set_reward_per_block _reward_per_block].
    rewrite (reward_per_block_at_not_qin self b1 Hnot).
    replace (11601000 <=? b1) with true by (symmetry; apply Z.leb_le; lia).
    replace (b1 <? 11685000) with true by (symmetry; apply Z.ltb_lt; lia).
    reflexivity. }
  split; [exact H1|].
  assert (Hnot1 : String.eqb (_mining_round self1) "QIN" = false)
    by (rewrite Hself1; exact Hnot).
  destruct (sync_self_cases _ _ _ _ _ _ _ Hrun2) as [->| ->]; [exact H1|].
  cbn [set_reward_per_block _reward_per_block].
  rewrite (reward_per_block_at_not_qin self1 b2 Hnot1).
  destruct (_ && _)%bool; [reflexivity|exact H1].
Qed.

(** X17.  [_get_pool_value_info], when it returns: [pool_value_info]
    has the pools of [pool_info], under their names and in their order,
    each with the supply of its share token
    ([_get_total_share_token_amount]), the items of its share token
    ([_get_share_token_items]) and its type, as the store has them; and
    the engine it leaves has the budget of the block. *)
Theorem pool_value_info_lists_the_pools :
  forall self block_number pool_info pool_reward_percent db self' pool_value_info,
    NoDup (Dict.keys pool_info) ->
    _get_pool_value_info prec config self block_number pool_info pool_reward_percent db
      = Ok (self', pool_value_info) ->
    map pool_facts pool_value_info = map (pool_facts_on db) pool_info
    /\ Dict.keys pool_value_info = Dict.keys pool_info
    /\ self' = set_reward_per_block self (reward_per_block_at self block_number).
Proof.
  intros self b pool_info pct db self' pvi Hnd Hinfo.
  pose proof (get_pool_value_info_facts prec config _ _ _ _ _ _ _ Hnd Hinfo) as Hfacts.
  split; [exact Hfacts|]. split.
  - rewrite <- keys_of_facts, Hfacts. apply keys_of_facts_on.
  - eapply get_pool_value_info_budget; exact Hinfo.
Qed.

End KeptBudget.

(** The round HAN on the example store: a block of the vote window, then
    a block after it. *)
Lemma vote_window_budget_stays_witness :
  exists self1 d1 self2 d2,
    ShareMining.sync Example.prec Example.config (Example.engine "HAN") 0 11650000 "0xb10c"
      Example.uniswap_db = Ok (self1, d1)
    /\ ShareMining.sync Example.prec Example.config self1 0 12000000 "0xb10d" d1
       = Ok (self2, d2)
    /\ ShareMining._reward_per_block (Example.engine "HAN") = Num.Int 1
    /\ ShareMining._reward_per_block self2 = Num.lit (1875 # 10000).
Proof.
  destruct (ShareMining.sync Example.prec Example.config (Example.engine "HAN") 0 11650000
              "0xb10c" Example.uniswap_db) as [[self1 d1]|e] eqn:Hrun1;
    [|vm_compute in Hrun1; discriminate].
  assert (Hok : match ShareMining.sync Example.prec Example.config (Example.engine "HAN") 0
                        11650000 "0xb10c" Example.uniswap_db with
                | Ok (s, d) =>
                    is_ok (ShareMining.sync Example.prec Example.config s 0 12000000
                             "0xb10d" d)
                | Raise _ => false
                end = true) by (vm_compute; reflexivity).
  rewrite Hrun1 in Hok.
  destruct (ShareMining.sync Example.prec Example.config self1 0 12000000 "0xb10d" d1)
    as [[self2 d2]|e] eqn:Hrun2; [|discriminate Hok].
  exists self1, d1, self2, d2. split; [reflexivity|]. split; [exact Hrun2|].
  split; [reflexivity|].
  apply (vote_window_budget_stays Example.prec Example.config (Example.engine "HAN")
           0 11650000 "0xb10c" Example.uniswap_db self1 d1 0 12000000 "0xb10d" d1 self2 d2).
  - right. right. right. left. reflexivity.
  - cbn. lia.
  - lia.
  - exact Hrun1.
  - exact Hrun2.
Defined.

Lemma pool_value_info_lists_the_pools_witness :
  exists self' pool_value_info,
    ShareMining._get_pool_value_info Example.prec Example.config (Example.engine "HAN")
      12000000 (Example.han_pool_info Example.config) (Num.Int 1) Example.uniswap_db
    = Ok (self', pool_value_info)
    /\ Dict.keys pool_value_info = ["UNISWAP_MCB_ETH"; "UNISWAP_MCB_USDC"]%string.
Proof.
  destruct (ShareMining._get_pool_value_info Example.prec Example.config
              (Example.engine "HAN") 12000000 (Example.han_pool_info Example.config)
              (Num.Int 1) Example.uniswap_db) as [[self1 pvi]|e] eqn:Hinfo;
    [|vm_compute in Hinfo; discriminate].
  exists self1, pvi. split; [reflexivity|].
  assert (Hnd : NoDup (Dict.keys (Example.han_pool_info Example.config))).
  { cbn. repeat (constructor;
                 [cbn; intros H; repeat (destruct H as [H|H]; [discriminate H|]); exact H|]).
    constructor. }
  destruct (pool_value_info_lists_the_pools Example.prec Example.config
              (Example.engine "HAN") 12000000 (Example.han_pool_info Example.config)
              (Num.Int 1) Example.uniswap_db self1 pvi Hnd Hinfo) as (_ & Hkeys & _).
  rewrite Hkeys. reflexivity.
Defined.

(* ================================================================== *)
(** * The theory rewards ([_save_theory_mining_reward]) *)
(* ================================================================== *)

Section TheoryRewards.

Import ShareMining.

Variable self : ShareMining.t.
Variable pool_type : pool_type.

Lemma update_last_none {A : Type} (p : A -> bool) (f : A -> A) (l : list A) :
  existsb p l = false -> update_last p f l = l.
Proof.
  induction l as [|x l IH]; [reflexivity|]. cbn [existsb update_last]. intros H.
  apply orb_false_iff in H. destruct H as [Hx Hl]. rewrite Hl, Hx. reflexivity.
Qed.

Lemma update_last_before {A : Type} (p : A -> bool) (f : A -> A) (l l' : list A) :
  existsb p l' = false -> update_last p f (l ++ l') = update_last p f l ++ l'.
Proof.
  intros Hl'. induction l as [|x l IH].
  - cbn [app update_last]. apply update_last_none. exact Hl'.
  - cbn [app update_last]. rewrite existsb_app, Hl', orb_false_r, IH.
    destruct (existsb p l); [reflexivity|]. destruct (p x); reflexivity.
Qed.

Lemma update_last_stays {A : Type} (p : A -> bool) (f : A -> A) (l : list A) (x : A) :
  In x l -> p x = false -> In x (update_last p f l).
Proof.
  intros Hin Hx. induction l as [|y l IH]; [destruct Hin|].
  cbn [update_last]. destruct Hin as [->|Hin].
  - destruct (existsb p l); [left; reflexivity|]. rewrite Hx. left. reflexivity.
  - destruct (existsb p l); [right; apply IH; exact Hin|].
    destruct (p y); right; exact Hin.
Qed.

Lemma update_last_hits {A : Type} (p : A -> bool) (f : A -> A) (l : list A) :
  existsb p l = true -> exists x, p x = true /\ In (f x) (update_last p f l).
Proof.
  induction l as [|y l IH]; [discriminate|]. cbn [existsb update_last]. intros H.
  destruct (existsb p l).
  - destruct (IH eq_refl) as (x & Hx & Hin). exists x. split; [exact Hx|right; exact Hin].
  - rewrite orb_false_r in H. rewrite H. exists y. split; [exact H|left; reflexivity].
Qed.

Lemma update_last_filter {A : Type} (p q : A -> bool) (f : A -> A) (l : list A) :
  (forall x, p x = true -> q x = false /\ q (f x) = false) ->
  filter q (update_last p f l) = filter q l.
Proof.
  intros Hq. induction l as [|y l IH]; [reflexivity|]. cbn [update_last].
  destruct (existsb p l).
  - cbn [filter]. rewrite IH. reflexivity.
  - destruct (p y) eqn:Hy; [|reflexivity].
    destruct (Hq y Hy) as [H1 H2]. cbn [filter]. rewrite H1, H2. reflexivity.
Qed.

Lemma existsb_by_key {A K : Type} (key : A -> K) (p : K -> bool) (l l' : list A) :
  map key l = map key l' ->
  existsb (fun x => p (key x)) l = existsb (fun x => p (key x)) l'.
Proof.
  revert l'. induction l as [|x l IH]; intros [|x' l'] H; try discriminate; [reflexivity|].
  cbn [map] in H. injection H as Hx Hl. cbn [existsb]. rewrite Hx, (IH l' Hl). reflexivity.
Qed.

Lemma theory_row_of_key : forall mining_round holder rows rows',
  map theory_key rows = map theory_key rows' ->
  existsb (theory_row_of mining_round holder) rows
  = existsb (theory_row_of mining_round holder) rows'.
Proof.
  intros mining_round holder rows rows' H.
  apply (existsb_by_key theory_key
           (fun k => (String.eqb (fst (fst k)) mining_round && String.eqb (snd k) holder)%bool)
           rows rows' H).
Qed.

Lemma dict_mem_of_items {V : Type} (key : V -> string) (k : string) (items : list V)
    (d : Dict.t V) :
  Dict.mem k (fold_left (fun d item => Dict.set (key item) item d) items d)
  = (Dict.mem k d || existsb (fun item => String.eqb (key item) k) items)%bool.
Proof.
  revert d. induction items as [|item items IH]; intros d.
  - cbn. rewrite orb_false_r. reflexivity.
  - cbn [fold_left existsb]. rewrite IH. unfold Dict.mem. rewrite dict_get_set.
    rewrite (String.eqb_sym (key item) k).
    destruct (String.eqb k (key item)); cbn [orb]; [|reflexivity].
    destruct (Dict.get k d); reflexivity.
Qed.

Lemma existsb_filter_and {A : Type} (p q : A -> bool) (l : list A) :
  existsb q (filter p l) = existsb (fun x => (p x && q x)%bool) l.
Proof.
  induction l as [|x l IH]; [reflexivity|]. cbn [filter existsb].
  destruct (p x); cbn [existsb andb orb]; rewrite IH; reflexivity.
Qed.

Lemma updates_keys : forall d rows,
  map theory_key (theory_updates (_mining_round self) d rows) = map theory_key rows.
Proof.
  intros d. unfold theory_updates. induction d as [|entry d IH]; intros rows; [reflexivity|].
  cbn [fold_left]. rewrite IH. apply update_last_keys. intros x. reflexivity.
Qed.

Lemma updates_stays : forall d rows item,
  In item rows ->
  (forall entry, In entry d -> theory_row_of (_mining_round self) (fst entry) item = false) ->
  In item (theory_updates (_mining_round self) d rows).
Proof.
  intros d. unfold theory_updates. induction d as [|entry d IH]; intros rows item Hin Hd; [exact Hin|].
  cbn [fold_left]. apply IH.
  - apply update_last_stays; [exact Hin|]. apply Hd. left. reflexivity.
  - intros e He. apply Hd. right. exact He.
Qed.

Lemma updates_filter : forall (q : TheoryMiningReward.t -> bool) d rows,
  (forall entry x, In entry d ->
     theory_row_of (_mining_round self) (fst entry) x = true ->
     q x = false /\ q (with_theory_balance (snd entry) x) = false) ->
  filter q (theory_updates (_mining_round self) d rows) = filter q rows.
Proof.
  intros q d. unfold theory_updates. induction d as [|entry d IH]; intros rows Hq; [reflexivity|].
  cbn [fold_left]. rewrite IH.
  - apply update_last_filter. intros x Hx. apply (Hq entry); [left; reflexivity|exact Hx].
  - intros e x He. apply Hq. right. exact He.
Qed.

Lemma updates_sets : forall d rows holder reward,
  NoDup (Dict.keys d) ->
  In (holder, reward) d ->
  existsb (theory_row_of (_mining_round self) holder) rows = true ->
  exists item,
    In item (theory_updates (_mining_round self) d rows)
    /\ theory_row_of (_mining_round self) holder item = true
    /\ TheoryMiningReward.mcb_balance item = reward.
Proof.
  intros d. induction d as [|[h r] d IH]; intros rows holder reward Hnd Hin Hex;
    [destruct Hin|].
  cbn [Dict.keys map fst] in Hnd. inversion Hnd as [|? ? Hfresh Hnd']; subst.
  unfold theory_updates. cbn [fold_left fst snd]. fold (theory_updates (_mining_round self) d (update_last
    (theory_row_of (_mining_round self) h) (with_theory_balance r) rows)).
  destruct Hin as [Heq|Hin].
  - inversion Heq; subst h r.
    destruct (update_last_hits _ (with_theory_balance reward) rows Hex) as (x & Hx & Hxin).
    exists (with_theory_balance reward x). split; [|split; [exact Hx|reflexivity]].
    apply updates_stays; [exact Hxin|].
    intros [h' r'] He. cbn [fst]. unfold theory_row_of in *.
    unfold with_theory_balance; cbn [TheoryMiningReward.mining_round TheoryMiningReward.holder].
    apply andb_true_iff in Hx. destruct Hx as [Hround Hholder].
    rewrite Hround. cbn [andb]. apply String.eqb_eq in Hholder. rewrite Hholder.
    apply String.eqb_neq. intros ->. apply Hfresh. apply (in_map fst) in He. exact He.
  - apply IH; [exact Hnd'|exact Hin|].
    rewrite <- Hex. apply theory_row_of_key. apply update_last_keys. intros x. reflexivity.
Qed.

Lemma save_theory_mining_reward_rows : forall d db,
  theory_mining_rewards (_save_theory_mining_reward self pool_type d db)
  = theory_updates (_mining_round self) d (theory_mining_rewards db)
    ++ map (new_theory_row (_mining_round self) pool_type)
         (filter (fun entry =>
                    negb (existsb (theory_row_of (_mining_round self) (fst entry))
                            (theory_mining_rewards db))) d).
Proof.
  intros d db. unfold _save_theory_mining_reward.
  cbn [set_theory_mining_rewards theory_mining_rewards].
  set (rows0 := theory_mining_rewards db).
  match goal with
  | |- context [fold_left ?f (filter ?p rows0) []] =>
      set (known := fold_left f (filter p rows0) [])
  end.
  assert (Hknown : forall holder,
             Dict.mem holder known = existsb (theory_row_of (_mining_round self) holder) rows0).
  { intros holder. subst known.
    rewrite (dict_mem_of_items TheoryMiningReward.holder). cbn [orb Dict.mem Dict.get].
    rewrite existsb_filter_and. reflexivity. }
  assert (Hgen : forall d rows added,
             map theory_key rows = map theory_key rows0 ->
             Forall (fun item =>
                       existsb (theory_row_of (_mining_round self)
                                  (TheoryMiningReward.holder item)) rows0 = false) added ->
             fold_left
               (fun rows entry =>
                  let '(holder, reward) := entry in
                  if negb (Dict.mem holder known) then
                    rows ++ [{| TheoryMiningReward.mining_round := _mining_round self;
                                TheoryMiningReward.pool_type := pool_type;
                                TheoryMiningReward.holder := holder;
                                TheoryMiningReward.mcb_balance := reward |}]
                  else
                    update_last
                      (fun item =>
                         (String.eqb (TheoryMiningReward.mining_round item) (_mining_round self)
                          && String.eqb (TheoryMiningReward.holder item) holder)%bool)
                      (fun item =>
                         {| TheoryMiningReward.mining_round := TheoryMiningReward.mining_round item;
                            TheoryMiningReward.pool_type := TheoryMiningReward.pool_type item;
                            TheoryMiningReward.holder := TheoryMiningReward.holder item;
                            TheoryMiningReward.mcb_balance := reward |})
                      rows) d (rows ++ added)
             = theory_updates (_mining_round self) d rows ++ added
               ++ map (new_theory_row (_mining_round self) pool_type)
                    (filter (fun entry =>
                               negb (existsb (theory_row_of (_mining_round self) (fst entry))
                                       rows0)) d)).
  { clear d. intros d. induction d as [|[h r] d IH]; intros rows added Hkeys Hadded.
    - unfold theory_updates. cbn [fold_left filter map]. rewrite app_nil_r. reflexivity.
    - cbn [fold_left filter fst]. rewrite Hknown.
      destruct (existsb (theory_row_of (_mining_round self) h) rows0) eqn:Hex; cbn [negb].
      + change (fun item : TheoryMiningReward.t =>
                  (String.eqb (TheoryMiningReward.mining_round item) (_mining_round self)
                   && String.eqb (TheoryMiningReward.holder item) h)%bool)
          with (theory_row_of (_mining_round self) h).
        change (fun item : TheoryMiningReward.t =>
                  {| TheoryMiningReward.mining_round := TheoryMiningReward.mining_round item;
                     TheoryMiningReward.pool_type := TheoryMiningReward.pool_type item;
                     TheoryMiningReward.holder := TheoryMiningReward.holder item;
                     TheoryMiningReward.mcb_balance := r |})
          with (with_theory_balance r).
        rewrite update_last_before.
        * rewrite IH; [reflexivity| |exact Hadded].
          rewrite <- Hkeys. apply update_last_keys. intros x. reflexivity.
        * apply not_true_is_false. intros Hhit. apply existsb_exists in Hhit.
          destruct Hhit as (x & Hx & Hp). rewrite Forall_forall in Hadded.
          specialize (Hadded x Hx). unfold theory_row_of in Hp.
          apply andb_true_iff in Hp. destruct Hp as [_ Hp]. apply String.eqb_eq in Hp.
          rewrite Hp in Hadded. congruence.
      + rewrite <- app_assoc. rewrite IH.
        * unfold theory_updates at 2. cbn [fold_left fst snd].
          rewrite (update_last_none _ _ rows).
          -- cbn [map]. rewrite <- app_assoc. reflexivity.
          -- rewrite <- Hex. apply theory_row_of_key. exact Hkeys.
        * exact Hkeys.
        * apply Forall_app. split; [exact Hadded|]. constructor; [exact Hex|constructor]. }
  specialize (Hgen d rows0 [] eq_refl (Forall_nil _)).
  rewrite app_nil_r in Hgen. exact Hgen.
Qed.

Lemma dict_mem_in {V : Type} (k : string) (v : V) (d : Dict.t V) :
  In (k, v) d -> Dict.mem k d = true.
Proof.
  intros Hin. unfold Dict.mem. destruct (Dict.get k d) eqn:Hget; [reflexivity|].
  exfalso. apply (proj1 (dict_get_none k d) Hget). apply (in_map fst) in Hin. exact Hin.
Qed.

(** X18.  [_save_theory_mining_reward] is an upsert on (round, holder),
    with the rows read once, before the loop.  On a dict with one entry
    per holder, the table after the call is the rows it had, in their
    places and with their round, pool type and holder (the pool type of a
    row found is not the pool type of the call), followed by one new row,
    of the pool type of the call, for each holder of the dict that had no
    row of the round, in the order of the dict; the rows of another round
    or of a holder not in the dict are as they were; and every holder of
    the dict has a row of the round with the reward of the dict. *)
Theorem save_theory_mining_reward_upserts :
  forall d db,
    NoDup (Dict.keys d) ->
    exists updated added,
      theory_mining_rewards (_save_theory_mining_reward self pool_type d db)
      = updated ++ added
      /\ map theory_key updated = map theory_key (theory_mining_rewards db)
      /\ filter (fun item => negb (theory_row_in (_mining_round self) d item)) updated
         = filter (fun item => negb (theory_row_in (_mining_round self) d item))
             (theory_mining_rewards db)
      /\ added
         = map (new_theory_row (_mining_round self) pool_type)
             (filter (fun entry =>
                        negb (existsb (theory_row_of (_mining_round self) (fst entry))
                                (theory_mining_rewards db))) d)
      /\ forall holder reward,
           In (holder, reward) d ->
           exists item,
             In item (updated ++ added)
             /\ TheoryMiningReward.mining_round item = _mining_round self
             /\ TheoryMiningReward.holder item = holder
             /\ TheoryMiningReward.mcb_balance item = reward.
Proof.
  intros d db Hnd.
  exists (theory_updates (_mining_round self) d (theory_mining_rewards db)).
  eexists. split; [apply save_theory_mining_reward_rows|].
  split; [apply updates_keys|]. split; [|split; [reflexivity|]].
  - apply updates_filter. intros [h r] x Hin Hx. cbn [fst snd] in *.
    unfold theory_row_of in Hx. apply andb_true_iff in Hx. destruct Hx as [Hround Hholder].
    apply String.eqb_eq in Hholder.
    unfold theory_row_in, with_theory_balance.
    cbn [TheoryMiningReward.mining_round TheoryMiningReward.holder].
    rewrite Hround, Hholder, (dict_mem_in h r d Hin). split; reflexivity.
  - intros holder reward Hin.
    destruct (existsb (theory_row_of (_mining_round self) holder) (theory_mining_rewards db))
      eqn:Hex.
    + destruct (updates_sets d _ holder reward Hnd Hin Hex) as (item & Hitem & Hp & Hbal).
      exists item. split; [apply in_or_app; left; exact Hitem|].
      unfold theory_row_of in Hp. apply andb_true_iff in Hp. destruct Hp as [Hround Hholder].
      apply String.eqb_eq in Hround. apply String.eqb_eq in Hholder.
      split; [exact Hround|]. split; [exact Hholder|exact Hbal].
    + exists (new_theory_row (_mining_round self) pool_type (holder, reward)).
      split; [|split; [reflexivity|split; reflexivity]].
      apply in_or_app. right. apply in_map. apply filter_In. split; [exact Hin|].
      cbn [fst]. rewrite Hex. reflexivity.
Qed.

End TheoryRewards.

(** A table with a row of the round HAN for one holder, of the type
    UNISWAP, and a row of the round QIN: the AMM rewards of that holder
    and of a new one. *)
Lemma save_theory_mining_reward_upserts_witness :
  let db :=
    ShareMining.set_theory_mining_rewards Example.uniswap_db
      [ {| TheoryMiningReward.mining_round := "HAN";
           TheoryMiningReward.pool_type := UNISWAP;
           TheoryMiningReward.holder := "0xa";
           TheoryMiningReward.mcb_balance := 1 |};
        {| TheoryMiningReward.mining_round := "QIN";
           TheoryMiningReward.pool_type := AMM;
           TheoryMiningReward.holder := "0xb";
           TheoryMiningReward.mcb_balance := 5 |} ] in
  exists updated added,
    theory_mining_rewards
      (ShareMining._save_theory_mining_reward (Example.engine "HAN") AMM
         [("0xa"%string, 2%Q); ("0xb"%string, 3%Q)] db) = updated ++ added
    /\ map theory_key updated = [("HAN", UNISWAP, "0xa"); ("QIN", AMM, "0xb")]%string
    /\ map theory_key added = [("HAN", AMM, "0xb")]%string.
Proof.
  cbv zeta.
  assert (Hnd : NoDup (Dict.keys [("0xa"%string, 2%Q); ("0xb"%string, 3%Q)])).
  { cbn. repeat (constructor;
                 [cbn; intros H; repeat (destruct H as [H|H]; [discriminate H|]); exact H|]).
    constructor. }
  destruct (save_theory_mining_reward_upserts (Example.engine "HAN") AMM
              [("0xa"%string, 2%Q); ("0xb"%string, 3%Q)]
              (ShareMining.set_theory_mining_rewards Example.uniswap_db
                 [ {| TheoryMiningReward.mining_round := "HAN";
                      TheoryMiningReward.pool_type := UNISWAP;
                      TheoryMiningReward.holder := "0xa";
                      TheoryMiningReward.mcb_balance := 1 |};
                   {| TheoryMiningReward.mining_round := "QIN";
                      TheoryMiningReward.pool_type := AMM;
                      TheoryMiningReward.holder := "0xb";
                      TheoryMiningReward.mcb_balance := 5 |} ]) Hnd)
    as (updated & added & Hrows & Hkeys & _ & Hadded & _).
  exists updated, added. split; [exact Hrows|]. split; [exact Hkeys|].
  rewrite Hadded. reflexivity.
Defined.

(* ================================================================== *)
(** * Who has an effective share ([_get_effective_share_info]) *)
(* ================================================================== *)

Section DictOfRows.

Context {A V : Type}.
Variable key : A -> string.
Variable val : A -> V.

Lemma dict_set_in (k k' : string) (v v' : V) (d : Dict.t V) :
  In (k, v) (Dict.set k' v' d) -> (k = k' /\ v = v') \/ In (k, v) d.
Proof.
  induction d as [|[k0 v0] d IH]; cbn [Dict.set].
  - intros [H|[]]. inversion H. left. split; reflexivity.
  - destruct (String.eqb k' k0) eqn:E.
    + apply String.eqb_eq in E. subst k0. intros [H|H].
      * inversion H. left. split; reflexivity.
      * right. right. exact H.
    + intros [H|H]; [right; left; exact H|].
      destruct (IH H) as [H'|H']; [left; exact H'|right; right; exact H'].
Qed.

Lemma dict_get_some_in (k : string) (v : V) (d : Dict.t V) :
  Dict.get k d = Some v -> In (k, v) d.
Proof.
  induction d as [|[k0 v0] d IH]; cbn [Dict.get]; [discriminate|].
  destruct (String.eqb k k0) eqn:E.
  - apply String.eqb_eq in E. subst k0. intros H. inversion H. left. reflexivity.
  - intros H. right. apply IH. exact H.
Qed.

Lemma dict_of_rows_in (k : string) (v : V) (rows : list A) (d : Dict.t V) :
  In (k, v) (fold_left (fun d row => Dict.set (key row) (val row) d) rows d) ->
  In (k, v) d \/ exists row, In row rows /\ key row = k /\ val row = v.
Proof.
  revert d. induction rows as [|row rows IH]; intros d; cbn [fold_left]; [left; assumption|].
  intros H. destruct (IH _ H) as [H'|(r & Hr & Hk & Hv)].
  - destruct (dict_set_in _ _ _ _ _ H') as [[-> ->]|H'']; [|left; exact H''].
    right. exists row. split; [left; reflexivity|split; reflexivity].
  - right. exists r. split; [right; exact Hr|split; assumption].
Qed.

Lemma dict_of_rows_get_other (k : string) (rows : list A) (d : Dict.t V) :
  (forall row, In row rows -> key row <> k) ->
  Dict.get k (fold_left (fun d row => Dict.set (key row) (val row) d) rows d) = Dict.get k d.
Proof.
  revert d. induction rows as [|row rows IH]; intros d Hrows; [reflexivity|].
  cbn [fold_left]. rewrite IH by (intros r Hr; apply Hrows; right; exact Hr).
  rewrite dict_get_set. destruct (String.eqb k (key row)) eqn:E; [|reflexivity].
  apply String.eqb_eq in E. exfalso. apply (Hrows row); [left; reflexivity|].
  symmetry. exact E.
Qed.

Lemma dict_of_rows_get (row : A) (rows : list A) (d : Dict.t V) :
  NoDup (map key rows) -> In row rows ->
  Dict.get (key row) (fold_left (fun d row => Dict.set (key row) (val row) d) rows d)
  = Some (val row).
Proof.
  revert d. induction rows as [|r rows IH]; intros d Hnd Hin; [destruct Hin|].
  cbn [map] in Hnd. inversion Hnd as [|? ? Hfresh Hnd']; subst. cbn [fold_left].
  destruct Hin as [->|Hin]; [|apply IH; assumption].
  rewrite dict_of_rows_get_other.
  - rewrite dict_get_set, String.eqb_refl. reflexivity.
  - intros r' Hr' Heq. apply Hfresh. rewrite <- Heq. apply in_map. exact Hr'.
Qed.

Lemma dict_of_rows_mem (k : string) (rows : list A) (d : Dict.t V) :
  Dict.mem k (fold_left (fun d row => Dict.set (key row) (val row) d) rows d)
  = (Dict.mem k d || existsb (fun row => String.eqb (key row) k) rows)%bool.
Proof.
  revert d. induction rows as [|row rows IH]; intros d.
  - cbn. rewrite orb_false_r. reflexivity.
  - cbn [fold_left existsb]. rewrite IH. unfold Dict.mem. rewrite dict_get_set.
    rewrite (String.eqb_sym (key row) k).
    destruct (String.eqb k (key row)); cbn [orb]; [|reflexivity].
    destruct (Dict.get k d); reflexivity.
Qed.

Lemma dict_of_rows_has (row : A) (rows : list A) (d : Dict.t V) :
  In row rows ->
  exists v, In (key row, v)
              (fold_left (fun d row => Dict.set (key row) (val row) d) rows d).
Proof.
  intros Hin. pose proof (dict_of_rows_mem (key row) rows d) as Hmem.
  replace (existsb (fun r => String.eqb (key r) (key row)) rows) with true in Hmem.
  - rewrite orb_true_r in Hmem. unfold Dict.mem in Hmem.
    destruct (Dict.get (key row) _) as [v|] eqn:Hget; [|discriminate].
    exists v. apply dict_get_some_in. exact Hget.
  - symmetry. apply existsb_exists. exists row. split; [exact Hin|apply String.eqb_refl].
Qed.

End DictOfRows.

Lemma dict_set_keys_in {V : Type} (k k' : string) (v : V) (d : Dict.t V) :
  In k (Dict.keys (Dict.set k' v d)) -> k = k' \/ In k (Dict.keys d).
Proof.
  unfold Dict.keys. induction d as [|[k0 v0] d IH]; cbn [Dict.set map fst In].
  - intros [H|[]]. left. symmetry. exact H.
  - destruct (String.eqb k' k0); cbn [map fst In]; [tauto|].
    intros [H|H]; [tauto|]. destruct (IH H); tauto.
Qed.

(** A loop that raises one error only, and raises it at one item. *)
Lemma for_each_raises_only {A S : Type} (body : S -> A -> result S) (l : list A) (x : A)
    (e : exn) :
  In x l ->
  (forall s, body s x = Raise e) ->
  (forall s y e', In y l -> body s y = Raise e' -> e' = e) ->
  forall s, for_each body s l = Raise e.
Proof.
  intros Hin Hx Honly. induction l as [|y l IH]; [destruct Hin|]. intros s.
  cbn [for_each]. destruct (body s y) as [s'|e'] eqn:Hy; cbn [bind].
  - destruct Hin as [->|Hin]; [rewrite Hx in Hy; discriminate|].
    apply IH; [exact Hin|]. intros s0 y0 e0 Hy0. apply Honly. right. exact Hy0.
  - rewrite (Honly s y e' (or_introl eq_refl) Hy). reflexivity.
Qed.

Section PositionHolders.

Import ShareMining.

Variable prec : Z.
Variable self : ShareMining.t.

(** X19.  Before the begin block of ZHOU, [_get_effective_share_info]
    loops over the position rows of the perpetual of the pool, not over
    the share holders: when it returns, every holder of
    [effective_share_dict] has a position row in the perpetual that the
    map of the share token gives, and a share item with a non-zero
    balance.  A share holder with no position row in the perpetual has no
    effective share. *)
Theorem effective_share_needs_a_position :
  forall block_number pool_share_token_address share_token_items total_share_token_amount
         db effective_share_dict total_effective_share_amount holder,
    block_number < _zhou_begin_block_number self ->
    _get_effective_share_info prec self block_number pool_share_token_address
      share_token_items total_share_token_amount db
    = Ok (effective_share_dict, total_effective_share_amount) ->
    In holder (Dict.keys effective_share_dict) ->
    (exists token_map item,
        _get_token_map pool_share_token_address db = Some token_map
        /\ In item (position_balances db)
        /\ PositionBalance.perpetual_address item = tm_perp_addr token_map
        /\ PositionBalance.holder item = holder)
    /\ exists balance, In (holder, balance) share_token_items /\ ~ (balance == 0)%Q.
Proof.
  intros b addr items total db esd tes holder Hb Hrun Hin.
  unfold _get_effective_share_info in Hrun.
  replace (_zhou_begin_block_number self <=? b) with false in Hrun
    by (symmetry; apply Z.leb_gt; exact Hb).
  match type of Hrun with
  | bind (for_each ?body ?s0 ?l) _ = _ =>
      destruct (for_each body s0 l) as [st|e] eqn:Hloop; cbn [bind] in Hrun; [|discriminate];
      pose proof (for_each_invariant
                    (fun st => forall h, In h (Dict.keys (el_effective_share_dict st)) ->
                       (exists pos, In (h, pos) l)
                       /\ exists balance, In (h, balance) items /\ ~ (balance == 0)%Q)
                    body l) as Hinv
  end.
  inversion Hrun; subst esd tes. clear Hrun.
  match type of Hinv with
  | ?P -> _ => assert (Hbody : P)
  end.
  { intros s [h pos] s' Hx Hs Hstep h' Hh'. unfold effective_share_step in Hstep.
    destruct (Dict.get h _) as [bal|] eqn:Hget;
      [|inversion Hstep; subst s'; apply Hs; exact Hh'].
    destruct (Decimal.eqb bal 0) eqn:Hnz; [inversion Hstep; subst s'; apply Hs; exact Hh'|].
    destruct (imbalance_rate_of _ _ _ _) as [rate|e]; cbn [bind] in Hstep; [|discriminate].
    destruct (holder_effective_share_of _ _ _ _ _) as [share|]; cbn [bound bind] in Hstep;
      [|discriminate].
    inversion Hstep; subst s'. cbn [el_effective_share_dict] in Hh'.
    destruct (dict_set_keys_in _ _ _ _ Hh') as [->|Hold]; [|apply Hs; exact Hold].
    split; [exists pos; exact Hx|]. exists bal. split.
    - apply dict_get_some_in in Hget.
      destruct (dict_of_rows_in fst snd _ _ _ _ Hget) as [[]|([k v] & Hrow & Hk & Hv)].
      cbn [fst snd] in Hk, Hv. subst k v. exact Hrow.
    - intros Hzero. unfold Decimal.eqb in Hnz. apply Qeq_bool_iff in Hzero. congruence. }
  assert (Hstart : forall h,
             In h (Dict.keys (el_effective_share_dict
                                {| el_effective_share_dict := [];
                                   el_total_effective_share_amount := 0%Q;
                                   el_holder_effective_share := None |})) ->
             (exists pos, In (h, pos)
                (fold_left (fun d item => Dict.set (PositionBalance.holder item)
                                            (PositionBalance.balance item) d)
                   match option_map tm_perp_addr (_get_token_map addr db) with
                   | Some a =>
                       filter (fun item => String.eqb (PositionBalance.perpetual_address item) a)
                         (position_balances db)
                   | None => []
                   end []))
             /\ exists balance, In (h, balance) items /\ ~ (balance == 0)%Q)
    by (intros h []).
  specialize (Hinv Hbody _ _ Hstart Hloop holder Hin).
  destruct Hinv as [[pos Hpos] Hshare]. split; [|exact Hshare].
  destruct (_get_token_map addr db) as [token_map|] eqn:Hmap; cbn [option_map] in Hpos;
    [|destruct Hpos].
  destruct (dict_of_rows_in PositionBalance.holder PositionBalance.balance _ _ _ _ Hpos)
    as [[]|(item & Hitem & Hk & _)].
  apply filter_In in Hitem. destruct Hitem as [Hitem Hperp]. apply String.eqb_eq in Hperp.
  exists token_map, item. repeat split; assumption.
Qed.

(** X20.  Before the begin block of ZHOU, in a pool whose AMM proxy has
    no position row in the perpetual, [_get_effective_share_info] raises
    ZeroDivisionError as soon as one holder of a position of the
    perpetual has a non-zero share balance: the position of the holder in
    the AMM is then the Wad zero, and the imbalance rate divides by it. *)
Theorem effective_share_raises_without_amm_position :
  forall block_number pool_share_token_address share_token_items total_share_token_amount
         db token_map item balance,
    block_number < _zhou_begin_block_number self ->
    _get_token_map pool_share_token_address db = Some token_map ->
    (forall p, In p (position_balances db) ->
       PositionBalance.perpetual_address p = tm_perp_addr token_map ->
       PositionBalance.holder p <> tm_amm_proxy_addr token_map) ->
    In item (position_balances db) ->
    PositionBalance.perpetual_address item = tm_perp_addr token_map ->
    NoDup (map fst share_token_items) ->
    In (PositionBalance.holder item, balance) share_token_items ->
    ~ (balance == 0)%Q ->
    _get_effective_share_info prec self block_number pool_share_token_address
      share_token_items total_share_token_amount db
    = Raise ZeroDivisionError.
Proof.
  intros b addr items total db token_map item balance Hb Hmap Hamm Hitem Hperp Hnd Hshare Hnz.
  unfold _get_effective_share_info.
  replace (_zhou_begin_block_number self <=? b) with false
    by (symmetry; apply Z.leb_gt; exact Hb).
  rewrite Hmap. cbn [option_map Dict.get_opt].
  set (positions := filter _ (position_balances db)).
  assert (Hnone : Dict.get (tm_amm_proxy_addr token_map)
                    (fold_left (fun d item => Dict.set (PositionBalance.holder item)
                                                (PositionBalance.balance item) d)
                       positions []) = None).
  { rewrite dict_of_rows_get_other; [reflexivity|].
    intros p Hp. subst positions. apply filter_In in Hp. destruct Hp as [Hp Hpperp].
    apply String.eqb_eq in Hpperp. apply Hamm; assumption. }
  rewrite Hnone.
  assert (Hin : In item positions).
  { subst positions. apply filter_In. split; [exact Hitem|].
    apply String.eqb_eq. exact Hperp. }
  destruct (dict_of_rows_has PositionBalance.holder PositionBalance.balance item positions []
              Hin) as [pos Hpos].
  assert (Hzero : forall bal tot margin,
             imbalance_rate_of 0 bal tot margin = Raise ZeroDivisionError).
  { intros bal tot margin. unfold imbalance_rate_of.
    replace (Wad.mul (Wad.from_decimal 0) (Wad.from_decimal bal)) with 0%Z
      by (unfold Wad.mul; reflexivity).
    unfold Wad.div at 1. destruct (Wad.from_decimal tot =? 0)%Z eqn:Etot; [reflexivity|].
    cbn [bind]. rewrite Z.mul_0_l, Z.quot_0_l by (apply Z.eqb_neq; exact Etot).
    unfold Wad.div. reflexivity. }
  rewrite (for_each_raises_only _ _ (PositionBalance.holder item, pos) ZeroDivisionError Hpos).
  - reflexivity.
  - intros s. unfold effective_share_step.
    pose proof (dict_of_rows_get fst snd (PositionBalance.holder item, balance) items []
                  Hnd Hshare) as Hget.
    cbn [fst snd] in Hget. rewrite Hget. replace (Decimal.eqb balance 0) with false.
    + rewrite Hzero. reflexivity.
    + symmetry. apply not_true_is_false. intros H. apply Hnz. apply Qeq_bool_iff. exact H.
  - intros s [h p] e' _ Hstep. unfold effective_share_step in Hstep.
    destruct (Dict.get h _) as [bal|]; [|discriminate].
    destruct (Decimal.eqb bal 0); [discriminate|].
    rewrite Hzero in Hstep. cbn [bind] in Hstep. inversion Hstep. reflexivity.
Qed.

End PositionHolders.

(** The round XIA on the store with the ETH perpetual, before the begin
    block of ZHOU: alice has the only effective share; bob, who holds as
    many shares, has none. *)
Lemma effective_share_needs_a_position_witness :
  exists effective_share_dict total_effective_share_amount,
    ShareMining._get_effective_share_info Example.prec (Example.engine "XIA") 10100000
      "0xeth" (ShareMining._get_share_token_items "0xeth" perpetual_db) 2 perpetual_db
    = Ok (effective_share_dict, total_effective_share_amount)
    /\ Dict.keys effective_share_dict = ["alice"%string]
    /\ exists item,
         In item (position_balances perpetual_db)
         /\ PositionBalance.holder item = "alice"%string.
Proof.
  destruct (ShareMining._get_effective_share_info Example.prec (Example.engine "XIA") 10100000
              "0xeth" (ShareMining._get_share_token_items "0xeth" perpetual_db) 2
              perpetual_db) as [[esd tes]|e] eqn:Hrun;
    [|vm_compute in Hrun; discriminate].
  exists esd, tes. split; [reflexivity|].
  assert (Hkeys : Dict.keys esd = ["alice"%string]).
  { pose proof Hrun as Hrun'. vm_compute in Hrun'. injection Hrun' as <- _. reflexivity. }
  split; [exact Hkeys|].
  assert (Hin : In "alice"%string (Dict.keys esd)) by (rewrite Hkeys; left; reflexivity).
  assert (Hb : 10100000 < ShareMining._zhou_begin_block_number (Example.engine "XIA"))
    by (cbn; lia).
  destruct (effective_share_needs_a_position Example.prec (Example.engine "XIA") 10100000
              "0xeth" (ShareMining._get_share_token_items "0xeth" perpetual_db) 2
              perpetual_db esd tes "alice" Hb Hrun Hin)
    as [(token_map & item & _ & Hitem & _ & Hholder) _].
  exists item. split; [exact Hitem|exact Hholder].
Defined.

(** The same round on the store where the proxy of the AMM has no
    position yet. *)
Lemma effective_share_raises_without_amm_position_witness :
  ShareMining._get_effective_share_info Example.prec (Example.engine "XIA") 10100000
    "0xeth" (ShareMining._get_share_token_items "0xeth" perpetual_db_without_amm) 2
    perpetual_db_without_amm
  = Raise ZeroDivisionError.
Proof.
  apply (effective_share_raises_without_amm_position Example.prec (Example.engine "XIA")
           10100000 "0xeth"
           (ShareMining._get_share_token_items "0xeth" perpetual_db_without_amm) 2
           perpetual_db_without_amm
           {| ShareMining.tm_perp_addr := "0xperp";
              ShareMining.tm_amm_addr := "0xamm";
              ShareMining.tm_amm_proxy_addr := "0xproxy" |}
           {| PositionBalance.perpetual_address := "0xperp";
              PositionBalance.holder := "alice";
              PositionBalance.balance := 50 # 1 |}
           1%Q).
  - cbn. lia.
  - vm_compute. reflexivity.
  - intros p Hp _. cbn in Hp. destruct Hp as [<-|[<-|[]]]; discriminate.
  - left. reflexivity.
  - reflexivity.
  - cbn. repeat (constructor;
                 [cbn; intros H; repeat (destruct H as [H|H]; [discriminate H|]); exact H|]).
    constructor.
  - left. reflexivity.
  - intros H. vm_compute in H. discriminate.
Defined.

(* ================================================================== *)
(** * The price feed of the round QIN *)
(* ================================================================== *)

Section QinPriceFeed.

Import ShareMining.

Variable prec : Z.
Variable config : Config.

Lemma dict_set_in_other {V : Type} (k k' : string) (v v' : V) (d : Dict.t V) :
  In (k, v) d -> k <> k' -> In (k, v) (Dict.set k' v' d).
Proof.
  intros Hin Hk. induction d as [|[k0 v0] d IH]; [destruct Hin|].
  cbn [Dict.set]. destruct (String.eqb k' k0) eqn:E.
  - apply String.eqb_eq in E. subst k0. destruct Hin as [Hin|Hin].
    + inversion Hin. subst k. exfalso. apply Hk. reflexivity.
    + right. exact Hin.
  - destruct Hin as [Hin|Hin]; [left; exact Hin|right; apply IH; exact Hin].
Qed.

(** [_update_uniswap_pool_proportion] leaves the AMM pools as they are. *)
Lemma update_uniswap_pool_proportion_amm :
  forall self pool_info db pool_info' pool_name info,
    NoDup (Dict.keys pool_info) ->
    In (pool_name, info) pool_info ->
    pi_pool_type info = AMM ->
    _update_uniswap_pool_proportion prec self pool_info db = Ok pool_info' ->
    In (pool_name, info) pool_info'.
Proof.
  intros self pool_info db pool_info' pool_name info Hnd Hin Hamm.
  unfold _update_uniswap_pool_proportion.
  destruct (_get_holder_mcb_balance prec self db) as [mcb|e]; cbn [bind]; [|discriminate].
  apply (for_each_invariant (fun d : Dict.t PoolInfo => In (pool_name, info) d));
    [|exact Hin].
  intros d [name' info'] d' Hin' Hd.
  destruct (pool_type_eqb (pi_pool_type info') UNISWAP) eqn:Htype; cbn [andb];
    [|intros H; inversion H; subst; exact Hd].
  destruct (negb _); [|intros H; inversion H; subst; exact Hd].
  destruct (Decimal.div prec _ _) as [p|e]; cbn [bind]; [|discriminate].
  intros H. inversion H; subst. apply dict_set_in_other; [exact Hd|].
  intros Heq. subst name'.
  pose proof (dict_get_in _ _ _ Hnd Hin) as H1.
  pose proof (dict_get_in _ _ _ Hnd Hin') as H2.
  rewrite H1 in H2. inversion H2. subst info'. rewrite Hamm in Htype. discriminate.
Qed.

Lemma chain_link_price_raises : forall block_number db,
  (forall event, In event (chain_link_price_events db) ->
     ChainLinkPriceEvent.chain_link_address event = Str.lower (CHAINLINK_BTC_USD_ADDRESS config) ->
     block_number < ChainLinkPriceEvent.block_number event) ->
  _get_chain_link_price config block_number "BTC_PERP" db
  = Raise (Exception "link price still not sync!").
Proof.
  intros b db Hfeed. unfold _get_chain_link_price. cbn [String.eqb Ascii.eqb Bool.eqb bound bind].
  rewrite filter_none; [reflexivity|].
  intros event Hevent. apply andb_false_iff.
  destruct (String.eqb (ChainLinkPriceEvent.chain_link_address event)
              (Str.lower (CHAINLINK_BTC_USD_ADDRESS config))) eqn:E; [|left; reflexivity].
  right. apply String.eqb_eq in E. apply Z.leb_gt. apply Hfeed; assumption.
Qed.

(** X21.  From the block where the BTC pool joins the round QIN, [sync]
    needs a price of the BTC/USD feed: the BTC pool is the one pool whose
    contract is not inverse, and when the feed has no event at or below
    the block, [sync] of the round QIN raises (the exception
    'link price still not sync!' of [_get_chain_link_price], unless an
    earlier step raises). *)
Theorem qin_sync_raises_without_btc_price :
  forall self watcher_id block_number block_hash db,
    _mining_round self = "QIN"%string ->
    _begin_block self <= block_number <= _end_block self ->
    _xia_rebalance_hard_fork_block_number self <= block_number ->
    QIN_REWARD_BTC_POOL_BLOCK_NUMBER config <= block_number ->
    (forall event, In event (chain_link_price_events db) ->
       ChainLinkPriceEvent.chain_link_address event
       = Str.lower (CHAINLINK_BTC_USD_ADDRESS config) ->
       block_number < ChainLinkPriceEvent.block_number event) ->
    exists e, sync prec config self watcher_id block_number block_hash db = Raise e.
Proof.
  intros self w b h db Hround Hwin Hxia Hbtc Hfeed.
  rewrite (sync_qin prec config self w b h db Hround Hwin).
  set (info := amm_pool (BTC_PERP_SHARE_TOKEN_ADDRESS config) false
                 (Some (Num.truediv (Num.lit (2 # 10)) (Num.Int 5)))).
  assert (Hin : In ("BTC_PERP"%string, info) (qin_amm_pool_info config b)).
  { unfold qin_amm_pool_info.
    replace (QIN_REWARD_BTC_POOL_BLOCK_NUMBER config <=? b) with true
      by (symmetry; apply Z.leb_le; exact Hbtc).
    cbv zeta. apply in_or_app. right. left. reflexivity. }
  assert (Hpass : exists e,
             _get_pool_value_info prec config self b (qin_amm_pool_info config b)
               (Num.lit (5 # 10)) db = Raise e).
  { unfold _get_pool_value_info. cbv zeta.
    destruct (_update_uniswap_pool_proportion prec _ (qin_amm_pool_info config b) db)
      as [pool_info'|e] eqn:Hupd; cbn [bind]; [|exists e; reflexivity].
    apply (update_uniswap_pool_proportion_amm _ _ _ _ "BTC_PERP"%string info
             (qin_amm_pool_info_keys config b) Hin eq_refl) in Hupd.
    match goal with
    | |- exists e, bind (for_each ?body ?s0 ?l) _ = _ =>
        destruct (for_each_raises body l _ Hupd) with (s := s0) as [e He]
    end.
    - intros s. unfold pool_value_step. subst info.
      cbn [amm_pool pi_pool_type pool_type_eqb pool_contract_inverse pool_share_token_address
           andb].
      replace (_xia_rebalance_hard_fork_block_number _ <=? b) with true
        by (symmetry; apply Z.leb_le; exact Hxia).
      destruct (_get_effective_share_info _ _ _ _ _ _ _) as [[esd tes]|e]; cbn [bind];
        [|exists e; reflexivity].
      unfold _get_pool_usd_value. rewrite (chain_link_price_raises b db Hfeed).
      cbn [bind]. eexists. reflexivity.
    - rewrite He. exists e. reflexivity. }
  destruct Hpass as [e He]. exists e. unfold _calculate_pools_reward. rewrite He. reflexivity.
Qed.

End QinPriceFeed.

(** The round QIN on the example store, which has no event of the feed. *)
Lemma qin_sync_raises_without_btc_price_witness :
  exists e,
    ShareMining.sync Example.prec Example.config (Example.engine "QIN") 0 12000000 "0xb10c"
      Example.uniswap_db = Raise e.
Proof.
  apply (qin_sync_raises_without_btc_price Example.prec Example.config
           (Example.engine "QIN") 0 12000000 "0xb10c" Example.uniswap_db).
  - reflexivity.
  - cbn. lia.
  - cbn. lia.
  - cbn. lia.
  - intros event [].
Defined.
